(** * A shallow embedding of the dtn7 bundle-protocol core (ns-3 module)

    The development follows the C++ sources file by file: the CBOR codec
    ([Cbor]), the CRC primitives ([Crc]), endpoint identifiers, DTN time,
    bundle identifiers, primary and canonical blocks, bundles, the in-memory
    bundle store, the fragmentation manager and the routing engines.

    Conventions.
    - Unsigned machine integers are [Z] values; every operation that can
      leave the range of its C++ type is wrapped explicitly.
    - [std::vector<uint8_t>] is [list Z] (bytes in 0..255), [std::string]
      is [string].
    - [Ptr<CanonicalBlock>] and [Ptr<Bundle>] are addresses in two heaps of
      objects, so that what the code shares stays shared.  A pointer the
      code tests against null is an [option].
    - A function that can hit an ns-3 assertion or undefined behaviour
      returns [option]; [None] is the aborted run.  [std::optional] results
      are a second, inner [option].
    - The program runs on the one thread of the simulator.  A [std::mutex]
      that a call locks and releases again, and never locks while the thread
      owns it, has no effect and is left out.  [m_bundlesMutex] of the
      routing engines is not of that kind and is modelled: locking a
      [std::mutex] the thread already owns is undefined behaviour, hence an
      aborted run. *)

From Stdlib Require Import ZArith List Bool String Ascii Lia Sorted Permutation.
From stdpp Require Import gmap strings list.

#[local] Open Scope Z_scope.

(** ** Machine integers *)

Definition wrap (w : Z) (x : Z) : Z := x mod 2 ^ w.

Definition u8 (x : Z) : Z := wrap 8 x.
Definition u16 (x : Z) : Z := wrap 16 x.
Definition u32 (x : Z) : Z := wrap 32 x.
Definition u64 (x : Z) : Z := wrap 64 x.

(** [static_cast<int64_t>] of a 64-bit pattern (two's complement). *)
Definition to_int64 (x : Z) : Z := (x + 2 ^ 63) mod 2 ^ 64 - 2 ^ 63.

(** The [n] low-order bytes of [v], most significant first
    ([WriteHtonU16], [WriteHtonU32], [WriteHtonU64]). *)
Fixpoint be_bytes (n : nat) (v : Z) : list Z :=
  match n with
  | O => []
  | S k => Z.land (Z.shiftr v (8 * Z.of_nat k)) 255 :: be_bytes k v
  end.

(** Big-endian value of a byte list ([ReadNtohU16] and the like). *)
Definition be_value (bs : list Z) : Z :=
  fold_left (fun acc b => acc * 256 + b) bs 0.

Definition bytes_of_string (s : string) : list Z :=
  map (fun c => Z.of_nat (nat_of_ascii c)) (list_ascii_of_string s).

(** A small error monad for runs that can abort. *)
Notation "x <- e1 ;; e2" :=
  (match e1 with Some x => e2 | None => None end)
  (at level 100, e1 at next level, right associativity, only parsing).

(** ** ns3::Buffer

    Only what the codec uses: a byte region that grows at its start and
    iterators that read and write it.  [AddAtStart] does not initialise the
    bytes it adds; [uninit i] is the byte the allocator left at offset [i]
    of the added region.  It is a parameter of everything that encodes, and
    the general statements below hold whatever it is. *)

Module Buffer.

Definition t := list Z.

Definition GetSize (b : t) : Z := Z.of_nat (length b).

Definition AddAtStart (uninit : nat -> Z) (start : nat) (b : t) : t :=
  map uninit (seq 0 start) ++ b.

(** [Iterator::Write] of [data] at offset [pos]; ns-3 asserts that the
    write stays inside the buffer. *)
Definition Write (pos : nat) (data : list Z) (b : t) : option t :=
  if decide (pos + length data <= length b)%nat
  then Some (take pos b ++ data ++ drop (pos + length data) b)
  else None.

(** [Iterator::Read] of [n] bytes at offset [pos]. *)
Definition Read (pos n : nat) (b : t) : list Z := take n (drop pos b).

Definition ReadU8 (pos : nat) (b : t) : Z := nth pos b 0.

(** [CopyData] into a vector of [GetSize ()] bytes. *)
Definition CopyData (b : t) : list Z := b.

End Buffer.

(** ** cbor.cc *)

Module Cbor.

#[warnings="-register-all"]
Inductive CborValue : Type :=
| CborUnsigned (v : Z)
| CborNegative (v : Z)
| CborByteString (v : list Z)
| CborTextString (v : string)
| CborArray (v : list CborValue)
| CborMap (v : list (CborValue * CborValue))
| CborTag (tag : Z) (v : CborValue)
| CborSimple (v : Z)
| CborInvalid.

(** [CborValue(int64_t)]: a non-negative value is stored as unsigned. *)
Definition of_int64 (value : Z) : CborValue :=
  if 0 <=? value then CborUnsigned (u64 value) else CborNegative value.

Definition IsUnsignedInteger (c : CborValue) : bool :=
  match c with CborUnsigned _ => true | _ => false end.

Definition IsByteString (c : CborValue) : bool :=
  match c with CborByteString _ => true | _ => false end.

Definition IsTextString (c : CborValue) : bool :=
  match c with CborTextString _ => true | _ => false end.

Definition IsArray (c : CborValue) : bool :=
  match c with CborArray _ => true | _ => false end.

Definition GetUnsignedInteger (c : CborValue) : Z :=
  match c with CborUnsigned v => v | _ => 0 end.

Definition GetByteString (c : CborValue) : list Z :=
  match c with CborByteString v => v | _ => [] end.

Definition GetTextString (c : CborValue) : string :=
  match c with CborTextString v => v | _ => EmptyString end.

Definition GetArray (c : CborValue) : list CborValue :=
  match c with CborArray v => v | _ => [] end.

(** [array[i]] for an index the caller has checked. *)
Definition at_ (a : list CborValue) (i : nat) : CborValue := nth i a CborInvalid.

Definition EncodeHeader (majorType additionalInfo : Z) : Z :=
  u8 (Z.lor (Z.shiftl majorType 5) (Z.land additionalInfo 31)).

Definition DecodeHeader (header : Z) : Z * Z :=
  (Z.land (Z.shiftr header 5) 7, Z.land header 31).

(** [EncodeUnsigned]: header and argument are written through a fresh
    iterator, that is at offset 0 of [buffer]. *)
Definition EncodeUnsigned (buffer : Buffer.t) (majorType value : Z) : option Buffer.t :=
  if value <=? 23 then
    Buffer.Write 0 [EncodeHeader majorType (u8 value)] buffer
  else if value <=? 255 then
    Buffer.Write 0 (EncodeHeader majorType 24 :: be_bytes 1 value) buffer
  else if value <=? 65535 then
    Buffer.Write 0 (EncodeHeader majorType 25 :: be_bytes 2 value) buffer
  else if value <=? 4294967295 then
    Buffer.Write 0 (EncodeHeader majorType 26 :: be_bytes 4 value) buffer
  else
    Buffer.Write 0 (EncodeHeader majorType 27 :: be_bytes 8 value) buffer.

(** [DecodeUnsigned]: the value and the number of bytes read. *)
Definition DecodeUnsigned (buffer : Buffer.t) (majorType : Z) : option (Z * nat) :=
  if Buffer.GetSize buffer <? 1 then None else
  let header := Buffer.ReadU8 0 buffer in
  let '(readMajorType, additionalInfo) := DecodeHeader header in
  if negb (readMajorType =? majorType) then None
  else if additionalInfo <=? 23 then Some (additionalInfo, 1%nat)
  else if additionalInfo =? 24 then
    if Buffer.GetSize buffer <? 2 then None
    else Some (be_value (Buffer.Read 1 1 buffer), 2%nat)
  else if additionalInfo =? 25 then
    if Buffer.GetSize buffer <? 3 then None
    else Some (be_value (Buffer.Read 1 2 buffer), 3%nat)
  else if additionalInfo =? 26 then
    if Buffer.GetSize buffer <? 5 then None
    else Some (be_value (Buffer.Read 1 4 buffer), 5%nat)
  else if additionalInfo =? 27 then
    if Buffer.GetSize buffer <? 9 then None
    else Some (be_value (Buffer.Read 1 8 buffer), 9%nat)
  else None.

(** [Decode]: only the two integer major types are handled; every other
    header falls out of the switch. *)
Definition Decode (buffer : Buffer.t) : option CborValue :=
  if Buffer.GetSize buffer =? 0 then None else
  let header := Buffer.ReadU8 0 buffer in
  let '(majorType, additionalInfo) := DecodeHeader header in
  if majorType =? 0 then
    match DecodeUnsigned buffer majorType with
    | Some (v, _) => Some (CborUnsigned v)
    | None => None
    end
  else if majorType =? 1 then
    match DecodeUnsigned buffer majorType with
    | Some (v, _) => Some (of_int64 (to_int64 (-1 - to_int64 v)))
    | None => None
    end
  else None.

Section Encode.

Variable uninit : nat -> Z.

(** [Encode]: a buffer of 1024 bytes written from offset 0.  [it] is the
    iterator taken before [EncodeUnsigned] runs, so string bytes go to
    offset 0 as well.  The items of arrays, maps and tags are encoded into
    buffers of their own that are then dropped; such a nested run can still
    abort. *)
Fixpoint Encode (value : CborValue) : option Buffer.t :=
  let buffer := Buffer.AddAtStart uninit 1024 [] in
  match value with
  | CborUnsigned val => EncodeUnsigned buffer 0 val
  | CborNegative val => EncodeUnsigned buffer 1 (u64 (-1 - val))
  | CborByteString bytes =>
      buffer <- EncodeUnsigned buffer 2 (Z.of_nat (length bytes)) ;;
      Buffer.Write 0 bytes buffer
  | CborTextString text =>
      buffer <- EncodeUnsigned buffer 3 (Z.of_nat (String.length text)) ;;
      Buffer.Write 0 (bytes_of_string text) buffer
  | CborArray array =>
      buffer <- EncodeUnsigned buffer 4 (Z.of_nat (length array)) ;;
      _ <- (fix items (l : list CborValue) : option unit :=
              match l with
              | [] => Some tt
              | item :: l' => _ <- Encode item ;; items l'
              end) array ;;
      Some buffer
  | CborMap map =>
      buffer <- EncodeUnsigned buffer 5 (Z.of_nat (length map)) ;;
      _ <- (fix pairs (l : list (CborValue * CborValue)) : option unit :=
              match l with
              | [] => Some tt
              | (k, v) :: l' => _ <- Encode k ;; _ <- Encode v ;; pairs l'
              end) map ;;
      Some buffer
  | CborTag tag v =>
      buffer <- EncodeUnsigned buffer 6 tag ;;
      _ <- Encode v ;;
      Some buffer
  | CborSimple val =>
      if val <=? 23 then Buffer.Write 0 [EncodeHeader 7 val] buffer
      else Buffer.Write 0 [EncodeHeader 7 24; val] buffer
  | CborInvalid => Some buffer
  end.

End Encode.

End Cbor.

(** ** block-type-codes.h

    [BlockType] and [CRCType] are [enum class ... : uint64_t]: a decoded
    block can carry any 64-bit value, so both are the underlying integer. *)

Module BlockType.
Definition PAYLOAD_BLOCK : Z := 1.
Definition PREVIOUS_NODE_BLOCK : Z := 6.
Definition BUNDLE_AGE_BLOCK : Z := 7.
Definition HOP_COUNT_BLOCK : Z := 10.
End BlockType.

Module CRCType.
Definition NO_CRC : Z := 0.
Definition CRC_16 : Z := 1.
Definition CRC_32 : Z := 2.
End CRCType.

(** ** crc.cc *)

Module Crc.

(** One turn of the inner loop of [CalculateCRC16]. *)
Definition crc16_bit (polynomial crc : Z) : Z :=
  if negb (Z.land crc 0x8000 =? 0)
  then u16 (Z.lxor (Z.shiftl crc 1) polynomial)
  else u16 (Z.shiftl crc 1).

Definition CalculateCRC16 (data : list Z) : Z :=
  let polynomial := 0x1021 in
  fold_left
    (fun crc byte => Nat.iter 8 (crc16_bit polynomial) (Z.lxor crc (u16 (Z.shiftl byte 8))))
    data 0xFFFF.

(** One turn of the inner loop of [CalculateCRC32]. *)
Definition crc32_bit (polynomial crc : Z) : Z :=
  if negb (Z.land crc 1 =? 0)
  then Z.lxor (Z.shiftr crc 1) polynomial
  else Z.shiftr crc 1.

Definition CalculateCRC32 (data : list Z) : Z :=
  let polynomial := 0x1EDC6F41 in
  let crc :=
    fold_left
      (fun crc byte => Nat.iter 8 (crc32_bit polynomial) (Z.lxor crc byte))
      data 0xFFFFFFFF in
  Z.lxor crc 0xFFFFFFFF.

Definition CalculateCRC (type : Z) (data : list Z) : list Z :=
  if type =? CRCType.CRC_16 then
    let crc16 := CalculateCRC16 data in
    [Z.land (Z.shiftr crc16 8) 255; Z.land crc16 255]
  else if type =? CRCType.CRC_32 then
    let crc32 := CalculateCRC32 data in
    [Z.land (Z.shiftr crc32 24) 255; Z.land (Z.shiftr crc32 16) 255;
     Z.land (Z.shiftr crc32 8) 255; Z.land crc32 255]
  else [].

(** The comparison loop of [VerifyCRC], entered with two vectors of the
    same size. *)
Fixpoint crc_equal (calculatedCrc crc : list Z) : bool :=
  match calculatedCrc, crc with
  | c :: calculatedCrc', d :: crc' =>
      if negb (c =? d) then false else crc_equal calculatedCrc' crc'
  | _, _ => true
  end.

Definition VerifyCRC (type : Z) (data crc : list Z) : bool :=
  if type =? CRCType.NO_CRC then true
  else
    let calculatedCrc := CalculateCRC type data in
    if negb (Nat.eqb (length calculatedCrc) (length crc)) then false
    else crc_equal calculatedCrc crc.

End Crc.

(** ** CRC-32/Castagnoli as the specification words it

    The parameters of the checksum, read in the usual parametrised model:
    width 32, polynomial 0x1EDC6F41, initial value 0xFFFFFFFF, input and
    output reflected, final XOR 0xFFFFFFFF.  The register is shifted towards
    its high end; a reflected input byte enters at the top, and the register
    is reflected before the final XOR. *)

Module Crc32Castagnoli.

Definition polynomial : Z := 0x1EDC6F41.
Definition initial : Z := 0xFFFFFFFF.
Definition final_xor : Z := 0xFFFFFFFF.

(** The low [w] bits of [x] in reverse order. *)
Fixpoint reflect (w : nat) (x : Z) : Z :=
  match w with
  | O => 0
  | S w' => Z.lor (Z.shiftl (Z.land x 1) (Z.of_nat w')) (reflect w' (Z.shiftr x 1))
  end.

Definition shift_bit (crc : Z) : Z :=
  if Z.testbit crc 31
  then Z.lxor (u32 (Z.shiftl crc 1)) polynomial
  else u32 (Z.shiftl crc 1).

Definition update (crc byte : Z) : Z :=
  Nat.iter 8 shift_bit (Z.lxor crc (Z.shiftl (reflect 8 byte) 24)).

Definition checksum (data : list Z) : Z :=
  Z.lxor (reflect 32 (fold_left update data initial)) final_xor.

End Crc32Castagnoli.

(** ** endpoint.cc *)

Module EndpointID.

Record t : Type := mk {
  m_scheme : string;
  m_ssp : string;
  m_uri : string
}.

Definition none : t := mk "dtn" "none" "dtn:none".

Definition slash : ascii := "/"%char.
Definition colon : ascii := ":"%char.
Definition dot : ascii := "."%char.

Definition is_slash (c : ascii) : bool := Ascii.eqb c slash.

(** What the dot of an ECMAScript regex accepts: anything but LF and CR. *)
Definition regex_any (c : ascii) : bool :=
  negb (Ascii.eqb c "010"%char || Ascii.eqb c "013"%char).

(** The digit class of the regex. *)
Definition regex_digit (c : ascii) : bool :=
  (48 <=? nat_of_ascii c)%nat && (nat_of_ascii c <=? 57)%nat.

Fixpoint take_while (p : ascii -> bool) (l : list ascii) : list ascii :=
  match l with
  | c :: l' => if p c then c :: take_while p l' else []
  | [] => []
  end.

Fixpoint drop_while (p : ascii -> bool) (l : list ascii) : list ascii :=
  match l with
  | c :: l' => if p c then drop_while p l' else l
  | [] => []
  end.

(** [eid.find(':')] *)
Fixpoint find_colon (l : list ascii) : option nat :=
  match l with
  | [] => None
  | c :: l' => if Ascii.eqb c colon then Some O else option_map S (find_colon l')
  end.

(** [std::regex_match] against the dtn pattern: the text dtn and a colon,
    an optional double slash, one or more characters other than a slash,
    then optionally a slash followed by any characters the dot accepts. *)
Definition ParseDtn (uri : string) : bool :=
  match list_ascii_of_string uri with
  | "d"%char :: "t"%char :: "n"%char :: ":"%char :: r =>
      let r' := match r with
                | "/"%char :: "/"%char :: r'' => r''
                | _ => r
                end in
      let host := take_while (fun c => negb (is_slash c)) r' in
      let rest := drop_while (fun c => negb (is_slash c)) r' in
      negb (Nat.eqb (length host) 0) &&
      match rest with
      | [] => true
      | _ :: service => forallb regex_any service
      end
  | _ => false
  end.

(** [std::regex_match] against the ipn pattern: the text ipn and a colon,
    one or more digits, a dot, one or more digits. *)
Definition ParseIpn (uri : string) : bool :=
  match list_ascii_of_string uri with
  | "i"%char :: "p"%char :: "n"%char :: ":"%char :: r =>
      let node := take_while regex_digit r in
      let rest := drop_while regex_digit r in
      negb (Nat.eqb (length node) 0) &&
      match rest with
      | c :: service =>
          Ascii.eqb c dot && negb (Nat.eqb (length service) 0) && forallb regex_digit service
      | [] => false
      end
  | _ => false
  end.

(** [EndpointID(const std::string&)] *)
Definition of_string (eid : string) : t :=
  if String.eqb eid "" then none else
  match find_colon (list_ascii_of_string eid) with
  | None => none
  | Some schemeEnd =>
      let scheme := substring 0 schemeEnd eid in
      let ssp := substring (S schemeEnd) (String.length eid - S schemeEnd) eid in
      if String.eqb scheme "dtn" then
        if ParseDtn eid then mk scheme ssp eid else none
      else if String.eqb scheme "ipn" then
        if ParseIpn eid then mk scheme ssp eid else none
      else none
  end.

(** [operator==] compares the URI only. *)
Definition eqb (a b : t) : bool := String.eqb (m_uri a) (m_uri b).

Definition ToString (e : t) : string := m_uri e.

Definition ToCbor (uninit : nat -> Z) (e : t) : option Buffer.t :=
  Cbor.Encode uninit
    (Cbor.CborArray [Cbor.CborTextString (m_scheme e); Cbor.CborTextString (m_ssp e)]).

(** [operator<] is that of [std::string] on the URI: lexicographic, by
    character code. *)
Definition ltb (a b : t) : bool := String.ltb (m_uri a) (m_uri b).

(** [IsValid] runs the patterns of [ParseDtn] and [ParseIpn]. *)
Definition IsValid (eid : string) : bool :=
  if String.eqb eid "" then false else
  match find_colon (list_ascii_of_string eid) with
  | None => false
  | Some schemeEnd =>
      let scheme := substring 0 schemeEnd eid in
      if String.eqb scheme "dtn" then ParseDtn eid
      else if String.eqb scheme "ipn" then ParseIpn eid
      else false
  end.

(** [Parse]; [None] is [std::nullopt]. *)
Definition Parse (eid : string) : option t :=
  if IsValid eid then Some (of_string eid) else None.

Definition IsNone (e : t) : bool :=
  String.eqb (m_scheme e) "dtn" && String.eqb (m_ssp e) "none".

Definition IsDtn (e : t) : bool := String.eqb (m_scheme e) "dtn".

Definition IsIpn (e : t) : bool := String.eqb (m_scheme e) "ipn".

(** [FromCbor]; [None] is [std::nullopt]. *)
Definition FromCbor (buffer : Buffer.t) : option t :=
  match Cbor.Decode buffer with
  | None => None
  | Some cbor =>
      if negb (Cbor.IsArray cbor) then None else
      let array := Cbor.GetArray cbor in
      if negb (Nat.eqb (length array) 2) ||
         negb (Cbor.IsTextString (Cbor.at_ array 0)) ||
         negb (Cbor.IsTextString (Cbor.at_ array 1)) then None
      else
        let scheme := Cbor.GetTextString (Cbor.at_ array 0) in
        let ssp := Cbor.GetTextString (Cbor.at_ array 1) in
        let uri := (scheme ++ ":" ++ ssp)%string in
        Some (of_string uri)
  end.

End EndpointID.

(** [using NodeID = EndpointID] *)
Abbreviation NodeID := EndpointID.t.

(** ** ns3::Time and dtn-time.cc

    [ns3Time] counts nanoseconds (the default resolution of ns-3). *)

Definition ns3Time : Type := Z.

Module DtnTime.

Record t : Type := mk {
  m_dtnTimeSeconds : Z;
  m_dtnTimeNanoseconds : Z
}.

Definition GetSeconds (d : t) : Z := m_dtnTimeSeconds d.
Definition GetNanoseconds (d : t) : Z := m_dtnTimeNanoseconds d.

(** [Seconds (s) + NanoSeconds (ns)] *)
Definition ToTime (d : t) : ns3Time :=
  m_dtnTimeSeconds d * 1000000000 + m_dtnTimeNanoseconds d.

Definition eqb (a b : t) : bool :=
  (m_dtnTimeSeconds a =? m_dtnTimeSeconds b) &&
  (m_dtnTimeNanoseconds a =? m_dtnTimeNanoseconds b).

Definition ltb (a b : t) : bool :=
  if m_dtnTimeSeconds a <? m_dtnTimeSeconds b then true
  else if m_dtnTimeSeconds a =? m_dtnTimeSeconds b
       then m_dtnTimeNanoseconds a <? m_dtnTimeNanoseconds b
       else false.

Definition leb (a b : t) : bool := ltb a b || eqb a b.

Definition gtb (a b : t) : bool := negb (leb a b).

Definition geb (a b : t) : bool := negb (ltb a b).

End DtnTime.

(** ** bundle-id.cc *)

Module BundleID.

Record t : Type := mk {
  m_source : EndpointID.t;
  m_timestamp : DtnTime.t;
  m_sequenceNumber : Z;
  m_isFragment : bool;
  m_fragmentOffset : Z
}.

(** [operator==]: the fragment offset counts only between two fragments. *)
Definition eqb (a b : t) : bool :=
  if negb (Bool.eqb (m_isFragment a) (m_isFragment b)) then false
  else if negb (EndpointID.eqb (m_source a) (m_source b)) then false
  else if negb (DtnTime.eqb (m_timestamp a) (m_timestamp b)) then false
  else if negb (m_sequenceNumber a =? m_sequenceNumber b) then false
  else if m_isFragment a && m_isFragment b &&
          negb (m_fragmentOffset a =? m_fragmentOffset b) then false
  else true.

(** The class of an identifier under [operator==]: what a
    [std::unordered_map<BundleID, _>] distinguishes its keys by. *)
Definition key : Type := string * (Z * Z) * Z * bool * Z.

Definition to_key (a : t) : key :=
  (EndpointID.m_uri (m_source a),
   (DtnTime.m_dtnTimeSeconds (m_timestamp a), DtnTime.m_dtnTimeNanoseconds (m_timestamp a)),
   m_sequenceNumber a,
   m_isFragment a,
   if m_isFragment a then m_fragmentOffset a else 0).

(** [operator<] *)
Definition ltb (a b : t) : bool :=
  if negb (EndpointID.eqb (m_source a) (m_source b)) then
    EndpointID.ltb (m_source a) (m_source b)
  else if negb (DtnTime.eqb (m_timestamp a) (m_timestamp b)) then
    DtnTime.ltb (m_timestamp a) (m_timestamp b)
  else if negb (m_sequenceNumber a =? m_sequenceNumber b) then
    m_sequenceNumber a <? m_sequenceNumber b
  else if negb (Bool.eqb (m_isFragment a) (m_isFragment b)) then
    negb (m_isFragment a) && m_isFragment b
  else if m_isFragment a && m_isFragment b then
    m_fragmentOffset a <? m_fragmentOffset b
  else false.

Section Hash.

(** [std::hash<std::string>] and [std::hash<uint64_t>] are left to the
    standard library in use; their results are [size_t] values, 64 bits
    wide. *)
Variable hash_string : string -> Z.
Variable hash_uint64 : Z -> Z.

Definition Hash (a : t) : Z :=
  let hash := 0 in
  let sourceStr := EndpointID.ToString (m_source a) in
  let hash := Z.lxor hash (hash_string sourceStr) in
  let hash := Z.lxor hash (u64 (Z.shiftl (hash_uint64 (DtnTime.GetSeconds (m_timestamp a))) 1)) in
  let hash := Z.lxor hash (u64 (Z.shiftl (hash_uint64 (m_sequenceNumber a)) 1)) in
  if m_isFragment a
  then Z.lxor hash (u64 (Z.shiftl (hash_uint64 (m_fragmentOffset a)) 1))
  else hash.

End Hash.

End BundleID.

(** ** primary-block.cc *)

Module BundleControlFlags.
Definition NO_FLAGS : Z := 0.
Definition BUNDLE_DELETION_STATUS_REPORTS_REQUESTED : Z := 1.
Definition BUNDLE_DELIVERY_STATUS_REPORTS_REQUESTED : Z := 2.
Definition BUNDLE_FORWARDING_STATUS_REPORTS_REQUESTED : Z := 4.
Definition BUNDLE_RECEPTION_STATUS_REPORTS_REQUESTED : Z := 8.
Definition BUNDLE_MUST_NOT_BE_FRAGMENTED : Z := 16.
Definition PAYLOAD_IS_AN_ADMINISTRATIVE_RECORD : Z := 32.
Definition BUNDLE_IS_A_FRAGMENT : Z := 64.
End BundleControlFlags.

Module PrimaryBlock.

Record t : Type := mk {
  m_version : Z;
  m_bundleControlFlags : Z;
  m_crcType : Z;
  m_destinationEID : EndpointID.t;
  m_sourceNodeEID : EndpointID.t;
  m_reportToEID : EndpointID.t;
  m_creationTimestamp : DtnTime.t;
  m_sequenceNumber : Z;
  m_lifetime : ns3Time;
  m_fragmentOffset : Z;
  m_totalApplicationDataUnitLength : Z;
  m_crcValue : list Z
}.

Definition DEFAULT_VERSION : Z := 7.

Definition GetDestinationEID := m_destinationEID.
Definition GetSourceNodeEID := m_sourceNodeEID.
Definition GetCreationTimestamp := m_creationTimestamp.
Definition GetSequenceNumber := m_sequenceNumber.
Definition GetLifetime := m_lifetime.
Definition GetFragmentOffset := m_fragmentOffset.
Definition GetTotalApplicationDataUnitLength := m_totalApplicationDataUnitLength.

Definition SetBundleControlFlags (b : t) (flags : Z) : t :=
  mk (m_version b) flags (m_crcType b) (m_destinationEID b) (m_sourceNodeEID b)
     (m_reportToEID b) (m_creationTimestamp b) (m_sequenceNumber b) (m_lifetime b)
     (m_fragmentOffset b) (m_totalApplicationDataUnitLength b) (m_crcValue b).

Definition SetFragmentOffset (b : t) (offset : Z) : t :=
  mk (m_version b) (m_bundleControlFlags b) (m_crcType b) (m_destinationEID b)
     (m_sourceNodeEID b) (m_reportToEID b) (m_creationTimestamp b) (m_sequenceNumber b)
     (m_lifetime b) offset (m_totalApplicationDataUnitLength b) (m_crcValue b).

Definition SetTotalApplicationDataUnitLength (b : t) (len : Z) : t :=
  mk (m_version b) (m_bundleControlFlags b) (m_crcType b) (m_destinationEID b)
     (m_sourceNodeEID b) (m_reportToEID b) (m_creationTimestamp b) (m_sequenceNumber b)
     (m_lifetime b) (m_fragmentOffset b) len (m_crcValue b).

Definition set_crcValue (b : t) (crc : list Z) : t :=
  mk (m_version b) (m_bundleControlFlags b) (m_crcType b) (m_destinationEID b)
     (m_sourceNodeEID b) (m_reportToEID b) (m_creationTimestamp b) (m_sequenceNumber b)
     (m_lifetime b) (m_fragmentOffset b) (m_totalApplicationDataUnitLength b) crc.

Definition has_flag (flags flag : Z) : bool := negb (Z.land flags flag =? 0).

Definition HasFragmentation (b : t) : bool :=
  has_flag (m_bundleControlFlags b) BundleControlFlags.BUNDLE_IS_A_FRAGMENT.

Definition MustNotFragment (b : t) : bool :=
  has_flag (m_bundleControlFlags b) BundleControlFlags.BUNDLE_MUST_NOT_BE_FRAGMENTED.

Definition IsFragment (b : t) : bool := HasFragmentation b.

Definition IsAdministrativeRecord (b : t) : bool :=
  has_flag (m_bundleControlFlags b) BundleControlFlags.PAYLOAD_IS_AN_ADMINISTRATIVE_RECORD.

Definition SetFragmentation (b : t) (enable : bool) : t :=
  if enable
  then SetBundleControlFlags b
         (Z.lor (m_bundleControlFlags b) BundleControlFlags.BUNDLE_IS_A_FRAGMENT)
  else SetBundleControlFlags b
         (Z.land (m_bundleControlFlags b) (u64 (Z.lnot BundleControlFlags.BUNDLE_IS_A_FRAGMENT))).

Definition RequestsBundleDeletionStatusReport (b : t) : bool :=
  has_flag (m_bundleControlFlags b) BundleControlFlags.BUNDLE_DELETION_STATUS_REPORTS_REQUESTED.

Definition RequestsBundleDeliveryStatusReport (b : t) : bool :=
  has_flag (m_bundleControlFlags b) BundleControlFlags.BUNDLE_DELIVERY_STATUS_REPORTS_REQUESTED.

Definition RequestsBundleForwardingStatusReport (b : t) : bool :=
  has_flag (m_bundleControlFlags b) BundleControlFlags.BUNDLE_FORWARDING_STATUS_REPORTS_REQUESTED.

Definition RequestsBundleReceptionStatusReport (b : t) : bool :=
  has_flag (m_bundleControlFlags b) BundleControlFlags.BUNDLE_RECEPTION_STATUS_REPORTS_REQUESTED.

(** The body the flag setters share, one flag each. *)
Definition set_flag (b : t) (flag : Z) (enable : bool) : t :=
  if enable
  then SetBundleControlFlags b (Z.lor (m_bundleControlFlags b) flag)
  else SetBundleControlFlags b (Z.land (m_bundleControlFlags b) (u64 (Z.lnot flag))).

Definition SetBundleDeletionStatusReport (b : t) (enable : bool) : t :=
  set_flag b BundleControlFlags.BUNDLE_DELETION_STATUS_REPORTS_REQUESTED enable.

Definition SetBundleDeliveryStatusReport (b : t) (enable : bool) : t :=
  set_flag b BundleControlFlags.BUNDLE_DELIVERY_STATUS_REPORTS_REQUESTED enable.

Definition SetBundleForwardingStatusReport (b : t) (enable : bool) : t :=
  set_flag b BundleControlFlags.BUNDLE_FORWARDING_STATUS_REPORTS_REQUESTED enable.

Definition SetBundleReceptionStatusReport (b : t) (enable : bool) : t :=
  set_flag b BundleControlFlags.BUNDLE_RECEPTION_STATUS_REPORTS_REQUESTED enable.

Definition SetAdministrativeRecord (b : t) (enable : bool) : t :=
  set_flag b BundleControlFlags.PAYLOAD_IS_AN_ADMINISTRATIVE_RECORD enable.

Definition SetMustNotFragment (b : t) (enable : bool) : t :=
  set_flag b BundleControlFlags.BUNDLE_MUST_NOT_BE_FRAGMENTED enable.

(** [Time::GetMilliSeconds]: integer division of the nanosecond count. *)
Definition GetMilliSeconds (t0 : ns3Time) : Z := Z.quot t0 1000000.

(** [MilliSeconds (uint64_t)] *)
Definition MilliSeconds (ms : Z) : ns3Time := to_int64 (ms * 1000000).

Definition ToCbor (uninit : nat -> Z) (b : t) : option Buffer.t :=
  let array :=
    [Cbor.CborUnsigned (m_version b);
     Cbor.CborUnsigned (m_bundleControlFlags b);
     Cbor.CborUnsigned (m_crcType b);
     Cbor.CborTextString (EndpointID.ToString (m_destinationEID b));
     Cbor.CborTextString (EndpointID.ToString (m_sourceNodeEID b));
     Cbor.CborTextString (EndpointID.ToString (m_reportToEID b));
     Cbor.CborArray [Cbor.CborUnsigned (DtnTime.GetSeconds (m_creationTimestamp b));
                     Cbor.CborUnsigned (m_sequenceNumber b)];
     Cbor.of_int64 (GetMilliSeconds (m_lifetime b))]
    ++ (if IsFragment b
        then [Cbor.CborUnsigned (m_fragmentOffset b);
              Cbor.CborUnsigned (m_totalApplicationDataUnitLength b)]
        else [])
    ++ (if negb (m_crcType b =? CRCType.NO_CRC) && negb (Nat.eqb (length (m_crcValue b)) 0)
        then [Cbor.CborByteString (m_crcValue b)]
        else []) in
  Cbor.Encode uninit (Cbor.CborArray array).

Definition CalculateCRC (uninit : nat -> Z) (b : t) : option t :=
  if m_crcType b =? CRCType.NO_CRC then Some (set_crcValue b [])
  else
    let b := set_crcValue b [] in
    buffer <- ToCbor uninit b ;;
    let data := Buffer.CopyData buffer in
    if m_crcType b =? CRCType.CRC_16 then
      let crc := Crc.CalculateCRC16 data in
      Some (set_crcValue b [Z.land (Z.shiftr crc 8) 255; Z.land crc 255])
    else if m_crcType b =? CRCType.CRC_32 then
      let crc := Crc.CalculateCRC32 data in
      Some (set_crcValue b [Z.land (Z.shiftr crc 24) 255; Z.land (Z.shiftr crc 16) 255;
                            Z.land (Z.shiftr crc 8) 255; Z.land crc 255])
    else Some (set_crcValue b []).

(** [CheckCRC]: the block is encoded again without its CRC value, into a
    buffer allocated by this call; [uninit] is what the allocator left in
    that buffer, not what it left in the buffer of [CalculateCRC]. *)
Definition CheckCRC (uninit : nat -> Z) (b : t) : option bool :=
  if m_crcType b =? CRCType.NO_CRC then Some true
  else
    let tempBlock := set_crcValue b [] in
    buffer <- ToCbor uninit tempBlock ;;
    let data := Buffer.CopyData buffer in
    Some (Crc.VerifyCRC (m_crcType b) data (m_crcValue b)).

(** [FromCbor]; [None] is [std::nullopt]. *)
Definition FromCbor (buffer : Buffer.t) : option t :=
  match Cbor.Decode buffer with
  | None => None
  | Some cbor =>
    if negb (Cbor.IsArray cbor) then None else
    let array := Cbor.GetArray cbor in
    if (length array <? 8)%nat then None else
    let version := Cbor.GetUnsignedInteger (Cbor.at_ array 0) in
    let bundleControlFlags := Cbor.GetUnsignedInteger (Cbor.at_ array 1) in
    let crcType := Cbor.GetUnsignedInteger (Cbor.at_ array 2) in
    let destinationEID := EndpointID.of_string (Cbor.GetTextString (Cbor.at_ array 3)) in
    let sourceNodeEID := EndpointID.of_string (Cbor.GetTextString (Cbor.at_ array 4)) in
    let reportToEID := EndpointID.of_string (Cbor.GetTextString (Cbor.at_ array 5)) in
    if negb (Cbor.IsArray (Cbor.at_ array 6)) ||
       negb (Nat.eqb (length (Cbor.GetArray (Cbor.at_ array 6))) 2) then None else
    let creationTimestamp :=
      DtnTime.mk (Cbor.GetUnsignedInteger (Cbor.at_ (Cbor.GetArray (Cbor.at_ array 6)) 0)) 0 in
    let sequenceNumber :=
      Cbor.GetUnsignedInteger (Cbor.at_ (Cbor.GetArray (Cbor.at_ array 6)) 1) in
    let lifetime := MilliSeconds (Cbor.GetUnsignedInteger (Cbor.at_ array 7)) in
    let block :=
      mk version bundleControlFlags crcType destinationEID sourceNodeEID reportToEID
         creationTimestamp sequenceNumber lifetime 0 0 [] in
    let isFragment := has_flag bundleControlFlags BundleControlFlags.BUNDLE_IS_A_FRAGMENT in
    let fragmented :=
      if isFragment then
        if (length array <? 10)%nat then None
        else Some (SetTotalApplicationDataUnitLength
                     (SetFragmentOffset block (Cbor.GetUnsignedInteger (Cbor.at_ array 8)))
                     (Cbor.GetUnsignedInteger (Cbor.at_ array 9)))
      else Some block in
    match fragmented with
    | None => None
    | Some block =>
      if negb (crcType =? CRCType.NO_CRC) then
        let crcIndex := if isFragment then 10%nat else 8%nat in
        if (length array <=? crcIndex)%nat then None
        else if negb (Cbor.IsByteString (Cbor.at_ array crcIndex)) then None
        else Some (set_crcValue block (Cbor.GetByteString (Cbor.at_ array crcIndex)))
      else Some block
    end
  end.

End PrimaryBlock.

(** ** canonical-block.cc *)

Module BlockControlFlags.
Definition NO_FLAGS : Z := 0.
Definition BLOCK_MUST_BE_REPLICATED : Z := 1.
Definition REPORT_BLOCK_IF_UNPROCESSABLE : Z := 2.
Definition DELETE_BUNDLE_IF_BLOCK_UNPROCESSABLE : Z := 4.
Definition REMOVE_BLOCK_IF_UNPROCESSABLE : Z := 8.
Definition STATUS_REPORT_REQUESTED : Z := 16.
End BlockControlFlags.

Module CanonicalBlock.

(** The dynamic class of a block object: what [DynamicCast] looks at.  It is
    independent of the [m_blockType] field. *)
Inductive BlockClass : Type :=
| CanonicalBlockClass
| PayloadBlockClass
| PreviousNodeBlockClass
| BundleAgeBlockClass
| HopCountBlockClass.

Record t : Type := mk {
  class_of : BlockClass;
  m_blockType : Z;
  m_blockNumber : Z;
  m_blockControlFlags : Z;
  m_crcType : Z;
  m_data : list Z;
  m_crcValue : list Z
}.

Definition GetBlockType := m_blockType.
Definition GetBlockNumber := m_blockNumber.
Definition GetBlockControlFlags := m_blockControlFlags.
Definition GetCRCType := m_crcType.
Definition GetData := m_data.

Definition SetBlockType (b : t) (type : Z) : t :=
  mk (class_of b) type (m_blockNumber b) (m_blockControlFlags b) (m_crcType b)
     (m_data b) (m_crcValue b).

Definition SetBlockNumber (b : t) (number : Z) : t :=
  mk (class_of b) (m_blockType b) number (m_blockControlFlags b) (m_crcType b)
     (m_data b) (m_crcValue b).

Definition SetBlockControlFlags (b : t) (flags : Z) : t :=
  mk (class_of b) (m_blockType b) (m_blockNumber b) flags (m_crcType b)
     (m_data b) (m_crcValue b).

Definition SetCRCType (b : t) (type : Z) : t :=
  mk (class_of b) (m_blockType b) (m_blockNumber b) (m_blockControlFlags b) type
     (m_data b) (m_crcValue b).

Definition SetData (b : t) (data : list Z) : t :=
  mk (class_of b) (m_blockType b) (m_blockNumber b) (m_blockControlFlags b) (m_crcType b)
     data (m_crcValue b).

Definition set_crcValue (b : t) (crc : list Z) : t :=
  mk (class_of b) (m_blockType b) (m_blockNumber b) (m_blockControlFlags b) (m_crcType b)
     (m_data b) crc.

(** [CanonicalBlock ()] *)
Definition default : t :=
  mk CanonicalBlockClass BlockType.PAYLOAD_BLOCK 0 BlockControlFlags.NO_FLAGS
     CRCType.NO_CRC [] [].

(** [CanonicalBlock (blockType, blockNumber, blockControlFlags, crcType, data)] *)
Definition make (blockType blockNumber blockControlFlags crcType : Z) (data : list Z) : t :=
  mk CanonicalBlockClass blockType blockNumber blockControlFlags crcType data [].

Definition MustBeReplicated (b : t) : bool :=
  negb (Z.land (m_blockControlFlags b) BlockControlFlags.BLOCK_MUST_BE_REPLICATED =? 0).

Definition has_flag (flags flag : Z) : bool := negb (Z.land flags flag =? 0).

Definition ReportIfUnprocessable (b : t) : bool :=
  has_flag (m_blockControlFlags b) BlockControlFlags.REPORT_BLOCK_IF_UNPROCESSABLE.

Definition DeleteBundleIfUnprocessable (b : t) : bool :=
  has_flag (m_blockControlFlags b) BlockControlFlags.DELETE_BUNDLE_IF_BLOCK_UNPROCESSABLE.

Definition RemoveBlockIfUnprocessable (b : t) : bool :=
  has_flag (m_blockControlFlags b) BlockControlFlags.REMOVE_BLOCK_IF_UNPROCESSABLE.

Definition StatusReportRequested (b : t) : bool :=
  has_flag (m_blockControlFlags b) BlockControlFlags.STATUS_REPORT_REQUESTED.

(** The body the flag setters share, one flag each. *)
Definition set_flag (b : t) (flag : Z) (enable : bool) : t :=
  if enable
  then SetBlockControlFlags b (Z.lor (m_blockControlFlags b) flag)
  else SetBlockControlFlags b (Z.land (m_blockControlFlags b) (u64 (Z.lnot flag))).

Definition SetMustBeReplicated (b : t) (enable : bool) : t :=
  set_flag b BlockControlFlags.BLOCK_MUST_BE_REPLICATED enable.

Definition SetReportIfUnprocessable (b : t) (enable : bool) : t :=
  set_flag b BlockControlFlags.REPORT_BLOCK_IF_UNPROCESSABLE enable.

Definition SetDeleteBundleIfUnprocessable (b : t) (enable : bool) : t :=
  set_flag b BlockControlFlags.DELETE_BUNDLE_IF_BLOCK_UNPROCESSABLE enable.

Definition SetRemoveBlockIfUnprocessable (b : t) (enable : bool) : t :=
  set_flag b BlockControlFlags.REMOVE_BLOCK_IF_UNPROCESSABLE enable.

Definition SetStatusReportRequested (b : t) (enable : bool) : t :=
  set_flag b BlockControlFlags.STATUS_REPORT_REQUESTED enable.

Definition ToCbor (uninit : nat -> Z) (b : t) : option Buffer.t :=
  let array :=
    [Cbor.CborUnsigned (m_blockType b);
     Cbor.CborUnsigned (m_blockNumber b);
     Cbor.CborUnsigned (m_blockControlFlags b);
     Cbor.CborUnsigned (m_crcType b);
     Cbor.CborByteString (m_data b)]
    ++ (if negb (m_crcType b =? CRCType.NO_CRC) && negb (Nat.eqb (length (m_crcValue b)) 0)
        then [Cbor.CborByteString (m_crcValue b)]
        else []) in
  Cbor.Encode uninit (Cbor.CborArray array).

Definition CalculateCRC (uninit : nat -> Z) (b : t) : option t :=
  if m_crcType b =? CRCType.NO_CRC then Some (set_crcValue b [])
  else
    let b := set_crcValue b [] in
    buffer <- ToCbor uninit b ;;
    let data := Buffer.CopyData buffer in
    if m_crcType b =? CRCType.CRC_16 then
      let crc := Crc.CalculateCRC16 data in
      Some (set_crcValue b [Z.land (Z.shiftr crc 8) 255; Z.land crc 255])
    else if m_crcType b =? CRCType.CRC_32 then
      let crc := Crc.CalculateCRC32 data in
      Some (set_crcValue b [Z.land (Z.shiftr crc 24) 255; Z.land (Z.shiftr crc 16) 255;
                            Z.land (Z.shiftr crc 8) 255; Z.land crc 255])
    else Some (set_crcValue b []).

(** [CheckCRC]: the block is encoded again without its CRC value, into a
    buffer allocated by this call; [uninit] is what the allocator left in
    that buffer, not what it left in the buffer of [CalculateCRC]. *)
Definition CheckCRC (uninit : nat -> Z) (b : t) : option bool :=
  if m_crcType b =? CRCType.NO_CRC then Some true
  else
    let tempBlock := set_crcValue b [] in
    buffer <- ToCbor uninit tempBlock ;;
    let data := Buffer.CopyData buffer in
    Some (Crc.VerifyCRC (m_crcType b) data (m_crcValue b)).

(** *** PayloadBlock *)

(** [PayloadBlock (payload)] *)
Definition PayloadBlock (payload : list Z) : t :=
  mk PayloadBlockClass BlockType.PAYLOAD_BLOCK 1 BlockControlFlags.NO_FLAGS
     CRCType.NO_CRC payload [].

(** [PayloadBlock (blockNumber, blockControlFlags, crcType, payload)] *)
Definition PayloadBlock4 (blockNumber blockControlFlags crcType : Z) (payload : list Z) : t :=
  mk PayloadBlockClass BlockType.PAYLOAD_BLOCK blockNumber blockControlFlags crcType payload [].

(** *** PreviousNodeBlock *)

Definition SetPreviousNode (uninit : nat -> Z) (b : t) (previousNode : EndpointID.t)
  : option t :=
  buffer <- EndpointID.ToCbor uninit previousNode ;;
  Some (SetData b (Buffer.CopyData buffer)).

(** [PreviousNodeBlock ()] *)
Definition PreviousNodeBlock0 : t :=
  mk PreviousNodeBlockClass BlockType.PREVIOUS_NODE_BLOCK 2 BlockControlFlags.NO_FLAGS
     CRCType.NO_CRC [] [].

(** [PreviousNodeBlock (previousNode)] *)
Definition PreviousNodeBlock (uninit : nat -> Z) (previousNode : EndpointID.t) : option t :=
  SetPreviousNode uninit PreviousNodeBlock0 previousNode.

(** *** BundleAgeBlock *)

Definition SetAge (uninit : nat -> Z) (b : t) (microseconds : Z) : option t :=
  buffer <- Cbor.Encode uninit (Cbor.CborUnsigned microseconds) ;;
  Some (SetData b (Buffer.CopyData buffer)).

(** [BundleAgeBlock ()] *)
Definition BundleAgeBlock0 (uninit : nat -> Z) : option t :=
  SetAge uninit
    (mk BundleAgeBlockClass BlockType.BUNDLE_AGE_BLOCK 3 BlockControlFlags.NO_FLAGS
        CRCType.NO_CRC [] [])
    0.

(** *** HopCountBlock *)

(** The buffer the getters rebuild from the block data, byte by byte. *)
Definition data_buffer (b : t) : Buffer.t := m_data b.

Definition GetLimit (b : t) : Z :=
  if Nat.eqb (length (m_data b)) 0 then 0 else
  match Cbor.Decode (data_buffer b) with
  | Some cbor =>
      if Cbor.IsArray cbor && (2 <=? length (Cbor.GetArray cbor))%nat
      then Cbor.GetUnsignedInteger (Cbor.at_ (Cbor.GetArray cbor) 0)
      else 0
  | None => 0
  end.

Definition GetCount (b : t) : Z :=
  if Nat.eqb (length (m_data b)) 0 then 0 else
  match Cbor.Decode (data_buffer b) with
  | Some cbor =>
      if Cbor.IsArray cbor && (2 <=? length (Cbor.GetArray cbor))%nat
      then Cbor.GetUnsignedInteger (Cbor.at_ (Cbor.GetArray cbor) 1)
      else 0
  | None => 0
  end.

Definition SetLimit (uninit : nat -> Z) (b : t) (limit : Z) : option t :=
  buffer <- Cbor.Encode uninit
              (Cbor.CborArray [Cbor.CborUnsigned limit; Cbor.CborUnsigned (GetCount b)]) ;;
  Some (SetData b (Buffer.CopyData buffer)).

Definition SetCount (uninit : nat -> Z) (b : t) (count : Z) : option t :=
  buffer <- Cbor.Encode uninit
              (Cbor.CborArray [Cbor.CborUnsigned (GetLimit b); Cbor.CborUnsigned count]) ;;
  Some (SetData b (Buffer.CopyData buffer)).

(** [HopCountBlock ()] *)
Definition HopCountBlock0 (uninit : nat -> Z) : option t :=
  b <- SetLimit uninit
         (mk HopCountBlockClass BlockType.HOP_COUNT_BLOCK 4 BlockControlFlags.NO_FLAGS
             CRCType.NO_CRC [] [])
         0 ;;
  SetCount uninit b 0.

Definition Increment (uninit : nat -> Z) (b : t) : option t :=
  SetCount uninit b (u64 (GetCount b + 1)).

Definition Exceeded (b : t) : bool := GetCount b >=? GetLimit b.

(** *** The readers of PreviousNodeBlock and BundleAgeBlock

    Both rebuild a buffer from the block data as the hop-count getters do. *)

Definition GetPreviousNode (b : t) : EndpointID.t :=
  match EndpointID.FromCbor (data_buffer b) with
  | Some eid => eid
  | None => EndpointID.of_string "dtn:none"
  end.

Definition GetAge (b : t) : Z :=
  if Nat.eqb (length (m_data b)) 0 then 0 else
  match Cbor.Decode (data_buffer b) with
  | Some cbor => if Cbor.IsUnsignedInteger cbor then Cbor.GetUnsignedInteger cbor else 0
  | None => 0
  end.

(** [CreateBlock]: the object built for a decoded block. *)
Definition CreateBlock (uninit : nat -> Z)
    (blockType blockNumber blockControlFlags crcType : Z) (data : list Z) : option t :=
  let fill (block : t) :=
    SetData (SetCRCType (SetBlockControlFlags (SetBlockNumber block blockNumber)
                           blockControlFlags) crcType) data in
  if blockType =? BlockType.PAYLOAD_BLOCK then
    Some (PayloadBlock4 blockNumber blockControlFlags crcType data)
  else if blockType =? BlockType.PREVIOUS_NODE_BLOCK then
    Some (fill PreviousNodeBlock0)
  else if blockType =? BlockType.BUNDLE_AGE_BLOCK then
    block <- BundleAgeBlock0 uninit ;; Some (fill block)
  else if blockType =? BlockType.HOP_COUNT_BLOCK then
    block <- HopCountBlock0 uninit ;; Some (fill block)
  else
    Some (fill (SetBlockType default blockType)).

(** [FromCbor]: the outer [option] is an aborted run, the inner one
    [std::nullopt]. *)
Definition FromCbor (uninit : nat -> Z) (buffer : Buffer.t) : option (option t) :=
  match Cbor.Decode buffer with
  | None => Some None
  | Some cbor =>
    if negb (Cbor.IsArray cbor) then Some None else
    let array := Cbor.GetArray cbor in
    if (length array <? 5)%nat then Some None else
    let blockType := Cbor.GetUnsignedInteger (Cbor.at_ array 0) in
    let blockNumber := Cbor.GetUnsignedInteger (Cbor.at_ array 1) in
    let blockControlFlags := Cbor.GetUnsignedInteger (Cbor.at_ array 2) in
    let crcType := Cbor.GetUnsignedInteger (Cbor.at_ array 3) in
    if negb (Cbor.IsByteString (Cbor.at_ array 4)) then Some None else
    let data := Cbor.GetByteString (Cbor.at_ array 4) in
    block <- CreateBlock uninit blockType blockNumber blockControlFlags crcType data ;;
    if negb (crcType =? CRCType.NO_CRC) then
      if (length array <=? 5)%nat then Some None
      else if negb (Cbor.IsByteString (Cbor.at_ array 5)) then Some None
      else Some (Some (set_crcValue block (Cbor.GetByteString (Cbor.at_ array 5))))
    else Some (Some block)
  end.

End CanonicalBlock.

(** ** The heap of block objects

    A [Ptr<CanonicalBlock>] is an address.  ns-3 pointers are reference
    counted, so an address held by a bundle is live; reading a dead address
    yields the default block. *)

Abbreviation Heap := (gmap nat CanonicalBlock.t).

Definition deref (h : Heap) (p : nat) : CanonicalBlock.t :=
  match h !! p with
  | Some b => b
  | None => CanonicalBlock.default
  end.

(** [Create<...> (...)]: a new object at an address not yet in use. *)
Definition alloc (h : Heap) (b : CanonicalBlock.t) : nat * Heap :=
  let p := fresh (dom h) in (p, <[p := b]> h).

(** ** bundle.cc *)

Module Bundle.

Record t : Type := mk {
  m_primaryBlock : PrimaryBlock.t;
  m_canonicalBlocks : list nat
}.

Definition GetPrimaryBlock := m_primaryBlock.
Definition GetCanonicalBlocks := m_canonicalBlocks.

(** [Bundle (primaryBlock)] *)
Definition make (primaryBlock : PrimaryBlock.t) : t := mk primaryBlock [].

Definition GetId (b : t) : BundleID.t :=
  BundleID.mk
    (PrimaryBlock.GetSourceNodeEID (m_primaryBlock b))
    (PrimaryBlock.GetCreationTimestamp (m_primaryBlock b))
    (PrimaryBlock.GetSequenceNumber (m_primaryBlock b))
    (PrimaryBlock.IsFragment (m_primaryBlock b))
    (PrimaryBlock.GetFragmentOffset (m_primaryBlock b)).

Definition IsAdministrativeRecord (b : t) : bool :=
  PrimaryBlock.IsAdministrativeRecord (m_primaryBlock b).

Definition IsFragment (b : t) : bool := PrimaryBlock.IsFragment (m_primaryBlock b).

(** [AddBlock]: a block whose number is 0 is numbered in place (the object
    is shared with whoever else holds it), then appended. *)
Definition AddBlock (h : Heap) (b : t) (block : nat) : Heap * t :=
  let h' :=
    if CanonicalBlock.GetBlockNumber (deref h block) =? 0 then
      let maxNumber :=
        fold_left (fun m existingBlock =>
                     Z.max m (CanonicalBlock.GetBlockNumber (deref h existingBlock)))
                  (m_canonicalBlocks b) 0 in
      <[block := CanonicalBlock.SetBlockNumber (deref h block) (u64 (maxNumber + 1))]> h
    else h in
  (h', mk (m_primaryBlock b) (m_canonicalBlocks b ++ [block])).

(** [GetBlockByType]; [None] is [nullptr]. *)
Definition GetBlockByType (h : Heap) (b : t) (blockType : Z) : option nat :=
  List.find (fun block => CanonicalBlock.GetBlockType (deref h block) =? blockType)
            (m_canonicalBlocks b).

Definition GetPayloadBlock (h : Heap) (b : t) : option nat :=
  GetBlockByType h b BlockType.PAYLOAD_BLOCK.

Definition GetPayload (h : Heap) (b : t) : list Z :=
  match GetPayloadBlock h b with
  | Some payloadBlock => CanonicalBlock.GetData (deref h payloadBlock)
  | None => []
  end.

Definition GetBlocksByType (h : Heap) (b : t) (blockType : Z) : list nat :=
  List.filter (fun block => CanonicalBlock.GetBlockType (deref h block) =? blockType)
              (m_canonicalBlocks b).

(** The loop of [RemoveBlockByType]: the list without its first block of
    the type, or [None] when it holds none. *)
Fixpoint erase_first (h : Heap) (blockType : Z) (blocks : list nat) : option (list nat) :=
  match blocks with
  | [] => None
  | block :: blocks' =>
      if CanonicalBlock.GetBlockType (deref h block) =? blockType then Some blocks'
      else option_map (cons block) (erase_first h blockType blocks')
  end.

Definition RemoveBlockByType (h : Heap) (b : t) (blockType : Z) : t * bool :=
  match erase_first h blockType (m_canonicalBlocks b) with
  | Some blocks => (mk (m_primaryBlock b) blocks, true)
  | None => (b, false)
  end.

(** [SetPayload]: the payload block is written in place; a bundle without
    one gets a new block. *)
Definition SetPayload (h : Heap) (b : t) (payload : list Z) : Heap * t :=
  match GetPayloadBlock h b with
  | Some payloadBlock =>
      (<[payloadBlock := CanonicalBlock.SetData (deref h payloadBlock) payload]> h, b)
  | None =>
      let '(newPayloadBlock, h1) :=
        alloc h (CanonicalBlock.SetCRCType (CanonicalBlock.PayloadBlock payload)
                   CRCType.CRC_32) in
      AddBlock h1 b newPayloadBlock
  end.

(** The loop of [CalculateCRC] over the canonical blocks. *)
Fixpoint CalculateCRC_blocks (uninit : nat -> Z) (h : Heap) (blocks : list nat)
  : option Heap :=
  match blocks with
  | [] => Some h
  | block :: blocks' =>
      b <- CanonicalBlock.CalculateCRC uninit (deref h block) ;;
      CalculateCRC_blocks uninit (<[block := b]> h) blocks'
  end.

Definition CalculateCRC (uninit : nat -> Z) (h : Heap) (b : t) : option (Heap * t) :=
  primary <- PrimaryBlock.CalculateCRC uninit (m_primaryBlock b) ;;
  h' <- CalculateCRC_blocks uninit h (m_canonicalBlocks b) ;;
  Some (h', mk primary (m_canonicalBlocks b)).

(** The loop of [CheckCRC] over the canonical blocks.  Every block is
    encoded into a buffer of its own: [mem k] is what the allocator left in
    the buffer for the block at position [k] of the list. *)
Fixpoint CheckCRC_blocks (mem : nat -> nat -> Z) (h : Heap) (blocks : list nat) : option bool :=
  match blocks with
  | [] => Some true
  | block :: blocks' =>
      ok <- CanonicalBlock.CheckCRC (mem 0%nat) (deref h block) ;;
      if negb ok then Some false else CheckCRC_blocks (fun k => mem (S k)) h blocks'
  end.

(** [CheckCRC]: [mem 0] is the memory of the buffer the primary block is
    encoded into, [mem (S k)] that of the buffer for the canonical block at
    position [k]; none of them is a buffer of an earlier [CalculateCRC]. *)
Definition CheckCRC (mem : nat -> nat -> Z) (h : Heap) (b : t) : option bool :=
  ok <- PrimaryBlock.CheckCRC (mem 0%nat) (m_primaryBlock b) ;;
  if negb ok then Some false else CheckCRC_blocks (fun k => mem (S k)) h (m_canonicalBlocks b).

(** [MustNewBundle]: the bundle is returned by value; its payload block is
    a new object. *)
Definition MustNewBundle (uninit : nat -> Z) (h : Heap) (source destination : string)
    (creationTimestamp : DtnTime.t) (lifetime : ns3Time) (payload : list Z)
  : option (Heap * t) :=
  let primaryBlock :=
    PrimaryBlock.mk PrimaryBlock.DEFAULT_VERSION BundleControlFlags.NO_FLAGS CRCType.CRC_32
      (EndpointID.of_string destination) (EndpointID.of_string source)
      (EndpointID.of_string "dtn:none") creationTimestamp 0 lifetime 0 0 [] in
  let '(payloadBlock, h1) :=
    alloc h (CanonicalBlock.SetCRCType (CanonicalBlock.PayloadBlock payload) CRCType.CRC_32) in
  let '(h2, bundle) := AddBlock h1 (make primaryBlock) payloadBlock in
  CalculateCRC uninit h2 bundle.

(** The loop of [ToCbor] over the canonical blocks: each block is encoded,
    decoded again, and pushed onto [array] when the decoder accepts it. *)
Fixpoint ToCbor_blocks (uninit : nat -> Z) (h : Heap) (blocks : list nat)
    (array : list Cbor.CborValue) : option (list Cbor.CborValue) :=
  match blocks with
  | [] => Some array
  | block :: blocks' =>
      blockBuffer <- CanonicalBlock.ToCbor uninit (deref h block) ;;
      let array :=
        match Cbor.Decode blockBuffer with
        | Some blockCbor => array ++ [blockCbor]
        | None => array
        end in
      ToCbor_blocks uninit h blocks' array
  end.

Definition ToCbor (uninit : nat -> Z) (h : Heap) (b : t) : option Buffer.t :=
  primaryBuffer <- PrimaryBlock.ToCbor uninit (m_primaryBlock b) ;;
  let array :=
    match Cbor.Decode primaryBuffer with
    | Some primaryCbor => [primaryCbor]
    | None => []
    end in
  array <- ToCbor_blocks uninit h (m_canonicalBlocks b) array ;;
  Cbor.Encode uninit (Cbor.CborArray array).

(** The loop of [FromCbor] over [array[1..]]. *)
Fixpoint FromCbor_blocks (uninit : nat -> Z) (h : Heap) (bundle : t)
    (items : list Cbor.CborValue) : option (Heap * t) :=
  match items with
  | [] => Some (h, bundle)
  | item :: items' =>
      if negb (Cbor.IsArray item) then FromCbor_blocks uninit h bundle items'
      else
        blockBuffer <- Cbor.Encode uninit item ;;
        blockOpt <- CanonicalBlock.FromCbor uninit blockBuffer ;;
        match blockOpt with
        | Some block =>
            let '(p, h1) := alloc h block in
            let '(h2, bundle') := AddBlock h1 bundle p in
            FromCbor_blocks uninit h2 bundle' items'
        | None => FromCbor_blocks uninit h bundle items'
        end
  end.

(** [FromCbor]: the outer [option] is an aborted run, the inner one
    [std::nullopt]. *)
Definition FromCbor (uninit : nat -> Z) (h : Heap) (buffer : Buffer.t)
  : option (Heap * option t) :=
  match Cbor.Decode buffer with
  | None => Some (h, None)
  | Some cbor =>
    if negb (Cbor.IsArray cbor) || Nat.eqb (length (Cbor.GetArray cbor)) 0
    then Some (h, None) else
    let array := Cbor.GetArray cbor in
    if negb (Cbor.IsArray (Cbor.at_ array 0)) then Some (h, None) else
    primaryBuffer <- Cbor.Encode uninit (Cbor.at_ array 0) ;;
    match PrimaryBlock.FromCbor primaryBuffer with
    | None => Some (h, None)
    | Some primaryBlock =>
        r <- FromCbor_blocks uninit h (make primaryBlock) (drop 1 array) ;;
        Some (fst r, Some (snd r))
    end
  end.

End Bundle.

(** ** The heap of bundle objects *)

Abbreviation BundleHeap := (gmap nat Bundle.t).

Definition default_bundle : Bundle.t :=
  Bundle.make
    (PrimaryBlock.mk PrimaryBlock.DEFAULT_VERSION BundleControlFlags.NO_FLAGS CRCType.NO_CRC
       EndpointID.none EndpointID.none EndpointID.none (DtnTime.mk 0 0) 0
       3600000000000 0 0 []).

Definition deref_bundle (bh : BundleHeap) (p : nat) : Bundle.t :=
  match bh !! p with
  | Some b => b
  | None => default_bundle
  end.

Definition alloc_bundle (bh : BundleHeap) (b : Bundle.t) : nat * BundleHeap :=
  let p := fresh (dom bh) in (p, <[p := b]> bh).

(** ** bundle-store.h: the interface the routing engines drive *)

Module BundleStore.

Class BundleStore (S : Type) : Type := {
  Push : BundleHeap -> S -> option nat -> S * bool;
  GetAll : S -> list nat
}.

End BundleStore.

(** ** memory-bundle-store.cc (dtn7-protocol/model) *)

Module MemoryBundleStore.

Record t : Type := mk {
  m_bundles : gmap BundleID.key nat;
  m_pushCount : Z;
  m_getCount : Z;
  m_removeCount : Z;
  m_creationTime : ns3Time
}.

(** [MemoryBundleStore ()] at simulation time [now]. *)
Definition create (now : ns3Time) : t := mk ∅ 0 0 0 now.

Definition Push (bh : BundleHeap) (st : t) (bundle : option nat) : t * bool :=
  match bundle with
  | None => (st, false)
  | Some p =>
      let id := Bundle.GetId (deref_bundle bh p) in
      (mk (<[BundleID.to_key id := p]> (m_bundles st)) (u64 (m_pushCount st + 1))
          (m_getCount st) (m_removeCount st) (m_creationTime st),
       true)
  end.

(** [Get] is const in name only: it counts the hit. *)
Definition Get (st : t) (id : BundleID.t) : t * option nat :=
  match m_bundles st !! BundleID.to_key id with
  | Some p =>
      (mk (m_bundles st) (m_pushCount st) (u64 (m_getCount st + 1)) (m_removeCount st)
          (m_creationTime st),
       Some p)
  | None => (st, None)
  end.

Definition Has (st : t) (id : BundleID.t) : bool :=
  bool_decide (is_Some (m_bundles st !! BundleID.to_key id)).

Definition Remove (st : t) (id : BundleID.t) : t * bool :=
  match m_bundles st !! BundleID.to_key id with
  | Some _ =>
      (mk (delete (BundleID.to_key id) (m_bundles st)) (m_pushCount st) (m_getCount st)
          (u64 (m_removeCount st + 1)) (m_creationTime st),
       true)
  | None => (st, false)
  end.

Definition GetAll (st : t) : list nat := snd <$> map_to_list (m_bundles st).

Definition Count (st : t) : Z := Z.of_nat (size (m_bundles st)).

Definition IsExpired (now : ns3Time) (bh : BundleHeap) (bundle : nat) : bool :=
  let primary := Bundle.GetPrimaryBlock (deref_bundle bh bundle) in
  let creationTime := DtnTime.ToTime (PrimaryBlock.GetCreationTimestamp primary) in
  let lifetime := PrimaryBlock.GetLifetime primary in
  let expirationTime := creationTime + lifetime in
  now >? expirationTime.

(** [Cleanup]: the new store and the number of bundles removed. *)
Definition Cleanup (now : ns3Time) (bh : BundleHeap) (st : t) : t * Z :=
  let kept := filter (fun kv => IsExpired now bh (snd kv) = false) (m_bundles st) in
  let removedCount := Z.of_nat (size (m_bundles st) - size kept) in
  (mk kept (m_pushCount st) (m_getCount st) (u64 (m_removeCount st + removedCount))
      (m_creationTime st),
   u64 removedCount).

#[global] Instance store : BundleStore.BundleStore t :=
  {| BundleStore.Push := Push; BundleStore.GetAll := GetAll |}.

End MemoryBundleStore.

(** ** memory-bundle-store.cc, the revision with the MaxBundles attribute *)

Module MemoryBundleStoreMax.

Record t : Type := mk {
  m_bundles : gmap BundleID.key nat;
  m_pushCount : Z;
  m_getCount : Z;
  m_removeCount : Z;
  m_creationTime : ns3Time;
  m_maxBundles : Z
}.

(** [MemoryBundleStore ()]: the attribute defaults to 1000. *)
Definition create (now : ns3Time) : t := mk ∅ 0 0 0 now 1000.

Definition Push (bh : BundleHeap) (st : t) (bundle : option nat) : t * bool :=
  match bundle with
  | None => (st, false)
  | Some p =>
      let id := Bundle.GetId (deref_bundle bh p) in
      if Z.of_nat (size (m_bundles st)) >=? m_maxBundles st then (st, false)
      else
        (mk (<[BundleID.to_key id := p]> (m_bundles st)) (u64 (m_pushCount st + 1))
            (m_getCount st) (m_removeCount st) (m_creationTime st) (m_maxBundles st),
         true)
  end.

Definition Get (st : t) (id : BundleID.t) : t * option nat :=
  match m_bundles st !! BundleID.to_key id with
  | Some p =>
      (mk (m_bundles st) (m_pushCount st) (u64 (m_getCount st + 1)) (m_removeCount st)
          (m_creationTime st) (m_maxBundles st),
       Some p)
  | None => (st, None)
  end.

Definition Has (st : t) (id : BundleID.t) : bool :=
  bool_decide (is_Some (m_bundles st !! BundleID.to_key id)).

Definition GetAll (st : t) : list nat := snd <$> map_to_list (m_bundles st).

Definition Count (st : t) : Z := Z.of_nat (size (m_bundles st)).

Definition IsExpired (now : ns3Time) (bh : BundleHeap) (bundle : nat) : bool :=
  let primary := Bundle.GetPrimaryBlock (deref_bundle bh bundle) in
  let creationTime := DtnTime.ToTime (PrimaryBlock.GetCreationTimestamp primary) in
  let lifetime := PrimaryBlock.GetLifetime primary in
  let expirationTime := creationTime + lifetime in
  now >? expirationTime.

#[global] Instance store : BundleStore.BundleStore t :=
  {| BundleStore.Push := Push; BundleStore.GetAll := GetAll |}.

End MemoryBundleStoreMax.

(** ** fragmentation-manager.cc *)

Module FragmentationManager.

Record FragmentInfo : Type := mkInfo {
  sourceId : BundleID.t;
  totalLength : Z;
  fragments : list nat;
  expirationTime : ns3Time;
  complete : bool
}.

Record t : Type := mk {
  m_fragmentSets : gmap BundleID.key FragmentInfo;
  m_fragmentedBundles : Z;
  m_createdFragments : Z;
  m_reassembledBundles : Z;
  m_abandonedFragmentSets : Z
}.

(** [FragmentationManager ()] *)
Definition create : t := mk ∅ 0 0 0 0.

Definition IsFragment (bh : BundleHeap) (bundle : option nat) : bool :=
  match bundle with
  | None => false
  | Some p => PrimaryBlock.IsFragment (Bundle.GetPrimaryBlock (deref_bundle bh p))
  end.

(** [BundleID ()]: the default source is dtn:none, the default timestamp the
    DTN clock [dtnNow] at the call. *)
Definition BundleID_default (dtnNow : DtnTime.t) : BundleID.t :=
  BundleID.mk EndpointID.none dtnNow 0 false 0.

Definition GetOriginalBundleId (dtnNow : DtnTime.t) (bh : BundleHeap) (fragment : option nat)
  : BundleID.t :=
  match fragment with
  | Some p =>
      if negb (IsFragment bh fragment) then BundleID_default dtnNow
      else
        let primary := Bundle.GetPrimaryBlock (deref_bundle bh p) in
        BundleID.mk (PrimaryBlock.GetSourceNodeEID primary)
                    (PrimaryBlock.GetCreationTimestamp primary)
                    (PrimaryBlock.GetSequenceNumber primary)
                    false 0
  | None => BundleID_default dtnNow
  end.

(** The header-overhead loop that [FragmentBundle] and
    [CalculateFragmentPayloadSize] both run over the canonical blocks. *)
Fixpoint replicated_overhead (uninit : nat -> Z) (h : Heap) (blocks : list nat)
    (headerOverhead : Z) : option Z :=
  match blocks with
  | [] => Some headerOverhead
  | block :: blocks' =>
      if negb (CanonicalBlock.GetBlockType (deref h block) =? BlockType.PAYLOAD_BLOCK) &&
         CanonicalBlock.MustBeReplicated (deref h block)
      then
        blockBuffer <- CanonicalBlock.ToCbor uninit (deref h block) ;;
        replicated_overhead uninit h blocks' (u64 (headerOverhead + Buffer.GetSize blockBuffer))
      else replicated_overhead uninit h blocks' headerOverhead
  end.

Definition header_overhead (uninit : nat -> Z) (h : Heap) (b : Bundle.t) : option Z :=
  primaryBuffer <- PrimaryBlock.ToCbor uninit (Bundle.GetPrimaryBlock b) ;;
  replicated_overhead uninit h (Bundle.GetCanonicalBlocks b)
                      (u64 (0 + Buffer.GetSize primaryBuffer)).

Definition CalculateFragmentPayloadSize (uninit : nat -> Z) (h : Heap) (bh : BundleHeap)
    (bundle : nat) (maxFragmentSize fragmentIndex totalFragments : Z) : option Z :=
  let fullPayload := Bundle.GetPayload h (deref_bundle bh bundle) in
  let totalLength := Z.of_nat (length fullPayload) in
  headerOverhead <- header_overhead uninit h (deref_bundle bh bundle) ;;
  let effectiveMaxSize :=
    if maxFragmentSize >? headerOverhead
    then maxFragmentSize - headerOverhead
    else maxFragmentSize / 2 in
  if fragmentIndex =? u64 (totalFragments - 1) then
    let remainingSize := u64 (totalLength - u64 (fragmentIndex * effectiveMaxSize)) in
    Some remainingSize
  else Some effectiveMaxSize.

(** The inner loop of [FragmentBundle] that replicates the blocks marked
    must-be-replicated into [fragment]. *)
Fixpoint copy_replicated (h : Heap) (blocks : list nat) (fragment : Bundle.t)
  : Heap * Bundle.t :=
  match blocks with
  | [] => (h, fragment)
  | block :: blocks' =>
      let blk := deref h block in
      if negb (CanonicalBlock.GetBlockType blk =? BlockType.PAYLOAD_BLOCK) &&
         CanonicalBlock.MustBeReplicated blk
      then
        let '(copyBlock, h1) :=
          alloc h (CanonicalBlock.make (CanonicalBlock.GetBlockType blk)
                     (CanonicalBlock.GetBlockNumber blk)
                     (CanonicalBlock.GetBlockControlFlags blk)
                     (CanonicalBlock.GetCRCType blk)
                     (CanonicalBlock.GetData blk)) in
        let '(h2, fragment') := Bundle.AddBlock h1 fragment copyBlock in
        copy_replicated h2 blocks' fragment'
      else copy_replicated h blocks' fragment
  end.

(** The fragment loop of [FragmentBundle], [remaining] turns from index [i].
    A fragment object is private until it is pushed onto [fragments], so it
    is built as a value and placed in the bundle heap at the end of its
    turn. *)
Fixpoint fragment_loop (uninit : nat -> Z) (bundle payloadBlock : nat)
    (maxFragmentSize numFragments maxPayloadPerFragment totalLength : Z)
    (fullPayload : list Z) (remaining : nat) (i : Z)
    (h : Heap) (bh : BundleHeap) (fragments : list nat)
  : option (Heap * BundleHeap * list nat) :=
  match remaining with
  | O => Some (h, bh, fragments)
  | S remaining' =>
      let offset := u64 (i * maxPayloadPerFragment) in
      payloadSize <- CalculateFragmentPayloadSize uninit h bh bundle maxFragmentSize i
                       numFragments ;;
      if offset >=? totalLength then
        fragment_loop uninit bundle payloadBlock maxFragmentSize numFragments
          maxPayloadPerFragment totalLength fullPayload remaining' (i + 1) h bh fragments
      else
        let payloadSize :=
          if u64 (offset + payloadSize) >? totalLength
          then u64 (totalLength - offset)
          else payloadSize in
        let fragmentPrimary :=
          PrimaryBlock.SetTotalApplicationDataUnitLength
            (PrimaryBlock.SetFragmentOffset
               (PrimaryBlock.SetFragmentation
                  (Bundle.GetPrimaryBlock (deref_bundle bh bundle)) true)
               offset)
            totalLength in
        let fragment := Bundle.make fragmentPrimary in
        let fragmentPayload :=
          take (Z.to_nat payloadSize) (drop (Z.to_nat offset) fullPayload) in
        let '(fragmentPayloadBlock, h1) :=
          alloc h (CanonicalBlock.SetCRCType (CanonicalBlock.PayloadBlock fragmentPayload)
                     (CanonicalBlock.GetCRCType (deref h payloadBlock))) in
        let '(h2, fragment) := Bundle.AddBlock h1 fragment fragmentPayloadBlock in
        let '(h3, fragment) :=
          copy_replicated h2 (Bundle.GetCanonicalBlocks (deref_bundle bh bundle)) fragment in
        r <- Bundle.CalculateCRC uninit h3 fragment ;;
        let '(p, bh') := alloc_bundle bh (snd r) in
        fragment_loop uninit bundle payloadBlock maxFragmentSize numFragments
          maxPayloadPerFragment totalLength fullPayload remaining' (i + 1)
          (fst r) bh' (fragments ++ [p])
  end.

Definition FragmentBundle (uninit : nat -> Z) (h : Heap) (bh : BundleHeap) (st : t)
    (bundle : nat) (maxFragmentSize : Z)
  : option (Heap * BundleHeap * t * list nat) :=
  let b := deref_bundle bh bundle in
  if PrimaryBlock.MustNotFragment (Bundle.GetPrimaryBlock b) then Some (h, bh, st, [])
  else if Bundle.IsAdministrativeRecord b then Some (h, bh, st, [])
  else
    fullBuffer <- Bundle.ToCbor uninit h b ;;
    if Buffer.GetSize fullBuffer <=? maxFragmentSize then Some (h, bh, st, [])
    else
      match Bundle.GetPayloadBlock h b with
      | None => Some (h, bh, st, [])
      | Some payloadBlock =>
          let fullPayload := CanonicalBlock.GetData (deref h payloadBlock) in
          let totalLength := Z.of_nat (length fullPayload) in
          headerOverhead <- header_overhead uninit h b ;;
          let maxPayloadPerFragment :=
            if maxFragmentSize >? headerOverhead
            then maxFragmentSize - headerOverhead
            else maxFragmentSize / 2 in
          (* an integer division by zero ends the run *)
          if maxPayloadPerFragment =? 0 then None
          else
            let numFragments :=
              u64 (totalLength + maxPayloadPerFragment - 1) / maxPayloadPerFragment in
            r <- fragment_loop uninit bundle payloadBlock maxFragmentSize numFragments
                   maxPayloadPerFragment totalLength fullPayload
                   (Z.to_nat numFragments) 0 h bh [] ;;
            let '(h', bh', fragments) := r in
            let st' :=
              if negb (Nat.eqb (length fragments) 0)
              then mk (m_fragmentSets st) (u64 (m_fragmentedBundles st + 1))
                      (u64 (m_createdFragments st + Z.of_nat (length fragments)))
                      (m_reassembledBundles st) (m_abandonedFragmentSets st)
              else st in
            Some (h', bh', st', fragments)
      end.

(** *** Reassembly *)

Definition fragment_offset (bh : BundleHeap) (p : nat) : Z :=
  PrimaryBlock.GetFragmentOffset (Bundle.GetPrimaryBlock (deref_bundle bh p)).

(** [std::sort] by fragment offset.  Offsets within a set are pairwise
    different (a duplicate is refused on arrival), so the sorted order does
    not depend on the sorting algorithm; the model inserts one by one. *)
Fixpoint insert_by_offset (bh : BundleHeap) (p : nat) (l : list nat) : list nat :=
  match l with
  | [] => [p]
  | q :: l' =>
      if fragment_offset bh p <? fragment_offset bh q then p :: l
      else q :: insert_by_offset bh p l'
  end.

Definition sort_by_offset (bh : BundleHeap) (l : list nat) : list nat :=
  fold_left (fun acc p => insert_by_offset bh p acc) l [].

(** The coverage walk; [None] is the early return at a gap. *)
Fixpoint covered_length (h : Heap) (bh : BundleHeap) (frags : list nat) (coveredLength : Z)
  : option Z :=
  match frags with
  | [] => Some coveredLength
  | frag :: frags' =>
      let offset := fragment_offset bh frag in
      if offset >? coveredLength then None
      else
        let length := Z.of_nat (length (Bundle.GetPayload h (deref_bundle bh frag))) in
        covered_length h bh frags' (Z.max coveredLength (u64 (offset + length)))
  end.

(** The [std::copy] loop; [None] is a copy that runs past the end of
    [reassembledPayload]. *)
Fixpoint copy_payloads (h : Heap) (bh : BundleHeap) (frags : list nat)
    (reassembledPayload : list Z) : option (list Z) :=
  match frags with
  | [] => Some reassembledPayload
  | frag :: frags' =>
      let offset := Z.to_nat (fragment_offset bh frag) in
      let fragPayload := Bundle.GetPayload h (deref_bundle bh frag) in
      if decide (offset + length fragPayload <= length reassembledPayload)%nat then
        copy_payloads h bh frags'
          (take offset reassembledPayload ++ fragPayload ++
           drop (offset + length fragPayload) reassembledPayload)
      else None
  end.

(** The loop that carries the non-payload blocks of the first fragment over
    to the reassembled bundle; the block objects are shared. *)
Fixpoint add_other_blocks (h : Heap) (blocks : list nat) (reassembled : Bundle.t)
  : Heap * Bundle.t :=
  match blocks with
  | [] => (h, reassembled)
  | block :: blocks' =>
      if negb (CanonicalBlock.GetBlockType (deref h block) =? BlockType.PAYLOAD_BLOCK) then
        let '(h', reassembled') := Bundle.AddBlock h reassembled block in
        add_other_blocks h' blocks' reassembled'
      else add_other_blocks h blocks' reassembled
  end.

(** [TryReassemble]: the updated heaps, statistics and fragment set, and the
    reassembled bundle ([None] is [nullptr]).  The outer [option] is an
    aborted run. *)
Definition TryReassemble (uninit : nat -> Z) (h : Heap) (bh : BundleHeap) (st : t)
    (info : FragmentInfo)
  : option (Heap * BundleHeap * t * FragmentInfo * option nat) :=
  if complete info then Some (h, bh, st, info, None)
  else
    let sorted := sort_by_offset bh (fragments info) in
    let info := mkInfo (sourceId info) (totalLength info) sorted (expirationTime info)
                       (complete info) in
    match covered_length h bh sorted 0 with
    | None => Some (h, bh, st, info, None)
    | Some coveredLength =>
        if coveredLength <? totalLength info then Some (h, bh, st, info, None)
        else
          match sorted with
          | [] => None
          | first :: _ =>
              let reassembledPrimary :=
                PrimaryBlock.SetFragmentation
                  (Bundle.GetPrimaryBlock (deref_bundle bh first)) false in
              let reassembled := Bundle.make reassembledPrimary in
              reassembledPayload <-
                copy_payloads h bh sorted (repeat 0 (Z.to_nat (totalLength info))) ;;
              let '(payloadBlock, h1) :=
                alloc h (CanonicalBlock.PayloadBlock reassembledPayload) in
              let '(h2, reassembled) := Bundle.AddBlock h1 reassembled payloadBlock in
              let '(h3, reassembled) :=
                add_other_blocks h2 (Bundle.GetCanonicalBlocks (deref_bundle bh first))
                                 reassembled in
              r <- Bundle.CalculateCRC uninit h3 reassembled ;;
              let '(p, bh') := alloc_bundle bh (snd r) in
              let info := mkInfo (sourceId info) (totalLength info) sorted
                                 (expirationTime info) true in
              let st := mk (m_fragmentSets st) (m_fragmentedBundles st)
                           (m_createdFragments st) (u64 (m_reassembledBundles st + 1))
                           (m_abandonedFragmentSets st) in
              Some (fst r, bh', st, info, Some p)
          end
    end.

(** The duplicate test of [AddFragment]. *)
Definition has_offset (bh : BundleHeap) (frags : list nat) (fragmentOffset : Z) : bool :=
  existsb (fun existingFragment => fragment_offset bh existingFragment =? fragmentOffset)
          frags.

Definition set_fragmentSets (st : t) (sets : gmap BundleID.key FragmentInfo) : t :=
  mk sets (m_fragmentedBundles st) (m_createdFragments st) (m_reassembledBundles st)
     (m_abandonedFragmentSets st).

(** [AddFragment]; [info] is the entry [m_fragmentSets[originalId]] refers
    to, created empty when the key is new, and every change to it lands in
    the map. *)
Definition AddFragment (uninit : nat -> Z) (dtnNow : DtnTime.t) (h : Heap) (bh : BundleHeap)
    (st : t) (fragment : option nat)
  : option (Heap * BundleHeap * t * option nat) :=
  match fragment with
  | None => Some (h, bh, st, None)
  | Some p =>
      if negb (IsFragment bh fragment) then Some (h, bh, st, None)
      else
        let originalId := GetOriginalBundleId dtnNow bh fragment in
        let primary := Bundle.GetPrimaryBlock (deref_bundle bh p) in
        let fragmentOffset := PrimaryBlock.GetFragmentOffset primary in
        let totalLength0 := PrimaryBlock.GetTotalApplicationDataUnitLength primary in
        let creationTime := DtnTime.ToTime (PrimaryBlock.GetCreationTimestamp primary) in
        let lifetime := PrimaryBlock.GetLifetime primary in
        let expirationTime0 := creationTime + lifetime in
        let k := BundleID.to_key originalId in
        let info :=
          match m_fragmentSets st !! k with
          | Some info => info
          | None => mkInfo (BundleID_default dtnNow) 0 [] 0 false
          end in
        let info :=
          if Nat.eqb (length (fragments info)) 0
          then mkInfo originalId totalLength0 (fragments info) expirationTime0 false
          else info in
        if has_offset bh (fragments info) fragmentOffset
        then Some (h, bh, set_fragmentSets st (<[k := info]> (m_fragmentSets st)), None)
        else
          let info := mkInfo (sourceId info) (totalLength info) (fragments info ++ [p])
                             (expirationTime info) (complete info) in
          r <- TryReassemble uninit h bh st info ;;
          let '(h', bh', st', info', reassembled) := r in
          Some (h', bh', set_fragmentSets st' (<[k := info']> (m_fragmentSets st')),
                reassembled)
  end.

(** [CleanupExpiredFragments]: the new state and the number of sets removed. *)
Definition CleanupExpiredFragments (now : ns3Time) (st : t) : t * Z :=
  let kept := filter (fun kv => (now >? expirationTime (snd kv)) = false) (m_fragmentSets st) in
  let removedCount := Z.of_nat (size (m_fragmentSets st) - size kept) in
  (mk kept (m_fragmentedBundles st) (m_createdFragments st) (m_reassembledBundles st)
      (u64 (m_abandonedFragmentSets st + removedCount)),
   u64 removedCount).

End FragmentationManager.

(** ** routing.cc *)

Module Routing.

Record BundleDescriptor : Type := mkDescriptor {
  id : BundleID.t;
  receiver : EndpointID.t;
  sentNodes : list EndpointID.t;
  expirationTime : ns3Time
}.

Definition SentTo (d : BundleDescriptor) (node : EndpointID.t) : bool :=
  existsb (fun sentNode => EndpointID.eqb sentNode node) (sentNodes d).

Definition AddSentNode (d : BundleDescriptor) (node : EndpointID.t) : BundleDescriptor :=
  if negb (SentTo d node)
  then mkDescriptor (id d) (receiver d) (sentNodes d ++ [node]) (expirationTime d)
  else d.

Definition IsExpired (now : ns3Time) (d : BundleDescriptor) : bool :=
  now >? expirationTime d.

Record PeerInfo : Type := mkPeer {
  nodeID : EndpointID.t;
  lastSeen : ns3Time;
  receptionTime : ns3Time;
  reachable : bool;
  cla : string;
  endpoint : string
}.

(** Reachable and seen within the last five minutes. *)
Definition IsActive (now : ns3Time) (p : PeerInfo) : bool :=
  reachable p && (now - lastSeen p <? 300000000000).

Section Engine.

(** [W] is the state of the network behind the convergence layers, [S] the
    bundle store the engine was initialised with. *)
Context {W S : Type} `{BundleStore.BundleStore S}.

(** A [ConvergenceSender] as the engine sees it: both calls only read the
    bundle, as the TCP and UDP layers do. *)
Record ConvergenceSender : Type := mkSender {
  IsEndpointReachable : W -> string -> bool;
  Send : W -> Heap -> BundleHeap -> nat -> string -> bool * W
}.

(** [m_bundlesMutex] tells whether the running thread owns that mutex.
    [bundleSentTrace] lists what the BundleSent trace source has emitted,
    oldest first: the bundle, by its ID at that moment, and the receiver. *)
Record t : Type := mk {
  m_localNodeID : EndpointID.t;
  m_store : S;
  m_senders : list ConvergenceSender;
  m_peers : gmap string PeerInfo;
  m_bundles : gmap BundleID.key BundleDescriptor;
  m_bundlesMutex : bool;
  m_sentBundles : Z;
  m_failedBundles : Z;
  bundleSentTrace : list (BundleID.t * EndpointID.t)
}.

(** The constructor followed by [Initialize]. *)
Definition Initialize (store : S) (senders : list ConvergenceSender)
    (localNodeID : EndpointID.t) : t :=
  mk localNodeID store senders ∅ ∅ false 0 0 [].

Definition set_store (r : t) (store : S) : t :=
  mk (m_localNodeID r) store (m_senders r) (m_peers r) (m_bundles r) (m_bundlesMutex r)
     (m_sentBundles r) (m_failedBundles r) (bundleSentTrace r).

Definition set_peers (r : t) (peers : gmap string PeerInfo) : t :=
  mk (m_localNodeID r) (m_store r) (m_senders r) peers (m_bundles r) (m_bundlesMutex r)
     (m_sentBundles r) (m_failedBundles r) (bundleSentTrace r).

Definition set_bundles (r : t) (bundles : gmap BundleID.key BundleDescriptor) : t :=
  mk (m_localNodeID r) (m_store r) (m_senders r) (m_peers r) bundles (m_bundlesMutex r)
     (m_sentBundles r) (m_failedBundles r) (bundleSentTrace r).

Definition set_bundlesMutex (r : t) (owned : bool) : t :=
  mk (m_localNodeID r) (m_store r) (m_senders r) (m_peers r) (m_bundles r) owned
     (m_sentBundles r) (m_failedBundles r) (bundleSentTrace r).

(** [std::lock_guard<std::mutex> lock (m_bundlesMutex)]: undefined, hence
    [None], when the thread owns the mutex already. *)
Definition lock_bundles (r : t) : option t :=
  if m_bundlesMutex r then None else Some (set_bundlesMutex r true).

(** The end of the scope of that [lock_guard]. *)
Definition unlock_bundles (r : t) : t := set_bundlesMutex r false.

(** The failure exits of [SendBundle]. *)
Definition count_failed (r : t) : t :=
  mk (m_localNodeID r) (m_store r) (m_senders r) (m_peers r) (m_bundles r)
     (m_bundlesMutex r) (m_sentBundles r) (u64 (m_failedBundles r + 1)) (bundleSentTrace r).

(** The success exit of [SendBundle], once the mutex is taken: the
    descriptor, when there is one, gets the receiver; the counter and the
    trace source follow. *)
Definition record_sent (r : t) (bundleId : BundleID.t) (receiver0 : EndpointID.t) : t :=
  let bundles :=
    match m_bundles r !! BundleID.to_key bundleId with
    | Some d => <[BundleID.to_key bundleId := AddSentNode d receiver0]> (m_bundles r)
    | None => m_bundles r
    end in
  mk (m_localNodeID r) (m_store r) (m_senders r) (m_peers r) bundles
     (m_bundlesMutex r) (u64 (m_sentBundles r + 1)) (m_failedBundles r)
     (bundleSentTrace r ++ [(bundleId, receiver0)]).

(** [DynamicCast<PreviousNodeBlock> (bundle->GetBlockByType (PREVIOUS_NODE_BLOCK))] *)
Definition find_previous_node (h : Heap) (b : Bundle.t) : option nat :=
  match Bundle.GetBlockByType h b BlockType.PREVIOUS_NODE_BLOCK with
  | Some p =>
      match CanonicalBlock.class_of (deref h p) with
      | CanonicalBlock.PreviousNodeBlockClass => Some p
      | _ => None
      end
  | None => None
  end.

(** The update of the previous-node block that precedes [Send]. *)
Definition stamp_previous_node (uninit : nat -> Z) (h : Heap) (bh : BundleHeap)
    (localNodeID : EndpointID.t) (bundle : nat) : option (Heap * BundleHeap) :=
  match find_previous_node h (deref_bundle bh bundle) with
  | None =>
      block <- CanonicalBlock.PreviousNodeBlock uninit localNodeID ;;
      let '(prevNode, h1) := alloc h block in
      let '(h2, b') := Bundle.AddBlock h1 (deref_bundle bh bundle) prevNode in
      Some (h2, <[bundle := b']> bh)
  | Some prevNode =>
      block <- CanonicalBlock.SetPreviousNode uninit (deref h prevNode) localNodeID ;;
      Some (<[prevNode := block]> h, bh)
  end.

(** The loop of [SendBundle] over [m_senders]: the first sender that
    reports the endpoint reachable is used, whatever its [Send] returns.
    After a successful [Send] the descriptor is updated under a
    [lock_guard] on [m_bundlesMutex], released before the counters and the
    trace source are touched. *)
Fixpoint SendBundle_senders (uninit : nat -> Z) (senders : list ConvergenceSender)
    (h : Heap) (bh : BundleHeap) (w : W) (r : t)
    (bundle : nat) (receiver0 : EndpointID.t) (endpoint0 : string)
  : option (Heap * BundleHeap * W * t * bool) :=
  match senders with
  | [] => Some (h, bh, w, count_failed r, false)
  | sender :: senders' =>
      if IsEndpointReachable sender w endpoint0 then
        hs <- stamp_previous_node uninit h bh (m_localNodeID r) bundle ;;
        let '(h', bh') := hs in
        let '(success, w') := Send sender w h' bh' bundle endpoint0 in
        if success
        then
          r1 <- lock_bundles r ;;
          Some (h', bh', w',
                unlock_bundles
                  (record_sent r1 (Bundle.GetId (deref_bundle bh' bundle)) receiver0),
                true)
        else Some (h', bh', w', count_failed r, false)
      else SendBundle_senders uninit senders' h bh w r bundle receiver0 endpoint0
  end.

Definition SendBundle (uninit : nat -> Z) (h : Heap) (bh : BundleHeap) (w : W) (r : t)
    (bundle : nat) (receiver0 : EndpointID.t) (endpoint0 : string)
  : option (Heap * BundleHeap * W * t * bool) :=
  SendBundle_senders uninit (m_senders r) h bh w r bundle receiver0 endpoint0.

Definition CalculateExpirationTime (b : Bundle.t) : ns3Time :=
  let primary := Bundle.GetPrimaryBlock b in
  let creationTime := DtnTime.ToTime (PrimaryBlock.GetCreationTimestamp primary) in
  let lifetime := PrimaryBlock.GetLifetime primary in
  creationTime + lifetime.

(** [UpdateBundleDescriptor]: the map after the call and the descriptor the
    returned reference points at, the entry at the bundle's key.  The body
    runs under a [lock_guard] on [m_bundlesMutex]. *)
Definition UpdateBundleDescriptor (bh : BundleHeap) (r : t) (bundle : nat)
  : option (gmap BundleID.key BundleDescriptor * BundleDescriptor) :=
  let b := deref_bundle bh bundle in
  let bundleId := Bundle.GetId b in
  _ <- lock_bundles r ;;
  match m_bundles r !! BundleID.to_key bundleId with
  | Some desc => Some (m_bundles r, desc)
  | None =>
      let desc :=
        mkDescriptor bundleId (PrimaryBlock.GetDestinationEID (Bundle.GetPrimaryBlock b)) []
                     (CalculateExpirationTime b) in
      Some (<[BundleID.to_key bundleId := desc]> (m_bundles r), desc)
  end.

(** The part of [NotifyNewBundle] both engines share: store the bundle,
    fetch or create its descriptor, mark the source as sent-to.  The
    boolean tells whether the store took the bundle; [None] is the
    dereference of a null bundle the store has accepted. *)
Definition NotifyNewBundle (bh : BundleHeap) (r : t) (bundle : option nat)
    (source : EndpointID.t) : option (t * bool) :=
  let '(store, pushed) := BundleStore.Push bh (m_store r) bundle in
  let r := set_store r store in
  if negb pushed then Some (r, false)
  else
    match bundle with
    | Some p =>
        res <- UpdateBundleDescriptor bh r p ;;
        let '(bundles, desc) := res in
        let k := BundleID.to_key (Bundle.GetId (deref_bundle bh p)) in
        Some (set_bundles r (<[k := AddSentNode desc source]> bundles), true)
    | None => None
    end.

Definition NotifyPeerDisappeared (r : t) (peer : EndpointID.t) : t :=
  set_peers r (delete (EndpointID.m_uri peer) (m_peers r)).

Definition store_peer (r : t) (peer : PeerInfo) : t :=
  set_peers r (<[EndpointID.m_uri (nodeID peer) := peer]> (m_peers r)).

Definition active_peers (now : ns3Time) (r : t) : list PeerInfo :=
  List.filter (IsActive now) (snd <$> map_to_list (m_peers r)).

(** [it != m_bundles.end () && it->second.SentTo (peer.nodeID)]; no
    descriptor is added or removed during a dispatch pass, so the iterator
    taken at the top of the bundle loop and a fresh lookup agree. *)
Definition already_sent (r : t) (k : BundleID.key) (node : EndpointID.t) : bool :=
  match m_bundles r !! k with
  | Some d => SentTo d node
  | None => false
  end.

Definition descriptor_expired (now : ns3Time) (r : t) (k : BundleID.key) : bool :=
  match m_bundles r !! k with
  | Some d => IsExpired now d
  | None => false
  end.

(** *** epidemic-routing.cc *)

(** The peer loop of [EpidemicRouting::DispatchBundles] for one bundle. *)
Fixpoint epidemic_peers (uninit : nat -> Z) (bundle : nat) (k : BundleID.key)
    (peers : list PeerInfo) (h : Heap) (bh : BundleHeap) (w : W) (r : t)
  : option (Heap * BundleHeap * W * t) :=
  match peers with
  | [] => Some (h, bh, w, r)
  | peer :: peers' =>
      let destinationEID :=
        PrimaryBlock.GetDestinationEID (Bundle.GetPrimaryBlock (deref_bundle bh bundle)) in
      if EndpointID.eqb destinationEID (m_localNodeID r) then
        epidemic_peers uninit bundle k peers' h bh w r
      else if negb (EndpointID.eqb destinationEID (nodeID peer)) &&
              EndpointID.eqb (nodeID peer) (m_localNodeID r) then
        epidemic_peers uninit bundle k peers' h bh w r
      else if already_sent r k (nodeID peer) then
        epidemic_peers uninit bundle k peers' h bh w r
      else
        res <- SendBundle uninit h bh w r bundle (nodeID peer) (endpoint peer) ;;
        let '(h', bh', w', r', _) := res in
        epidemic_peers uninit bundle k peers' h' bh' w' r'
  end.

(** The bundle loop of [EpidemicRouting::DispatchBundles]; each turn runs
    under a [lock_guard] on [m_bundlesMutex] taken at its top. *)
Fixpoint epidemic_bundles (uninit : nat -> Z) (now : ns3Time) (bundles : list nat)
    (activePeers : list PeerInfo) (h : Heap) (bh : BundleHeap) (w : W) (r : t)
  : option (Heap * BundleHeap * W * t) :=
  match bundles with
  | [] => Some (h, bh, w, r)
  | bundle :: bundles' =>
      let k := BundleID.to_key (Bundle.GetId (deref_bundle bh bundle)) in
      r <- lock_bundles r ;;
      if descriptor_expired now r k then
        epidemic_bundles uninit now bundles' activePeers h bh w (unlock_bundles r)
      else
        res <- epidemic_peers uninit bundle k activePeers h bh w r ;;
        let '(h', bh', w', r') := res in
        epidemic_bundles uninit now bundles' activePeers h' bh' w' (unlock_bundles r')
  end.

Definition EpidemicRouting_DispatchBundles (uninit : nat -> Z) (now : ns3Time)
    (h : Heap) (bh : BundleHeap) (w : W) (r : t) : option (Heap * BundleHeap * W * t) :=
  epidemic_bundles uninit now (BundleStore.GetAll (m_store r)) (active_peers now r) h bh w r.

Definition EpidemicRouting_NotifyNewBundle := NotifyNewBundle.

Definition EpidemicRouting_NotifyPeerAppeared (uninit : nat -> Z) (now : ns3Time)
    (h : Heap) (bh : BundleHeap) (w : W) (r : t) (peer : PeerInfo)
  : option (Heap * BundleHeap * W * t) :=
  EpidemicRouting_DispatchBundles uninit now h bh w (store_peer r peer).

Definition EpidemicRouting_NotifyPeerDisappeared := NotifyPeerDisappeared.

(** *** spray-routing.cc *)

Record SprayAndWaitRouting : Type := mkSpray {
  base : t;
  m_copies : gmap BundleID.key Z;
  m_maxCopies : Z
}.

(** The constructor followed by [Initialize]; MaxCopies defaults to 6. *)
Definition SprayAndWaitRouting_Initialize (store : S) (senders : list ConvergenceSender)
    (localNodeID : EndpointID.t) : SprayAndWaitRouting :=
  mkSpray (Initialize store senders localNodeID) ∅ 6.

Definition set_base (s : SprayAndWaitRouting) (r : t) : SprayAndWaitRouting :=
  mkSpray r (m_copies s) (m_maxCopies s).

Definition SetCopyCount (s : SprayAndWaitRouting) (bundleId : BundleID.t) (count : Z)
  : SprayAndWaitRouting :=
  mkSpray (base s) (<[BundleID.to_key bundleId := count]> (m_copies s)) (m_maxCopies s).

Definition GetCopyCount (s : SprayAndWaitRouting) (bundleId : BundleID.t) : Z :=
  match m_copies s !! BundleID.to_key bundleId with
  | Some count => count
  | None => 1
  end.

(** [DecreaseCopyCount]: the new table and the value returned. *)
Definition DecreaseCopyCount (s : SprayAndWaitRouting) (bundleId : BundleID.t)
  : SprayAndWaitRouting * Z :=
  match m_copies s !! BundleID.to_key bundleId with
  | Some count =>
      if count >? 1
      then (mkSpray (base s) (<[BundleID.to_key bundleId := count - 1]> (m_copies s))
                    (m_maxCopies s),
            count - 1)
      else (s, 1)
  | None => (s, 1)
  end.

Definition SprayAndWaitRouting_NotifyNewBundle (bh : BundleHeap) (s : SprayAndWaitRouting)
    (bundle : option nat) (source : EndpointID.t) : option SprayAndWaitRouting :=
  res <- NotifyNewBundle bh (base s) bundle source ;;
  let '(r, stored) := res in
  let s := set_base s r in
  if negb stored then Some s
  else
    match bundle with
    | Some p =>
        let b := deref_bundle bh p in
        let count := m_maxCopies s in
        let count :=
          if EndpointID.eqb (PrimaryBlock.GetSourceNodeEID (Bundle.GetPrimaryBlock b))
                            (m_localNodeID r)
          then count
          else Z.max 1 (count / 2) in
        Some (SetCopyCount s (Bundle.GetId b) count)
    | None => None
    end.

(** The wait-phase loop: only the destination itself is served. *)
Fixpoint wait_peers (uninit : nat -> Z) (bundle : nat) (k : BundleID.key)
    (peers : list PeerInfo) (h : Heap) (bh : BundleHeap) (w : W) (s : SprayAndWaitRouting)
  : option (Heap * BundleHeap * W * SprayAndWaitRouting) :=
  match peers with
  | [] => Some (h, bh, w, s)
  | peer :: peers' =>
      let destinationEID :=
        PrimaryBlock.GetDestinationEID (Bundle.GetPrimaryBlock (deref_bundle bh bundle)) in
      if EndpointID.eqb (nodeID peer) destinationEID then
        match m_bundles (base s) !! k with
        | Some d =>
            if negb (SentTo d (nodeID peer)) then
              res <- SendBundle uninit h bh w (base s) bundle (nodeID peer) (endpoint peer) ;;
              let '(h', bh', w', r', _) := res in
              wait_peers uninit bundle k peers' h' bh' w' (set_base s r')
            else wait_peers uninit bundle k peers' h bh w s
        | None => wait_peers uninit bundle k peers' h bh w s
        end
      else wait_peers uninit bundle k peers' h bh w s
  end.

(** One forwarding attempt of the spray phase, for a peer that passed the
    filters: the copy count is decreased, the rest is split, the bundle is
    sent, and the table is set from the outcome.  The result carries the
    peer's share, the local share and whether [SendBundle] succeeded. *)
Definition spray_attempt (uninit : nat -> Z) (bundle : nat) (bundleId : BundleID.t)
    (peer : PeerInfo) (h : Heap) (bh : BundleHeap) (w : W) (s : SprayAndWaitRouting)
  : option (Heap * BundleHeap * W * SprayAndWaitRouting * (Z * Z * bool)) :=
  let '(s1, newCount) := DecreaseCopyCount s bundleId in
  let peerCopies := newCount / 2 in
  let localCopies := newCount - peerCopies in
  res <- SendBundle uninit h bh w (base s1) bundle (nodeID peer) (endpoint peer) ;;
  let '(h', bh', w', r', success) := res in
  let s2 := set_base s1 r' in
  if success
  then Some (h', bh', w', SetCopyCount s2 bundleId localCopies,
             (peerCopies, localCopies, true))
  else Some (h', bh', w', SetCopyCount s2 bundleId newCount,
             (peerCopies, localCopies, false)).

(** The spray-phase loop; it stops at the first success that leaves at most
    one local copy. *)
Fixpoint spray_peers (uninit : nat -> Z) (bundle : nat) (bundleId : BundleID.t)
    (peers : list PeerInfo) (h : Heap) (bh : BundleHeap) (w : W) (s : SprayAndWaitRouting)
  : option (Heap * BundleHeap * W * SprayAndWaitRouting) :=
  match peers with
  | [] => Some (h, bh, w, s)
  | peer :: peers' =>
      let destinationEID :=
        PrimaryBlock.GetDestinationEID (Bundle.GetPrimaryBlock (deref_bundle bh bundle)) in
      if EndpointID.eqb destinationEID (m_localNodeID (base s)) then
        spray_peers uninit bundle bundleId peers' h bh w s
      else if negb (EndpointID.eqb destinationEID (nodeID peer)) &&
              EndpointID.eqb (nodeID peer) (m_localNodeID (base s)) then
        spray_peers uninit bundle bundleId peers' h bh w s
      else if already_sent (base s) (BundleID.to_key bundleId) (nodeID peer) then
        spray_peers uninit bundle bundleId peers' h bh w s
      else
        res <- spray_attempt uninit bundle bundleId peer h bh w s ;;
        let '(h', bh', w', s', (_, localCopies, success)) := res in
        if success && (localCopies <=? 1) then Some (h', bh', w', s')
        else spray_peers uninit bundle bundleId peers' h' bh' w' s'
  end.

(** The bundle loop of [SprayAndWaitRouting::DispatchBundles]; each turn
    runs under a [lock_guard] on [m_bundlesMutex] taken at its top. *)
Fixpoint spray_bundles (uninit : nat -> Z) (now : ns3Time) (bundles : list nat)
    (activePeers : list PeerInfo) (h : Heap) (bh : BundleHeap) (w : W)
    (s : SprayAndWaitRouting)
  : option (Heap * BundleHeap * W * SprayAndWaitRouting) :=
  match bundles with
  | [] => Some (h, bh, w, s)
  | bundle :: bundles' =>
      let bundleId := Bundle.GetId (deref_bundle bh bundle) in
      r <- lock_bundles (base s) ;;
      let s := set_base s r in
      if descriptor_expired now (base s) (BundleID.to_key bundleId) then
        spray_bundles uninit now bundles' activePeers h bh w
                      (set_base s (unlock_bundles (base s)))
      else
        let copyCount := GetCopyCount s bundleId in
        res <- (if copyCount <=? 1
                then wait_peers uninit bundle (BundleID.to_key bundleId) activePeers h bh w s
                else spray_peers uninit bundle bundleId activePeers h bh w s) ;;
        let '(h', bh', w', s') := res in
        spray_bundles uninit now bundles' activePeers h' bh' w'
                      (set_base s' (unlock_bundles (base s')))
  end.

Definition SprayAndWaitRouting_DispatchBundles (uninit : nat -> Z) (now : ns3Time)
    (h : Heap) (bh : BundleHeap) (w : W) (s : SprayAndWaitRouting)
  : option (Heap * BundleHeap * W * SprayAndWaitRouting) :=
  spray_bundles uninit now (BundleStore.GetAll (m_store (base s)))
                (active_peers now (base s)) h bh w s.

(** *** Runs of the epidemic engine

    A run starts from [Initialize] and goes through the calls of the engine's
    interface; the heaps and the network are whatever they are at each call.
    [marked] lists, oldest first, the bundle (by its ID) and the source peer
    of every [NotifyNewBundle] call that stored its bundle. *)

Inductive run : list (BundleID.t * EndpointID.t) -> t -> Prop :=
| run_init store senders localNodeID :
    run [] (Initialize store senders localNodeID)
| run_notify marked r bh p source r' :
    run marked r ->
    EpidemicRouting_NotifyNewBundle bh r (Some p) source = Some (r', true) ->
    run (marked ++ [(Bundle.GetId (deref_bundle bh p), source)]) r'
| run_notify_refused marked r bh bundle source r' :
    run marked r ->
    EpidemicRouting_NotifyNewBundle bh r bundle source = Some (r', false) ->
    run marked r'
| run_peer_appeared marked r uninit now h bh w peer h' bh' w' r' :
    run marked r ->
    EpidemicRouting_NotifyPeerAppeared uninit now h bh w r peer = Some (h', bh', w', r') ->
    run marked r'
| run_peer_disappeared marked r peer :
    run marked r ->
    run marked (EpidemicRouting_NotifyPeerDisappeared r peer)
| run_dispatch marked r uninit now h bh w h' bh' w' r' :
    run marked r ->
    EpidemicRouting_DispatchBundles uninit now h bh w r = Some (h', bh', w', r') ->
    run marked r'
| run_store marked r store :
    (* the node shares the store and changes it on its own *)
    run marked r ->
    run marked (set_store r store).

(** Every peer in a sent-to set stands in the BundleSent trace. *)
Definition sent_to_recorded (r : t) : Prop :=
  forall k d p,
    m_bundles r !! k = Some d -> In p (sentNodes d) ->
    exists bundleId, BundleID.to_key bundleId = k /\ In (bundleId, p) (bundleSentTrace r).

(** Every peer in a sent-to set stands in the BundleSent trace or was the
    source peer of a [NotifyNewBundle] call for that bundle. *)
Definition sent_to_justified (marked : list (BundleID.t * EndpointID.t)) (r : t) : Prop :=
  forall k d p,
    m_bundles r !! k = Some d -> In p (sentNodes d) ->
    exists bundleId,
      BundleID.to_key bundleId = k /\
      (In (bundleId, p) (bundleSentTrace r) \/ In (bundleId, p) marked).

(** No send has been recorded, and [m_bundlesMutex] is in the given state. *)
Definition nothing_sent (owned : bool) (r : t) : Prop :=
  m_bundlesMutex r = owned /\ bundleSentTrace r = [] /\ m_sentBundles r = 0.

(** *** Runs of either engine

    The two routing engines, each with the state of the base class in it. *)
Inductive engine : Type :=
| Epidemic (r : t)
| SprayAndWait (s : SprayAndWaitRouting).

Definition engine_base (e : engine) : t :=
  match e with
  | Epidemic r => r
  | SprayAndWait s => base s
  end.

Definition with_base (e : engine) (r : t) : engine :=
  match e with
  | Epidemic _ => Epidemic r
  | SprayAndWait s => SprayAndWait (set_base s r)
  end.

(** [NotifyNewBundle] of the engine at hand, with the answer of the store's
    [Push], which [SprayAndWaitRouting::NotifyNewBundle] does not hand
    on. *)
Definition engine_NotifyNewBundle (bh : BundleHeap) (e : engine) (bundle : option nat)
    (source : EndpointID.t) : option (engine * bool) :=
  match e with
  | Epidemic r =>
      res <- EpidemicRouting_NotifyNewBundle bh r bundle source ;;
      let '(r', stored) := res in
      Some (Epidemic r', stored)
  | SprayAndWait s =>
      s' <- SprayAndWaitRouting_NotifyNewBundle bh s bundle source ;;
      Some (SprayAndWait s', snd (BundleStore.Push bh (m_store (base s)) bundle))
  end.

Definition engine_DispatchBundles (uninit : nat -> Z) (now : ns3Time)
    (h : Heap) (bh : BundleHeap) (w : W) (e : engine)
  : option (Heap * BundleHeap * W * engine) :=
  match e with
  | Epidemic r =>
      res <- EpidemicRouting_DispatchBundles uninit now h bh w r ;;
      let '(h', bh', w', r') := res in
      Some (h', bh', w', Epidemic r')
  | SprayAndWait s =>
      res <- SprayAndWaitRouting_DispatchBundles uninit now h bh w s ;;
      let '(h', bh', w', s') := res in
      Some (h', bh', w', SprayAndWait s')
  end.

(** [NotifyPeerAppeared] and [NotifyPeerDisappeared] are the same in both
    engines: the peer is stored and the bundles are dispatched, and the
    peer is erased. *)
Definition engine_NotifyPeerAppeared (uninit : nat -> Z) (now : ns3Time)
    (h : Heap) (bh : BundleHeap) (w : W) (e : engine) (peer : PeerInfo)
  : option (Heap * BundleHeap * W * engine) :=
  engine_DispatchBundles uninit now h bh w (with_base e (store_peer (engine_base e) peer)).

Definition engine_NotifyPeerDisappeared (e : engine) (peer : EndpointID.t) : engine :=
  with_base e (NotifyPeerDisappeared (engine_base e) peer).

(** A call of [SendBundle], a protected member of the base class, on the
    state of the engine. *)
Definition engine_SendBundle (uninit : nat -> Z) (h : Heap) (bh : BundleHeap) (w : W)
    (e : engine) (bundle : nat) (receiver0 : EndpointID.t) (endpoint0 : string)
  : option (Heap * BundleHeap * W * engine * bool) :=
  res <- SendBundle uninit h bh w (engine_base e) bundle receiver0 endpoint0 ;;
  let '(h', bh', w', r', ok) := res in
  Some (h', bh', w', with_base e r', ok).

(** The states an engine reaches.  A run starts from [Initialize] (for the
    spray-and-wait engine with its MaxCopies attribute set to any value)
    and goes through the calls of the engine's interface; the heaps and the
    network are whatever they are at each call.  [SendBundle] is a
    protected member: besides the dispatch loops of the two engines, which
    call it while they hold [m_bundlesMutex], a class derived from an engine
    can call it with the mutex free, and the runs include such calls.
    [marked] lists, oldest first, the bundle (by its ID) and the source
    peer of every [NotifyNewBundle] call that stored its bundle. *)
Inductive reach : list (BundleID.t * EndpointID.t) -> engine -> Prop :=
| reach_epidemic store senders localNodeID :
    reach [] (Epidemic (Initialize store senders localNodeID))
| reach_spray store senders localNodeID maxCopies :
    reach [] (SprayAndWait (mkSpray (Initialize store senders localNodeID) ∅ maxCopies))
| reach_notify marked e bh p source e' :
    reach marked e ->
    engine_NotifyNewBundle bh e (Some p) source = Some (e', true) ->
    reach (marked ++ [(Bundle.GetId (deref_bundle bh p), source)]) e'
| reach_notify_refused marked e bh bundle source e' :
    reach marked e ->
    engine_NotifyNewBundle bh e bundle source = Some (e', false) ->
    reach marked e'
| reach_peer_appeared marked e uninit now h bh w peer h' bh' w' e' :
    reach marked e ->
    engine_NotifyPeerAppeared uninit now h bh w e peer = Some (h', bh', w', e') ->
    reach marked e'
| reach_peer_disappeared marked e peer :
    reach marked e ->
    reach marked (engine_NotifyPeerDisappeared e peer)
| reach_dispatch marked e uninit now h bh w h' bh' w' e' :
    reach marked e ->
    engine_DispatchBundles uninit now h bh w e = Some (h', bh', w', e') ->
    reach marked e'
| reach_send marked e uninit h bh w bundle receiver0 endpoint0 h' bh' w' e' ok :
    reach marked e ->
    engine_SendBundle uninit h bh w e bundle receiver0 endpoint0 = Some (h', bh', w', e', ok) ->
    reach marked e'
| reach_store marked e store :
    (* the node shares the store and changes it on its own *)
    reach marked e ->
    reach marked (with_base e (set_store (engine_base e) store)).

End Engine.

End Routing.

(** ** Conditions and invariants the statements below are phrased with

    [Cbor::Encode] reserves 1024 bytes and writes a byte or text string at
    the start of that buffer, so a string beyond 1024 bytes ends the run.
    The first predicates describe objects the encoder can take. *)

(** A block both of whose byte strings fit. *)
Definition block_encodable (b : CanonicalBlock.t) : Prop :=
  (length (CanonicalBlock.m_data b) <= 1024)%nat /\
  (length (CanonicalBlock.m_crcValue b) <= 1024)%nat.

(** A block whose CRC can be computed: it asks for none, or its data fit. *)
Definition crc_computable (b : CanonicalBlock.t) : Prop :=
  CanonicalBlock.m_crcType b = CRCType.NO_CRC \/
  (length (CanonicalBlock.m_data b) <= 1024)%nat.

(** A primary block whose three endpoint IDs and CRC value fit. *)
Definition primary_encodable (b : PrimaryBlock.t) : Prop :=
  (String.length (EndpointID.ToString (PrimaryBlock.m_destinationEID b)) <= 1024)%nat /\
  (String.length (EndpointID.ToString (PrimaryBlock.m_sourceNodeEID b)) <= 1024)%nat /\
  (String.length (EndpointID.ToString (PrimaryBlock.m_reportToEID b)) <= 1024)%nat /\
  (length (PrimaryBlock.m_crcValue b) <= 1024)%nat.

(** A block reference of the bundle at hand: a live object that can be
    encoded. *)
Definition live_encodable (h : Heap) (p : nat) : Prop :=
  is_Some (h !! p) /\ block_encodable (deref h p).

(** The heap while fragments are built: [h0] is the heap at the call, the
    objects it holds are not written to, and every object made since can be
    encoded. *)
Definition grown_from (h0 h : Heap) : Prop :=
  h0 ⊆ h /\ forall p, h0 !! p = None -> block_encodable (deref h p).

(** Two heaps whose objects carry the same type, CRC type and data. *)
Definition same_content (h h' : Heap) : Prop :=
  forall p,
    CanonicalBlock.m_blockType (deref h' p) = CanonicalBlock.m_blockType (deref h p) /\
    CanonicalBlock.m_crcType (deref h' p) = CanonicalBlock.m_crcType (deref h p) /\
    CanonicalBlock.m_data (deref h' p) = CanonicalBlock.m_data (deref h p).

(** The primary block [FragmentBundle] gives the fragment at [offset] of a
    bundle [b] with [total] payload bytes, before its CRC is computed. *)
Definition fragment_primary (b : Bundle.t) (total offset : Z) : PrimaryBlock.t :=
  PrimaryBlock.SetTotalApplicationDataUnitLength
    (PrimaryBlock.SetFragmentOffset
       (PrimaryBlock.SetFragmentation (Bundle.m_primaryBlock b) true) offset)
    total.

(** The payload length of a fragment, as the coverage walk reads it. *)
Definition fragment_length (h : Heap) (bh : BundleHeap) (p : nat) : Z :=
  Z.of_nat (length (Bundle.GetPayload h (deref_bundle bh p))).

(** The order [TryReassemble] sorts the fragments by. *)
Definition offset_le (bh : BundleHeap) (p q : nat) : Prop :=
  FragmentationManager.fragment_offset bh p <= FragmentationManager.fragment_offset bh q.

(** Byte [x] of the data unit lies in the fragment [f]. *)
Definition holds_byte (h : Heap) (bh : BundleHeap) (f : nat) (x : nat) : Prop :=
  (Z.to_nat (FragmentationManager.fragment_offset bh f) <= x <
   Z.to_nat (FragmentationManager.fragment_offset bh f) +
   length (Bundle.GetPayload h (deref_bundle bh f)))%nat.

(** The fragments lie within a data unit of [total] bytes and leave no byte
    of it out. *)
Definition fragments_cover (h : Heap) (bh : BundleHeap) (frags : list nat) (total : Z)
  : Prop :=
  (forall f, In f frags ->
     0 <= FragmentationManager.fragment_offset bh f /\
     FragmentationManager.fragment_offset bh f + fragment_length h bh f <= total) /\
  (forall x, 0 <= x < total ->
     exists f, In f frags /\
       FragmentationManager.fragment_offset bh f <= x <
       FragmentationManager.fragment_offset bh f + fragment_length h bh f).

(** A fragment whose CRCs can be computed: its primary block encodes, and
    each of its blocks has no CRC or at most 1024 bytes of data. *)
Definition fragment_crc_computable (h : Heap) (bh : BundleHeap) (f : nat) : Prop :=
  primary_encodable (Bundle.m_primaryBlock (deref_bundle bh f)) /\
  forall blk, In blk (Bundle.m_canonicalBlocks (deref_bundle bh f)) ->
              crc_computable (deref h blk).

(** ** Concrete inputs used by the worked examples *)

(** An allocator that hands out zeroed memory. *)
Definition zero_fill : nat -> Z := fun _ => 0.

(** [Bundle::FromCbor (b.ToCbor ())]: [Some None] is a run that ends with
    [std::nullopt]. *)
Definition decode_encoded (uninit : nat -> Z) (h : Heap) (b : Bundle.t)
  : option (option Bundle.t) :=
  buffer <- Bundle.ToCbor uninit h b ;;
  r <- Bundle.FromCbor uninit h buffer ;;
  Some (snd r).

(** A bundle as [MustNewBundle] builds it: three payload bytes, CRC-32 on
    both blocks, a creation timestamp with 500 nanoseconds. *)
Definition example_bundle : option (Heap * Bundle.t) :=
  Bundle.MustNewBundle zero_fill ∅ "dtn://a/" "dtn://b/" (DtnTime.mk 1000 500)
                       3600000000000 [1; 2; 3].

(** The check input of the CRC catalogues, the ASCII digits 1 to 9. *)
Definition check_input : list Z := bytes_of_string "123456789".

(** A bundle without canonical blocks from node a to node b, created at
    DTN time 1000 s with a lifetime of 5 s. *)
Definition bundle_a : Bundle.t :=
  Bundle.mk
    (PrimaryBlock.mk 7 0 0 (EndpointID.of_string "dtn://b/") (EndpointID.of_string "dtn://a/")
       EndpointID.none (DtnTime.mk 1000 0) 0 5000000000 0 0 [])
    [].

(** [bundle_a] behind the reference 7. *)
Definition bundle_heap_a : BundleHeap := {[ 7%nat := bundle_a ]}.

Definition node_a : EndpointID.t := EndpointID.of_string "dtn://a/".

Definition node_r : EndpointID.t := EndpointID.of_string "dtn://r/".

(** Peer r, last seen at 1000 s of simulation time. *)
Definition peer_r : Routing.PeerInfo :=
  Routing.mkPeer node_r 1000000000000 1000000000000 true "tcp" "10.0.0.2:4556".

(** Convergence layers over a network without state: every endpoint is
    reachable, and every transmission fails, respectively succeeds. *)
Definition failing_sender : @Routing.ConvergenceSender unit :=
  Routing.mkSender (fun _ _ => true) (fun w _ _ _ _ => (false, w)).

Definition working_sender : @Routing.ConvergenceSender unit :=
  Routing.mkSender (fun _ _ => true) (fun w _ _ _ _ => (true, w)).

(** A spray-and-wait engine at node a, its MaxCopies attribute set to
    [maxCopies], that has taken [bundle_a] from the local application (as
    [DtnNode::Send] hands it over, the source peer being the node itself)
    and has met peer r. *)
Definition spray_engine (maxCopies : Z) (sender : @Routing.ConvergenceSender unit)
  : option (@Routing.SprayAndWaitRouting unit MemoryBundleStore.t) :=
  let s0 := Routing.SprayAndWaitRouting_Initialize (MemoryBundleStore.create 0) [sender] node_a in
  s <- Routing.SprayAndWaitRouting_NotifyNewBundle bundle_heap_a
         (Routing.mkSpray (Routing.base s0) (Routing.m_copies s0) maxCopies)
         (Some 7%nat) node_a ;;
  Some (Routing.set_base s (Routing.store_peer (Routing.base s) peer_r)).

(** One [DispatchBundles] pass of that engine at 1001 s: the copy count of
    [bundle_a] before and after, and the sent and failed counters after. *)
Definition copies_after_dispatch (maxCopies : Z) (sender : @Routing.ConvergenceSender unit)
  : option (Z * Z * Z * Z) :=
  s <- spray_engine maxCopies sender ;;
  r <- Routing.SprayAndWaitRouting_DispatchBundles zero_fill 1001000000000 ∅ bundle_heap_a tt s ;;
  let s' := snd r in
  Some (Routing.GetCopyCount s (Bundle.GetId bundle_a),
        Routing.GetCopyCount s' (Bundle.GetId bundle_a),
        Routing.m_sentBundles (Routing.base s'),
        Routing.m_failedBundles (Routing.base s')).

(** A spray-and-wait engine whose table gives [bundle_a] five copies and
    whose only convergence layer fails. *)
Definition spray_state_five : @Routing.SprayAndWaitRouting unit MemoryBundleStore.t :=
  Routing.SetCopyCount
    (Routing.SprayAndWaitRouting_Initialize (MemoryBundleStore.create 0) [failing_sender] node_a)
    (Bundle.GetId bundle_a) 5.

(** An epidemic engine at node a right after [Initialize]. *)
Definition epidemic_engine : @Routing.t unit MemoryBundleStore.t :=
  Routing.Initialize (MemoryBundleStore.create 0) [working_sender] node_a.

(** An epidemic engine at node a whose only convergence layer fails. *)
Definition failing_engine : @Routing.t unit MemoryBundleStore.t :=
  Routing.Initialize (MemoryBundleStore.create 0) [failing_sender] node_a.

(** That engine after peer r has handed it [bundle_a]. *)
Definition epidemic_notified : @Routing.t unit MemoryBundleStore.t :=
  match Routing.EpidemicRouting_NotifyNewBundle bundle_heap_a epidemic_engine
          (Some 7%nat) node_r with
  | Some (r, _) => r
  | None => epidemic_engine
  end.

(** A bundle with ten payload bytes behind the reference 8; its payload
    block is the object 1. *)
Definition payload_heap : Heap :=
  {[ 1%nat := CanonicalBlock.PayloadBlock [1; 2; 3; 4; 5; 6; 7; 8; 9; 10] ]}.

Definition bundle_p : Bundle.t := Bundle.mk (Bundle.m_primaryBlock bundle_a) [1%nat].

Definition bundle_heap_p : BundleHeap := {[ 8%nat := bundle_p ]}.

(** [FragmentBundle] on that bundle with maximum fragment size [m]: for each
    fragment its offset, its total data unit length and its payload. *)
Definition fragments_of_bundle_p (m : Z) : option (list (Z * Z * list Z)) :=
  r <- FragmentationManager.FragmentBundle zero_fill payload_heap bundle_heap_p
         FragmentationManager.create 8%nat m ;;
  let '(h', bh', _, fragments) := r in
  Some (map (fun p =>
               let f := deref_bundle bh' p in
               (PrimaryBlock.GetFragmentOffset (Bundle.m_primaryBlock f),
                PrimaryBlock.GetTotalApplicationDataUnitLength (Bundle.m_primaryBlock f),
                Bundle.GetPayload h' f))
            fragments).

(** Deliveries to a fresh accumulator, one after the other; of each the
    payload of the bundle returned, if one is returned. *)
Fixpoint deliver (dtnNow : DtnTime.t) (h : Heap) (bh : BundleHeap)
    (st : FragmentationManager.t) (arrivals : list nat) : option (list (option (list Z))) :=
  match arrivals with
  | [] => Some []
  | p :: arrivals' =>
      r <- FragmentationManager.AddFragment zero_fill dtnNow h bh st (Some p) ;;
      let '(h', bh', st', reassembled) := r in
      rest <- deliver dtnNow h' bh' st' arrivals' ;;
      Some (option_map (fun q => Bundle.GetPayload h' (deref_bundle bh' q)) reassembled :: rest)
  end.

(** The fragments of [bundle_p] for a maximum fragment size of 8, delivered
    in the order [order] (positions in the list of fragments). *)
Definition fragment_and_deliver (order : list nat) : option (list (option (list Z))) :=
  r <- FragmentationManager.FragmentBundle zero_fill payload_heap bundle_heap_p
         FragmentationManager.create 8%nat 8 ;;
  let '(h', bh', st', fragments) := r in
  deliver (DtnTime.mk 1001 0) h' bh' st' (map (fun i => nth i fragments 0%nat) order).

(** Two fragments of a bundle with four payload bytes, behind the references
    10 and 11; their payload blocks are the objects 1 and 2. *)
Definition fragment_blocks : Heap :=
  {[ 1%nat := CanonicalBlock.PayloadBlock [1; 2];
     2%nat := CanonicalBlock.PayloadBlock [3; 4] ]}.

Definition two_fragments : BundleHeap :=
  {[ 10%nat := Bundle.mk (fragment_primary bundle_a 4 0) [1%nat];
     11%nat := Bundle.mk (fragment_primary bundle_a 4 2) [2%nat] ]}.

(** The accumulator after the fragment 10 has arrived, and the fragment set
    it holds then. *)
Definition first_delivery : FragmentationManager.t :=
  match FragmentationManager.AddFragment zero_fill (DtnTime.mk 1001 0) fragment_blocks
          two_fragments FragmentationManager.create (Some 10%nat) with
  | Some (_, _, st, _) => st
  | None => FragmentationManager.create
  end.

Definition first_set : FragmentationManager.FragmentInfo :=
  FragmentationManager.mkInfo
    (FragmentationManager.GetOriginalBundleId (DtnTime.mk 1001 0) two_fragments (Some 10%nat))
    4 [10%nat] 1005000000000 false.

(* ------------------------------------------------------------------ *)
(** ** Inputs and conditions of the further properties *)

(** A bundle whose primary block asks for CRC-16 and whose payload block,
    the object 1, asks for CRC-32. *)
Definition crc_heap : Heap :=
  {[ 1%nat := CanonicalBlock.SetCRCType (CanonicalBlock.PayloadBlock [1; 2; 3]) CRCType.CRC_32 ]}.

Definition crc_bundle : Bundle.t :=
  Bundle.mk
    (PrimaryBlock.mk 7 0 CRCType.CRC_16 (EndpointID.of_string "dtn://b/")
       (EndpointID.of_string "dtn://a/") EndpointID.none (DtnTime.mk 1000 0) 0 5000000000 0 0 [])
    [1%nat].

(** The flag getters of the primary block, each with its setter. *)
Definition bundle_flag_accessors
  : list ((PrimaryBlock.t -> bool) * (PrimaryBlock.t -> bool -> PrimaryBlock.t)) :=
  [(PrimaryBlock.RequestsBundleDeletionStatusReport, PrimaryBlock.SetBundleDeletionStatusReport);
   (PrimaryBlock.RequestsBundleDeliveryStatusReport, PrimaryBlock.SetBundleDeliveryStatusReport);
   (PrimaryBlock.RequestsBundleForwardingStatusReport,
    PrimaryBlock.SetBundleForwardingStatusReport);
   (PrimaryBlock.RequestsBundleReceptionStatusReport,
    PrimaryBlock.SetBundleReceptionStatusReport);
   (PrimaryBlock.MustNotFragment, PrimaryBlock.SetMustNotFragment);
   (PrimaryBlock.IsAdministrativeRecord, PrimaryBlock.SetAdministrativeRecord);
   (PrimaryBlock.HasFragmentation, PrimaryBlock.SetFragmentation)].

(** The flag getters of a canonical block, each with its setter. *)
Definition block_flag_accessors
  : list ((CanonicalBlock.t -> bool) * (CanonicalBlock.t -> bool -> CanonicalBlock.t)) :=
  [(CanonicalBlock.MustBeReplicated, CanonicalBlock.SetMustBeReplicated);
   (CanonicalBlock.ReportIfUnprocessable, CanonicalBlock.SetReportIfUnprocessable);
   (CanonicalBlock.DeleteBundleIfUnprocessable, CanonicalBlock.SetDeleteBundleIfUnprocessable);
   (CanonicalBlock.RemoveBlockIfUnprocessable, CanonicalBlock.SetRemoveBlockIfUnprocessable);
   (CanonicalBlock.StatusReportRequested, CanonicalBlock.SetStatusReportRequested)].

(** Every copy count in the table of a spray-and-wait engine is at least 1. *)
Definition copies_positive {W S : Type} (s : @Routing.SprayAndWaitRouting W S) : Prop :=
  forall k c, Routing.m_copies s !! k = Some c -> 1 <= c.

(** What a dispatch pass may do to the copy counts: keep them at 1 or
    above and never raise one. *)
Definition copies_shrink {W S : Type} (s s' : @Routing.SprayAndWaitRouting W S) : Prop :=
  copies_positive s' /\
  forall id, Routing.GetCopyCount s' id <= Routing.GetCopyCount s id.

(** A convergence layer that reaches no endpoint, over a network without
    state. *)
Definition unreachable_sender : @Routing.ConvergenceSender unit :=
  Routing.mkSender (fun _ _ => false) (fun w _ _ _ _ => (true, w)).

(** What building fragments and reassembling leaves of the objects a heap
    holds: each is still there, with its type and its data. *)
Definition heap_keeps (h h' : Heap) : Prop :=
  forall q, is_Some (h !! q) ->
    is_Some (h' !! q) /\
    CanonicalBlock.m_blockType (deref h' q) = CanonicalBlock.m_blockType (deref h q) /\
    CanonicalBlock.m_data (deref h' q) = CanonicalBlock.m_data (deref h q).

(** The part of a payload that the fragment at offset [offset] carries when
    the payload budget is [budget]. *)
Definition payload_chunk (budget offset : Z) (fullPayload : list Z) : list Z :=
  take (Z.to_nat budget) (drop (Z.to_nat offset) fullPayload).

(** The ID under which the fragments of [b] are collected. *)
Definition original_id (b : Bundle.t) : BundleID.t :=
  BundleID.mk (PrimaryBlock.GetSourceNodeEID (Bundle.m_primaryBlock b))
              (PrimaryBlock.GetCreationTimestamp (Bundle.m_primaryBlock b))
              (PrimaryBlock.GetSequenceNumber (Bundle.m_primaryBlock b))
              false 0.

(** Deliveries to the accumulator, one after the other; of each the payload
    of the bundle returned, if one is returned. *)
Fixpoint deliveries (uninit : nat -> Z) (dtnNow : DtnTime.t) (h : Heap) (bh : BundleHeap)
    (st : FragmentationManager.t) (arrivals : list nat) : option (list (option (list Z))) :=
  match arrivals with
  | [] => Some []
  | p :: arrivals' =>
      r <- FragmentationManager.AddFragment uninit dtnNow h bh st (Some p) ;;
      let '(h', bh', st', reassembled) := r in
      rest <- deliveries uninit dtnNow h' bh' st' arrivals' ;;
      Some (option_map (fun q => Bundle.GetPayload h' (deref_bundle bh' q)) reassembled :: rest)
  end.

(** The fragment set kept for [b] holds the fragments [delivered], in some
    order, and is not complete. *)
Definition collecting (b : Bundle.t) (total : Z) (delivered : list nat)
    (st : FragmentationManager.t) : Prop :=
  match FragmentationManager.m_fragmentSets st !! BundleID.to_key (original_id b) with
  | None => delivered = []
  | Some info =>
      Permutation (FragmentationManager.fragments info) delivered /\
      (delivered <> [] ->
       FragmentationManager.totalLength info = total /\
       FragmentationManager.complete info = false)
  end.
(** The heap of [bundle_p] with one more object: an extension block of
    type 192 that has no number yet. *)
Definition unnumbered_heap : Heap :=
  <[2%nat := CanonicalBlock.make 192 0 BlockControlFlags.NO_FLAGS CRCType.NO_CRC [9]]>
    payload_heap.

(** A descriptor of [bundle_a], bound for node b, that lists node a as
    sent to. *)
Definition descriptor_a : Routing.BundleDescriptor :=
  Routing.mkDescriptor (Bundle.GetId bundle_a) (EndpointID.of_string "dtn://b/") [node_a]
                       6000000000000.

(** Epidemic engines at node a: one whose only convergence layer reaches
    no endpoint, and one with a failing layer before a working one. *)
Definition unreachable_engine : @Routing.t unit MemoryBundleStore.t :=
  Routing.Initialize (MemoryBundleStore.create 0) [unreachable_sender] node_a.

Definition two_layer_engine : @Routing.t unit MemoryBundleStore.t :=
  Routing.Initialize (MemoryBundleStore.create 0) [failing_sender; working_sender] node_a.

(** The engine [epidemic_notified] after peer r has handed it [bundle_a] a
    second time. *)
Definition epidemic_notified_again : @Routing.t unit MemoryBundleStore.t :=
  match Routing.NotifyNewBundle bundle_heap_a epidemic_notified (Some 7%nat) node_r with
  | Some (r, _) => r
  | None => epidemic_notified
  end.

(** The spray-and-wait engine with five copies of [bundle_a] and a failing
    convergence layer, and what a [DispatchBundles] pass at 1001 s makes of
    the heaps, the network and the engine. *)
Definition spray_five : @Routing.SprayAndWaitRouting unit MemoryBundleStore.t :=
  match spray_engine 5 failing_sender with
  | Some s => s
  | None => Routing.SprayAndWaitRouting_Initialize (MemoryBundleStore.create 0)
              [failing_sender] node_a
  end.

Definition spray_five_dispatched
  : Heap * BundleHeap * unit * @Routing.SprayAndWaitRouting unit MemoryBundleStore.t :=
  match Routing.SprayAndWaitRouting_DispatchBundles zero_fill 1001000000000 ∅ bundle_heap_a tt
          spray_five with
  | Some r => r
  | None => (∅, bundle_heap_a, tt, spray_five)
  end.

(** Whether [Encode] returns, and the size of what it returns, does not
    depend on what the allocator left in the buffers. *)
Definition same_shape (o o' : option Buffer.t) : Prop :=
  match o, o' with
  | Some b, Some b' => length b = length b'
  | None, None => True
  | _, _ => False
  end.

(** Two buffers the allocator hands out hold the same bytes behind the
    first, the one the array header goes to. *)
Definition same_memory (uninit uninit' : nat -> Z) : Prop :=
  forall i, (1 <= i < 1024)%nat -> uninit' i = uninit i.

(** The bundle of the fragmentation round trip the specification
    describes: [bundle_p] with a payload of 10 000 bytes. *)
Definition scenario_heap : Heap :=
  {[ 1%nat := CanonicalBlock.PayloadBlock (repeat 0 (Z.to_nat 10000)) ]}.

Definition node_c : EndpointID.t := EndpointID.of_string "dtn://c/".

(** The engine [epidemic_notified] after a call of [SendBundle] for
    [bundle_a] and node c that found [m_bundlesMutex] free. *)
Definition epidemic_sent : @Routing.t unit MemoryBundleStore.t :=
  match Routing.SendBundle zero_fill ∅ bundle_heap_a tt epidemic_notified 7%nat node_c
          "10.0.0.3:4556" with
  | Some (_, _, _, r, _) => r
  | None => epidemic_notified
  end.

(** * Properties *)
(* ------------------------------------------------------------------ *)

(** ** The codec *)

Lemma Write_0_length data b b' :
  Buffer.Write 0 data b = Some b' -> length b' = length b.
Proof.
  unfold Buffer.Write. case_decide; [|discriminate]. intros [= <-].
  simpl in *. rewrite length_app, length_drop. lia.
Qed.

Lemma Write_0_ok data b :
  (length data <= length b)%nat ->
  Buffer.Write 0 data b = Some (data ++ drop (length data) b).
Proof.
  intros Hle. unfold Buffer.Write. case_decide; [|simpl in *; lia]. reflexivity.
Qed.

Lemma header_roundtrip_table :
  forallb (fun mt => forallb (fun y =>
     Z.eqb (fst (Cbor.DecodeHeader (Cbor.EncodeHeader mt y))) mt)
     (map Z.of_nat (seq 0 32))) (map Z.of_nat (seq 0 8)) = true.
Proof. vm_compute. reflexivity. Qed.

Lemma EncodeHeader_land majorType additionalInfo :
  Cbor.EncodeHeader majorType additionalInfo =
  Cbor.EncodeHeader majorType (Z.land additionalInfo 31).
Proof.
  unfold Cbor.EncodeHeader. f_equal. f_equal.
  rewrite <- Z.land_assoc. reflexivity.
Qed.

Lemma DecodeHeader_EncodeHeader majorType additionalInfo :
  0 <= majorType < 8 ->
  fst (Cbor.DecodeHeader (Cbor.EncodeHeader majorType additionalInfo)) = majorType.
Proof.
  intros Hm. rewrite EncodeHeader_land.
  assert (Hy : 0 <= Z.land additionalInfo 31 < 32).
  { split; [apply Z.land_nonneg; lia|].
    change 31 with (Z.ones 5). rewrite Z.land_ones by lia. apply Z.mod_pos_bound. lia. }
  set (y := Z.land additionalInfo 31) in *.
  pose proof header_roundtrip_table as T.
  rewrite forallb_forall in T.
  specialize (T majorType).
  assert (In majorType (map Z.of_nat (seq 0 8))) as Hin.
  { apply in_map_iff. exists (Z.to_nat majorType). split; [lia|]. apply in_seq. lia. }
  specialize (T Hin). rewrite forallb_forall in T.
  specialize (T y).
  assert (In y (map Z.of_nat (seq 0 32))) as Hin2.
  { apply in_map_iff. exists (Z.to_nat y). split; [lia|]. apply in_seq. lia. }
  specialize (T Hin2). now apply Z.eqb_eq in T.
Qed.

Lemma fresh_buffer_length uninit n :
  length (Buffer.AddAtStart uninit n []) = n.
Proof. unfold Buffer.AddAtStart. rewrite length_app, length_map, length_seq. simpl. lia. Qed.

Lemma EncodeUnsigned_length buffer majorType value b :
  Cbor.EncodeUnsigned buffer majorType value = Some b -> length b = length buffer.
Proof.
  unfold Cbor.EncodeUnsigned.
  repeat match goal with |- context [if ?c then _ else _] => destruct c end;
    apply Write_0_length.
Qed.

Lemma EncodeUnsigned_ok buffer majorType value :
  (9 <= length buffer)%nat ->
  exists b, Cbor.EncodeUnsigned buffer majorType value = Some b /\
            length b = length buffer /\
            exists additionalInfo, Buffer.ReadU8 0 b = Cbor.EncodeHeader majorType additionalInfo.
Proof.
  intros Hlen. unfold Cbor.EncodeUnsigned.
  repeat match goal with |- context [if ?c then _ else _] => destruct c end;
  (rewrite Write_0_ok by (simpl; lia);
   eexists; split; [reflexivity|]; split;
   [ rewrite length_app, length_drop; simpl; lia
   | eexists; reflexivity ]).
Qed.

Lemma Decode_major_other b majorType additionalInfo :
  (1 <= length b)%nat ->
  Buffer.ReadU8 0 b = Cbor.EncodeHeader majorType additionalInfo ->
  2 <= majorType < 8 ->
  Cbor.Decode b = None.
Proof.
  intros Hlen Hhd Hm. unfold Cbor.Decode.
  destruct (Buffer.GetSize b =? 0) eqn:E; [reflexivity|].
  rewrite Hhd.
  pose proof (DecodeHeader_EncodeHeader majorType additionalInfo ltac:(lia)) as Hd.
  destruct (Cbor.DecodeHeader _) as [mt ai]. simpl in Hd. subst mt.
  destruct (majorType =? 0) eqn:E0; [apply Z.eqb_eq in E0; lia|].
  destruct (majorType =? 1) eqn:E1; [apply Z.eqb_eq in E1; lia|].
  reflexivity.
Qed.

(** Whatever [Encode] returns is a buffer of 1024 bytes. *)
Lemma Encode_length uninit value b :
  Cbor.Encode uninit value = Some b -> length b = 1024%nat.
Proof.
  pose proof (fresh_buffer_length uninit 1024) as Hf.
  destruct value; simpl; intros Hb.
  - apply EncodeUnsigned_length in Hb. congruence.
  - apply EncodeUnsigned_length in Hb. congruence.
  - destruct (Cbor.EncodeUnsigned _ _ _) eqn:E; [|discriminate].
    apply EncodeUnsigned_length in E. apply Write_0_length in Hb. congruence.
  - destruct (Cbor.EncodeUnsigned _ _ _) eqn:E; [|discriminate].
    apply EncodeUnsigned_length in E. apply Write_0_length in Hb. congruence.
  - destruct (Cbor.EncodeUnsigned _ _ _) eqn:E; [|discriminate].
    apply EncodeUnsigned_length in E.
    match type of Hb with match ?x with _ => _ end = _ => destruct x; [|discriminate] end.
    injection Hb as <-. congruence.
  - destruct (Cbor.EncodeUnsigned _ _ _) eqn:E; [|discriminate].
    apply EncodeUnsigned_length in E.
    match type of Hb with match ?x with _ => _ end = _ => destruct x; [|discriminate] end.
    injection Hb as <-. congruence.
  - destruct (Cbor.EncodeUnsigned _ _ _) eqn:E; [|discriminate].
    apply EncodeUnsigned_length in E.
    match type of Hb with match ?x with _ => _ end = _ => destruct x; [|discriminate] end.
    injection Hb as <-. congruence.
  - destruct (v <=? 23); apply Write_0_length in Hb; congruence.
  - injection Hb as <-. exact Hf.
Qed.

Lemma Encode_size uninit value b :
  Cbor.Encode uninit value = Some b -> Buffer.GetSize b = 1024.
Proof. intros Hb. unfold Buffer.GetSize. now rewrite (Encode_length _ _ _ Hb). Qed.

(** The decoder refuses whatever [Encode] produced for an array. *)
Lemma Decode_Encode_array uninit array b :
  Cbor.Encode uninit (Cbor.CborArray array) = Some b -> Cbor.Decode b = None.
Proof.
  intros Hb. pose proof (Encode_length _ _ _ Hb) as Hlen. simpl in Hb.
  destruct (EncodeUnsigned_ok (Buffer.AddAtStart uninit 1024 []) 4 (Z.of_nat (length array)))
    as (b0 & E & _ & ai & Hhd).
  { rewrite fresh_buffer_length. lia. }
  rewrite E in Hb.
  match type of Hb with match ?x with _ => _ end = _ => destruct x; [|discriminate] end.
  injection Hb as <-.
  apply (Decode_major_other b0 4 ai); [lia|exact Hhd|lia].
Qed.

(** An array encodes as soon as each of its items does. *)
Lemma Encode_array_ok uninit array :
  Forall (fun item => is_Some (Cbor.Encode uninit item)) array ->
  is_Some (Cbor.Encode uninit (Cbor.CborArray array)).
Proof.
  intros Hall. simpl.
  destruct (EncodeUnsigned_ok (Buffer.AddAtStart uninit 1024 []) 4 (Z.of_nat (length array)))
    as (b0 & E & _).
  { rewrite fresh_buffer_length. lia. }
  rewrite E.
  assert ((fix items (l : list Cbor.CborValue) : option unit :=
             match l with
             | [] => Some tt
             | item :: l' => match Cbor.Encode uninit item with
                             | Some _ => items l'
                             | None => None
                             end
             end) array = Some tt) as ->.
  { clear E. induction Hall as [|item l [bi Hi] _ IH]; [reflexivity|]. rewrite Hi. exact IH. }
  eauto.
Qed.

Lemma Encode_unsigned_ok uninit v : is_Some (Cbor.Encode uninit (Cbor.CborUnsigned v)).
Proof.
  simpl. destruct (EncodeUnsigned_ok (Buffer.AddAtStart uninit 1024 []) 0 v) as (b0 & E & _).
  { rewrite fresh_buffer_length. lia. }
  rewrite E. eauto.
Qed.

Lemma Encode_of_int64_ok uninit v : is_Some (Cbor.Encode uninit (Cbor.of_int64 v)).
Proof.
  unfold Cbor.of_int64. destruct (0 <=? v); [apply Encode_unsigned_ok|].
  simpl. destruct (EncodeUnsigned_ok (Buffer.AddAtStart uninit 1024 []) 1 (u64 (-1 - v)))
    as (b0 & E & _).
  { rewrite fresh_buffer_length. lia. }
  rewrite E. eauto.
Qed.

Lemma Encode_bytes_ok uninit bytes :
  (length bytes <= 1024)%nat -> is_Some (Cbor.Encode uninit (Cbor.CborByteString bytes)).
Proof.
  intros Hle. simpl.
  destruct (EncodeUnsigned_ok (Buffer.AddAtStart uninit 1024 []) 2 (Z.of_nat (length bytes)))
    as (b0 & E & Hlen & _).
  { rewrite fresh_buffer_length. lia. }
  rewrite E. rewrite fresh_buffer_length in Hlen.
  rewrite Write_0_ok by lia. eauto.
Qed.

Lemma bytes_of_string_length s : length (bytes_of_string s) = String.length s.
Proof.
  unfold bytes_of_string. rewrite length_map.
  induction s; simpl; congruence.
Qed.

Lemma Encode_text_ok uninit text :
  (String.length text <= 1024)%nat -> is_Some (Cbor.Encode uninit (Cbor.CborTextString text)).
Proof.
  intros Hle. simpl.
  destruct (EncodeUnsigned_ok (Buffer.AddAtStart uninit 1024 []) 3
              (Z.of_nat (String.length text))) as (b0 & E & Hlen & _).
  { rewrite fresh_buffer_length. lia. }
  rewrite E. rewrite fresh_buffer_length in Hlen.
  rewrite Write_0_ok by (rewrite bytes_of_string_length; lia). eauto.
Qed.

Lemma PrimaryBlock_ToCbor_undecodable uninit b buffer :
  PrimaryBlock.ToCbor uninit b = Some buffer -> Cbor.Decode buffer = None.
Proof. apply Decode_Encode_array. Qed.

Lemma CanonicalBlock_ToCbor_undecodable uninit b buffer :
  CanonicalBlock.ToCbor uninit b = Some buffer -> Cbor.Decode buffer = None.
Proof. apply Decode_Encode_array. Qed.

Lemma ToCbor_blocks_keeps_array uninit h blocks array array' :
  Bundle.ToCbor_blocks uninit h blocks array = Some array' -> array' = array.
Proof.
  revert array. induction blocks as [|block blocks IH]; simpl; intros array Hr.
  - congruence.
  - destruct (CanonicalBlock.ToCbor uninit (deref h block)) as [buffer|] eqn:E; [|discriminate].
    rewrite (CanonicalBlock_ToCbor_undecodable _ _ _ E) in Hr. now apply IH.
Qed.

(** What [Bundle::ToCbor] returns is the encoding of the empty array. *)
Lemma Bundle_ToCbor_empty_array uninit h b buffer :
  Bundle.ToCbor uninit h b = Some buffer ->
  Cbor.Encode uninit (Cbor.CborArray []) = Some buffer.
Proof.
  unfold Bundle.ToCbor. intros Hb.
  destruct (PrimaryBlock.ToCbor uninit _) as [pb|] eqn:Ep; [|discriminate].
  rewrite (PrimaryBlock_ToCbor_undecodable _ _ _ Ep) in Hb.
  destruct (Bundle.ToCbor_blocks _ _ _ _) as [array|] eqn:Ea; [|discriminate].
  apply ToCbor_blocks_keeps_array in Ea. now subst array.
Qed.

Lemma Bundle_ToCbor_size uninit h b buffer :
  Bundle.ToCbor uninit h b = Some buffer -> Buffer.GetSize buffer = 1024.
Proof. intros Hb. apply Bundle_ToCbor_empty_array in Hb. now apply Encode_size in Hb. Qed.

Lemma FromCbor_ToCbor_is_nullopt uninit h h' b :
  match Bundle.ToCbor uninit h b with
  | Some buffer => Bundle.FromCbor uninit h' buffer = Some (h', None)
  | None => True
  end.
Proof.
  destruct (Bundle.ToCbor uninit h b) as [buffer|] eqn:E; [|exact I].
  apply Bundle_ToCbor_empty_array in E. apply Decode_Encode_array in E.
  unfold Bundle.FromCbor. now rewrite E.
Qed.

(** C2 (code defect).  The bundle [MustNewBundle] builds for three payload
    bytes encodes without trouble, and decoding the bytes [ToCbor] produced
    ends in [std::nullopt]: no bundle comes back, so neither the bundle nor
    its Bundle ID survives the round trip. *)
Theorem FromCbor_ToCbor_example_is_nullopt :
  (r <- example_bundle ;; decode_encoded zero_fill (fst r) (snd r)) = Some None.
Proof. vm_compute. reflexivity. Qed.

(** ** The CRC primitives *)

(** C3 (code defect).  On the check input the code returns 0xF28417BE; the
    CRC-32/Castagnoli checksum of that input is 0xE3069283. *)
Theorem CalculateCRC32_is_not_castagnoli :
  Crc.CalculateCRC32 check_input = 0xF28417BE /\
  Crc32Castagnoli.checksum check_input = 0xE3069283.
Proof. split; vm_compute; reflexivity. Qed.

(** ** The bundle store *)

Lemma EndpointID_eqb_eq a b :
  EndpointID.eqb a b = true <-> EndpointID.m_uri a = EndpointID.m_uri b.
Proof. unfold EndpointID.eqb. apply String.eqb_eq. Qed.

Lemma DtnTime_eqb_eq a b : DtnTime.eqb a b = true <-> a = b.
Proof.
  unfold DtnTime.eqb. rewrite andb_true_iff, !Z.eqb_eq.
  destruct a, b; simpl. split; [intros [-> ->]; reflexivity | intros [= -> ->]; auto].
Qed.

(** [operator==] on Bundle IDs holds exactly between identifiers of one key. *)
Lemma BundleID_eqb_key a b :
  BundleID.eqb a b = true <-> BundleID.to_key a = BundleID.to_key b.
Proof.
  unfold BundleID.eqb, BundleID.to_key.
  destruct a as [sa [sa1 sa2] qa fa oa], b as [sb [sb1 sb2] qb fb ob]; simpl.
  destruct (Bool.eqb fa fb) eqn:Ef; simpl.
  2:{ apply eqb_false_iff in Ef. split; [discriminate|]. intros [=]. congruence. }
  apply eqb_prop in Ef. subst fb.
  destruct (EndpointID.eqb sa sb) eqn:Es; simpl.
  2:{ split; [discriminate|]. intros [= Hu]. apply EndpointID_eqb_eq in Hu. congruence. }
  apply EndpointID_eqb_eq in Es.
  unfold DtnTime.eqb; simpl.
  destruct (sa1 =? sb1) eqn:E1; simpl.
  2:{ apply Z.eqb_neq in E1. split; [discriminate|]. intros [=]. congruence. }
  destruct (sa2 =? sb2) eqn:E2; simpl.
  2:{ apply Z.eqb_neq in E2. split; [discriminate|]. intros [=]. congruence. }
  destruct (qa =? qb) eqn:Eq; simpl.
  2:{ apply Z.eqb_neq in Eq. split; [discriminate|]. intros [=]. congruence. }
  apply Z.eqb_eq in E1, E2, Eq. subst.
  destruct fa; simpl.
  - destruct (oa =? ob) eqn:Eo; simpl.
    + apply Z.eqb_eq in Eo. subst. rewrite Es. tauto.
    + apply Z.eqb_neq in Eo. split; [discriminate|]. intros [=]. congruence.
  - rewrite Es. tauto.
Qed.

Lemma BundleID_eqb_key_false a b :
  BundleID.eqb a b = false <-> BundleID.to_key a <> BundleID.to_key b.
Proof.
  rewrite <- BundleID_eqb_key. destruct (BundleID.eqb a b); split; congruence.
Qed.

(** C1, the case the code decides otherwise: a store that already holds
    [bundle_a] takes a second [Push] of it and returns true, in the cited
    revision and in the one with the MaxBundles attribute. *)
Lemma Push_accepts_duplicate :
  let st1 := fst (MemoryBundleStore.Push bundle_heap_a (MemoryBundleStore.create 0)
                                         (Some 7%nat)) in
  let st2 := fst (MemoryBundleStoreMax.Push bundle_heap_a (MemoryBundleStoreMax.create 0)
                                            (Some 7%nat)) in
  MemoryBundleStore.Has st1 (Bundle.GetId bundle_a) = true /\
  snd (MemoryBundleStore.Push bundle_heap_a st1 (Some 7%nat)) = true /\
  MemoryBundleStoreMax.Has st2 (Bundle.GetId bundle_a) = true /\
  snd (MemoryBundleStoreMax.Push bundle_heap_a st2 (Some 7%nat)) = true.
Proof. vm_compute. repeat split. Qed.

(** C1 as the code has it.  [Push] of a bundle (a non-null reference) in the
    cited revision always returns true and leaves the bundle stored under
    its Bundle ID, whether or not that ID was present; every other ID keeps
    what it had.  The revision with the MaxBundles attribute returns false
    and leaves the store as it was exactly when the store already holds at
    least that many bundles; otherwise it behaves like the first. *)
Theorem Push_stores_unless_full (bh : BundleHeap) (p : nat) :
  let id := Bundle.GetId (deref_bundle bh p) in
  (forall st : MemoryBundleStore.t,
     let st' := fst (MemoryBundleStore.Push bh st (Some p)) in
     snd (MemoryBundleStore.Push bh st (Some p)) = true /\
     snd (MemoryBundleStore.Get st' id) = Some p /\
     (forall id', BundleID.eqb id' id = false ->
        snd (MemoryBundleStore.Get st' id') = snd (MemoryBundleStore.Get st id'))) /\
  (forall st : MemoryBundleStoreMax.t,
     let st' := fst (MemoryBundleStoreMax.Push bh st (Some p)) in
     if MemoryBundleStoreMax.Count st >=? MemoryBundleStoreMax.m_maxBundles st
     then MemoryBundleStoreMax.Push bh st (Some p) = (st, false)
     else snd (MemoryBundleStoreMax.Push bh st (Some p)) = true /\
          snd (MemoryBundleStoreMax.Get st' id) = Some p /\
          (forall id', BundleID.eqb id' id = false ->
             snd (MemoryBundleStoreMax.Get st' id') = snd (MemoryBundleStoreMax.Get st id'))).
Proof.
  intros id. split; intros st st'.
  - subst st'. unfold MemoryBundleStore.Push, MemoryBundleStore.Get. simpl. fold id.
    split; [reflexivity|]. split.
    + rewrite lookup_insert_eq. reflexivity.
    + intros id' Hne. apply BundleID_eqb_key_false in Hne.
      rewrite lookup_insert_ne by congruence.
      destruct (MemoryBundleStore.m_bundles st !! BundleID.to_key id'); reflexivity.
  - subst st'. unfold MemoryBundleStoreMax.Push, MemoryBundleStoreMax.Get,
      MemoryBundleStoreMax.Count. fold id.
    destruct (Z.of_nat (size (MemoryBundleStoreMax.m_bundles st)) >=?
              MemoryBundleStoreMax.m_maxBundles st) eqn:E; [reflexivity|].
    simpl. split; [reflexivity|]. split.
    + rewrite lookup_insert_eq. reflexivity.
    + intros id' Hne. apply BundleID_eqb_key_false in Hne.
      rewrite lookup_insert_ne by congruence.
      destruct (MemoryBundleStoreMax.m_bundles st !! BundleID.to_key id'); reflexivity.
Qed.

(** C4, the case the code decides otherwise: [bundle_a] expires 1005 s after
    the DTN epoch; at 2000 s [IsExpired] holds of it and [Get] still returns
    its reference. *)
Lemma Get_returns_expired :
  let st1 := fst (MemoryBundleStore.Push bundle_heap_a (MemoryBundleStore.create 0)
                                         (Some 7%nat)) in
  MemoryBundleStore.IsExpired 2000000000000 bundle_heap_a 7 = true /\
  snd (MemoryBundleStore.Get st1 (Bundle.GetId bundle_a)) = Some 7%nat.
Proof. vm_compute. repeat split. Qed.

(** C4 as the code has it.  [Get] returns whatever reference the table
    holds under the ID, and absence when it holds none; the clock and the
    bundle's lifetime play no part.  Expired bundles leave the store through
    [Cleanup] only: what [Get] finds after a [Cleanup] it found before, and
    it is not expired at the time of that [Cleanup]. *)
Theorem Get_ignores_expiry (st : MemoryBundleStore.t) (id : BundleID.t) :
  snd (MemoryBundleStore.Get st id) = MemoryBundleStore.m_bundles st !! BundleID.to_key id /\
  (forall now bh p,
     snd (MemoryBundleStore.Get (fst (MemoryBundleStore.Cleanup now bh st)) id) = Some p ->
     snd (MemoryBundleStore.Get st id) = Some p /\ MemoryBundleStore.IsExpired now bh p = false).
Proof.
  split.
  - unfold MemoryBundleStore.Get. destruct (_ !! _); reflexivity.
  - intros now bh p. unfold MemoryBundleStore.Get, MemoryBundleStore.Cleanup. simpl.
    destruct (filter _ _ !! _) as [q|] eqn:E; simpl; [|discriminate].
    intros [= ->]. apply map_lookup_filter_Some in E as [E1 E2]. simpl in E2.
    rewrite E1. simpl. auto.
Qed.

(** ** Spray and wait *)

Section SprayAttempt.
Context {W S : Type}.

Lemma GetCopyCount_SetCopyCount (s : @Routing.SprayAndWaitRouting W S) id c :
  Routing.GetCopyCount (Routing.SetCopyCount s id c) id = c.
Proof.
  unfold Routing.GetCopyCount, Routing.SetCopyCount. simpl. now rewrite lookup_insert_eq.
Qed.

(** What is left after the decrement is split in two shares, and the local
    one is never empty. *)
Lemma local_share_positive c : 1 < c -> 0 < (c - 1) - (c - 1) / 2.
Proof.
  intros Hc. pose proof (Z.div_mod (c - 1) 2). pose proof (Z.mod_pos_bound (c - 1) 2). lia.
Qed.

End SprayAttempt.

(** C5 (code defect).  The engine holds [bundle_a] with six copies and
    meets peer r over a convergence layer whose transmissions fail.  After
    the dispatch pass nothing was sent, one failure was counted, and the
    copy-count table gives the bundle five copies, not six. *)
Theorem failed_send_spends_a_copy :
  copies_after_dispatch 6 failing_sender = Some (6, 5, 0, 1).
Proof. vm_compute. reflexivity. Qed.

(** C6 (code defect).  The engine holds [bundle_a] with five copies and
    meets peer r over a convergence layer whose transmissions succeed.  The
    dispatch pass does not return: after the successful [Send], [SendBundle]
    locks [m_bundlesMutex], which [DispatchBundles] holds since the top of
    its turn for the bundle.  No copy count is set from a successful
    forwarding. *)
Theorem successful_spray_never_returns :
  copies_after_dispatch 5 working_sender = None.
Proof. vm_compute. reflexivity. Qed.

Section SprayOutcome.
Context {W S : Type}.

(** Under [m_bundlesMutex], as every call from [DispatchBundles] is,
    [SendBundle] returns only to report a failure. *)
Lemma SendBundle_senders_under_lock uninit senders h bh (w : W) (r : @Routing.t W S)
    bundle receiver0 endpoint0 h' bh' w' r' ok :
  Routing.m_bundlesMutex r = true ->
  Routing.SendBundle_senders uninit senders h bh w r bundle receiver0 endpoint0
    = Some (h', bh', w', r', ok) ->
  ok = false /\ r' = Routing.count_failed r.
Proof.
  intros Hlock. induction senders as [|sender senders IH]; simpl.
  - intros [= <- <- <- <- <-]. auto.
  - destruct (Routing.IsEndpointReachable sender w endpoint0); [|exact IH].
    destruct (Routing.stamp_previous_node _ _ _ _ _) as [[h1 bh1]|]; [|discriminate].
    destruct (Routing.Send sender w h1 bh1 bundle endpoint0) as [success w1].
    destruct success.
    + unfold Routing.lock_bundles. rewrite Hlock. discriminate.
    + intros [= <- <- <- <- <-]. auto.
Qed.

(** What a forwarding attempt of the spray phase leaves, in the terms of
    what [SendBundle] returns: the count [c > 1] is decremented first, the
    peer's share is half of the rest (rounded down), the local share what
    remains, and the local share is positive.  After a failure the table
    holds the decremented count; a success, where [SendBundle] can report
    one, leaves the local share. *)
Theorem spray_attempt_outcome uninit bundle bundleId peer h bh (w : W)
    (s : @Routing.SprayAndWaitRouting W S) c :
  Routing.m_copies s !! BundleID.to_key bundleId = Some c ->
  1 < c ->
  0 < (c - 1) - (c - 1) / 2 /\
  match Routing.SendBundle uninit h bh w (Routing.base s) bundle
          (Routing.nodeID peer) (Routing.endpoint peer) with
  | None => Routing.spray_attempt uninit bundle bundleId peer h bh w s = None
  | Some (h', bh', w', r', success) =>
      exists s',
        Routing.spray_attempt uninit bundle bundleId peer h bh w s =
          Some (h', bh', w', s', ((c - 1) / 2, (c - 1) - (c - 1) / 2, success)) /\
        Routing.base s' = r' /\
        Routing.GetCopyCount s' bundleId = (if success then (c - 1) - (c - 1) / 2 else c - 1)
  end.
Proof.
  intros Hc Hgt. split; [now apply local_share_positive|].
  unfold Routing.spray_attempt, Routing.DecreaseCopyCount. rewrite Hc.
  assert ((c >? 1) = true) as -> by lia. simpl.
  destruct (Routing.SendBundle _ _ _ _ _ _ _ _) as [[[[[h' bh'] w'] r'] success]|];
    [|reflexivity].
  destruct success; eexists; repeat split; apply GetCopyCount_SetCopyCount.
Qed.

End SprayOutcome.

Lemma spray_attempt_outcome_witness :
  Routing.m_copies spray_state_five !! BundleID.to_key (Bundle.GetId bundle_a) = Some 5 /\
  1 < 5 /\
  0 < (5 - 1) - (5 - 1) / 2 /\
  match Routing.SendBundle zero_fill ∅ bundle_heap_a tt (Routing.base spray_state_five) 7%nat
          (Routing.nodeID peer_r) (Routing.endpoint peer_r) with
  | None =>
      Routing.spray_attempt zero_fill 7%nat (Bundle.GetId bundle_a) peer_r ∅ bundle_heap_a tt
        spray_state_five = None
  | Some (h', bh', w', r', success) =>
      exists s',
        Routing.spray_attempt zero_fill 7%nat (Bundle.GetId bundle_a) peer_r ∅ bundle_heap_a tt
          spray_state_five =
          Some (h', bh', w', s', ((5 - 1) / 2, (5 - 1) - (5 - 1) / 2, success)) /\
        Routing.base s' = r' /\
        Routing.GetCopyCount s' (Bundle.GetId bundle_a) =
          (if success then (5 - 1) - (5 - 1) / 2 else 5 - 1)
  end.
Proof.
  assert (H1 : Routing.m_copies spray_state_five !! BundleID.to_key (Bundle.GetId bundle_a)
               = Some 5) by (vm_compute; reflexivity).
  assert (H2 : 1 < 5) by lia.
  split; [exact H1|]. split; [exact H2|].
  exact (spray_attempt_outcome zero_fill 7%nat (Bundle.GetId bundle_a) peer_r ∅
           bundle_heap_a tt spray_state_five 5 H1 H2).
Defined.

(** ** The sent-to sets of the epidemic engine *)

Section EpidemicInvariant.
Context {W S : Type} `{BundleStore.BundleStore S}.
Import Routing.

Lemma AddSentNode_In d node p :
  In p (sentNodes (AddSentNode d node)) -> In p (sentNodes d) \/ p = node.
Proof.
  unfold AddSentNode. destruct (negb (SentTo d node)); simpl; [|auto].
  rewrite in_app_iff. simpl. intuition.
Qed.

(** The invariant only looks at the descriptors and the trace. *)
Lemma sent_to_justified_weaken marked (r r' : @t W S) :
  m_bundles r' = m_bundles r ->
  (forall x, In x (bundleSentTrace r) -> In x (bundleSentTrace r')) ->
  sent_to_justified marked r -> sent_to_justified marked r'.
Proof.
  intros Hb Ht Hinv k d p Hk Hp. rewrite Hb in Hk.
  destruct (Hinv k d p Hk Hp) as (bid & Hkey & [Hin|Hin]); exists bid; auto.
Qed.

Lemma count_failed_justified marked (r : @t W S) :
  sent_to_justified marked r -> sent_to_justified marked (count_failed r).
Proof. apply sent_to_justified_weaken; auto. Qed.

Lemma set_bundlesMutex_justified marked (r : @t W S) owned :
  sent_to_justified marked r -> sent_to_justified marked (set_bundlesMutex r owned).
Proof. apply sent_to_justified_weaken; auto. Qed.

Lemma lock_bundles_justified marked (r r' : @t W S) :
  lock_bundles r = Some r' -> sent_to_justified marked r -> sent_to_justified marked r'.
Proof.
  unfold lock_bundles. destruct (m_bundlesMutex r); [discriminate|].
  intros [= <-]. apply set_bundlesMutex_justified.
Qed.

Lemma record_sent_justified marked (r : @t W S) bundleId receiver0 :
  sent_to_justified marked r -> sent_to_justified marked (record_sent r bundleId receiver0).
Proof.
  intros Hinv k d p Hk Hp. unfold record_sent in *. simpl in *.
  destruct (m_bundles r !! BundleID.to_key bundleId) as [d0|] eqn:E.
  - destruct (decide (k = BundleID.to_key bundleId)) as [->|Hne].
    + rewrite lookup_insert_eq in Hk. injection Hk as <-.
      apply AddSentNode_In in Hp as [Hp| ->].
      * destruct (Hinv _ _ _ E Hp) as (bid & Hkey & [Hin|Hin]); exists bid;
          rewrite in_app_iff; auto.
      * exists bundleId. rewrite in_app_iff. simpl. auto.
    + rewrite lookup_insert_ne in Hk by congruence.
      destruct (Hinv _ _ _ Hk Hp) as (bid & Hkey & [Hin|Hin]); exists bid;
        rewrite in_app_iff; auto.
  - destruct (Hinv _ _ _ Hk Hp) as (bid & Hkey & [Hin|Hin]); exists bid;
      rewrite in_app_iff; auto.
Qed.

Lemma SendBundle_senders_justified marked uninit senders h bh (w : W) (r : @t W S)
    bundle receiver0 endpoint0 h' bh' w' r' ok :
  SendBundle_senders uninit senders h bh w r bundle receiver0 endpoint0
    = Some (h', bh', w', r', ok) ->
  sent_to_justified marked r -> sent_to_justified marked r'.
Proof.
  induction senders as [|sender senders IH]; simpl; intros Hs Hinv.
  - injection Hs as <- <- <- <- <-. now apply count_failed_justified.
  - destruct (IsEndpointReachable sender w endpoint0); [|now apply IH].
    destruct (stamp_previous_node _ _ _ _ _) as [[h1 bh1]|]; [|discriminate].
    destruct (Send sender w h1 bh1 bundle endpoint0) as [success w1].
    destruct success.
    + destruct (lock_bundles r) as [r1|] eqn:El; [|discriminate].
      injection Hs as <- <- <- <- <-.
      apply set_bundlesMutex_justified, record_sent_justified.
      eapply lock_bundles_justified; eauto.
    + injection Hs as <- <- <- <- <-. now apply count_failed_justified.
Qed.

Lemma SendBundle_justified marked uninit h bh (w : W) (r : @t W S)
    bundle receiver0 endpoint0 h' bh' w' r' ok :
  SendBundle uninit h bh w r bundle receiver0 endpoint0 = Some (h', bh', w', r', ok) ->
  sent_to_justified marked r -> sent_to_justified marked r'.
Proof. apply SendBundle_senders_justified. Qed.

Lemma epidemic_peers_justified marked uninit bundle k peers :
  forall h bh (w : W) (r : @t W S) h' bh' w' r',
  epidemic_peers uninit bundle k peers h bh w r = Some (h', bh', w', r') ->
  sent_to_justified marked r -> sent_to_justified marked r'.
Proof.
  induction peers as [|peer peers IH]; simpl; intros h bh w r h' bh' w' r' Hs Hinv.
  - now injection Hs as <- <- <- <-.
  - repeat match type of Hs with
           | (if ?c then _ else _) = _ => destruct c; [now eapply IH; eauto|]
           end.
    destruct (SendBundle _ _ _ _ _ _ _ _) as [[[[[h1 bh1] w1] r1] ok]|] eqn:E; [|discriminate].
    eapply IH; [exact Hs|]. eapply SendBundle_justified; eauto.
Qed.

Lemma epidemic_bundles_justified marked uninit now bundles activePeers :
  forall h bh (w : W) (r : @t W S) h' bh' w' r',
  epidemic_bundles uninit now bundles activePeers h bh w r = Some (h', bh', w', r') ->
  sent_to_justified marked r -> sent_to_justified marked r'.
Proof.
  induction bundles as [|bundle bundles IH]; simpl; intros h bh w r h' bh' w' r' Hs Hinv.
  - now injection Hs as <- <- <- <-.
  - destruct (lock_bundles r) as [r0|] eqn:El; [|discriminate].
    pose proof (lock_bundles_justified marked _ _ El Hinv) as Hinv0.
    destruct (descriptor_expired _ _ _).
    { eapply IH; [exact Hs|]. now apply set_bundlesMutex_justified. }
    destruct (epidemic_peers _ _ _ _ _ _ _ _) as [[[[h1 bh1] w1] r1]|] eqn:E; [|discriminate].
    eapply IH; [exact Hs|]. apply set_bundlesMutex_justified.
    eapply epidemic_peers_justified; eauto.
Qed.

Lemma sent_to_justified_marked_app marked extra (r : @t W S) :
  sent_to_justified marked r -> sent_to_justified (marked ++ extra) r.
Proof.
  intros Hinv k d p Hk Hp.
  destruct (Hinv k d p Hk Hp) as (bid & Hkey & [Hin|Hin]); exists bid;
    rewrite in_app_iff; auto.
Qed.

Lemma NotifyNewBundle_justified marked bh (r : @t W S) p source r' :
  NotifyNewBundle bh r (Some p) source = Some (r', true) ->
  sent_to_justified marked r ->
  sent_to_justified (marked ++ [(Bundle.GetId (deref_bundle bh p), source)]) r'.
Proof.
  unfold NotifyNewBundle. destruct (BundleStore.Push _ _ _) as [store pushed].
  destruct pushed; simpl; [|discriminate].
  unfold UpdateBundleDescriptor, lock_bundles. simpl.
  destruct (m_bundlesMutex r); [discriminate|].
  set (bid := Bundle.GetId (deref_bundle bh p)).
  intros Hr Hinv k d q Hk Hq.
  destruct (m_bundles r !! BundleID.to_key bid) as [d0|] eqn:E;
    injection Hr as <-; simpl in Hk.
  - destruct (decide (k = BundleID.to_key bid)) as [->|Hne].
    + rewrite lookup_insert_eq in Hk. injection Hk as <-.
      apply AddSentNode_In in Hq as [Hq| ->].
      * destruct (Hinv _ _ _ E Hq) as (b' & Hkey & [Hin|Hin]); exists b';
          rewrite in_app_iff; auto.
      * exists bid. rewrite in_app_iff. simpl. auto.
    + rewrite lookup_insert_ne in Hk by congruence.
      destruct (Hinv _ _ _ Hk Hq) as (b' & Hkey & [Hin|Hin]); exists b';
        rewrite in_app_iff; auto.
  - destruct (decide (k = BundleID.to_key bid)) as [->|Hne].
    + rewrite lookup_insert_eq in Hk. injection Hk as <-.
      apply AddSentNode_In in Hq as [Hq| ->]; [destruct Hq|].
      exists bid. rewrite in_app_iff. simpl. auto.
    + rewrite !lookup_insert_ne in Hk by congruence.
      destruct (Hinv _ _ _ Hk Hq) as (b' & Hkey & [Hin|Hin]); exists b';
        rewrite in_app_iff; auto.
Qed.

Lemma NotifyNewBundle_refused_justified marked bh (r : @t W S) bundle source r' :
  NotifyNewBundle bh r bundle source = Some (r', false) ->
  sent_to_justified marked r -> sent_to_justified marked r'.
Proof.
  unfold NotifyNewBundle. destruct (BundleStore.Push _ _ _) as [store pushed].
  destruct pushed; simpl.
  - destruct bundle; [|discriminate].
    destruct (UpdateBundleDescriptor _ _ _) as [[bundles desc]|]; discriminate.
  - intros [= <-]. apply sent_to_justified_weaken; auto.
Qed.

(** The runs of the epidemic engine alone.  In every state the epidemic
    engine reaches from
    [Initialize] through [NotifyNewBundle], [NotifyPeerAppeared],
    [NotifyPeerDisappeared] and [DispatchBundles], every peer in the sent-to
    set of a descriptor is accounted for in one of two ways: a successful
    send of that bundle to that peer went into the BundleSent trace, or the
    peer was the source peer of a [NotifyNewBundle] call for that bundle. *)
Lemma run_sent_to_justified marked (r : @t W S) :
  run marked r -> sent_to_justified marked r.
Proof.
  induction 1 as [store senders localNodeID
                 | marked r bh p source r' _ IH Hn
                 | marked r bh bundle source r' _ IH Hn
                 | marked r uninit now h bh w peer h' bh' w' r' _ IH Hp
                 | marked r peer _ IH
                 | marked r uninit now h bh w h' bh' w' r' _ IH Hd
                 | marked r store _ IH].
  - intros k d p Hk. simpl in Hk. rewrite lookup_empty in Hk. discriminate.
  - eapply NotifyNewBundle_justified; eauto.
  - eapply NotifyNewBundle_refused_justified; eauto.
  - unfold EpidemicRouting_NotifyPeerAppeared, EpidemicRouting_DispatchBundles in Hp.
    eapply epidemic_bundles_justified; [exact Hp|].
    revert IH. apply sent_to_justified_weaken; auto.
  - revert IH. apply sent_to_justified_weaken; auto.
  - eapply epidemic_bundles_justified; [exact Hd|exact IH].
  - revert IH. apply sent_to_justified_weaken; auto.
Qed.

End EpidemicInvariant.

Lemma run_epidemic_notified :
  Routing.run [(Bundle.GetId bundle_a, node_r)] epidemic_notified.
Proof.
  assert (Hstored :
    snd <$> Routing.EpidemicRouting_NotifyNewBundle bundle_heap_a epidemic_engine
              (Some 7%nat) node_r = Some true) by (vm_compute; reflexivity).
  apply (Routing.run_notify [] epidemic_engine bundle_heap_a 7%nat node_r epidemic_notified).
  - apply Routing.run_init.
  - unfold epidemic_notified.
    destruct (Routing.EpidemicRouting_NotifyNewBundle _ _ _ _) as [[r stored]|];
      [|discriminate].
    injection Hstored as ->. reflexivity.
Qed.

Lemma run_sent_to_justified_witness :
  Routing.run [(Bundle.GetId bundle_a, node_r)] epidemic_notified /\
  Routing.sent_to_justified [(Bundle.GetId bundle_a, node_r)] epidemic_notified.
Proof.
  split; [exact run_epidemic_notified|].
  exact (run_sent_to_justified _ _ run_epidemic_notified).
Defined.

(** C8, the case the code decides otherwise: after peer r has handed the
    engine [bundle_a], r stands in the sent-to set of the bundle's
    descriptor although nothing was sent and the BundleSent trace is
    empty. *)
Lemma source_peer_marked_without_send :
  Routing.run [(Bundle.GetId bundle_a, node_r)] epidemic_notified /\
  Routing.bundleSentTrace epidemic_notified = [] /\
  Routing.m_sentBundles epidemic_notified = 0 /\
  (exists d,
     Routing.m_bundles epidemic_notified !! BundleID.to_key (Bundle.GetId bundle_a) = Some d /\
     In node_r (Routing.sentNodes d)) /\
  ~ Routing.sent_to_recorded epidemic_notified.
Proof.
  assert (Hd : exists d,
     Routing.m_bundles epidemic_notified !! BundleID.to_key (Bundle.GetId bundle_a) = Some d /\
     In node_r (Routing.sentNodes d)).
  { eexists. split; [vm_compute; reflexivity|]. left. reflexivity. }
  split; [exact run_epidemic_notified|].
  split; [vm_compute; reflexivity|].
  split; [vm_compute; reflexivity|].
  split; [exact Hd|].
  intros Hrec. destruct Hd as (d & Hk & Hin).
  destruct (Hrec _ _ _ Hk Hin) as (bundleId & _ & Htrace).
  change (Routing.bundleSentTrace epidemic_notified) with (@nil (BundleID.t * EndpointID.t)) in Htrace.
  destruct Htrace.
Qed.

(** ** What the mutex leaves of the sends *)

Section NothingSent.
Context {W S : Type} `{BundleStore.BundleStore S}.
Import Routing.

Lemma epidemic_peers_nothing_sent uninit bundle k peers :
  forall h bh (w : W) (r : @t W S) h' bh' w' r',
    epidemic_peers uninit bundle k peers h bh w r = Some (h', bh', w', r') ->
    nothing_sent true r -> nothing_sent true r'.
Proof.
  induction peers as [|peer peers IH]; simpl; intros h bh w r h' bh' w' r' Hs Hr.
  - now injection Hs as <- <- <- <-.
  - repeat match type of Hs with
           | (if ?c then _ else _) = _ => destruct c; [now eapply IH; eauto|]
           end.
    destruct (SendBundle _ _ _ _ _ _ _ _) as [[[[[h1 bh1] w1] r1] ok]|] eqn:E; [|discriminate].
    eapply IH; [exact Hs|].
    destruct (SendBundle_senders_under_lock _ _ _ _ _ _ _ _ _ _ _ _ _ _ (proj1 Hr) E)
      as [_ ->].
    exact Hr.
Qed.

Lemma epidemic_bundles_nothing_sent uninit now bundles activePeers :
  forall h bh (w : W) (r : @t W S) h' bh' w' r',
    epidemic_bundles uninit now bundles activePeers h bh w r = Some (h', bh', w', r') ->
    nothing_sent false r -> nothing_sent false r'.
Proof.
  induction bundles as [|bundle bundles IH]; simpl; intros h bh w r h' bh' w' r' Hs Hr.
  - now injection Hs as <- <- <- <-.
  - unfold lock_bundles in Hs. destruct Hr as (Hl & Ht & Hc). rewrite Hl in Hs.
    assert (Hlocked : nothing_sent true (set_bundlesMutex r true)) by (repeat split; auto).
    destruct (descriptor_expired _ _ _).
    { eapply IH; [exact Hs|]. repeat split; auto. }
    destruct (epidemic_peers _ _ _ _ _ _ _ _) as [[[[h1 bh1] w1] r1]|] eqn:E; [|discriminate].
    eapply IH; [exact Hs|].
    destruct (epidemic_peers_nothing_sent _ _ _ _ _ _ _ _ _ _ _ _ E Hlocked) as (_ & Ht1 & Hc1).
    repeat split; auto.
Qed.

Lemma NotifyNewBundle_nothing_sent bh (r : @t W S) bundle source r' stored :
  NotifyNewBundle bh r bundle source = Some (r', stored) ->
  nothing_sent false r -> nothing_sent false r'.
Proof.
  unfold NotifyNewBundle. destruct (BundleStore.Push _ _ _) as [store pushed].
  destruct pushed; simpl.
  - destruct bundle as [p|]; [|discriminate].
    destruct (UpdateBundleDescriptor _ _ _) as [[bundles desc]|]; [|discriminate].
    intros [= <- <-]. auto.
  - intros [= <- <-]. auto.
Qed.

(** Over the runs of the epidemic engine no send is ever recorded: a
    transmission that succeeds ends the run at the second lock. *)
Theorem run_never_records_a_send marked (r : @t W S) :
  run marked r -> nothing_sent false r.
Proof.
  induction 1 as [store senders localNodeID
                 | marked r bh p source r' _ IH Hn
                 | marked r bh bundle source r' _ IH Hn
                 | marked r uninit now h bh w peer h' bh' w' r' _ IH Hp
                 | marked r peer _ IH
                 | marked r uninit now h bh w h' bh' w' r' _ IH Hd
                 | marked r store _ IH].
  - repeat split.
  - eapply NotifyNewBundle_nothing_sent; eauto.
  - eapply NotifyNewBundle_nothing_sent; eauto.
  - eapply epidemic_bundles_nothing_sent; [exact Hp|]. exact IH.
  - exact IH.
  - eapply epidemic_bundles_nothing_sent; [exact Hd|exact IH].
  - exact IH.
Qed.

End NothingSent.

Lemma run_never_records_a_send_witness :
  Routing.nothing_sent false epidemic_notified.
Proof. exact (run_never_records_a_send _ _ run_epidemic_notified). Defined.

(** ** The previous-node block written by SendBundle *)

Section PreviousNode.
Context {W S : Type}.
Import Routing.

Lemma EndpointID_ToCbor_ok uninit e :
  (String.length (EndpointID.m_scheme e) <= 1024)%nat ->
  (String.length (EndpointID.m_ssp e) <= 1024)%nat ->
  is_Some (EndpointID.ToCbor uninit e).
Proof.
  intros H1 H2. unfold EndpointID.ToCbor. apply Encode_array_ok.
  repeat constructor; now apply Encode_text_ok.
Qed.

(** The loop of [SendBundle] stops at the first sender that reports the
    endpoint reachable. *)
Lemma SendBundle_senders_first uninit senders h bh (w : W) (r : @t W S)
    bundle receiver0 endpoint0 sender :
  List.find (fun s => IsEndpointReachable s w endpoint0) senders = Some sender ->
  SendBundle_senders uninit senders h bh w r bundle receiver0 endpoint0 =
    (hs <- stamp_previous_node uninit h bh (m_localNodeID r) bundle ;;
     let '(h', bh') := hs in
     let '(success, w') := Send sender w h' bh' bundle endpoint0 in
     if success
     then
       r1 <- lock_bundles r ;;
       Some (h', bh', w',
             unlock_bundles (record_sent r1 (Bundle.GetId (deref_bundle bh' bundle)) receiver0),
             true)
     else Some (h', bh', w', count_failed r, false)).
Proof.
  induction senders as [|s senders IH]; simpl; [discriminate|].
  destruct (IsEndpointReachable s w endpoint0); [intros [= ->]; reflexivity | exact IH].
Qed.

Lemma deref_insert_eq (h : Heap) p b : deref (<[p := b]> h) p = b.
Proof. unfold deref. now rewrite lookup_insert_eq. Qed.

Lemma deref_bundle_insert_eq (bh : BundleHeap) p b : deref_bundle (<[p := b]> bh) p = b.
Proof. unfold deref_bundle. now rewrite lookup_insert_eq. Qed.

Lemma find_previous_node_Some h b p :
  find_previous_node h b = Some p ->
  In p (Bundle.m_canonicalBlocks b) /\
  CanonicalBlock.class_of (deref h p) = CanonicalBlock.PreviousNodeBlockClass /\
  CanonicalBlock.m_blockType (deref h p) = BlockType.PREVIOUS_NODE_BLOCK.
Proof.
  unfold find_previous_node, Bundle.GetBlockByType.
  destruct (List.find _ _) as [q|] eqn:E; [|discriminate].
  apply find_some in E as [Hin Hty].
  destruct (CanonicalBlock.class_of (deref h q)) eqn:Ec; try discriminate.
  intros [= <-]. unfold CanonicalBlock.GetBlockType in Hty. apply Z.eqb_eq in Hty. auto.
Qed.

(** What [SendBundle] writes before [Send], and the frame of it.  When
    some sender reports the endpoint reachable, [SendBundle]
    uses the first such sender, and before it calls [Send] it makes one block
    [prevNode] of the bundle a previous-node block whose data are the bytes of
    the local node ID's CBOR buffer: the block [DynamicCast<PreviousNodeBlock>]
    finds is rewritten in place, or, when there is none, a new object is
    appended to the bundle.  [Send] sees that state.  When [Send] fails the
    call returns false with that state, nothing rolled back; when [Send]
    succeeds the call goes on to lock [m_bundlesMutex] and returns true with
    that same state.  No other block object changes, no other bundle
    changes, and the bundle keeps its primary block and its other canonical
    blocks.  The local node ID is assumed to encode (no
    string longer than the 1024 bytes [Cbor::Encode] reserves). *)
Lemma SendBundle_stamps_previous_node uninit h bh (w : W) (r : @t W S)
    bundle receiver0 endpoint0 sender :
  List.find (fun s => IsEndpointReachable s w endpoint0) (m_senders r) = Some sender ->
  (String.length (EndpointID.m_scheme (m_localNodeID r)) <= 1024)%nat ->
  (String.length (EndpointID.m_ssp (m_localNodeID r)) <= 1024)%nat ->
  exists h1 bh1 prevNode buffer,
    let b := deref_bundle bh bundle in
    let b1 := deref_bundle bh1 bundle in
    let sent := Send sender w h1 bh1 bundle endpoint0 in
    SendBundle uninit h bh w r bundle receiver0 endpoint0 =
      (if fst sent
       then
         r1 <- lock_bundles r ;;
         Some (h1, bh1, snd sent,
               unlock_bundles (record_sent r1 (Bundle.GetId b1) receiver0), true)
       else Some (h1, bh1, snd sent, count_failed r, false)) /\
    EndpointID.ToCbor uninit (m_localNodeID r) = Some buffer /\
    In prevNode (Bundle.m_canonicalBlocks b1) /\
    CanonicalBlock.class_of (deref h1 prevNode) = CanonicalBlock.PreviousNodeBlockClass /\
    CanonicalBlock.m_blockType (deref h1 prevNode) = BlockType.PREVIOUS_NODE_BLOCK /\
    CanonicalBlock.m_data (deref h1 prevNode) = Buffer.CopyData buffer /\
    (forall p, p <> prevNode -> h1 !! p = h !! p) /\
    (forall q, q <> bundle -> bh1 !! q = bh !! q) /\
    Bundle.m_primaryBlock b1 = Bundle.m_primaryBlock b /\
    ((find_previous_node h b = Some prevNode /\ bh1 = bh /\
      h1 = <[prevNode := CanonicalBlock.SetData (deref h prevNode) (Buffer.CopyData buffer)]> h)
     \/
     (find_previous_node h b = None /\ h !! prevNode = None /\
      Bundle.m_canonicalBlocks b1 = Bundle.m_canonicalBlocks b ++ [prevNode])).
Proof.
  intros Hfind Hs Hp.
  destruct (EndpointID_ToCbor_ok uninit _ Hs Hp) as [buffer Hbuf].
  unfold SendBundle. rewrite (SendBundle_senders_first _ _ _ _ _ _ _ _ _ _ Hfind).
  unfold stamp_previous_node.
  destruct (find_previous_node h (deref_bundle bh bundle)) as [prevNode|] eqn:Ef.
  - unfold CanonicalBlock.SetPreviousNode. rewrite Hbuf. simpl.
    set (h1 := <[prevNode := _]> h).
    exists h1, bh, prevNode, buffer. simpl.
    destruct (find_previous_node_Some _ _ _ Ef) as (Hin & Hc & Ht).
    destruct (Send sender w h1 bh bundle endpoint0) as [success w'] eqn:Es. simpl.
    split; [destruct success; reflexivity|].
    split; [reflexivity|]. split; [exact Hin|].
    subst h1. rewrite deref_insert_eq. simpl.
    repeat split; auto.
    + intros p Hne. now rewrite lookup_insert_ne.
  - unfold CanonicalBlock.PreviousNodeBlock, CanonicalBlock.SetPreviousNode.
    rewrite Hbuf. simpl.
    set (block := CanonicalBlock.SetData CanonicalBlock.PreviousNodeBlock0 _).
    set (p := fresh (dom h)).
    unfold Bundle.AddBlock. rewrite deref_insert_eq. simpl.
    set (b' := Bundle.mk _ _).
    exists (<[p := block]> h), (<[bundle := b']> bh), p, buffer. simpl.
    rewrite deref_bundle_insert_eq, deref_insert_eq.
    destruct (Send sender w _ _ bundle endpoint0) as [success w'] eqn:Es. simpl.
    split; [destruct success; reflexivity|].
    split; [reflexivity|].
    split; [apply in_or_app; right; left; reflexivity|].
    repeat split; auto.
    + intros q Hne. now rewrite lookup_insert_ne.
    + intros q Hne. now rewrite lookup_insert_ne.
    + right. repeat split; auto. apply not_elem_of_dom. apply is_fresh.
Qed.

End PreviousNode.

Lemma SendBundle_stamps_previous_node_witness :
  List.find (fun s => Routing.IsEndpointReachable s tt (Routing.endpoint peer_r))
            (Routing.m_senders failing_engine) = Some failing_sender /\
  (String.length (EndpointID.m_scheme (Routing.m_localNodeID failing_engine)) <= 1024)%nat /\
  (String.length (EndpointID.m_ssp (Routing.m_localNodeID failing_engine)) <= 1024)%nat /\
  exists h1 bh1 prevNode buffer,
    Routing.SendBundle zero_fill ∅ bundle_heap_a tt failing_engine 7%nat node_r
                       (Routing.endpoint peer_r) =
      Some (h1, bh1, tt, Routing.count_failed failing_engine, false) /\
    EndpointID.ToCbor zero_fill node_a = Some buffer /\
    In prevNode (Bundle.m_canonicalBlocks (deref_bundle bh1 7%nat)) /\
    CanonicalBlock.m_data (deref h1 prevNode) = Buffer.CopyData buffer.
Proof.
  assert (H1 : List.find (fun s => Routing.IsEndpointReachable s tt (Routing.endpoint peer_r))
                 (Routing.m_senders failing_engine) = Some failing_sender) by reflexivity.
  assert (H2 : (String.length (EndpointID.m_scheme (Routing.m_localNodeID failing_engine))
                <= 1024)%nat) by (vm_compute; lia).
  assert (H3 : (String.length (EndpointID.m_ssp (Routing.m_localNodeID failing_engine))
                <= 1024)%nat) by (vm_compute; lia).
  split; [exact H1|]. split; [exact H2|]. split; [exact H3|].
  destruct (SendBundle_stamps_previous_node zero_fill ∅ bundle_heap_a tt failing_engine
              7%nat node_r (Routing.endpoint peer_r) failing_sender H1 H2 H3)
    as (h1 & bh1 & prevNode & buffer & Hsend & Hbuf & Hin & _ & _ & Hdata & _).
  exists h1, bh1, prevNode, buffer. simpl in Hsend. auto.
Defined.

(** ** The sent-to sets of either engine *)

Section EngineInvariant.
Context {W S : Type} `{BundleStore.BundleStore S}.
Import Routing.

Lemma wait_peers_justified marked uninit bundle k peers :
  forall h bh (w : W) (s : @SprayAndWaitRouting W S) h' bh' w' s',
  wait_peers uninit bundle k peers h bh w s = Some (h', bh', w', s') ->
  sent_to_justified marked (base s) -> sent_to_justified marked (base s').
Proof.
  induction peers as [|peer peers IH]; simpl; intros h bh w s h' bh' w' s' Hs Hinv.
  - now injection Hs as <- <- <- <-.
  - destruct (EndpointID.eqb _ _); [|now eapply IH; eauto].
    destruct (m_bundles (base s) !! k) as [d|]; [|now eapply IH; eauto].
    destruct (negb (SentTo d (nodeID peer))); [|now eapply IH; eauto].
    destruct (SendBundle _ _ _ _ _ _ _ _) as [[[[[h1 bh1] w1] r1] ok]|] eqn:E; [|discriminate].
    eapply IH; [exact Hs|]. cbn [set_base base]. eapply SendBundle_justified; eauto.
Qed.

Lemma DecreaseCopyCount_base (s : @SprayAndWaitRouting W S) bundleId :
  base (fst (DecreaseCopyCount s bundleId)) = base s.
Proof.
  unfold DecreaseCopyCount. destruct (m_copies s !! _) as [c|]; [|reflexivity].
  destruct (c >? 1); reflexivity.
Qed.

Lemma spray_attempt_justified marked uninit bundle bundleId peer h bh (w : W)
    (s : @SprayAndWaitRouting W S) h' bh' w' s' out :
  spray_attempt uninit bundle bundleId peer h bh w s = Some (h', bh', w', s', out) ->
  sent_to_justified marked (base s) -> sent_to_justified marked (base s').
Proof.
  unfold spray_attempt. pose proof (DecreaseCopyCount_base s bundleId) as Hb.
  destruct (DecreaseCopyCount s bundleId) as [s1 newCount]. cbn [fst] in Hb.
  destruct (SendBundle _ _ _ _ _ _ _ _) as [[[[[h1 bh1] w1] r1] success]|] eqn:E; [|discriminate].
  cbn [mbind option_bind]. intros Hs Hinv. rewrite <- Hb in Hinv.
  pose proof (SendBundle_justified marked _ _ _ _ _ _ _ _ _ _ _ _ _ E Hinv) as Hinv1.
  destruct success; injection Hs as <- <- <- <- <-; exact Hinv1.
Qed.

Lemma spray_peers_justified marked uninit bundle bundleId peers :
  forall h bh (w : W) (s : @SprayAndWaitRouting W S) h' bh' w' s',
  spray_peers uninit bundle bundleId peers h bh w s = Some (h', bh', w', s') ->
  sent_to_justified marked (base s) -> sent_to_justified marked (base s').
Proof.
  induction peers as [|peer peers IH]; simpl; intros h bh w s h' bh' w' s' Hs Hinv.
  - now injection Hs as <- <- <- <-.
  - repeat match type of Hs with
           | (if ?c then _ else _) = _ => destruct c; [now eapply IH; eauto|]
           end.
    destruct (spray_attempt _ _ _ _ _ _ _ _)
      as [[[[[h1 bh1] w1] s1] [[peerCopies localCopies] success]]|] eqn:E; [|discriminate].
    cbn [mbind option_bind] in Hs.
    pose proof (spray_attempt_justified marked _ _ _ _ _ _ _ _ _ _ _ _ _ E Hinv) as Hinv1.
    destruct (success && (localCopies <=? 1)).
    + now injection Hs as <- <- <- <-.
    + eapply IH; eauto.
Qed.

Lemma spray_bundles_justified marked uninit now bundles activePeers :
  forall h bh (w : W) (s : @SprayAndWaitRouting W S) h' bh' w' s',
  spray_bundles uninit now bundles activePeers h bh w s = Some (h', bh', w', s') ->
  sent_to_justified marked (base s) -> sent_to_justified marked (base s').
Proof.
  induction bundles as [|bundle bundles IH]; simpl; intros h bh w s h' bh' w' s' Hs Hinv.
  - now injection Hs as <- <- <- <-.
  - destruct (lock_bundles (base s)) as [r0|] eqn:El; [|discriminate].
    cbn [mbind option_bind set_base base] in Hs.
    pose proof (lock_bundles_justified marked _ _ El Hinv) as Hinv0.
    destruct (descriptor_expired _ _ _).
    { eapply IH; [exact Hs|]. cbn [set_base base]. now apply set_bundlesMutex_justified. }
    destruct (_ <=? 1).
    + destruct (wait_peers _ _ _ _ _ _ _ _) as [[[[h1 bh1] w1] s1]|] eqn:E; [|discriminate].
      cbn [mbind option_bind] in Hs.
      eapply IH; [exact Hs|]. cbn [set_base base]. apply set_bundlesMutex_justified.
      eapply wait_peers_justified; [exact E|]. exact Hinv0.
    + destruct (spray_peers _ _ _ _ _ _ _ _) as [[[[h1 bh1] w1] s1]|] eqn:E; [|discriminate].
      cbn [mbind option_bind] in Hs.
      eapply IH; [exact Hs|]. cbn [set_base base]. apply set_bundlesMutex_justified.
      eapply spray_peers_justified; [exact E|]. exact Hinv0.
Qed.

Lemma engine_DispatchBundles_justified marked uninit now h bh (w : W) (e : @engine W S)
    h' bh' w' e' :
  engine_DispatchBundles uninit now h bh w e = Some (h', bh', w', e') ->
  sent_to_justified marked (engine_base e) -> sent_to_justified marked (engine_base e').
Proof.
  destruct e as [r|s]; cbn [engine_DispatchBundles engine_base].
  - destruct (EpidemicRouting_DispatchBundles _ _ _ _ _ _) as [[[[h1 bh1] w1] r1]|] eqn:E;
      [|discriminate].
    cbn [mbind option_bind]. intros [= <- <- <- <-]. cbn [engine_base].
    eapply epidemic_bundles_justified; exact E.
  - destruct (SprayAndWaitRouting_DispatchBundles _ _ _ _ _ _) as [[[[h1 bh1] w1] s1]|] eqn:E;
      [|discriminate].
    cbn [mbind option_bind]. intros [= <- <- <- <-]. cbn [engine_base].
    eapply spray_bundles_justified; exact E.
Qed.

Lemma engine_base_with_base (e : @engine W S) r : engine_base (with_base e r) = r.
Proof. destruct e; reflexivity. Qed.

Lemma engine_NotifyNewBundle_base bh (e : @engine W S) bundle source e' stored :
  engine_NotifyNewBundle bh e bundle source = Some (e', stored) ->
  NotifyNewBundle bh (engine_base e) bundle source = Some (engine_base e', stored).
Proof.
  destruct e as [r|s]; cbn [engine_NotifyNewBundle engine_base].
  - unfold EpidemicRouting_NotifyNewBundle.
    destruct (NotifyNewBundle bh r bundle source) as [[r' st]|]; [|discriminate].
    cbn [mbind option_bind]. now intros [= <- <-].
  - unfold SprayAndWaitRouting_NotifyNewBundle, NotifyNewBundle.
    destruct (BundleStore.Push bh (m_store (base s)) bundle) as [store pushed].
    cbn [snd]. destruct pushed; cbn [negb mbind option_bind].
    + destruct bundle as [p|]; [|discriminate].
      destruct (UpdateBundleDescriptor _ _ _) as [[bundles desc]|]; [|discriminate].
      cbn [mbind option_bind negb]. now intros [= <- <-].
    + now intros [= <- <-].
Qed.

(** The runs of the epidemic engine are among them. *)
Lemma run_reach marked (r : @t W S) : run marked r -> reach marked (Epidemic r).
Proof.
  induction 1 as [store senders localNodeID
                 | marked r bh p source r' _ IH Hn
                 | marked r bh bundle source r' _ IH Hn
                 | marked r uninit now h bh w peer h' bh' w' r' _ IH Hp
                 | marked r peer _ IH
                 | marked r uninit now h bh w h' bh' w' r' _ IH Hd
                 | marked r store _ IH].
  - apply reach_epidemic.
  - apply (reach_notify _ _ _ _ _ _ IH). cbn [engine_NotifyNewBundle]. now rewrite Hn.
  - apply (reach_notify_refused _ _ bh bundle source _ IH). cbn [engine_NotifyNewBundle].
    now rewrite Hn.
  - apply (reach_peer_appeared _ _ uninit now h bh w peer h' bh' w' _ IH).
    unfold engine_NotifyPeerAppeared. cbn [with_base engine_base engine_DispatchBundles].
    unfold EpidemicRouting_NotifyPeerAppeared in Hp. now rewrite Hp.
  - exact (reach_peer_disappeared _ _ peer IH).
  - apply (reach_dispatch _ _ uninit now h bh w h' bh' w' _ IH).
    cbn [engine_DispatchBundles]. now rewrite Hd.
  - exact (reach_store _ _ store IH).
Qed.

(** C8 as the code has it.  In every state either engine reaches from
    [Initialize] through [NotifyNewBundle], [NotifyPeerAppeared],
    [NotifyPeerDisappeared], [DispatchBundles] and calls of [SendBundle],
    every peer in the sent-to set of a descriptor is accounted for in one
    of two ways: a successful send of that bundle to that peer went into
    the BundleSent trace, or the peer was the source peer of a
    [NotifyNewBundle] call that stored that bundle. *)
Theorem reach_sent_to_justified marked (e : @engine W S) :
  reach marked e -> sent_to_justified marked (engine_base e).
Proof.
  induction 1 as [store senders localNodeID
                 | store senders localNodeID maxCopies
                 | marked e bh p source e' _ IH Hn
                 | marked e bh bundle source e' _ IH Hn
                 | marked e uninit now h bh w peer h' bh' w' e' _ IH Hp
                 | marked e peer _ IH
                 | marked e uninit now h bh w h' bh' w' e' _ IH Hd
                 | marked e uninit h bh w bundle receiver0 endpoint0 h' bh' w' e' ok _ IH Hs
                 | marked e store _ IH].
  - intros k d p Hk. simpl in Hk. rewrite lookup_empty in Hk. discriminate.
  - intros k d p Hk. simpl in Hk. rewrite lookup_empty in Hk. discriminate.
  - eapply NotifyNewBundle_justified; [|exact IH].
    exact (engine_NotifyNewBundle_base _ _ _ _ _ _ Hn).
  - eapply NotifyNewBundle_refused_justified; [|exact IH].
    exact (engine_NotifyNewBundle_base _ _ _ _ _ _ Hn).
  - unfold engine_NotifyPeerAppeared in Hp.
    eapply engine_DispatchBundles_justified; [exact Hp|].
    rewrite engine_base_with_base. revert IH. apply sent_to_justified_weaken; auto.
  - unfold engine_NotifyPeerDisappeared. rewrite engine_base_with_base.
    revert IH. apply sent_to_justified_weaken; auto.
  - eapply engine_DispatchBundles_justified; [exact Hd|exact IH].
  - unfold engine_SendBundle in Hs.
    destruct (SendBundle _ _ _ _ _ _ _ _) as [[[[[h1 bh1] w1] r1] ok1]|] eqn:E; [|discriminate].
    cbn [mbind option_bind] in Hs. injection Hs as <- <- <- <- <-.
    rewrite engine_base_with_base. eapply SendBundle_justified; [exact E|exact IH].
  - rewrite engine_base_with_base. revert IH. apply sent_to_justified_weaken; auto.
Qed.

End EngineInvariant.

Section Stored.
Context {W : Type}.
Import Routing.

(** With [m_bundlesMutex] free, [NotifyNewBundle] on an engine over the
    in-memory store stores the bundle and returns; what it keeps. *)
Lemma NotifyNewBundle_stored bh (r : @t W MemoryBundleStore.t) p source :
  m_bundlesMutex r = false ->
  exists r1,
    NotifyNewBundle bh r (Some p) source = Some (r1, true) /\
    m_bundlesMutex r1 = false /\
    m_senders r1 = m_senders r /\
    m_localNodeID r1 = m_localNodeID r /\
    bundleSentTrace r1 = bundleSentTrace r.
Proof.
  intros Hm. unfold NotifyNewBundle, UpdateBundleDescriptor, lock_bundles.
  cbn [BundleStore.Push MemoryBundleStore.store MemoryBundleStore.Push negb
       set_store m_bundlesMutex m_bundles].
  rewrite Hm. cbn [mbind option_bind].
  destruct (m_bundles r !! _) as [d|]; eexists; (split; [reflexivity|]);
    cbn [set_bundles set_store m_bundlesMutex m_senders m_localNodeID bundleSentTrace]; auto.
Qed.

End Stored.

Lemma epidemic_notified_facts :
  Routing.NotifyNewBundle bundle_heap_a epidemic_engine (Some 7%nat) node_r =
    Some (epidemic_notified, true) /\
  Routing.m_bundlesMutex epidemic_notified = false /\
  Routing.m_senders epidemic_notified = [working_sender] /\
  Routing.m_localNodeID epidemic_notified = node_a /\
  Routing.bundleSentTrace epidemic_notified = [].
Proof.
  destruct (NotifyNewBundle_stored bundle_heap_a epidemic_engine 7%nat node_r eq_refl)
    as (r1 & E & Hm & Hs & Hl & Ht).
  assert (Hr : epidemic_notified = r1).
  { unfold epidemic_notified, Routing.EpidemicRouting_NotifyNewBundle. now rewrite E. }
  rewrite Hr. auto.
Qed.

Lemma epidemic_sent_facts :
  exists h1 bh1,
    Routing.SendBundle zero_fill ∅ bundle_heap_a tt epidemic_notified 7%nat node_c
      "10.0.0.3:4556" = Some (h1, bh1, tt, epidemic_sent, true) /\
    Routing.bundleSentTrace epidemic_sent = [(Bundle.GetId bundle_a, node_c)].
Proof.
  destruct epidemic_notified_facts as (_ & Hm & Hs & Hl & Ht).
  destruct (SendBundle_stamps_previous_node zero_fill ∅ bundle_heap_a tt epidemic_notified
              7%nat node_c "10.0.0.3:4556" working_sender)
    as (h1 & bh1 & prevNode & buffer & Hsend & _ & _ & _ & _ & _ & _ & _ & Hprim & _).
  { rewrite Hs. reflexivity. }
  { rewrite Hl. vm_compute. lia. }
  { rewrite Hl. vm_compute. lia. }
  cbn zeta in Hsend, Hprim. cbn [working_sender Routing.Send fst snd] in Hsend.
  unfold Routing.lock_bundles in Hsend. rewrite Hm in Hsend. cbn [mbind option_bind] in Hsend.
  assert (Hid : Bundle.GetId (deref_bundle bh1 7%nat) = Bundle.GetId bundle_a).
  { unfold Bundle.GetId, Bundle.GetPrimaryBlock. rewrite Hprim. reflexivity. }
  rewrite Hid in Hsend.
  assert (Hr : epidemic_sent =
               Routing.unlock_bundles
                 (Routing.record_sent (Routing.set_bundlesMutex epidemic_notified true)
                    (Bundle.GetId bundle_a) node_c)).
  { unfold epidemic_sent. now rewrite Hsend. }
  exists h1, bh1. split; [now rewrite Hr|].
  rewrite Hr. cbn [Routing.unlock_bundles Routing.set_bundlesMutex Routing.record_sent
                   Routing.bundleSentTrace]. now rewrite Ht.
Qed.

Lemma reach_epidemic_sent :
  Routing.reach [(Bundle.GetId bundle_a, node_r)] (Routing.Epidemic epidemic_sent).
Proof.
  destruct epidemic_notified_facts as (Hn & _).
  destruct epidemic_sent_facts as (h1 & bh1 & Hs & _).
  apply (Routing.reach_send _ (Routing.Epidemic epidemic_notified) zero_fill ∅ bundle_heap_a tt
           7%nat node_c "10.0.0.3:4556" h1 bh1 tt _ true).
  - apply (Routing.reach_notify [] (Routing.Epidemic epidemic_engine) bundle_heap_a 7%nat
             node_r).
    + apply Routing.reach_epidemic.
    + cbn [Routing.engine_NotifyNewBundle]. unfold Routing.EpidemicRouting_NotifyNewBundle.
      now rewrite Hn.
  - unfold Routing.engine_SendBundle. cbn [Routing.engine_base]. now rewrite Hs.
Qed.

Lemma reach_sent_to_justified_witness :
  Routing.reach [(Bundle.GetId bundle_a, node_r)] (Routing.Epidemic epidemic_sent) /\
  Routing.bundleSentTrace epidemic_sent = [(Bundle.GetId bundle_a, node_c)] /\
  Routing.sent_to_justified [(Bundle.GetId bundle_a, node_r)] epidemic_sent.
Proof.
  split; [exact reach_epidemic_sent|].
  split; [destruct epidemic_sent_facts as (h1 & bh1 & _ & Ht); exact Ht|].
  exact (reach_sent_to_justified _ _ reach_epidemic_sent).
Defined.

(** ** Fragmentation and reassembly *)

Section Fragmentation.
Import FragmentationManager.

(** ** What the encoder returns on *)

Lemma CanonicalBlock_ToCbor_ok uninit b :
  block_encodable b -> is_Some (CanonicalBlock.ToCbor uninit b).
Proof.
  intros [Hd Hc]. unfold CanonicalBlock.ToCbor. apply Encode_array_ok.
  apply Forall_app. split.
  - repeat constructor; try apply Encode_unsigned_ok. now apply Encode_bytes_ok.
  - destruct (_ && _); repeat constructor. now apply Encode_bytes_ok.
Qed.

Lemma PrimaryBlock_ToCbor_ok uninit b :
  primary_encodable b -> is_Some (PrimaryBlock.ToCbor uninit b).
Proof.
  intros (Hd & Hs & Hr & Hc). unfold PrimaryBlock.ToCbor. apply Encode_array_ok.
  repeat (apply Forall_app; split).
  - repeat constructor;
      try apply Encode_unsigned_ok; try (now apply Encode_text_ok);
      try apply Encode_of_int64_ok.
    apply Encode_array_ok. repeat constructor; apply Encode_unsigned_ok.
  - destruct (PrimaryBlock.IsFragment b); repeat constructor; apply Encode_unsigned_ok.
  - destruct (_ && _); repeat constructor. now apply Encode_bytes_ok.
Qed.

Lemma default_block_encodable : block_encodable CanonicalBlock.default.
Proof. split; simpl; lia. Qed.

Lemma block_encodable_crc_computable b : block_encodable b -> crc_computable b.
Proof. intros [Hd _]. now right. Qed.

(** [CalculateCRC] touches the CRC value only. *)
Lemma CanonicalBlock_CalculateCRC_ok uninit b :
  crc_computable b ->
  exists crc, CanonicalBlock.CalculateCRC uninit b = Some (CanonicalBlock.set_crcValue b crc) /\
              (length crc <= 4)%nat.
Proof.
  intros Hb. unfold CanonicalBlock.CalculateCRC.
  destruct (CanonicalBlock.m_crcType b =? CRCType.NO_CRC) eqn:E.
  - exists []. split; [reflexivity | simpl; lia].
  - destruct Hb as [Hb|Hb]; [rewrite Hb in E; discriminate|].
    destruct (CanonicalBlock_ToCbor_ok uninit (CanonicalBlock.set_crcValue b []))
      as [buffer Hbuf]; [split; simpl; lia|].
    rewrite Hbuf. simpl.
    destruct (CanonicalBlock.m_crcType b =? CRCType.CRC_16);
      [|destruct (CanonicalBlock.m_crcType b =? CRCType.CRC_32)];
      eexists; (split; [reflexivity | simpl; lia]).
Qed.

Lemma PrimaryBlock_CalculateCRC_ok uninit b :
  primary_encodable b ->
  exists crc, PrimaryBlock.CalculateCRC uninit b = Some (PrimaryBlock.set_crcValue b crc) /\
              (length crc <= 4)%nat.
Proof.
  intros Hb. unfold PrimaryBlock.CalculateCRC.
  destruct (PrimaryBlock.m_crcType b =? CRCType.NO_CRC) eqn:E.
  - exists []. split; [reflexivity | simpl; lia].
  - destruct (PrimaryBlock_ToCbor_ok uninit (PrimaryBlock.set_crcValue b []))
      as [buffer Hbuf].
    { destruct Hb as (Hd & Hs & Hr & _). repeat split; simpl; auto; lia. }
    rewrite Hbuf. simpl.
    destruct (PrimaryBlock.m_crcType b =? CRCType.CRC_16);
      [|destruct (PrimaryBlock.m_crcType b =? CRCType.CRC_32)];
      eexists; (split; [reflexivity | simpl; lia]).
Qed.

Lemma deref_insert (h : Heap) p q blk :
  deref (<[p := blk]> h) q = if decide (q = p) then blk else deref h q.
Proof.
  unfold deref. destruct (decide (q = p)) as [->|Hne].
  - now rewrite lookup_insert_eq.
  - now rewrite lookup_insert_ne by congruence.
Qed.

(** The CRC loop over the blocks of a bundle returns whenever every block
    it meets satisfies a condition that makes [CalculateCRC] return and that
    [CalculateCRC] keeps; objects outside the bundle are not touched. *)
Lemma CalculateCRC_blocks_inv (P : CanonicalBlock.t -> Prop) uninit blocks :
  (forall b, P b -> exists b', CanonicalBlock.CalculateCRC uninit b = Some b' /\ P b') ->
  forall h,
    (forall p, In p blocks -> P (deref h p)) ->
    exists h',
      Bundle.CalculateCRC_blocks uninit h blocks = Some h' /\
      (forall p, In p blocks -> P (deref h' p)) /\
      (forall p, ~ In p blocks -> h' !! p = h !! p).
Proof.
  intros Hstep. induction blocks as [|block blocks IH]; simpl; intros h Hh.
  - exists h. split; [reflexivity|]. split; [tauto | reflexivity].
  - destruct (Hstep _ (Hh block (or_introl eq_refl))) as (b' & -> & Hb'). simpl.
    destruct (IH (<[block := b']> h)) as (h' & Hr & Hh' & Hframe).
    { intros p Hp. rewrite deref_insert. destruct (decide (p = block)); auto. }
    exists h'. split; [exact Hr|]. split.
    + intros p Hp. destruct (in_dec Nat.eq_dec p blocks) as [Hin|Hnin]; [auto|].
      destruct Hp as [<-|Hp]; [|tauto].
      unfold deref. rewrite (Hframe _ Hnin), lookup_insert_eq. exact Hb'.
    + intros p Hnot. rewrite Hframe by tauto. apply lookup_insert_ne. tauto.
Qed.

(** ** Fragmentation *)

Lemma Bundle_ToCbor_blocks_ok uninit h blocks :
  Forall (fun p => block_encodable (deref h p)) blocks ->
  forall array, is_Some (Bundle.ToCbor_blocks uninit h blocks array).
Proof.
  induction 1 as [|block blocks Hb _ IH]; simpl; intros array.
  - eauto.
  - destruct (CanonicalBlock_ToCbor_ok uninit (deref h block) Hb) as [buffer ->].
    simpl. apply IH.
Qed.

Lemma Bundle_ToCbor_ok uninit h b :
  primary_encodable (Bundle.m_primaryBlock b) ->
  Forall (fun p => block_encodable (deref h p)) (Bundle.m_canonicalBlocks b) ->
  exists fullBuffer, Bundle.ToCbor uninit h b = Some fullBuffer /\
                     Buffer.GetSize fullBuffer = 1024.
Proof.
  intros Hp Hh. unfold Bundle.ToCbor.
  destruct (PrimaryBlock_ToCbor_ok uninit _ Hp) as [pb Epb]. rewrite Epb. simpl.
  rewrite (PrimaryBlock_ToCbor_undecodable _ _ _ Epb).
  destruct (Bundle_ToCbor_blocks_ok uninit h (Bundle.m_canonicalBlocks b) Hh [])
    as [array Ea].
  rewrite Ea. simpl. apply ToCbor_blocks_keeps_array in Ea as ->.
  destruct (Encode_array_ok uninit []) as [buffer Eb]; [constructor|].
  exists buffer. split; [exact Eb|]. now apply Encode_size in Eb.
Qed.

Lemma u64_small x : 0 <= x < 2 ^ 64 -> u64 x = x.
Proof. intros Hx. unfold u64, wrap. now apply Z.mod_small. Qed.

Lemma u64_add_l a b : u64 (u64 a + b) = u64 (a + b).
Proof. unfold u64, wrap. now rewrite Zplus_mod_idemp_l. Qed.

(** Every encoded block weighs 1024 bytes in the header overhead. *)
Lemma replicated_overhead_value uninit h blocks :
  Forall (fun p => block_encodable (deref h p)) blocks ->
  forall acc, 0 <= acc < 2 ^ 64 ->
  exists k,
    0 <= k <= Z.of_nat (length blocks) /\
    replicated_overhead uninit h blocks acc = Some (u64 (acc + 1024 * k)).
Proof.
  induction 1 as [|block blocks Hb _ IH]; intros acc Hacc.
  - exists 0. split; [simpl; lia|]. simpl. rewrite Z.add_0_r. now rewrite u64_small.
  - cbn [replicated_overhead].
    destruct (_ && _).
    + destruct (CanonicalBlock_ToCbor_ok uninit (deref h block) Hb) as [buffer Eb].
      rewrite Eb. cbn. apply Encode_size in Eb. rewrite Eb.
      destruct (IH (u64 (acc + 1024))) as (k & Hk & ->).
      { unfold u64, wrap. apply Z.mod_pos_bound. lia. }
      exists (k + 1). split; [cbn [length]; lia|].
      rewrite u64_add_l. f_equal. f_equal. lia.
    + destruct (IH acc Hacc) as (k & Hk & ->).
      exists k. split; [cbn [length]; lia | reflexivity].
Qed.

Lemma header_overhead_value uninit h b :
  primary_encodable (Bundle.m_primaryBlock b) ->
  Forall (fun p => block_encodable (deref h p)) (Bundle.m_canonicalBlocks b) ->
  Z.of_nat (length (Bundle.m_canonicalBlocks b)) < 2 ^ 32 ->
  exists overhead, header_overhead uninit h b = Some overhead /\ 1024 <= overhead.
Proof.
  intros Hp Hh Hlen. unfold header_overhead.
  destruct (PrimaryBlock_ToCbor_ok uninit _ Hp) as [pb Epb].
  unfold Bundle.GetPrimaryBlock. rewrite Epb. cbn.
  apply Encode_size in Epb. rewrite Epb.
  destruct (replicated_overhead_value uninit h (Bundle.m_canonicalBlocks b) Hh (u64 (0 + 1024)))
    as (k & Hk & E).
  { unfold u64, wrap. apply Z.mod_pos_bound. lia. }
  unfold Bundle.GetCanonicalBlocks. rewrite E. eexists. split; [reflexivity|].
  rewrite u64_add_l. rewrite u64_small; lia.
Qed.

(** The overhead loop reads the blocks of the bundle only. *)
Lemma replicated_overhead_ext uninit h h' blocks :
  Forall (fun p => deref h' p = deref h p) blocks ->
  forall acc, replicated_overhead uninit h' blocks acc = replicated_overhead uninit h blocks acc.
Proof.
  induction 1 as [|block blocks Hd _ IH]; intros acc; simpl; [reflexivity|].
  rewrite Hd. destruct (_ && _).
  - destruct (CanonicalBlock.ToCbor uninit (deref h block)); simpl; [apply IH | reflexivity].
  - apply IH.
Qed.

Lemma deref_weaken (h0 h : Heap) p :
  h0 ⊆ h -> is_Some (h0 !! p) -> deref h p = deref h0 p.
Proof.
  intros Hsub [b Hb]. unfold deref. rewrite Hb.
  now rewrite (lookup_weaken _ _ _ _ Hb Hsub).
Qed.

Lemma header_overhead_weaken uninit (h0 h : Heap) b :
  h0 ⊆ h -> Forall (fun p => is_Some (h0 !! p)) (Bundle.m_canonicalBlocks b) ->
  header_overhead uninit h b = header_overhead uninit h0 b.
Proof.
  intros Hsub Hlive. unfold header_overhead.
  destruct (PrimaryBlock.ToCbor _ _); simpl; [|reflexivity].
  apply replicated_overhead_ext. eapply Forall_impl; [exact Hlive|].
  intros p Hp. now apply deref_weaken.
Qed.

Lemma grown_from_refl h : grown_from h h.
Proof.
  split; [reflexivity|]. intros p Hp. unfold deref. rewrite Hp.
  apply default_block_encodable.
Qed.

Lemma grown_from_insert h0 h p blk :
  grown_from h0 h -> h0 !! p = None -> block_encodable blk ->
  grown_from h0 (<[p := blk]> h).
Proof.
  intros [Hsub Henc] Hp Hblk. split.
  - now apply insert_subseteq_r.
  - intros q Hq. rewrite deref_insert. destruct (decide (q = p)); auto.
Qed.

Lemma fresh_unused (h0 h : Heap) : h0 ⊆ h -> h0 !! fresh (dom h) = None.
Proof.
  intros Hsub. destruct (h0 !! fresh (dom h)) as [b|] eqn:E; [|reflexivity].
  apply (lookup_weaken _ _ _ _ E) in Hsub.
  pose proof (is_fresh (dom h)) as Hf. apply not_elem_of_dom in Hf. congruence.
Qed.

Lemma AddBlock_grown h0 h b p :
  grown_from h0 h -> h0 !! p = None ->
  grown_from h0 (fst (Bundle.AddBlock h b p)) /\
  snd (Bundle.AddBlock h b p) =
    Bundle.mk (Bundle.m_primaryBlock b) (Bundle.m_canonicalBlocks b ++ [p]).
Proof.
  intros Hg Hp. unfold Bundle.AddBlock. simpl. split; [|reflexivity].
  destruct (_ =? 0); [|exact Hg].
  apply grown_from_insert; auto.
  destruct Hg as [_ Henc]. destruct (Henc p Hp) as [Hd Hc].
  split; simpl; auto.
Qed.

Lemma copy_replicated_grown h0 blocks :
  Forall (live_encodable h0) blocks ->
  forall h fragment,
    grown_from h0 h ->
    Forall (fun p => h0 !! p = None) (Bundle.m_canonicalBlocks fragment) ->
    grown_from h0 (fst (copy_replicated h blocks fragment)) /\
    Forall (fun p => h0 !! p = None)
           (Bundle.m_canonicalBlocks (snd (copy_replicated h blocks fragment))) /\
    Bundle.m_primaryBlock (snd (copy_replicated h blocks fragment)) =
      Bundle.m_primaryBlock fragment.
Proof.
  induction 1 as [|block blocks [Hlive Henc] _ IH]; intros h fragment Hg Hfr;
    cbn [copy_replicated]; [auto|].
  destruct (_ && _); [|now apply IH].
  unfold alloc.
  set (copy := CanonicalBlock.make _ _ _ _ _).
  set (p := fresh (dom h)).
  assert (Hp : h0 !! p = None) by (apply fresh_unused, Hg).
  assert (Hg1 : grown_from h0 (<[p := copy]> h)).
  { apply grown_from_insert; auto.
    subst copy. rewrite (deref_weaken h0 h block (proj1 Hg) Hlive).
    destruct Henc as [Hd _]. split; simpl; [exact Hd | lia]. }
  destruct (AddBlock_grown h0 _ fragment p Hg1 Hp) as [Hg2 Hb2].
  destruct (Bundle.AddBlock (<[p := copy]> h) fragment p) as [h2 fragment'].
  simpl in Hg2, Hb2. subst fragment'.
  destruct (IH h2 (Bundle.mk (Bundle.m_primaryBlock fragment)
                             (Bundle.m_canonicalBlocks fragment ++ [p])) Hg2)
    as (H1 & H2 & H3).
  { simpl. apply Forall_app. split; [exact Hfr | repeat constructor; exact Hp]. }
  auto.
Qed.

Lemma block_encodable_CalculateCRC uninit blk :
  block_encodable blk ->
  exists blk', CanonicalBlock.CalculateCRC uninit blk = Some blk' /\ block_encodable blk'.
Proof.
  intros Hblk.
  destruct (CanonicalBlock_CalculateCRC_ok uninit blk (block_encodable_crc_computable _ Hblk))
    as (c & -> & Hc).
  eexists. split; [reflexivity|]. destruct Hblk as [Hd _]. split; simpl; [exact Hd | lia].
Qed.

Lemma Bundle_CalculateCRC_grown uninit h0 h fragment :
  grown_from h0 h ->
  Forall (fun p => h0 !! p = None) (Bundle.m_canonicalBlocks fragment) ->
  primary_encodable (Bundle.m_primaryBlock fragment) ->
  exists h' crc,
    Bundle.CalculateCRC uninit h fragment =
      Some (h', Bundle.mk (PrimaryBlock.set_crcValue (Bundle.m_primaryBlock fragment) crc)
                          (Bundle.m_canonicalBlocks fragment)) /\
    grown_from h0 h'.
Proof.
  intros [Hsub Henc] Hfr Hp. unfold Bundle.CalculateCRC.
  rewrite List.Forall_forall in Hfr.
  destruct (PrimaryBlock_CalculateCRC_ok uninit _ Hp) as (crc & -> & _). simpl.
  destruct (CalculateCRC_blocks_inv block_encodable uninit (Bundle.m_canonicalBlocks fragment)
              (block_encodable_CalculateCRC uninit) h) as (h' & -> & Henc' & Hframe).
  { intros p Hin. apply Henc. now apply Hfr. }
  simpl. exists h', crc. split; [reflexivity|]. split.
  - apply map_subseteq_spec. intros q v Hq.
    rewrite Hframe.
    + now apply (lookup_weaken _ _ _ _ Hq).
    + intros Hin. rewrite (Hfr _ Hin) in Hq. discriminate.
  - intros q Hq.
    destruct (in_dec Nat.eq_dec q (Bundle.m_canonicalBlocks fragment)) as [Hin|Hnin]; [auto|].
    unfold deref. rewrite (Hframe _ Hnin). apply (Henc q Hq).
Qed.

Section FragmentLoop.

Variables (uninit : nat -> Z) (h0 : Heap) (b : Bundle.t) (bundle payloadBlock : nat).
Variables (maxFragmentSize numFragments budget total overhead : Z) (fullPayload : list Z).

Hypothesis Hover : header_overhead uninit h0 b = Some overhead.
Hypothesis Hlive : Forall (live_encodable h0) (Bundle.m_canonicalBlocks b).
Hypothesis Hprim : primary_encodable (Bundle.m_primaryBlock b).
Hypothesis Hpay : (length fullPayload <= 1024)%nat.
Hypothesis Hbudget : 0 < budget.
Hypothesis Htotal : total < 2 ^ 64.

Lemma CalculateFragmentPayloadSize_ok h bh i :
  grown_from h0 h -> bh !! bundle = Some b ->
  is_Some (CalculateFragmentPayloadSize uninit h bh bundle maxFragmentSize i numFragments).
Proof.
  intros [Hsub _] Hb. unfold CalculateFragmentPayloadSize, deref_bundle. rewrite Hb.
  rewrite (header_overhead_weaken uninit h0 h b Hsub), Hover.
  2:{ eapply Forall_impl; [exact Hlive|]. now intros p [Hp _]. }
  simpl.
  destruct (_ =? _); eauto.
Qed.

Lemma fragment_loop_spec remaining :
  forall i h bh fragments,
    grown_from h0 h -> bh !! bundle = Some b -> 0 <= i ->
    (remaining <> O -> (i + Z.of_nat remaining - 1) * budget < total) ->
    exists h' bh' new,
      fragment_loop uninit bundle payloadBlock maxFragmentSize numFragments budget total
        fullPayload remaining i h bh fragments = Some (h', bh', fragments ++ new) /\
      grown_from h0 h' /\ bh ⊆ bh' /\ length new = remaining /\
      forall j p, new !! j = Some p ->
        exists f crc,
          bh' !! p = Some f /\
          Bundle.m_primaryBlock f =
            PrimaryBlock.set_crcValue (fragment_primary b total ((i + Z.of_nat j) * budget)) crc.
Proof.
  induction remaining as [|remaining IH]; intros i h bh fragments Hg Hb Hi Hlast.
  - exists h, bh, []. cbn [fragment_loop]. rewrite app_nil_r.
    split; [reflexivity|]. split; [exact Hg|]. split; [reflexivity|].
    split; [reflexivity|]. intros j p Hj. rewrite lookup_nil in Hj. discriminate.
  - cbn [fragment_loop].
    destruct (CalculateFragmentPayloadSize_ok h bh i Hg Hb) as [payloadSize ->].
    cbn [mbind option_bind].
    assert (Hoff : 0 <= i * budget < total).
    { split; [nia|]. specialize (Hlast ltac:(discriminate)). nia. }
    rewrite (u64_small (i * budget)) by lia.
    assert ((i * budget >=? total) = false) as -> by lia.
    unfold deref_bundle at 1 2. rewrite Hb.
    set (payloadSize' := if _ >? _ then _ else _).
    set (fragmentPayload := take _ _).
    unfold alloc.
    set (blk := CanonicalBlock.SetCRCType _ _).
    set (p1 := fresh (dom h)).
    assert (Hp1 : h0 !! p1 = None) by (apply fresh_unused, Hg).
    assert (Hg1 : grown_from h0 (<[p1 := blk]> h)).
    { apply grown_from_insert; auto. split; simpl; [|lia].
      subst fragmentPayload. rewrite length_take, length_drop. lia. }
    fold (fragment_primary b total (i * budget)).
    destruct (AddBlock_grown h0 _ (Bundle.make (fragment_primary b total (i * budget))) p1 Hg1 Hp1)
      as [Hg2 Hb2].
    destruct (Bundle.AddBlock _ _ p1) as [h2 fr2]. simpl in Hg2, Hb2. subst fr2.
    set (fr2 := Bundle.mk _ _).
    destruct (copy_replicated_grown h0 (Bundle.GetCanonicalBlocks b) Hlive h2 fr2 Hg2)
      as (Hg3 & Hfr3 & Hpr3).
    { simpl. repeat constructor. exact Hp1. }
    destruct (copy_replicated h2 _ fr2) as [h3 fr3]. simpl in Hg3, Hfr3, Hpr3.
    destruct (Bundle_CalculateCRC_grown uninit h0 h3 fr3 Hg3 Hfr3)
      as (h4 & crc & -> & Hg4).
    { rewrite Hpr3. simpl. destruct Hprim as (H1 & H2 & H3 & H4).
      unfold fragment_primary. repeat split; simpl; auto. }
    cbn [mbind option_bind fst snd]. unfold alloc_bundle.
    set (f := Bundle.mk _ _).
    set (p := fresh (dom bh)).
    assert (Hp : bh !! p = None) by (apply not_elem_of_dom, is_fresh).
    destruct (IH (i + 1) h4 (<[p := f]> bh) (fragments ++ [p]))
      as (h' & bh' & new & Hloop & Hg' & Hsub' & Hlen & Hnew); auto.
    { rewrite lookup_insert_ne by congruence. exact Hb. }
    { lia. }
    { intros Hne. specialize (Hlast ltac:(discriminate)).
      replace (i + 1 + Z.of_nat remaining - 1) with (i + Z.of_nat (S remaining) - 1) by lia.
      exact Hlast. }
    exists h', bh', (p :: new). split.
    { rewrite Hloop. now rewrite <- app_assoc. }
    split; [exact Hg'|]. split.
    { etransitivity; [|exact Hsub']. now apply insert_subseteq. }
    split; [simpl; congruence|].
    intros [|j] q Hq.
    + simpl in Hq. injection Hq as <-. exists f, crc. split.
      * apply (lookup_weaken _ _ _ _ (lookup_insert_eq bh p f) Hsub').
      * subst f. simpl. rewrite Hpr3. simpl. now rewrite Z.add_0_r.
    + simpl in Hq. destruct (Hnew j q Hq) as (f' & crc' & Hf' & Hpf').
      exists f', crc'. split; [exact Hf'|]. rewrite Hpf'. do 3 f_equal. lia.
Qed.

End FragmentLoop.

Lemma IsFragment_SetFragmentation b :
  PrimaryBlock.IsFragment (PrimaryBlock.SetFragmentation b true) = true.
Proof.
  unfold PrimaryBlock.IsFragment, PrimaryBlock.HasFragmentation, PrimaryBlock.has_flag.
  simpl. rewrite Z.land_lor_distr_l.
  destruct (Z.eqb_spec (Z.lor (Z.land (PrimaryBlock.m_bundleControlFlags b)
                                      BundleControlFlags.BUNDLE_IS_A_FRAGMENT)
                              (Z.land BundleControlFlags.BUNDLE_IS_A_FRAGMENT
                                      BundleControlFlags.BUNDLE_IS_A_FRAGMENT)) 0)
    as [E|E]; [|reflexivity].
  apply Z.lor_eq_0_iff in E as [_ E]. discriminate E.
Qed.

Lemma GetPayloadBlock_In h b payloadBlock :
  Bundle.GetPayloadBlock h b = Some payloadBlock ->
  In payloadBlock (Bundle.m_canonicalBlocks b).
Proof.
  unfold Bundle.GetPayloadBlock, Bundle.GetBlockByType. intros E.
  now apply find_some in E as [Hin _].
Qed.

(** Where [FragmentBundle] returns.  Take a bundle that may be fragmented,
    whose objects the encoder can
    take (no string beyond 1024 bytes, fewer than 2^32 blocks, live block
    references), that has a payload block, and a maximum fragment size [m]
    of at least 2 that is below the size of the bundle's encoding, which is
    1024 bytes.  Then [FragmentBundle] returns, and with [budget] the larger
    of [m] minus the header overhead and half of [m] (the header overhead is
    at least 1024, so this is half of [m], the value the code takes), the
    number of fragments is the least [n] with [n * budget] at least the
    payload length, fragment [i] is a fragment with offset [i * budget], and
    every fragment carries the payload length as its total data unit
    length. *)
Lemma FragmentBundle_splits_by_budget uninit h bh st bundle b payloadBlock m :
  bh !! bundle = Some b ->
  PrimaryBlock.MustNotFragment (Bundle.m_primaryBlock b) = false ->
  Bundle.IsAdministrativeRecord b = false ->
  Bundle.GetPayloadBlock h b = Some payloadBlock ->
  2 <= m < 1024 ->
  primary_encodable (Bundle.m_primaryBlock b) ->
  Forall (live_encodable h) (Bundle.m_canonicalBlocks b) ->
  Z.of_nat (length (Bundle.m_canonicalBlocks b)) < 2 ^ 32 ->
  exists fullBuffer overhead h' bh' st' fragments,
    let total := Z.of_nat (length (Bundle.GetPayload h b)) in
    let budget := Z.max (m - overhead) (m / 2) in
    Bundle.ToCbor uninit h b = Some fullBuffer /\
    m < Buffer.GetSize fullBuffer /\
    header_overhead uninit h b = Some overhead /\
    FragmentBundle uninit h bh st bundle m = Some (h', bh', st', fragments) /\
    0 < budget /\
    total <= Z.of_nat (length fragments) * budget < total + budget /\
    forall i p, fragments !! i = Some p ->
      let primary := Bundle.m_primaryBlock (deref_bundle bh' p) in
      PrimaryBlock.IsFragment primary = true /\
      PrimaryBlock.GetFragmentOffset primary = Z.of_nat i * budget /\
      PrimaryBlock.GetTotalApplicationDataUnitLength primary = total.
Proof.
  intros Hb Hmnf Hadm Hpb Hm Hprim Hlive Hlen.
  assert (Henc : Forall (fun p => block_encodable (deref h p)) (Bundle.m_canonicalBlocks b)).
  { eapply Forall_impl; [exact Hlive|]. now intros p [_ Hp]. }
  destruct (Bundle_ToCbor_ok uninit h b Hprim Henc) as (fullBuffer & Hfull & Hsize).
  destruct (header_overhead_value uninit h b Hprim Henc Hlen) as (overhead & Hover & Hge).
  set (fullPayload := CanonicalBlock.GetData (deref h payloadBlock)).
  assert (Hpay : Bundle.GetPayload h b = fullPayload).
  { unfold Bundle.GetPayload. now rewrite Hpb. }
  assert (Hpaylen : (length fullPayload <= 1024)%nat).
  { rewrite List.Forall_forall in Henc.
    apply (Henc _ (GetPayloadBlock_In _ _ _ Hpb)). }
  set (total := Z.of_nat (length fullPayload)).
  set (budget := m / 2).
  assert (Hbudget : 0 < budget).
  { subst budget. apply Z.div_str_pos. lia. }
  assert (Hmax : Z.max (m - overhead) budget = budget) by lia.
  assert (Htot : 0 <= total <= 1024) by (subst total; lia).
  assert (Hbm : budget <= m).
  { subst budget. pose proof (Z.div_mod m 2). pose proof (Z.mod_pos_bound m 2). lia. }
  set (n := (total + budget - 1) / budget).
  assert (Hn : budget * n <= total + budget - 1 < budget * n + budget).
  { subst n. pose proof (Z.div_mod (total + budget - 1) budget ltac:(lia)).
    pose proof (Z.mod_pos_bound (total + budget - 1) budget Hbudget). lia. }
  assert (Hn0 : 0 <= n) by (subst n; apply Z.div_pos; lia).
  destruct (fragment_loop_spec uninit h b bundle payloadBlock m n budget total overhead
              fullPayload Hover Hlive Hprim Hpaylen Hbudget ltac:(lia)
              (Z.to_nat n) 0 h bh [] (grown_from_refl h) Hb ltac:(lia))
    as (h' & bh' & fragments & Hloop & _ & _ & Hcount & Hfrag).
  { intros _. rewrite Z2Nat.id by lia. nia. }
  simpl in Hloop.
  eexists fullBuffer, overhead, h', bh', _, fragments.
  rewrite Hpay, Hmax. cbn zeta. fold total.
  split; [exact Hfull|]. split; [lia|]. split; [exact Hover|]. split.
  { unfold FragmentBundle, deref_bundle, Bundle.GetPrimaryBlock. rewrite Hb, Hmnf, Hadm, Hfull.
    cbn [mbind option_bind].
    rewrite Hsize. assert ((1024 <=? m) = false) as -> by lia.
    rewrite Hpb, Hover. cbn [mbind option_bind].
    assert ((m >? overhead) = false) as -> by lia.
    fold budget. assert ((budget =? 0) = false) as -> by lia.
    fold fullPayload. fold total.
    rewrite (u64_small (total + budget - 1)) by lia. fold n.
    rewrite Hloop. cbn [mbind option_bind]. reflexivity. }
  split; [exact Hbudget|]. split.
  { rewrite Hcount, Z2Nat.id by lia. nia. }
  intros i p Hi. destruct (Hfrag i p Hi) as (f & crc & Hf & Hpf).
  unfold deref_bundle. rewrite Hf, Hpf. simpl.
  split; [apply IsFragment_SetFragmentation|]. split; [lia | reflexivity].
Qed.

(** ** Reassembly *)

Section Reassembly.
Variables (h : Heap) (bh : BundleHeap).

Lemma insert_by_offset_perm p l : Permutation (insert_by_offset bh p l) (p :: l).
Proof.
  induction l as [|q l IH]; simpl; [reflexivity|].
  destruct (_ <? _); [reflexivity|].
  rewrite IH. apply perm_swap.
Qed.

Lemma insert_by_offset_sorted p l :
  StronglySorted (offset_le bh) l ->
  StronglySorted (offset_le bh) (insert_by_offset bh p l).
Proof.
  induction 1 as [|q l Hs IH Hq]; simpl.
  - repeat constructor.
  - destruct (Z.ltb_spec (fragment_offset bh p) (fragment_offset bh q)) as [Hlt|Hge].
    + constructor; [now constructor|].
      constructor; [unfold offset_le; lia|].
      eapply Forall_impl; [exact Hq|]. unfold offset_le. intros; lia.
    + constructor; [exact IH|].
      rewrite List.Forall_forall. intros x Hx.
      apply (Permutation_in _ (insert_by_offset_perm p l)) in Hx as [<-|Hx].
      * exact Hge.
      * rewrite List.Forall_forall in Hq. now apply Hq.
Qed.

Lemma sort_by_offset_spec l :
  StronglySorted (offset_le bh) (sort_by_offset bh l) /\
  Permutation (sort_by_offset bh l) l.
Proof.
  unfold sort_by_offset.
  assert (Hgen : forall acc, StronglySorted (offset_le bh) acc ->
            let sorted := fold_left (fun acc p => insert_by_offset bh p acc) l acc in
            StronglySorted (offset_le bh) sorted /\ Permutation sorted (l ++ acc)).
  { induction l as [|p l IH]; simpl; intros acc Hacc; [split; [exact Hacc | reflexivity]|].
    destruct (IH _ (insert_by_offset_sorted p acc Hacc)) as [Hs Hp].
    split; [exact Hs|]. rewrite Hp, insert_by_offset_perm. symmetry. apply Permutation_middle. }
  destruct (Hgen [] (SSorted_nil _)) as [Hs Hp]. split; [exact Hs|].
  now rewrite app_nil_r in Hp.
Qed.

(** On fragments that lie within the data unit and cover it from
    [coveredLength] on, the coverage walk finds no gap and ends at the
    total length. *)
Lemma covered_length_complete total :
  total < 2 ^ 64 ->
  forall frags coveredLength,
    StronglySorted (offset_le bh) frags ->
    (forall f, In f frags ->
       0 <= fragment_offset bh f /\ fragment_offset bh f + fragment_length h bh f <= total) ->
    0 <= coveredLength <= total ->
    (forall x, coveredLength <= x < total ->
       exists f, In f frags /\
                 fragment_offset bh f <= x < fragment_offset bh f + fragment_length h bh f) ->
    covered_length h bh frags coveredLength = Some total.
Proof.
  intros Htotal. induction frags as [|g frags IH]; intros c Hs Hin Hc Hcov; simpl.
  - destruct (Z.eq_dec c total) as [->|Hne]; [reflexivity|].
    destruct (Hcov c ltac:(lia)) as (f & [] & _).
  - apply StronglySorted_inv in Hs as [Hs Hg]. rewrite List.Forall_forall in Hg.
    destruct (Hin g (or_introl eq_refl)) as [Hg0 Hg1]. fold (fragment_length h bh g).
    pose proof (Nat2Z.is_nonneg (length (Bundle.GetPayload h (deref_bundle bh g)))) as Hlen.
    fold (fragment_length h bh g) in Hlen.
    assert (Hnogap : fragment_offset bh g <= c).
    { destruct (Z.eq_dec c total) as [->|Hne]; [lia|].
      destruct (Hcov c ltac:(lia)) as (f & [<-|Hf] & Hx); [lia|].
      specialize (Hg f Hf). unfold offset_le in Hg. lia. }
    assert ((fragment_offset bh g >? c) = false) as -> by lia.
    rewrite u64_small by lia.
    apply IH; auto.
    + intros f Hf. apply Hin. now right.
    + lia.
    + intros x Hx. destruct (Hcov x ltac:(lia)) as (f & [<-|Hf] & Hfx); [lia|eauto].
Qed.

Lemma copy_payloads_ok frags :
  forall reassembledPayload,
    (forall f, In f frags ->
       0 <= fragment_offset bh f /\
       fragment_offset bh f + fragment_length h bh f <= Z.of_nat (length reassembledPayload)) ->
    exists payload,
      copy_payloads h bh frags reassembledPayload = Some payload /\
      length payload = length reassembledPayload.
Proof.
  induction frags as [|g frags IH]; intros acc Hin; simpl; [eauto|].
  destruct (Hin g (or_introl eq_refl)) as [Hg0 Hg1]. unfold fragment_length in Hg1.
  destruct (decide _) as [Hle|Hgt]; [|lia].
  match goal with |- context [copy_payloads h bh frags ?acc'] =>
    assert (Hlen : length acc' = length acc);
      [|destruct (IH acc') as (payload & -> & Hp)] end.
  - rewrite !length_app, length_take, length_drop. lia.
  - intros f Hf. rewrite Hlen. apply Hin. now right.
  - exists payload. split; [reflexivity | congruence].
Qed.

End Reassembly.

Lemma same_content_refl h : same_content h h.
Proof. intros p. auto. Qed.

Lemma same_content_trans h1 h2 h3 :
  same_content h1 h2 -> same_content h2 h3 -> same_content h1 h3.
Proof.
  intros H12 H23 p. destruct (H12 p) as (A1 & A2 & A3), (H23 p) as (B1 & B2 & B3).
  repeat split; congruence.
Qed.

Lemma same_content_insert h p blk :
  CanonicalBlock.m_blockType blk = CanonicalBlock.m_blockType (deref h p) ->
  CanonicalBlock.m_crcType blk = CanonicalBlock.m_crcType (deref h p) ->
  CanonicalBlock.m_data blk = CanonicalBlock.m_data (deref h p) ->
  same_content h (<[p := blk]> h).
Proof.
  intros H1 H2 H3 q. rewrite deref_insert. destruct (decide (q = p)) as [->|]; auto.
Qed.

Lemma AddBlock_same h b p : same_content h (fst (Bundle.AddBlock h b p)).
Proof.
  unfold Bundle.AddBlock. simpl. destruct (_ =? 0); [|apply same_content_refl].
  now apply same_content_insert.
Qed.

Lemma AddBlock_snd h b p :
  snd (Bundle.AddBlock h b p) =
    Bundle.mk (Bundle.m_primaryBlock b) (Bundle.m_canonicalBlocks b ++ [p]).
Proof. reflexivity. Qed.

Lemma add_other_blocks_spec blocks :
  forall h reassembled,
    same_content h (fst (add_other_blocks h blocks reassembled)) /\
    Bundle.m_primaryBlock (snd (add_other_blocks h blocks reassembled)) =
      Bundle.m_primaryBlock reassembled /\
    exists others,
      Bundle.m_canonicalBlocks (snd (add_other_blocks h blocks reassembled)) =
        Bundle.m_canonicalBlocks reassembled ++ others /\
      forall p, In p others -> In p blocks.
Proof.
  induction blocks as [|block blocks IH]; intros h reassembled; cbn [add_other_blocks].
  - split; [apply same_content_refl|]. split; [reflexivity|].
    exists []. split; [now rewrite app_nil_r | intros p []].
  - destruct (negb _).
    + pose proof (AddBlock_same h reassembled block) as Hsame.
      pose proof (AddBlock_snd h reassembled block) as Hsnd.
      destruct (Bundle.AddBlock h reassembled block) as [h1 r1]. simpl in Hsame, Hsnd.
      destruct (IH h1 r1) as (Hs & Hp & others & Hb & Hin).
      split; [eapply same_content_trans; eauto|].
      split; [rewrite Hp, Hsnd; reflexivity|].
      exists (block :: others). split.
      * rewrite Hb, Hsnd. simpl. now rewrite <- app_assoc.
      * intros p [<-|Hp']; [now left | right; auto].
    + destruct (IH h reassembled) as (Hs & Hp & others & Hb & Hin).
      split; [exact Hs|]. split; [exact Hp|].
      exists others. split; [exact Hb|]. intros p Hp'. right. auto.
Qed.

Lemma CanonicalBlock_CalculateCRC_shape uninit b b' :
  CanonicalBlock.CalculateCRC uninit b = Some b' ->
  exists crc, b' = CanonicalBlock.set_crcValue b crc.
Proof.
  unfold CanonicalBlock.CalculateCRC.
  destruct (_ =? CRCType.NO_CRC); [intros [= <-]; eauto|].
  destruct (CanonicalBlock.ToCbor _ _); [|discriminate]. simpl.
  destruct (_ =? CRCType.CRC_16); [intros [= <-]; eauto|].
  destruct (_ =? CRCType.CRC_32); intros [= <-]; eauto.
Qed.

Lemma CalculateCRC_blocks_same uninit blocks :
  forall h h', Bundle.CalculateCRC_blocks uninit h blocks = Some h' -> same_content h h'.
Proof.
  induction blocks as [|block blocks IH]; simpl; intros h h' Hr.
  - injection Hr as <-. apply same_content_refl.
  - destruct (CanonicalBlock.CalculateCRC uninit (deref h block)) as [b'|] eqn:E;
      [|discriminate].
    simpl in Hr. apply CanonicalBlock_CalculateCRC_shape in E as [crc ->].
    eapply same_content_trans; [|exact (IH _ _ Hr)].
    now apply same_content_insert.
Qed.

Lemma crc_computable_same h h' p :
  same_content h h' -> crc_computable (deref h p) -> crc_computable (deref h' p).
Proof.
  intros Hs Hc. destruct (Hs p) as (_ & H2 & H3). unfold crc_computable in *.
  now rewrite H2, H3.
Qed.

Lemma IsFragment_clear b :
  PrimaryBlock.IsFragment (PrimaryBlock.SetFragmentation b false) = false.
Proof.
  unfold PrimaryBlock.IsFragment, PrimaryBlock.HasFragmentation, PrimaryBlock.has_flag.
  simpl. rewrite <- Z.land_assoc.
  replace (Z.land (u64 (Z.lnot BundleControlFlags.BUNDLE_IS_A_FRAGMENT))
                  BundleControlFlags.BUNDLE_IS_A_FRAGMENT) with 0 by reflexivity.
  now rewrite Z.land_0_r.
Qed.

Section Bytes.
Variables (h : Heap) (bh : BundleHeap).

(** After the copy loop every byte that lies in some fragment is the byte
    of such a fragment, and every other byte is as it was. *)
Lemma copy_payloads_bytes frags :
  forall reassembledPayload payload,
    copy_payloads h bh frags reassembledPayload = Some payload ->
    forall x : nat,
      (exists f, In f frags /\ holds_byte h bh f x /\
         payload !! x =
           Bundle.GetPayload h (deref_bundle bh f) !! (x - Z.to_nat (fragment_offset bh f))%nat)
      \/ ((forall f, In f frags -> ~ holds_byte h bh f x) /\
          payload !! x = reassembledPayload !! x).
Proof.
  induction frags as [|g frags IH]; intros acc payload Hcopy x; simpl in Hcopy.
  - injection Hcopy as <-. right. split; [intros f []|reflexivity].
  - destruct (decide _) as [Hle|]; [|discriminate].
    set (o := Z.to_nat (fragment_offset bh g)) in *.
    set (pg := Bundle.GetPayload h (deref_bundle bh g)) in *.
    destruct (IH _ _ Hcopy x) as [(f & Hf & Hx & Hbyte)|[Hnone Hsame]].
    + left. exists f. split; [now right|]. auto.
    + assert (Hto : length (take o acc) = o) by (rewrite length_take; lia).
      destruct (decide (o <= x < o + length pg)%nat) as [Hin|Hout].
      * left. exists g. split; [now left|]. split; [exact Hin|].
        rewrite Hsame. rewrite lookup_app_r by lia. rewrite Hto.
        rewrite lookup_app_l by lia. reflexivity.
      * right. split.
        { intros f [<-|Hf]; [exact Hout | now apply Hnone]. }
        rewrite Hsame. destruct (decide (x < o)%nat) as [Hlt|Hge].
        { rewrite lookup_app_l by lia. now apply lookup_take_lt. }
        rewrite lookup_app_r by lia. rewrite Hto.
        rewrite lookup_app_r by lia. rewrite lookup_drop. f_equal. lia.
Qed.

End Bytes.

Lemma TryReassemble_completes uninit h bh st info :
  complete info = false ->
  fragments info <> [] ->
  0 <= totalLength info < 2 ^ 64 ->
  fragments_cover h bh (fragments info) (totalLength info) ->
  (forall f, In f (fragments info) -> fragment_crc_computable h bh f) ->
  exists h' bh' info' r reassembled,
    TryReassemble uninit h bh st info =
      Some (h', bh',
            mk (m_fragmentSets st) (m_fragmentedBundles st) (m_createdFragments st)
               (u64 (m_reassembledBundles st + 1)) (m_abandonedFragmentSets st),
            info', Some r) /\
    complete info' = true /\
    bh' !! r = Some reassembled /\
    PrimaryBlock.IsFragment (Bundle.m_primaryBlock reassembled) = false /\
    Z.of_nat (length (Bundle.GetPayload h' reassembled)) = totalLength info /\
    forall x : nat, (x < length (Bundle.GetPayload h' reassembled))%nat ->
      exists f, In f (fragments info) /\ holds_byte h bh f x /\
        Bundle.GetPayload h' reassembled !! x =
          Bundle.GetPayload h (deref_bundle bh f) !! (x - Z.to_nat (fragment_offset bh f))%nat.
Proof.
  intros Hcomplete Hne Htotal [Hbounds Hcover] Hcrc.
  unfold TryReassemble. rewrite Hcomplete.
  destruct (sort_by_offset_spec bh (fragments info)) as [Hsorted Hperm].
  set (sorted := sort_by_offset bh (fragments info)) in *.
  assert (Hin : forall f, In f sorted -> In f (fragments info)).
  { intros f Hf. exact (Permutation_in _ Hperm Hf). }
  cbn [totalLength FragmentationManager.fragments].
  rewrite (covered_length_complete h bh (totalLength info) ltac:(lia) sorted 0 Hsorted).
  2:{ intros f Hf. apply Hbounds. auto. }
  2:{ lia. }
  2:{ intros x Hx. destruct (Hcover x Hx) as (f & Hf & Hfx). exists f. split; [|exact Hfx].
      exact (Permutation_in _ (Permutation_sym Hperm) Hf). }
  rewrite Z.ltb_irrefl.
  destruct sorted as [|first rest] eqn:Esorted.
  { apply Permutation_nil in Hperm. contradiction. }
  destruct (copy_payloads_ok h bh (first :: rest) (repeat 0 (Z.to_nat (totalLength info))))
    as (payload & Hcopy & Hlen).
  { intros f Hf. rewrite repeat_length, Z2Nat.id by lia. apply Hbounds. auto. }
  rewrite Hcopy. rewrite repeat_length in Hlen. cbn [mbind option_bind].
  unfold alloc.
  set (p0 := fresh (dom h)).
  set (h1 := <[p0 := CanonicalBlock.PayloadBlock payload]> h).
  set (prim := PrimaryBlock.SetFragmentation _ false).
  pose proof (AddBlock_same h1 (Bundle.make prim) p0) as Hs12.
  pose proof (AddBlock_snd h1 (Bundle.make prim) p0) as Hr2.
  destruct (Bundle.AddBlock h1 (Bundle.make prim) p0) as [h2 r2]. simpl in Hs12, Hr2.
  destruct (add_other_blocks_spec (Bundle.GetCanonicalBlocks (deref_bundle bh first)) h2 r2)
    as (Hs23 & Hp3 & others & Hb3 & Hothers).
  destruct (add_other_blocks h2 _ r2) as [h3 r3]. simpl in Hs23, Hp3, Hb3.
  subst r2. simpl in Hp3, Hb3.
  destruct (Hcrc first (Hin first (or_introl eq_refl))) as [Hprim Hblocks].
  unfold Bundle.CalculateCRC.
  destruct (PrimaryBlock_CalculateCRC_ok uninit (Bundle.m_primaryBlock r3)) as (crc & -> & _).
  { rewrite Hp3. destruct Hprim as (H1 & H2 & H3 & H4). subst prim.
    repeat split; simpl; auto. }
  cbn [mbind option_bind].
  destruct (CalculateCRC_blocks_inv crc_computable uninit (Bundle.m_canonicalBlocks r3))
    with (h := h3) as (h4 & Hcrc4 & _ & _).
  { intros blk Hblk. destruct (CanonicalBlock_CalculateCRC_ok uninit blk Hblk) as (c & -> & _).
    eexists. split; [reflexivity|]. exact Hblk. }
  { intros p Hp. apply (crc_computable_same h1 h3); [eapply same_content_trans; eauto|].
    subst h1. rewrite deref_insert. destruct (decide (p = p0)); [now left|].
    rewrite Hb3 in Hp. destruct Hp as [<-|Hp]; [congruence|].
    apply Hblocks, Hothers, Hp. }
  rewrite Hcrc4. cbn [mbind option_bind fst snd]. unfold alloc_bundle.
  set (r := fresh (dom bh)).
  set (reassembled := Bundle.mk _ _).
  eexists h4, (<[r := reassembled]> bh), _, r, reassembled.
  split; [reflexivity|]. split; [reflexivity|].
  split; [apply lookup_insert_eq|].
  split.
  { subst reassembled. simpl. rewrite Hp3. subst prim.
    unfold PrimaryBlock.IsFragment, PrimaryBlock.HasFragmentation.
    apply IsFragment_clear. }
  assert (Hs14 : same_content h1 h4).
  { eapply same_content_trans; [|exact (CalculateCRC_blocks_same _ _ _ _ Hcrc4)].
    eapply same_content_trans; eauto. }
  destruct (Hs14 p0) as (Hty & _ & Hdata).
  subst h1. rewrite deref_insert in Hty, Hdata.
  destruct (decide (p0 = p0)); [|congruence]. simpl in Hty, Hdata.
  assert (Hpay : Bundle.GetPayload h4 reassembled = payload).
  { unfold Bundle.GetPayload, Bundle.GetPayloadBlock, Bundle.GetBlockByType.
    subst reassembled. cbn [Bundle.m_canonicalBlocks]. rewrite Hb3. cbn [app find].
    unfold CanonicalBlock.GetBlockType, CanonicalBlock.GetData. rewrite Hty.
    cbn. exact Hdata. }
  rewrite Hpay, Hlen. split; [lia|].
  intros x Hx.
  destruct (Hcover (Z.of_nat x) ltac:(lia)) as (f & Hf & Hfx).
  destruct (Hbounds f Hf) as [Hf0 _]. unfold fragment_length in Hfx.
  assert (Hholds : holds_byte h bh f x) by (unfold holds_byte; lia).
  destruct (copy_payloads_bytes h bh _ _ _ Hcopy x) as [(f' & Hf' & Hx' & Hbyte)|[Hnone _]].
  - exists f'. split; [apply Hin, Hf'|]. auto.
  - exfalso. apply (Hnone f); [|exact Hholds].
    exact (Permutation_in _ (Permutation_sym Hperm) Hf).
Qed.

Lemma set_fragmentSets_id st k info :
  m_fragmentSets st !! k = Some info ->
  set_fragmentSets st (<[k := info]> (m_fragmentSets st)) = st.
Proof.
  intros Hk. unfold set_fragmentSets. rewrite (insert_id _ _ _ Hk). now destruct st.
Qed.

Lemma has_offset_nonempty bh frags offset :
  has_offset bh frags offset = true -> frags <> [].
Proof. intros H ->. discriminate H. Qed.

(** C9.  Let the fragment set of a bundle hold a fragment with the offset of
    the arriving fragment [p].  Then [AddFragment] returns null for [p], and
    the heaps and the accumulator are what they were, however many fragments
    are still missing.  Delivering a missing fragment afterwards, that is
    to that same state, completes the reassembly when it is the last one
    missing: if [q] is a fragment of the same bundle with an offset not yet
    in the set, such that with [q] the fragments lie within the data unit
    and cover it, and the CRCs of the fragments can be computed, then
    delivering [q] returns a bundle that is not a fragment, whose payload
    has the total length and holds at every position a byte of a fragment
    lying there; the set is marked complete and the reassembly counter goes
    up by one. *)
Theorem AddFragment_refuses_duplicate uninit dtnNow h bh st info p :
  IsFragment bh (Some p) = true ->
  m_fragmentSets st !! BundleID.to_key (GetOriginalBundleId dtnNow bh (Some p)) = Some info ->
  has_offset bh (fragments info) (fragment_offset bh p) = true ->
  AddFragment uninit dtnNow h bh st (Some p) = Some (h, bh, st, None) /\
  forall q,
    IsFragment bh (Some q) = true ->
    BundleID.to_key (GetOriginalBundleId dtnNow bh (Some q)) =
      BundleID.to_key (GetOriginalBundleId dtnNow bh (Some p)) ->
    has_offset bh (fragments info) (fragment_offset bh q) = false ->
    complete info = false ->
    0 <= totalLength info < 2 ^ 64 ->
    fragments_cover h bh (fragments info ++ [q]) (totalLength info) ->
    (forall f, In f (fragments info ++ [q]) -> fragment_crc_computable h bh f) ->
    exists h' bh' st' r reassembled,
      AddFragment uninit dtnNow h bh st (Some q) = Some (h', bh', st', Some r) /\
      bh' !! r = Some reassembled /\
      PrimaryBlock.IsFragment (Bundle.m_primaryBlock reassembled) = false /\
      Z.of_nat (length (Bundle.GetPayload h' reassembled)) = totalLength info /\
      (forall x : nat, (x < length (Bundle.GetPayload h' reassembled))%nat ->
         exists f, In f (fragments info ++ [q]) /\ holds_byte h bh f x /\
           Bundle.GetPayload h' reassembled !! x =
             Bundle.GetPayload h (deref_bundle bh f)
               !! (x - Z.to_nat (fragment_offset bh f))%nat) /\
      (exists info',
         m_fragmentSets st' !! BundleID.to_key (GetOriginalBundleId dtnNow bh (Some p))
           = Some info' /\
         complete info' = true) /\
      m_reassembledBundles st' = u64 (m_reassembledBundles st + 1).
Proof.
  intros Hp Hk Hdup.
  pose proof (has_offset_nonempty _ _ _ Hdup) as Hne.
  assert (Hlen : Nat.eqb (length (fragments info)) 0 = false).
  { destruct (fragments info); [contradiction | reflexivity]. }
  split.
  - unfold AddFragment. rewrite Hp. cbn [negb]. rewrite Hk, Hlen.
    unfold fragment_offset in Hdup. unfold PrimaryBlock.GetFragmentOffset in *.
    unfold Bundle.GetPrimaryBlock in *. rewrite Hdup.
    now rewrite set_fragmentSets_id.
  - intros q Hq Hkq Hnew Hcomplete Htotal Hcover Hcrc.
    set (info2 := mkInfo (sourceId info) (totalLength info) (fragments info ++ [q])
                         (expirationTime info) (complete info)).
    destruct (TryReassemble_completes uninit h bh st info2)
      as (h' & bh' & info' & r & reassembled & Htry & Hc' & Hr & Hfrag & Hpaylen & Hbytes);
      try assumption.
    { intros Hnil. apply app_eq_nil in Hnil as [_ Hnil]. discriminate. }
    eexists h', bh', _, r, reassembled. split.
    { unfold AddFragment. rewrite Hq. cbn [negb]. rewrite Hkq, Hk, Hlen.
      unfold fragment_offset in Hnew. unfold PrimaryBlock.GetFragmentOffset in *.
      unfold Bundle.GetPrimaryBlock in *. rewrite Hnew.
      fold info2. rewrite Htry. cbn [mbind option_bind]. reflexivity. }
    split; [exact Hr|]. split; [exact Hfrag|]. split; [exact Hpaylen|].
    split; [exact Hbytes|]. split; [|reflexivity].
    exists info'. split; [|exact Hc']. cbn. apply lookup_insert_eq.
Qed.

End Fragmentation.

Lemma FragmentBundle_splits_by_budget_witness :
  exists fullBuffer overhead h' bh' st' fragments,
    let total := Z.of_nat (length (Bundle.GetPayload payload_heap bundle_p)) in
    let budget := Z.max (8 - overhead) (8 / 2) in
    Bundle.ToCbor zero_fill payload_heap bundle_p = Some fullBuffer /\
    8 < Buffer.GetSize fullBuffer /\
    FragmentationManager.header_overhead zero_fill payload_heap bundle_p = Some overhead /\
    FragmentationManager.FragmentBundle zero_fill payload_heap bundle_heap_p
      FragmentationManager.create 8%nat 8 = Some (h', bh', st', fragments) /\
    0 < budget /\
    total <= Z.of_nat (length fragments) * budget < total + budget /\
    forall i p, fragments !! i = Some p ->
      let primary := Bundle.m_primaryBlock (deref_bundle bh' p) in
      PrimaryBlock.IsFragment primary = true /\
      PrimaryBlock.GetFragmentOffset primary = Z.of_nat i * budget /\
      PrimaryBlock.GetTotalApplicationDataUnitLength primary = total.
Proof.
  apply (FragmentBundle_splits_by_budget zero_fill payload_heap bundle_heap_p
           FragmentationManager.create 8%nat bundle_p 1%nat 8).
  - reflexivity.
  - reflexivity.
  - reflexivity.
  - reflexivity.
  - lia.
  - repeat split; vm_compute; lia.
  - repeat constructor; vm_compute; try lia. eexists. reflexivity.
  - vm_compute. reflexivity.
Defined.

Lemma AddFragment_refuses_duplicate_witness :
  FragmentationManager.AddFragment zero_fill (DtnTime.mk 1001 0) fragment_blocks two_fragments
    first_delivery (Some 10%nat) = Some (fragment_blocks, two_fragments, first_delivery, None) /\
  exists h' bh' st' r reassembled,
    FragmentationManager.AddFragment zero_fill (DtnTime.mk 1001 0) fragment_blocks two_fragments
      first_delivery (Some 11%nat) = Some (h', bh', st', Some r) /\
    bh' !! r = Some reassembled /\
    PrimaryBlock.IsFragment (Bundle.m_primaryBlock reassembled) = false /\
    Z.of_nat (length (Bundle.GetPayload h' reassembled)) = 4.
Proof.
  destruct (AddFragment_refuses_duplicate zero_fill (DtnTime.mk 1001 0) fragment_blocks
              two_fragments first_delivery first_set 10%nat)
    as (Hdup & Hnext).
  - reflexivity.
  - vm_compute. reflexivity.
  - reflexivity.
  - split; [exact Hdup|].
    destruct (Hnext 11%nat) as (h' & bh' & st' & r & reassembled & Hadd & Hr & Hfrag & Hlen & _).
    + reflexivity.
    + reflexivity.
    + reflexivity.
    + reflexivity.
    + simpl. lia.
    + assert (E0 : FragmentationManager.fragment_offset two_fragments 10%nat = 0)
        by reflexivity.
      assert (E1 : FragmentationManager.fragment_offset two_fragments 11%nat = 2)
        by reflexivity.
      assert (L0 : fragment_length fragment_blocks two_fragments 10%nat = 2) by reflexivity.
      assert (L1 : fragment_length fragment_blocks two_fragments 11%nat = 2) by reflexivity.
      split.
      * intros f [<-|[<-|[]]]; simpl; lia.
      * intros x Hx. simpl in Hx. destruct (Z_lt_dec x 2).
        -- exists 10%nat. split; [now left|]. lia.
        -- exists 11%nat. split; [right; now left|]. lia.
    + intros f [<-|[<-|[]]]; (split; [repeat split; vm_compute; lia|]);
        intros blk [<-|[]]; left; reflexivity.
    + exists h', bh', st', r, reassembled. auto.
Defined.

(** A worked example: [bundle_p] has ten payload bytes; with a
    maximum fragment size of 8 the budget is 4, and the three fragments
    start at 0, 4 and 8. *)
Lemma fragments_of_bundle_p_by_eight :
  fragments_of_bundle_p 8 =
    Some [(0, 10, [1; 2; 3; 4]); (4, 10, [5; 6; 7; 8]); (8, 10, [9; 10])].
Proof. vm_compute. reflexivity. Qed.

(** The worked example behind C9: the first fragment delivered twice, then
    the last, then the middle one; only the last delivery returns a bundle,
    and its payload is the payload of [bundle_p]. *)
Lemma duplicate_then_missing_fragments :
  fragment_and_deliver [0; 0; 2; 1]%nat =
    Some [None; None; None; Some [1; 2; 3; 4; 5; 6; 7; 8; 9; 10]].
Proof. vm_compute. reflexivity. Qed.

(** ** Where the encoder ends the run *)

Lemma Encode_bytes_overflow uninit bytes :
  (1024 < length bytes)%nat -> Cbor.Encode uninit (Cbor.CborByteString bytes) = None.
Proof.
  intros Hgt. simpl.
  destruct (Cbor.EncodeUnsigned _ _ _) as [b0|] eqn:E; [|reflexivity]. simpl.
  apply EncodeUnsigned_length in E. rewrite fresh_buffer_length in E.
  unfold Buffer.Write. case_decide; [lia | reflexivity].
Qed.

Lemma Encode_array_item_fails uninit array item :
  In item array -> Cbor.Encode uninit item = None ->
  Cbor.Encode uninit (Cbor.CborArray array) = None.
Proof.
  intros Hin Hfail. simpl.
  destruct (Cbor.EncodeUnsigned _ _ _); [|reflexivity]. simpl.
  induction array as [|x array IH]; [destruct Hin|].
  destruct Hin as [->|Hin].
  - now rewrite Hfail.
  - destruct (Cbor.Encode uninit x); [|reflexivity]. simpl. simpl in IH.
    destruct (_ array) eqn:E; [|reflexivity]. now specialize (IH Hin).
Qed.

Lemma CanonicalBlock_ToCbor_overflow uninit blk :
  (1024 < length (CanonicalBlock.m_data blk))%nat -> CanonicalBlock.ToCbor uninit blk = None.
Proof.
  intros Hgt. unfold CanonicalBlock.ToCbor.
  apply (Encode_array_item_fails uninit _ (Cbor.CborByteString (CanonicalBlock.m_data blk))).
  - apply in_or_app. left. simpl. tauto.
  - now apply Encode_bytes_overflow.
Qed.

Lemma Bundle_ToCbor_blocks_overflow uninit h blocks blk :
  In blk blocks -> (1024 < length (CanonicalBlock.m_data (deref h blk)))%nat ->
  forall array, Bundle.ToCbor_blocks uninit h blocks array = None.
Proof.
  intros Hin Hgt. induction blocks as [|block blocks IH]; [destruct Hin|].
  intros array. simpl. destruct Hin as [->|Hin].
  - now rewrite (CanonicalBlock_ToCbor_overflow uninit _ Hgt).
  - destruct (CanonicalBlock.ToCbor uninit (deref h block)); [|reflexivity].
    simpl. now apply IH.
Qed.

(** A bundle that may be fragmented and holds a block with more than 1024
    bytes of data ends the run of [FragmentBundle]: the size test encodes
    the bundle first. *)
Lemma FragmentBundle_large_block_aborts uninit h bh st bundle m blk :
  PrimaryBlock.MustNotFragment (Bundle.m_primaryBlock (deref_bundle bh bundle)) = false ->
  Bundle.IsAdministrativeRecord (deref_bundle bh bundle) = false ->
  In blk (Bundle.m_canonicalBlocks (deref_bundle bh bundle)) ->
  (1024 < length (CanonicalBlock.m_data (deref h blk)))%nat ->
  FragmentationManager.FragmentBundle uninit h bh st bundle m = None.
Proof.
  intros Hmnf Hadm Hin Hgt. unfold FragmentationManager.FragmentBundle, Bundle.GetPrimaryBlock.
  rewrite Hmnf, Hadm. unfold Bundle.ToCbor.
  destruct (PrimaryBlock.ToCbor _ _); [|reflexivity]. cbn [mbind option_bind].
  now rewrite (Bundle_ToCbor_blocks_overflow uninit h _ blk Hin Hgt).
Qed.

(** A payload of 1025 bytes in the place of the payload of [bundle_p]. *)
Lemma FragmentBundle_large_block_aborts_witness :
  FragmentationManager.FragmentBundle zero_fill
    {[ 1%nat := CanonicalBlock.PayloadBlock (repeat 0 1025) ]} bundle_heap_p
    FragmentationManager.create 8%nat 512 = None.
Proof.
  apply (FragmentBundle_large_block_aborts zero_fill _ bundle_heap_p _ 8%nat 512 1%nat).
  - reflexivity.
  - reflexivity.
  - left. reflexivity.
  - vm_compute. lia.
Defined.

(** * Further properties of the code *)

(** ** Integers through the codec *)

Lemma be_bytes_fold n : forall v acc,
  fold_left (fun acc b => acc * 256 + b) (be_bytes n v) acc =
  acc * 256 ^ Z.of_nat n + v mod 256 ^ Z.of_nat n.
Proof.
  induction n as [|k IH]; intros v acc.
  - simpl. rewrite Z.mod_1_r. lia.
  - cbn [be_bytes fold_left]. rewrite IH.
    change 255 with (Z.ones 8). rewrite Z.land_ones by lia.
    rewrite Z.shiftr_div_pow2 by lia.
    rewrite Nat2Z.inj_succ, Z.pow_succ_r by lia.
    replace (2 ^ (8 * Z.of_nat k)) with (256 ^ Z.of_nat k).
    2:{ change 256 with (2 ^ 8). rewrite <- Z.pow_mul_r by lia. reflexivity. }
    change (2 ^ 8) with 256.
    set (m := 256 ^ Z.of_nat k).
    assert (Hm : 0 < m) by (subst m; apply Z.pow_pos_nonneg; lia).
    rewrite (Z.mul_comm 256 m). rewrite Z.rem_mul_r by lia. lia.
Qed.

Lemma be_value_be_bytes n v :
  0 <= v < 256 ^ Z.of_nat n -> be_value (be_bytes n v) = v.
Proof.
  intros Hv. unfold be_value. rewrite be_bytes_fold. rewrite Z.mod_small by lia. lia.
Qed.

Lemma header_table :
  forallb (fun mt => forallb (fun ai => let r := Cbor.DecodeHeader (Cbor.EncodeHeader mt ai) in
                                        (fst r =? mt) && (snd r =? ai))
                             (map Z.of_nat (seq 0 32)))
          (map Z.of_nat (seq 0 8)) = true.
Proof. vm_compute. reflexivity. Qed.

Lemma DecodeHeader_EncodeHeader_pair majorType additionalInfo :
  0 <= majorType < 8 -> 0 <= additionalInfo < 32 ->
  Cbor.DecodeHeader (Cbor.EncodeHeader majorType additionalInfo) = (majorType, additionalInfo).
Proof.
  intros Hm Ha. pose proof header_table as T.
  rewrite forallb_forall in T.
  specialize (T majorType). 
  assert (Hin : In majorType (map Z.of_nat (seq 0 8))).
  { apply in_map_iff. exists (Z.to_nat majorType). split; [lia|]. apply in_seq. lia. }
  specialize (T Hin). rewrite forallb_forall in T.
  specialize (T additionalInfo).
  assert (Hin' : In additionalInfo (map Z.of_nat (seq 0 32))).
  { apply in_map_iff. exists (Z.to_nat additionalInfo). split; [lia|]. apply in_seq. lia. }
  specialize (T Hin'). cbn zeta in T.
  destruct (Cbor.DecodeHeader _) as [a b]. simpl in T.
  apply andb_true_iff in T as [T1 T2]. f_equal; lia.
Qed.

(** What [EncodeUnsigned] writes, [DecodeUnsigned] reads back. *)
Lemma DecodeUnsigned_EncodeUnsigned buffer majorType value :
  (9 <= length buffer)%nat -> 0 <= majorType < 8 -> 0 <= value < 2 ^ 64 ->
  exists b n,
    Cbor.EncodeUnsigned buffer majorType value = Some b /\
    length b = length buffer /\
    fst (Cbor.DecodeHeader (Buffer.ReadU8 0 b)) = majorType /\
    Cbor.DecodeUnsigned b majorType = Some (value, n).
Proof.
  intros Hlen Hm Hv. unfold Cbor.EncodeUnsigned.
  assert (Hsz : forall data, (length data <= 9)%nat ->
            exists b, Buffer.Write 0 data buffer = Some b /\ length b = length buffer /\
                      b = data ++ drop (length data) buffer).
  { intros data Hd. rewrite Write_0_ok by lia. eexists. split; [reflexivity|].
    split; [|reflexivity]. rewrite length_app, length_drop. lia. }
  assert (Hargs : forall ai k n,
            24 <= ai <= 27 -> (k <= 8)%nat -> 0 <= value < 256 ^ Z.of_nat k ->
            (if ai =? 24 then k = 1%nat else if ai =? 25 then k = 2%nat
             else if ai =? 26 then k = 4%nat else k = 8%nat) ->
            n = S k ->
            exists b n,
              Buffer.Write 0 (Cbor.EncodeHeader majorType ai :: be_bytes k value) buffer = Some b /\
              length b = length buffer /\
              fst (Cbor.DecodeHeader (Buffer.ReadU8 0 b)) = majorType /\
              Cbor.DecodeUnsigned b majorType = Some (value, n)).
  { intros ai k n Hai Hk Hval Hkai ->.
    assert (Hbl : length (be_bytes k value) = k).
    { clear. induction k; simpl; congruence. }
    destruct (Hsz (Cbor.EncodeHeader majorType ai :: be_bytes k value)) as (b & Hw & Hb & Hbeq).
    { simpl. lia. }
    exists b, (S k). split; [exact Hw|]. split; [exact Hb|].
    assert (Hhd : Buffer.ReadU8 0 b = Cbor.EncodeHeader majorType ai).
    { rewrite Hbeq. reflexivity. }
    assert (Hrd : Buffer.Read 1 k b = be_bytes k value).
    { rewrite Hbeq. unfold Buffer.Read. cbn [app drop].
      rewrite drop_0. rewrite take_app_length'; [reflexivity | now rewrite Hbl]. }
    unfold Cbor.DecodeUnsigned, Buffer.GetSize. rewrite Hb, Hhd.
    rewrite DecodeHeader_EncodeHeader_pair by lia. cbn [fst].
    split; [reflexivity|].
    assert ((Z.of_nat (length buffer) <? 1) = false) as -> by lia.
    rewrite Z.eqb_refl. cbn [negb].
    assert ((ai <=? 23) = false) as -> by lia.
    assert (Hlt : forall z, z <= 9 -> (Z.of_nat (length buffer) <? z) = false) by (intros; lia).
    rewrite !Hlt by lia.
    destruct (Z.eqb_spec ai 24) as [E|E].
    { subst k. rewrite Hrd, be_value_be_bytes by exact Hval. reflexivity. }
    destruct (Z.eqb_spec ai 25) as [E2|E2].
    { subst k. rewrite Hrd, be_value_be_bytes by exact Hval. reflexivity. }
    destruct (Z.eqb_spec ai 26) as [E3|E3].
    { subst k. rewrite Hrd, be_value_be_bytes by exact Hval. reflexivity. }
    assert ((ai =? 27) = true) as -> by lia.
    subst k. rewrite Hrd, be_value_be_bytes by exact Hval. reflexivity. }
  destruct (Z.leb_spec value 23) as [H23|H23].
  { destruct (Hsz [Cbor.EncodeHeader majorType (u8 value)]) as (b & Hw & Hb & Hbeq); [simpl; lia|].
    exists b, 1%nat. split; [exact Hw|]. split; [exact Hb|].
    assert (Hu : u8 value = value) by (unfold u8, wrap; apply Z.mod_small; lia).
    rewrite Hu in Hbeq.
    assert (Hhd : Buffer.ReadU8 0 b = Cbor.EncodeHeader majorType value).
    { rewrite Hbeq. reflexivity. }
    unfold Cbor.DecodeUnsigned, Buffer.GetSize. rewrite Hb, Hhd.
    assert ((Z.of_nat (length buffer) <? 1) = false) as -> by lia.
    rewrite DecodeHeader_EncodeHeader_pair by lia. cbn [fst].
    split; [reflexivity|].
    rewrite Z.eqb_refl. cbn [negb].
    assert ((value <=? 23) = true) as -> by lia. reflexivity. }
  destruct (Z.leb_spec value 255) as [H255|H255].
  { apply (Hargs 24 1%nat 2%nat); try lia; reflexivity. }
  destruct (Z.leb_spec value 65535) as [H65535|H65535].
  { apply (Hargs 25 2%nat 3%nat); try lia; reflexivity. }
  destruct (Z.leb_spec value 4294967295) as [H32|H32].
  { apply (Hargs 26 4%nat 5%nat); try lia; reflexivity. }
  apply (Hargs 27 8%nat 9%nat); try lia; reflexivity.
Qed.

Lemma Decode_Encode_unsigned uninit v :
  0 <= v < 2 ^ 64 ->
  exists b, Cbor.Encode uninit (Cbor.CborUnsigned v) = Some b /\
            Cbor.Decode b = Some (Cbor.CborUnsigned v).
Proof.
  intros Hv. cbn [Cbor.Encode].
  destruct (DecodeUnsigned_EncodeUnsigned (Buffer.AddAtStart uninit 1024 []) 0 v)
    as (b & n & -> & Hlen & Hmt & Hdec); [rewrite fresh_buffer_length; lia | lia | lia |].
  exists b. split; [reflexivity|].
  rewrite fresh_buffer_length in Hlen.
  unfold Cbor.Decode, Buffer.GetSize. rewrite Hlen. cbn [Z.eqb Z.of_nat Pos.of_succ_nat].
  destruct (Cbor.DecodeHeader (Buffer.ReadU8 0 b)) as [mt ai]. simpl in Hmt. subst mt.
  cbn [Z.eqb]. now rewrite Hdec.
Qed.

Lemma Decode_Encode_negative uninit v :
  - 2 ^ 63 <= v < 0 ->
  exists b, Cbor.Encode uninit (Cbor.CborNegative v) = Some b /\
            Cbor.Decode b = Some (Cbor.CborNegative v).
Proof.
  intros Hv. cbn [Cbor.Encode].
  assert (Hu : u64 (-1 - v) = -1 - v) by (apply u64_small; lia).
  rewrite Hu.
  destruct (DecodeUnsigned_EncodeUnsigned (Buffer.AddAtStart uninit 1024 []) 1 (-1 - v))
    as (b & n & -> & Hlen & Hmt & Hdec); [rewrite fresh_buffer_length; lia | lia | lia |].
  exists b. split; [reflexivity|].
  rewrite fresh_buffer_length in Hlen.
  unfold Cbor.Decode, Buffer.GetSize. rewrite Hlen. cbn [Z.eqb Z.of_nat Pos.of_succ_nat].
  destruct (Cbor.DecodeHeader (Buffer.ReadU8 0 b)) as [mt ai]. simpl in Hmt. subst mt.
  cbn [Z.eqb]. rewrite Hdec.
  assert (H1 : to_int64 (-1 - v) = -1 - v).
  { unfold to_int64. rewrite Z.mod_small by lia. lia. }
  rewrite H1. replace (-1 - (-1 - v)) with v by lia.
  assert (H2 : to_int64 v = v).
  { unfold to_int64. rewrite Z.mod_small by lia. lia. }
  rewrite H2. unfold Cbor.of_int64.
  assert ((0 <=? v) = false) as -> by lia. reflexivity.
Qed.

(** ** What the decoder can return *)

Lemma Decode_integer b v :
  Cbor.Decode b = Some v ->
  (exists n, v = Cbor.CborUnsigned n) \/ (exists n, v = Cbor.CborNegative n).
Proof.
  unfold Cbor.Decode. destruct (_ =? 0); [discriminate|].
  destruct (Cbor.DecodeHeader _) as [mt ai].
  destruct (mt =? 0).
  { destruct (Cbor.DecodeUnsigned _ _) as [[n k]|]; [|discriminate].
    intros [= <-]. left. eauto. }
  destruct (mt =? 1); [|discriminate].
  destruct (Cbor.DecodeUnsigned _ _) as [[n k]|]; [|discriminate].
  intros [= <-]. unfold Cbor.of_int64. destruct (0 <=? _); [left | right]; eauto.
Qed.

Lemma Decode_not_array b v : Cbor.Decode b = Some v -> Cbor.IsArray v = false.
Proof. intros H. destruct (Decode_integer b v H) as [[n ->]|[n ->]]; reflexivity. Qed.

(** X1.  An integer survives the codec: [Decode] gives back the item
    [Encode] was given, for an unsigned integer below 2^64 and for a
    negative integer from -2^63 on. *)
Theorem Decode_Encode_integer uninit item v :
  (item = Cbor.CborUnsigned v /\ 0 <= v < 2 ^ 64) \/
  (item = Cbor.CborNegative v /\ - 2 ^ 63 <= v < 0) ->
  exists b, Cbor.Encode uninit item = Some b /\ Cbor.Decode b = Some item.
Proof.
  intros [[-> Hv]|[-> Hv]].
  - now apply Decode_Encode_unsigned.
  - now apply Decode_Encode_negative.
Qed.

Lemma Decode_Encode_integer_witness :
  exists b, Cbor.Encode zero_fill (Cbor.CborNegative (-1000)) = Some b /\
            Cbor.Decode b = Some (Cbor.CborNegative (-1000)).
Proof. apply (Decode_Encode_integer zero_fill _ (-1000)). right. split; [reflexivity | lia]. Defined.

(** X2.  Whatever the buffer holds, [Decode] returns nothing or an integer
    item, unsigned or negative: never an array, a map, a tag, a simple
    value, a byte string or a text string. *)
Theorem Decode_returns_integers_only b v :
  Cbor.Decode b = Some v ->
  ((exists n, v = Cbor.CborUnsigned n) \/ (exists n, v = Cbor.CborNegative n)) /\
  Cbor.IsArray v = false /\ Cbor.IsByteString v = false /\ Cbor.IsTextString v = false.
Proof.
  intros H. split; [exact (Decode_integer b v H)|].
  destruct (Decode_integer b v H) as [[n ->]|[n ->]]; repeat split.
Qed.

Lemma Decode_returns_integers_only_witness :
  Cbor.Decode [5] = Some (Cbor.CborUnsigned 5) /\
  ((exists n, Cbor.CborUnsigned 5 = Cbor.CborUnsigned n) \/
   (exists n, Cbor.CborUnsigned 5 = Cbor.CborNegative n)) /\
  Cbor.IsArray (Cbor.CborUnsigned 5) = false /\
  Cbor.IsByteString (Cbor.CborUnsigned 5) = false /\
  Cbor.IsTextString (Cbor.CborUnsigned 5) = false.
Proof.
  split; [reflexivity|]. apply (Decode_returns_integers_only [5]). reflexivity.
Defined.

(** ** The decoders built on [Decode] *)

Lemma EndpointID_FromCbor_None buffer : EndpointID.FromCbor buffer = None.
Proof.
  unfold EndpointID.FromCbor. destruct (Cbor.Decode buffer) as [v|] eqn:E; [|reflexivity].
  now rewrite (Decode_not_array _ _ E).
Qed.

Lemma PrimaryBlock_FromCbor_None buffer : PrimaryBlock.FromCbor buffer = None.
Proof.
  unfold PrimaryBlock.FromCbor. destruct (Cbor.Decode buffer) as [v|] eqn:E; [|reflexivity].
  now rewrite (Decode_not_array _ _ E).
Qed.

Lemma CanonicalBlock_FromCbor_None uninit buffer :
  CanonicalBlock.FromCbor uninit buffer = Some None.
Proof.
  unfold CanonicalBlock.FromCbor. destruct (Cbor.Decode buffer) as [v|] eqn:E; [|reflexivity].
  now rewrite (Decode_not_array _ _ E).
Qed.

(** X3.  No buffer makes any of the four decoders return a value:
    [EndpointID::FromCbor], [PrimaryBlock::FromCbor],
    [CanonicalBlock::FromCbor] and [Bundle::FromCbor] end with
    [std::nullopt] on every input, and the last one leaves the heap as it
    was. *)
Theorem FromCbor_never_returns_a_value uninit h buffer :
  EndpointID.FromCbor buffer = None /\
  PrimaryBlock.FromCbor buffer = None /\
  CanonicalBlock.FromCbor uninit buffer = Some None /\
  Bundle.FromCbor uninit h buffer = Some (h, None).
Proof.
  split; [apply EndpointID_FromCbor_None|].
  split; [apply PrimaryBlock_FromCbor_None|].
  split; [apply CanonicalBlock_FromCbor_None|].
  unfold Bundle.FromCbor. destruct (Cbor.Decode buffer) as [v|] eqn:E; [|reflexivity].
  now rewrite (Decode_not_array _ _ E).
Qed.

(** ** Typed extension blocks *)

(** X4.  [GetPreviousNode] answers dtn:none for every block, so also for one
    whose previous node [SetPreviousNode] has just set. *)
Theorem GetPreviousNode_is_always_none b :
  CanonicalBlock.GetPreviousNode b = EndpointID.none.
Proof.
  unfold CanonicalBlock.GetPreviousNode. now rewrite EndpointID_FromCbor_None.
Qed.

(** X5.  The hop-count getters answer 0 for every block, whatever limit and
    count [SetLimit], [SetCount] and [Increment] have written; so
    [Exceeded] holds of every block. *)
Theorem HopCountBlock_reads_zero b :
  CanonicalBlock.GetLimit b = 0 /\
  CanonicalBlock.GetCount b = 0 /\
  CanonicalBlock.Exceeded b = true.
Proof.
  assert (H : CanonicalBlock.GetLimit b = 0 /\ CanonicalBlock.GetCount b = 0).
  { unfold CanonicalBlock.GetLimit, CanonicalBlock.GetCount.
    destruct (Nat.eqb _ 0); [split; reflexivity|].
    destruct (Cbor.Decode _) as [v|] eqn:E; [|split; reflexivity].
    rewrite (Decode_not_array _ _ E). split; reflexivity. }
  destruct H as [Hl Hc]. split; [exact Hl|]. split; [exact Hc|].
  unfold CanonicalBlock.Exceeded. now rewrite Hl, Hc.
Qed.

(** X6.  [GetAge] reads back the age [SetAge] wrote, for every age below
    2^64. *)
Theorem GetAge_SetAge uninit b microseconds :
  0 <= microseconds < 2 ^ 64 ->
  exists b', CanonicalBlock.SetAge uninit b microseconds = Some b' /\
             CanonicalBlock.GetAge b' = microseconds.
Proof.
  intros Hv. unfold CanonicalBlock.SetAge. cbn [Cbor.Encode].
  destruct (DecodeUnsigned_EncodeUnsigned (Buffer.AddAtStart uninit 1024 []) 0 microseconds)
    as (buf & n & -> & Hlen & Hmt & Hdec); [rewrite fresh_buffer_length; lia | lia | lia |].
  rewrite fresh_buffer_length in Hlen.
  eexists. split; [reflexivity|].
  unfold CanonicalBlock.GetAge, CanonicalBlock.data_buffer. cbn [CanonicalBlock.SetData
    CanonicalBlock.m_data]. unfold Buffer.CopyData. rewrite Hlen. cbn [Nat.eqb].
  unfold Cbor.Decode, Buffer.GetSize. rewrite Hlen. cbn [Z.eqb Z.of_nat Pos.of_succ_nat].
  destruct (Cbor.DecodeHeader (Buffer.ReadU8 0 buf)) as [mt ai]. simpl in Hmt. subst mt.
  cbn [Z.eqb]. now rewrite Hdec.
Qed.

Lemma GetAge_SetAge_witness :
  exists b', CanonicalBlock.SetAge zero_fill CanonicalBlock.default 1000000 = Some b' /\
             CanonicalBlock.GetAge b' = 1000000.
Proof. apply GetAge_SetAge. lia. Defined.

(** ** Strings through the encoder *)

Lemma drop_fresh_buffer uninit n :
  (n <= 1024)%nat ->
  drop n (Buffer.AddAtStart uninit 1024 []) = map uninit (seq n (1024 - n)).
Proof.
  intros Hn. unfold Buffer.AddAtStart. rewrite app_nil_r.
  rewrite skipn_map, skipn_seq. reflexivity.
Qed.

Lemma EncodeUnsigned_drop buffer majorType value b n :
  Cbor.EncodeUnsigned buffer majorType value = Some b ->
  0 <= value < 65536 -> (9 <= length buffer)%nat ->
  (1 <= n)%nat -> (24 <= value -> (2 <= n)%nat) -> (256 <= value -> (3 <= n)%nat) ->
  drop n b = drop n buffer.
Proof.
  intros Hb Hv Hlen H1 H2 H3. unfold Cbor.EncodeUnsigned in Hb.
  assert (Hw : forall data, (length data <= n /\ length data <= 9)%nat ->
                            Buffer.Write 0 data buffer = Some b ->
                            drop n b = drop n buffer).
  { intros data Hd Hwr. rewrite Write_0_ok in Hwr by lia. injection Hwr as <-.
    rewrite drop_app_ge by lia. rewrite drop_drop. f_equal. lia. }
  destruct (Z.leb_spec value 23); [eapply Hw; [|exact Hb]; simpl; lia|].
  destruct (Z.leb_spec value 255); [eapply Hw; [|exact Hb]; simpl; lia|].
  destruct (Z.leb_spec value 65535); [eapply Hw; [|exact Hb]; simpl; lia|lia].
Qed.

(** X7.  The encoding of a non-empty byte string of at most 1024 bytes is the
    string itself followed by what the allocator left in the rest of the
    1024-byte buffer: the string overwrites its own length header. *)
Theorem Encode_byte_string_is_raw uninit bytes :
  (1 <= length bytes <= 1024)%nat ->
  Cbor.Encode uninit (Cbor.CborByteString bytes) =
    Some (bytes ++ map uninit (seq (length bytes) (1024 - length bytes))).
Proof.
  intros Hlen. cbn [Cbor.Encode].
  destruct (EncodeUnsigned_ok (Buffer.AddAtStart uninit 1024 []) 2 (Z.of_nat (length bytes)))
    as (b & Hb & Hbl & _); [rewrite fresh_buffer_length; lia|].
  rewrite Hb. cbn [mbind option_bind].
  rewrite fresh_buffer_length in Hbl.
  rewrite Write_0_ok by lia. f_equal. f_equal.
  rewrite (EncodeUnsigned_drop _ _ _ _ (length bytes) Hb); try lia.
  - apply drop_fresh_buffer. lia.
  - rewrite fresh_buffer_length. lia.
Qed.

Lemma Encode_byte_string_is_raw_witness :
  Cbor.Encode zero_fill (Cbor.CborByteString [7; 8; 9]) =
    Some ([7; 8; 9] ++ map zero_fill (seq 3 (1024 - 3))).
Proof. apply (Encode_byte_string_is_raw zero_fill [7; 8; 9]). simpl. lia. Defined.

(** ** The CRC check *)

Lemma crc_equal_eq a : forall b, length a = length b -> (Crc.crc_equal a b = true <-> a = b).
Proof.
  induction a as [|x a IH]; intros [|y b] Hl; try discriminate; simpl.
  - tauto.
  - injection Hl as Hl. destruct (Z.eqb_spec x y) as [->|Hne]; simpl.
    + rewrite (IH b Hl). split; [congruence|]. now intros [= ->].
    + split; [discriminate|]. intros [= E _]. contradiction.
Qed.

(** X8.  [VerifyCRC] accepts a CRC value exactly when the type is NO_CRC or
    the value is the one [CalculateCRC] computes. *)
Theorem VerifyCRC_accepts_the_computed_value type data crc :
  Crc.VerifyCRC type data crc = true <->
  type = CRCType.NO_CRC \/ crc = Crc.CalculateCRC type data.
Proof.
  unfold Crc.VerifyCRC. destruct (Z.eqb_spec type CRCType.NO_CRC) as [->|Hne].
  { split; auto. }
  destruct (Nat.eqb_spec (length (Crc.CalculateCRC type data)) (length crc)) as [Hl|Hl]; simpl.
  - rewrite (crc_equal_eq _ _ Hl). split; [auto|]. intros [E|E]; [contradiction|auto].
  - split; [discriminate|]. intros [E|E]; [contradiction|]. subst crc. contradiction.
Qed.

Lemma VerifyCRC_CalculateCRC type data :
  Crc.VerifyCRC type data (Crc.CalculateCRC type data) = true.
Proof.
  unfold Crc.VerifyCRC. destruct (_ =? CRCType.NO_CRC); [reflexivity|].
  rewrite Nat.eqb_refl. simpl. now apply crc_equal_eq.
Qed.

(** The encoding of an array is settled by the number of its items. *)
Lemma Encode_array_by_length uninit a a' b b' :
  Cbor.Encode uninit (Cbor.CborArray a) = Some b ->
  Cbor.Encode uninit (Cbor.CborArray a') = Some b' ->
  length a = length a' -> b = b'.
Proof.
  cbn [Cbor.Encode]. intros Hb Hb' Hl. rewrite Hl in Hb.
  destruct (Cbor.EncodeUnsigned _ 4 _) as [buf|]; [|discriminate].
  cbn [mbind option_bind] in Hb, Hb'.
  match type of Hb with (match ?e with _ => _ end) = _ => destruct e; [|discriminate] end.
  match type of Hb' with (match ?e with _ => _ end) = _ => destruct e; [|discriminate] end.
  congruence.
Qed.

Lemma CanonicalBlock_CalculateCRC_value uninit b b' :
  CanonicalBlock.CalculateCRC uninit b = Some b' ->
  b' = CanonicalBlock.set_crcValue b [] /\ CanonicalBlock.m_crcType b = CRCType.NO_CRC \/
  exists buffer,
    CanonicalBlock.m_crcType b <> CRCType.NO_CRC /\
    CanonicalBlock.ToCbor uninit (CanonicalBlock.set_crcValue b []) = Some buffer /\
    b' = CanonicalBlock.set_crcValue b
           (Crc.CalculateCRC (CanonicalBlock.m_crcType b) (Buffer.CopyData buffer)).
Proof.
  unfold CanonicalBlock.CalculateCRC.
  destruct (Z.eqb_spec (CanonicalBlock.m_crcType b) CRCType.NO_CRC) as [E|E].
  { intros [= <-]. left. auto. }
  destruct (CanonicalBlock.ToCbor _ _) as [buffer|]; [|discriminate].
  cbn [mbind option_bind CanonicalBlock.set_crcValue CanonicalBlock.m_crcType
       CanonicalBlock.class_of CanonicalBlock.m_blockType CanonicalBlock.m_blockNumber
       CanonicalBlock.m_blockControlFlags CanonicalBlock.m_data].
  intros H. right. exists buffer. split; [exact E|]. split; [reflexivity|].
  unfold Crc.CalculateCRC.
  destruct (_ =? CRCType.CRC_16); [now injection H as <-|].
  destruct (_ =? CRCType.CRC_32); now injection H as <-.
Qed.

Lemma same_shape_Some o o' : same_shape o o' -> is_Some o -> is_Some o'.
Proof. destruct o, o'; simpl; intros Hs [x Hx]; eauto; try discriminate; contradiction. Qed.

Lemma Write_same_shape pos data b b' :
  length b = length b' -> same_shape (Buffer.Write pos data b) (Buffer.Write pos data b').
Proof.
  intros Hl. unfold Buffer.Write. rewrite Hl. case_decide; simpl; [|exact I].
  rewrite !length_app, !length_take, !length_drop. lia.
Qed.

Lemma EncodeUnsigned_same_shape b b' majorType value :
  length b = length b' ->
  same_shape (Cbor.EncodeUnsigned b majorType value) (Cbor.EncodeUnsigned b' majorType value).
Proof.
  intros Hl. unfold Cbor.EncodeUnsigned.
  repeat match goal with |- context [if ?c then _ else _] => destruct c end;
    now apply Write_same_shape.
Qed.

Lemma fresh_buffers_alike u u' :
  length (Buffer.AddAtStart u 1024 []) = length (Buffer.AddAtStart u' 1024 []).
Proof. now rewrite !fresh_buffer_length. Qed.

Lemma bind_same_shape (o o' : option Buffer.t) (f f' : Buffer.t -> option Buffer.t) :
  same_shape o o' ->
  (forall b b', length b = length b' -> same_shape (f b) (f' b')) ->
  same_shape (o ≫= f) (o' ≫= f').
Proof. destruct o, o'; simpl; try tauto. intros H Hf. now apply Hf. Qed.

Lemma Encode_same_shape u u' : forall v, same_shape (Cbor.Encode u v) (Cbor.Encode u' v).
Proof.
  fix IH 1. intros [val|val|bytes|text|array|map|tag v|val|]; cbn [Cbor.Encode].
  - apply EncodeUnsigned_same_shape, (fresh_buffers_alike u u').
  - apply EncodeUnsigned_same_shape, (fresh_buffers_alike u u').
  - apply bind_same_shape; [apply EncodeUnsigned_same_shape, (fresh_buffers_alike u u')|].
    intros b b'. apply Write_same_shape.
  - apply bind_same_shape; [apply EncodeUnsigned_same_shape, (fresh_buffers_alike u u')|].
    intros b b'. apply Write_same_shape.
  - apply bind_same_shape; [apply EncodeUnsigned_same_shape, (fresh_buffers_alike u u')|].
    intros b b' Hl.
    revert array. fix IHl 1. intros [|item array]; cbn [mbind option_bind]; [exact Hl|].
    specialize (IH item). specialize (IHl array).
    destruct (Cbor.Encode u item), (Cbor.Encode u' item); simpl in IH;
      first [contradiction | exact I | exact IHl].
  - apply bind_same_shape; [apply EncodeUnsigned_same_shape, (fresh_buffers_alike u u')|].
    intros b b' Hl.
    revert map. fix IHl 1. intros [|[k v] map]; cbn [mbind option_bind]; [exact Hl|].
    pose proof (IH k) as Hk. pose proof (IH v) as Hv. specialize (IHl map).
    destruct (Cbor.Encode u k), (Cbor.Encode u' k); simpl in Hk;
      try contradiction; try exact I.
    cbn [mbind option_bind].
    destruct (Cbor.Encode u v), (Cbor.Encode u' v); simpl in Hv;
      first [contradiction | exact I | exact IHl].
  - apply bind_same_shape; [apply EncodeUnsigned_same_shape, (fresh_buffers_alike u u')|].
    intros b b' Hl. specialize (IH v).
    destruct (Cbor.Encode u v), (Cbor.Encode u' v); simpl in IH;
      first [contradiction | exact I | exact Hl].
  - destruct (val <=? 23); apply Write_same_shape, (fresh_buffers_alike u u').
  - simpl. apply (fresh_buffers_alike u u').
Qed.

(** The encoding of an array of at most 23 items: the header byte, then
    what the allocator left in the other 1023 bytes of the buffer. *)
Lemma Encode_array_value uninit a b :
  Cbor.Encode uninit (Cbor.CborArray a) = Some b ->
  (length a <= 23)%nat ->
  b = (128 + Z.of_nat (length a)) :: map uninit (seq 1 1023).
Proof.
  cbn [Cbor.Encode]. intros Hb Hlen.
  destruct (Cbor.EncodeUnsigned _ 4 _) as [buf|] eqn:E; [|discriminate].
  cbn [mbind option_bind] in Hb.
  match type of Hb with (match ?e with _ => _ end) = _ => destruct e; [|discriminate] end.
  injection Hb as <-.
  unfold Cbor.EncodeUnsigned in E.
  assert ((Z.of_nat (length a) <=? 23) = true) as Hle by lia. rewrite Hle in E.
  rewrite Write_0_ok in E by (rewrite fresh_buffer_length; simpl; lia).
  set (fresh := Buffer.AddAtStart uninit 1024 []) in *.
  set (hdr := Cbor.EncodeHeader 4 (u8 (Z.of_nat (length a)))) in *.
  assert (Hbuf : buf = hdr :: drop 1 fresh).
  { change (hdr :: drop 1 fresh) with ([hdr] ++ drop (length [hdr]) fresh). congruence. }
  rewrite Hbuf. subst fresh. rewrite (drop_fresh_buffer uninit 1) by lia.
  f_equal. subst hdr.
  assert (Htab : forallb (fun k => Cbor.EncodeHeader 4 (u8 (Z.of_nat k)) =? 128 + Z.of_nat k)
                         (seq 0 24) = true) by (vm_compute; reflexivity).
  rewrite forallb_forall in Htab. apply Z.eqb_eq, Htab, in_seq. lia.
Qed.

Lemma Encode_array_memory uninit uninit' a b :
  Cbor.Encode uninit (Cbor.CborArray a) = Some b ->
  (length a <= 23)%nat ->
  same_memory uninit uninit' ->
  Cbor.Encode uninit' (Cbor.CborArray a) = Some b.
Proof.
  intros Hb Hlen Hmem.
  destruct (same_shape_Some _ _ (Encode_same_shape uninit uninit' (Cbor.CborArray a)))
    as [b' Hb']; [eauto|].
  rewrite Hb'. f_equal.
  rewrite (Encode_array_value _ _ _ Hb Hlen), (Encode_array_value _ _ _ Hb' Hlen).
  f_equal. apply map_ext_in. intros i Hi. apply in_seq in Hi. apply Hmem. lia.
Qed.


Lemma CanonicalBlock_ToCbor_cleared uninit b buffer :
  CanonicalBlock.ToCbor uninit (CanonicalBlock.set_crcValue b []) = Some buffer ->
  buffer = 133 :: map uninit (seq 1 1023).
Proof.
  unfold CanonicalBlock.ToCbor.
  cbn [CanonicalBlock.set_crcValue CanonicalBlock.m_crcType CanonicalBlock.m_crcValue
       CanonicalBlock.m_blockType CanonicalBlock.m_blockNumber
       CanonicalBlock.m_blockControlFlags CanonicalBlock.m_data length Nat.eqb negb].
  rewrite andb_false_r. intros Hb.
  exact (Encode_array_value uninit _ _ Hb ltac:(simpl; lia)).
Qed.

(** X9.  Neither [CalculateCRC] nor [CheckCRC] of a canonical block covers
    any of the block's content.  For a block with a CRC type and at most
    1024 bytes of data, the bytes the CRC runs over are the array header
    0x85 followed by the 1023 bytes the allocator left in the buffer the
    call encodes into: [CalculateCRC], with [uninit] in its buffer, stores
    the CRC of those bytes, and [CheckCRC], with [uninit'] in its own
    buffer, compares the stored value with the CRC of those bytes, whatever
    the block's type, number, flags and data are. *)
Theorem CanonicalBlock_CRC_covers_no_content uninit uninit' b :
  CanonicalBlock.m_crcType b <> CRCType.NO_CRC ->
  (length (CanonicalBlock.m_data b) <= 1024)%nat ->
  CanonicalBlock.CalculateCRC uninit b =
    Some (CanonicalBlock.set_crcValue b
            (Crc.CalculateCRC (CanonicalBlock.m_crcType b)
               (133 :: map uninit (seq 1 1023)))) /\
  CanonicalBlock.CheckCRC uninit' b =
    Some (Crc.VerifyCRC (CanonicalBlock.m_crcType b)
            (133 :: map uninit' (seq 1 1023)) (CanonicalBlock.m_crcValue b)).
Proof.
  intros Hty Hdata.
  assert (Hbuf : forall u, CanonicalBlock.ToCbor u (CanonicalBlock.set_crcValue b []) =
                           Some (133 :: map u (seq 1 1023))).
  { intros u.
    destruct (CanonicalBlock_ToCbor_ok u (CanonicalBlock.set_crcValue b []))
      as [buffer Hbuf]; [split; simpl; lia|].
    now rewrite Hbuf, (CanonicalBlock_ToCbor_cleared u b buffer Hbuf). }
  split.
  - destruct (CanonicalBlock.CalculateCRC uninit b) as [b'|] eqn:E.
    + destruct (CanonicalBlock_CalculateCRC_value uninit b b' E)
        as [[_ E0]|(buffer' & _ & Hbuf' & ->)]; [contradiction|].
      rewrite Hbuf in Hbuf'. injection Hbuf' as <-. reflexivity.
    + unfold CanonicalBlock.CalculateCRC in E.
      destruct (Z.eqb_spec (CanonicalBlock.m_crcType b) CRCType.NO_CRC); [contradiction|].
      rewrite Hbuf in E. cbn [mbind option_bind] in E.
      repeat match type of E with (if ?c then _ else _) = _ => destruct c end; discriminate.
  - unfold CanonicalBlock.CheckCRC.
    destruct (Z.eqb_spec (CanonicalBlock.m_crcType b) CRCType.NO_CRC); [contradiction|].
    rewrite Hbuf. reflexivity.
Qed.

Lemma CanonicalBlock_CRC_covers_no_content_witness :
  let b := CanonicalBlock.SetCRCType (CanonicalBlock.PayloadBlock [1; 2; 3]) CRCType.CRC_32 in
  let other := fun i : nat => Z.of_nat i mod 256 in
  CanonicalBlock.CalculateCRC zero_fill b =
    Some (CanonicalBlock.set_crcValue b
            (Crc.CalculateCRC (CanonicalBlock.m_crcType b)
               (133 :: map zero_fill (seq 1 1023)))) /\
  CanonicalBlock.CheckCRC other b =
    Some (Crc.VerifyCRC (CanonicalBlock.m_crcType b)
            (133 :: map other (seq 1 1023)) (CanonicalBlock.m_crcValue b)).
Proof.
  apply (CanonicalBlock_CRC_covers_no_content zero_fill (fun i : nat => Z.of_nat i mod 256)
           (CanonicalBlock.SetCRCType (CanonicalBlock.PayloadBlock [1; 2; 3]) CRCType.CRC_32)).
  - discriminate.
  - simpl. lia.
Defined.

(** [CheckCRC] on memory that holds what the memory of [CalculateCRC]
    held. *)
Lemma CanonicalBlock_CheckCRC_same_memory uninit uninit' b b' :
  CanonicalBlock.CalculateCRC uninit b = Some b' ->
  same_memory uninit uninit' ->
  CanonicalBlock.CheckCRC uninit' b' = Some true.
Proof.
  intros Hcrc Hmem.
  destruct (CanonicalBlock_CalculateCRC_value uninit b b' Hcrc)
    as [[-> E]|(buffer & Hty & Hbuf & ->)].
  { unfold CanonicalBlock.CheckCRC. simpl. rewrite E. reflexivity. }
  unfold CanonicalBlock.CheckCRC.
  cbn [CanonicalBlock.set_crcValue CanonicalBlock.m_crcType
       CanonicalBlock.class_of CanonicalBlock.m_blockType CanonicalBlock.m_blockNumber
       CanonicalBlock.m_blockControlFlags CanonicalBlock.m_data CanonicalBlock.m_crcValue].
  destruct (Z.eqb_spec (CanonicalBlock.m_crcType b) CRCType.NO_CRC) as [E|_]; [contradiction|].
  change (CanonicalBlock.set_crcValue (CanonicalBlock.set_crcValue b _) [])
    with (CanonicalBlock.set_crcValue b []).
  assert (Hbuf' : CanonicalBlock.ToCbor uninit' (CanonicalBlock.set_crcValue b []) = Some buffer).
  { unfold CanonicalBlock.ToCbor in *.
    cbn [CanonicalBlock.set_crcValue CanonicalBlock.m_crcType CanonicalBlock.m_crcValue
         CanonicalBlock.m_blockType CanonicalBlock.m_blockNumber
         CanonicalBlock.m_blockControlFlags CanonicalBlock.m_data length Nat.eqb negb] in *.
    rewrite andb_false_r in *.
    exact (Encode_array_memory uninit uninit' _ _ Hbuf ltac:(simpl; lia) Hmem). }
  rewrite Hbuf'. cbn [mbind option_bind].
  now rewrite VerifyCRC_CalculateCRC.
Qed.

Lemma PrimaryBlock_CheckCRC_same_memory uninit uninit' b b' :
  PrimaryBlock.CalculateCRC uninit b = Some b' ->
  same_memory uninit uninit' ->
  PrimaryBlock.CheckCRC uninit' b' = Some true.
Proof.
  unfold PrimaryBlock.CalculateCRC, PrimaryBlock.CheckCRC. intros H Hmem. revert H.
  destruct (Z.eqb_spec (PrimaryBlock.m_crcType b) CRCType.NO_CRC) as [E|E].
  { intros [= <-]. simpl. now rewrite E. }
  destruct (PrimaryBlock.ToCbor uninit (PrimaryBlock.set_crcValue b [])) as [buffer|] eqn:Hbuf;
    [|discriminate].
  cbn [mbind option_bind]. intros H.
  assert (Hb' : b' = PrimaryBlock.set_crcValue b
                       (Crc.CalculateCRC (PrimaryBlock.m_crcType b) (Buffer.CopyData buffer))).
  { unfold Crc.CalculateCRC. simpl in H.
    destruct (_ =? CRCType.CRC_16); [now injection H as <-|].
    destruct (_ =? CRCType.CRC_32); now injection H as <-. }
  subst b'. cbn [PrimaryBlock.set_crcValue PrimaryBlock.m_crcType PrimaryBlock.m_crcValue].
  destruct (Z.eqb_spec (PrimaryBlock.m_crcType b) CRCType.NO_CRC) as [E'|_]; [contradiction|].
  change (PrimaryBlock.ToCbor uninit' _) with
    (PrimaryBlock.ToCbor uninit' (PrimaryBlock.set_crcValue b [])).
  assert (Hbuf' : PrimaryBlock.ToCbor uninit' (PrimaryBlock.set_crcValue b []) = Some buffer).
  { unfold PrimaryBlock.ToCbor in *.
    refine (Encode_array_memory uninit uninit' _ _ Hbuf _ Hmem).
    rewrite !length_app. cbn [length].
    destruct (PrimaryBlock.IsFragment _), (_ && _); simpl; lia. }
  rewrite Hbuf'. cbn [mbind option_bind].
  now rewrite VerifyCRC_CalculateCRC.
Qed.

Lemma CalculateCRC_blocks_frame uninit blocks :
  forall h h', Bundle.CalculateCRC_blocks uninit h blocks = Some h' ->
               forall p, ~ In p blocks -> h' !! p = h !! p.
Proof.
  induction blocks as [|block blocks IH]; simpl; intros h h' Hr p Hp.
  - now injection Hr as <-.
  - destruct (CanonicalBlock.CalculateCRC uninit (deref h block)) as [b'|]; [|discriminate].
    simpl in Hr. rewrite (IH _ _ Hr p) by tauto.
    apply lookup_insert_ne. intros ->. tauto.
Qed.

Lemma CalculateCRC_blocks_checked uninit blocks :
  forall h h', Bundle.CalculateCRC_blocks uninit h blocks = Some h' ->
    forall p uninit', In p blocks -> same_memory uninit uninit' ->
      CanonicalBlock.CheckCRC uninit' (deref h' p) = Some true.
Proof.
  induction blocks as [|block blocks IH]; simpl; intros h h' Hr p uninit' Hp Hmem;
    [contradiction|].
  destruct (CanonicalBlock.CalculateCRC uninit (deref h block)) as [b'|] eqn:E; [|discriminate].
  simpl in Hr.
  destruct (in_dec Nat.eq_dec p blocks) as [Hin|Hnin]; [exact (IH _ _ Hr p uninit' Hin Hmem)|].
  destruct Hp as [<-|Hp]; [|contradiction].
  unfold deref. rewrite (CalculateCRC_blocks_frame _ _ _ _ Hr block Hnin), lookup_insert_eq.
  exact (CanonicalBlock_CheckCRC_same_memory _ _ _ _ E Hmem).
Qed.

Lemma CheckCRC_blocks_true h blocks :
  forall mem,
    (forall k p, blocks !! k = Some p ->
                 CanonicalBlock.CheckCRC (mem k) (deref h p) = Some true) ->
    Bundle.CheckCRC_blocks mem h blocks = Some true.
Proof.
  induction blocks as [|block blocks IH]; simpl; intros mem H; [reflexivity|].
  rewrite (H 0%nat block eq_refl). simpl. apply IH. intros k p Hk. exact (H (S k) p Hk).
Qed.

(** X10.  A bundle whose CRCs [CalculateCRC] has just computed passes
    [CheckCRC] when every buffer the encoder allocates for the check holds,
    behind its first byte, the bytes the buffers of [CalculateCRC] held
    there (as it is with zero-filled memory).  [mem 0] is the memory of the
    buffer for the primary block, [mem (S k)] that of the buffer for the
    canonical block at position [k]. *)
Theorem Bundle_CheckCRC_on_the_same_memory uninit mem h b h' b' :
  Bundle.CalculateCRC uninit h b = Some (h', b') ->
  (forall k, same_memory uninit (mem k)) ->
  Bundle.CheckCRC mem h' b' = Some true.
Proof.
  unfold Bundle.CalculateCRC, Bundle.CheckCRC. intros Hcrc Hmem. revert Hcrc.
  destruct (PrimaryBlock.CalculateCRC uninit _) as [primary|] eqn:Ep; [|discriminate].
  cbn [mbind option_bind].
  destruct (Bundle.CalculateCRC_blocks uninit h _) as [h1|] eqn:Eb; [|discriminate].
  cbn [mbind option_bind]. intros [= <- <-]. cbn [Bundle.m_primaryBlock Bundle.m_canonicalBlocks].
  rewrite (PrimaryBlock_CheckCRC_same_memory _ _ _ _ Ep (Hmem 0%nat)).
  cbn [mbind option_bind negb].
  apply CheckCRC_blocks_true. intros k p Hk.
  apply (CalculateCRC_blocks_checked _ _ _ _ Eb).
  - apply list_elem_of_In. eapply list_elem_of_lookup_2. exact Hk.
  - apply Hmem.
Qed.

Lemma Bundle_CheckCRC_on_the_same_memory_witness :
  exists h' b',
    Bundle.CalculateCRC zero_fill crc_heap crc_bundle = Some (h', b') /\
    Bundle.CheckCRC (fun k i => if Nat.eqb i 0 then Z.of_nat k else 0) h' b' = Some true.
Proof.
  destruct (Bundle.CalculateCRC zero_fill crc_heap crc_bundle) as [[h' b']|] eqn:E.
  - exists h', b'. split; [reflexivity|].
    apply (Bundle_CheckCRC_on_the_same_memory zero_fill _ crc_heap crc_bundle h' b' E).
    intros k i Hi. destruct i; [lia | reflexivity].
  - exfalso. vm_compute in E. discriminate E.
Defined.

(** ** Endpoint identifiers *)

Lemma substring_all s : substring 0 (String.length s) s = s.
Proof. induction s as [|c s IH]; simpl; [reflexivity | now f_equal]. Qed.

Lemma find_colon_split s : forall n,
  EndpointID.find_colon (list_ascii_of_string s) = Some n ->
  s = (substring 0 n s ++ ":" ++ substring (S n) (String.length s - S n) s)%string.
Proof.
  induction s as [|c s IH]; intros n; simpl; [discriminate|].
  destruct (Ascii.eqb_spec c EndpointID.colon) as [->|Hne].
  - intros [= <-].
    transitivity (String EndpointID.colon (substring 0 (String.length s) s));
      [now rewrite substring_all|].
    cbn [String.length Nat.sub]. rewrite Nat.sub_0_r. reflexivity.
  - destruct (EndpointID.find_colon (list_ascii_of_string s)) as [m|]; [|discriminate].
    intros [= <-].
    transitivity (String c (substring 0 m s ++ ":" ++
                            substring (S m) (String.length s - S m) s))%string;
      [f_equal; exact (IH m eq_refl) | reflexivity].
Qed.

(** The two ways the constructor can end. *)
Lemma of_string_cases s :
  EndpointID.of_string s = EndpointID.none /\ EndpointID.IsValid s = false \/
  exists n,
    EndpointID.find_colon (list_ascii_of_string s) = Some n /\
    EndpointID.of_string s =
      EndpointID.mk (substring 0 n s) (substring (S n) (String.length s - S n) s) s /\
    EndpointID.IsValid s = true /\
    (substring 0 n s = "dtn"%string \/ substring 0 n s = "ipn"%string).
Proof.
  unfold EndpointID.of_string, EndpointID.IsValid.
  destruct (String.eqb s ""); [left; auto|].
  destruct (EndpointID.find_colon _) as [n|]; [|left; auto].
  destruct (String.eqb_spec (substring 0 n s) "dtn") as [Ed|Ed].
  { destruct (EndpointID.ParseDtn s); [|left; auto].
    right. exists n. rewrite Ed. auto. }
  destruct (String.eqb_spec (substring 0 n s) "ipn") as [Ei|Ei]; [|left; auto].
  destruct (EndpointID.ParseIpn s); [|left; auto].
  right. exists n. rewrite Ei. auto.
Qed.

(** X11.  Whatever text it is given, the constructor yields an endpoint ID
    whose URI is its scheme, a colon and its scheme-specific part, whose
    scheme is dtn or ipn, whose text [IsValid] accepts, and which the
    constructor rebuilds from that text. *)
Theorem EndpointID_constructor_invariant s :
  let e := EndpointID.of_string s in
  EndpointID.m_uri e = (EndpointID.m_scheme e ++ ":" ++ EndpointID.m_ssp e)%string /\
  (EndpointID.IsDtn e = true \/ EndpointID.IsIpn e = true) /\
  EndpointID.IsValid (EndpointID.ToString e) = true /\
  EndpointID.of_string (EndpointID.ToString e) = e.
Proof.
  cbn zeta. destruct (of_string_cases s) as [[-> _]|(n & Hn & He & Hv & Hs)].
  { repeat split. left. reflexivity. }
  rewrite He. cbn [EndpointID.m_uri EndpointID.m_scheme EndpointID.m_ssp EndpointID.ToString].
  split; [exact (find_colon_split s n Hn)|].
  split.
  { unfold EndpointID.IsDtn, EndpointID.IsIpn. cbn [EndpointID.m_scheme].
    destruct Hs as [-> | ->]; [left | right]; reflexivity. }
  split; [exact Hv | exact He].
Qed.

(** X12.  The constructor keeps a text exactly when [IsValid] accepts it, and
    falls back to dtn:none otherwise; [Parse] returns what the constructor
    builds in the first case and nothing in the second. *)
Theorem EndpointID_constructor_agrees_with_IsValid s :
  EndpointID.ToString (EndpointID.of_string s) =
    (if EndpointID.IsValid s then s else "dtn:none"%string) /\
  EndpointID.Parse s =
    (if EndpointID.IsValid s then Some (EndpointID.of_string s) else None) /\
  (EndpointID.IsValid s = false -> EndpointID.of_string s = EndpointID.none).
Proof.
  destruct (of_string_cases s) as [[He Hv]|(n & Hn & He & Hv & Hs)].
  - rewrite He, Hv. unfold EndpointID.Parse. rewrite Hv. auto.
  - rewrite He, Hv. unfold EndpointID.Parse. rewrite Hv, He.
    split; [reflexivity|]. split; [reflexivity | discriminate].
Qed.

(** ** Orders *)

(** X13.  For timestamps whose nanosecond parts are below one second and
    whose [ToTime ()] fits the signed 64-bit nanoseconds of [ns3::Time], the
    operators ==, <, <=, > and >= of [DtnTime] answer as the comparison of
    the [ToTime ()] values does. *)
Theorem DtnTime_operators_follow_ToTime a b :
  0 <= DtnTime.m_dtnTimeSeconds a -> 0 <= DtnTime.m_dtnTimeSeconds b ->
  0 <= DtnTime.m_dtnTimeNanoseconds a < 1000000000 ->
  0 <= DtnTime.m_dtnTimeNanoseconds b < 1000000000 ->
  DtnTime.ToTime a < 2 ^ 63 -> DtnTime.ToTime b < 2 ^ 63 ->
  DtnTime.eqb a b = (DtnTime.ToTime a =? DtnTime.ToTime b) /\
  DtnTime.ltb a b = (DtnTime.ToTime a <? DtnTime.ToTime b) /\
  DtnTime.leb a b = (DtnTime.ToTime a <=? DtnTime.ToTime b) /\
  DtnTime.gtb a b = (DtnTime.ToTime a >? DtnTime.ToTime b) /\
  DtnTime.geb a b = (DtnTime.ToTime a >=? DtnTime.ToTime b).
Proof.
  intros _ _ Ha Hb _ _.
  unfold DtnTime.gtb, DtnTime.geb, DtnTime.leb, DtnTime.ltb, DtnTime.eqb, DtnTime.ToTime.
  destruct a as [sa na], b as [sb nb]. simpl in *.
  destruct (Z.ltb_spec sa sb), (Z.eqb_spec sa sb), (Z.ltb_spec na nb), (Z.eqb_spec na nb);
    simpl; repeat split; lia.
Qed.

Lemma DtnTime_operators_follow_ToTime_witness :
  let a := DtnTime.mk 5 999999999 in
  let b := DtnTime.mk 6 0 in
  DtnTime.eqb a b = (DtnTime.ToTime a =? DtnTime.ToTime b) /\
  DtnTime.ltb a b = (DtnTime.ToTime a <? DtnTime.ToTime b) /\
  DtnTime.leb a b = (DtnTime.ToTime a <=? DtnTime.ToTime b) /\
  DtnTime.gtb a b = (DtnTime.ToTime a >? DtnTime.ToTime b) /\
  DtnTime.geb a b = (DtnTime.ToTime a >=? DtnTime.ToTime b).
Proof.
  apply (DtnTime_operators_follow_ToTime (DtnTime.mk 5 999999999) (DtnTime.mk 6 0));
    repeat split; vm_compute; first [reflexivity | discriminate].
Defined.

Lemma String_ltb_trichotomy a b :
  String.eqb a b = negb (String.ltb a b) && negb (String.ltb b a).
Proof.
  unfold String.ltb. rewrite (String.compare_antisym b a).
  destruct (String.eqb_spec a b) as [->|Hne].
  - assert (E : String.compare b b = Eq).
    { clear. induction b as [|c b IH]; simpl; [reflexivity|].
      assert (Ec : Ascii.compare c c = Eq).
      { unfold Ascii.compare. apply N.compare_refl. }
      now rewrite Ec. }
    now rewrite E.
  - destruct (String.compare a b) eqn:E; try reflexivity.
    apply String.compare_eq_iff in E. contradiction.
Qed.

Lemma DtnTime_ltb_trichotomy a b :
  DtnTime.eqb a b = negb (DtnTime.ltb a b) && negb (DtnTime.ltb b a).
Proof.
  unfold DtnTime.ltb, DtnTime.eqb. destruct a as [sa na], b as [sb nb]. simpl.
  destruct (Z.ltb_spec sa sb), (Z.eqb_spec sa sb), (Z.ltb_spec na nb), (Z.eqb_spec na nb),
           (Z.ltb_spec sb sa), (Z.eqb_spec sb sa), (Z.ltb_spec nb na);
    simpl; try reflexivity; lia.
Qed.

(** X14.  Two bundle IDs are equal under [operator==] exactly when neither is
    less than the other under [operator<]. *)
Theorem BundleID_equal_iff_unordered a b :
  BundleID.eqb a b = negb (BundleID.ltb a b) && negb (BundleID.ltb b a).
Proof.
  unfold BundleID.eqb, BundleID.ltb, EndpointID.eqb, EndpointID.ltb.
  rewrite (String.eqb_sym (EndpointID.m_uri (BundleID.m_source b))).
  rewrite (String_ltb_trichotomy (EndpointID.m_uri (BundleID.m_source a))).
  destruct a as [[sa ssa ua] ta qa fa oa], b as [[sb ssb ub] tb qb fb ob]. simpl.
  destruct (String.ltb ua ub), (String.ltb ub ua); simpl;
    try (destruct fa, fb; reflexivity).
  assert (Et : DtnTime.eqb tb ta = DtnTime.eqb ta tb).
  { unfold DtnTime.eqb. now rewrite (Z.eqb_sym (DtnTime.m_dtnTimeSeconds tb)),
      (Z.eqb_sym (DtnTime.m_dtnTimeNanoseconds tb)). }
  rewrite Et, (DtnTime_ltb_trichotomy ta tb).
  destruct (DtnTime.ltb ta tb), (DtnTime.ltb tb ta); simpl;
    try (destruct fa, fb; reflexivity).
  destruct fa, fb; simpl;
    repeat match goal with
           | |- context [Z.eqb ?x ?y] => destruct (Z.eqb_spec x y)
           | |- context [Z.ltb ?x ?y] => destruct (Z.ltb_spec x y)
           end; simpl; try reflexivity; lia.
Qed.

(** X15.  Bundle IDs that are equal under [operator==] have the same [Hash],
    whatever hash functions the standard library provides. *)
Theorem BundleID_equal_ids_hash_alike hash_string hash_uint64 a b :
  BundleID.eqb a b = true ->
  BundleID.Hash hash_string hash_uint64 a = BundleID.Hash hash_string hash_uint64 b.
Proof.
  unfold BundleID.eqb, BundleID.Hash, EndpointID.eqb, DtnTime.eqb, EndpointID.ToString,
    DtnTime.GetSeconds.
  destruct a as [[sa ssa ua] [ta na] qa fa oa], b as [[sb ssb ub] [tb nb] qb fb ob]. simpl.
  destruct (Bool.eqb_spec fa fb) as [->|]; [|discriminate]. simpl.
  destruct (String.eqb_spec ua ub) as [->|]; [|discriminate]. simpl.
  destruct (Z.eqb_spec ta tb) as [->|]; [|discriminate]. simpl.
  destruct (Z.eqb_spec na nb) as [->|]; [|discriminate]. simpl.
  destruct (Z.eqb_spec qa qb) as [->|]; [|discriminate]. simpl.
  destruct fb; simpl; [|reflexivity].
  destruct (Z.eqb_spec oa ob) as [->|]; [reflexivity | discriminate].
Qed.

Lemma BundleID_equal_ids_hash_alike_witness :
  BundleID.Hash (fun s => Z.of_nat (String.length s)) (fun x => x)
    (BundleID.mk node_a (DtnTime.mk 1000 0) 3 false 7) =
  BundleID.Hash (fun s => Z.of_nat (String.length s)) (fun x => x)
    (BundleID.mk node_a (DtnTime.mk 1000 0) 3 false 9).
Proof. apply BundleID_equal_ids_hash_alike. reflexivity. Defined.

(** ** Control flags *)

Lemma land_pow2_testbit x j :
  0 <= j -> negb (Z.land x (2 ^ j) =? 0) = Z.testbit x j.
Proof.
  intros Hj. destruct (Z.eqb_spec (Z.land x (2 ^ j)) 0) as [E|E]; simpl.
  - assert (H : Z.testbit (Z.land x (2 ^ j)) j = false) by (rewrite E; apply Z.bits_0).
    rewrite Z.land_spec, Z.pow2_bits_true, andb_true_r in H by lia. now rewrite H.
  - destruct (Z.testbit x j) eqn:Hb; [reflexivity|]. exfalso. apply E.
    apply Z.bits_inj'. intros k Hk. rewrite Z.land_spec, Z.bits_0.
    rewrite Z.pow2_bits_eqb by lia.
    destruct (Z.eqb_spec j k) as [<-|]; [now rewrite Hb | apply andb_false_r].
Qed.

(** Setting or clearing bit [i] of a flag word, as the setters do, changes
    bit [i] and no other of the low 64. *)
Lemma flag_update flags i j (enable : bool) :
  0 <= i < 64 -> 0 <= j < 64 ->
  negb (Z.land (if enable then Z.lor flags (2 ^ i)
                else Z.land flags (u64 (Z.lnot (2 ^ i)))) (2 ^ j) =? 0) =
  if i =? j then enable else negb (Z.land flags (2 ^ j) =? 0).
Proof.
  intros Hi Hj. rewrite !land_pow2_testbit by lia.
  destruct enable.
  - rewrite Z.lor_spec, Z.pow2_bits_eqb by lia.
    destruct (i =? j); [apply orb_true_r | apply orb_false_r].
  - rewrite Z.land_spec. unfold u64, wrap.
    rewrite Z.mod_pow2_bits_low by lia.
    rewrite Z.lnot_spec, Z.pow2_bits_eqb by lia.
    destruct (i =? j); simpl; [apply andb_false_r | apply andb_true_r].
Qed.

Lemma bundle_flag_accessors_shape i (get : PrimaryBlock.t -> bool)
    (put : PrimaryBlock.t -> bool -> PrimaryBlock.t) :
  bundle_flag_accessors !! i = Some (get, put) ->
  (i < 7)%nat /\
  (forall b, get b = PrimaryBlock.has_flag (PrimaryBlock.m_bundleControlFlags b)
                                           (2 ^ Z.of_nat i)) /\
  (forall b enable, put b enable = PrimaryBlock.set_flag b (2 ^ Z.of_nat i) enable).
Proof.
  intros Hi.
  do 7 (destruct i as [|i];
        [injection Hi as <- <-; split; [lia|]; split; [reflexivity | now intros b []]|]).
  discriminate Hi.
Qed.

(** X16.  Each of the seven flag setters of the primary block makes its own
    getter answer the value set and leaves the answers of the other six
    getters, and every field but the flag word, as they were. *)
Theorem PrimaryBlock_flag_setters_are_independent i j get put get' put' b enable :
  bundle_flag_accessors !! i = Some (get, put) ->
  bundle_flag_accessors !! j = Some (get', put') ->
  get' (put b enable) = (if decide (i = j) then enable else get' b) /\
  PrimaryBlock.SetBundleControlFlags (put b enable) (PrimaryBlock.m_bundleControlFlags b) = b.
Proof.
  intros Hi Hj.
  destruct (bundle_flag_accessors_shape i get put Hi) as (Hi7 & _ & Hset).
  destruct (bundle_flag_accessors_shape j get' put' Hj) as (Hj7 & Hget & _).
  rewrite Hset, !Hget. split.
  - unfold PrimaryBlock.has_flag, PrimaryBlock.set_flag.
    transitivity (negb (Z.land (if enable
                                then Z.lor (PrimaryBlock.m_bundleControlFlags b) (2 ^ Z.of_nat i)
                                else Z.land (PrimaryBlock.m_bundleControlFlags b)
                                            (u64 (Z.lnot (2 ^ Z.of_nat i))))
                               (2 ^ Z.of_nat j) =? 0)); [now destruct enable|].
    rewrite flag_update by lia.
    destruct (decide (i = j)) as [->|Hne]; [now rewrite Z.eqb_refl|].
    destruct (Z.eqb_spec (Z.of_nat i) (Z.of_nat j)); [lia | reflexivity].
  - unfold PrimaryBlock.set_flag. destruct b, enable; reflexivity.
Qed.

Lemma PrimaryBlock_flag_setters_are_independent_witness :
  PrimaryBlock.IsAdministrativeRecord
    (PrimaryBlock.SetFragmentation (Bundle.m_primaryBlock bundle_a) true) =
  PrimaryBlock.IsAdministrativeRecord (Bundle.m_primaryBlock bundle_a).
Proof.
  exact (proj1 (PrimaryBlock_flag_setters_are_independent 6 5 _ _ _ _
                  (Bundle.m_primaryBlock bundle_a) true eq_refl eq_refl)).
Defined.

Lemma block_flag_accessors_shape i (get : CanonicalBlock.t -> bool)
    (put : CanonicalBlock.t -> bool -> CanonicalBlock.t) :
  block_flag_accessors !! i = Some (get, put) ->
  (i < 5)%nat /\
  (forall b, get b = CanonicalBlock.has_flag (CanonicalBlock.m_blockControlFlags b)
                                             (2 ^ Z.of_nat i)) /\
  (forall b enable, put b enable = CanonicalBlock.set_flag b (2 ^ Z.of_nat i) enable).
Proof.
  intros Hi.
  do 5 (destruct i as [|i];
        [injection Hi as <- <-; split; [lia|]; split; [reflexivity | now intros b []]|]).
  discriminate Hi.
Qed.

(** X17.  Each of the five flag setters of a canonical block makes its own
    getter answer the value set and leaves the answers of the other four
    getters, and every field but the flag word, as they were. *)
Theorem CanonicalBlock_flag_setters_are_independent i j get put get' put' b enable :
  block_flag_accessors !! i = Some (get, put) ->
  block_flag_accessors !! j = Some (get', put') ->
  get' (put b enable) = (if decide (i = j) then enable else get' b) /\
  CanonicalBlock.SetBlockControlFlags (put b enable) (CanonicalBlock.m_blockControlFlags b) = b.
Proof.
  intros Hi Hj.
  destruct (block_flag_accessors_shape i get put Hi) as (Hi7 & _ & Hset).
  destruct (block_flag_accessors_shape j get' put' Hj) as (Hj7 & Hget & _).
  rewrite Hset, !Hget. split.
  - unfold CanonicalBlock.has_flag, CanonicalBlock.set_flag.
    transitivity (negb (Z.land (if enable
                                then Z.lor (CanonicalBlock.m_blockControlFlags b) (2 ^ Z.of_nat i)
                                else Z.land (CanonicalBlock.m_blockControlFlags b)
                                            (u64 (Z.lnot (2 ^ Z.of_nat i))))
                               (2 ^ Z.of_nat j) =? 0)); [now destruct enable|].
    rewrite flag_update by lia.
    destruct (decide (i = j)) as [->|Hne]; [now rewrite Z.eqb_refl|].
    destruct (Z.eqb_spec (Z.of_nat i) (Z.of_nat j)); [lia | reflexivity].
  - unfold CanonicalBlock.set_flag. destruct b, enable; reflexivity.
Qed.

Lemma CanonicalBlock_flag_setters_are_independent_witness :
  CanonicalBlock.MustBeReplicated
    (CanonicalBlock.SetStatusReportRequested CanonicalBlock.default true) =
  CanonicalBlock.MustBeReplicated CanonicalBlock.default.
Proof.
  exact (proj1 (CanonicalBlock_flag_setters_are_independent 4 0 _ _ _ _
                  CanonicalBlock.default true eq_refl eq_refl)).
Defined.

(** ** Blocks of a bundle *)

Lemma find_filter_head {A} (f : A -> bool) l : List.find f l = head (List.filter f l).
Proof. induction l as [|x l IH]; simpl; [reflexivity|]. destruct (f x); auto. Qed.

Lemma find_ext_eq {A} (f g : A -> bool) l :
  (forall x, f x = g x) -> List.find f l = List.find g l.
Proof. intros H. induction l as [|x l IH]; simpl; [reflexivity|]. now rewrite H, IH. Qed.

Lemma erase_first_filter h ty blocks :
  match Bundle.erase_first h ty blocks with
  | Some blocks' =>
      List.filter (fun block => CanonicalBlock.GetBlockType (deref h block) =? ty) blocks' =
        tail (List.filter (fun block => CanonicalBlock.GetBlockType (deref h block) =? ty) blocks) /\
      List.filter (fun block => CanonicalBlock.GetBlockType (deref h block) =? ty) blocks <> [] /\
      length blocks = S (length blocks') /\
      forall ty', ty' <> ty ->
        List.filter (fun block => CanonicalBlock.GetBlockType (deref h block) =? ty') blocks' =
        List.filter (fun block => CanonicalBlock.GetBlockType (deref h block) =? ty') blocks
  | None =>
      List.filter (fun block => CanonicalBlock.GetBlockType (deref h block) =? ty) blocks = []
  end.
Proof.
  induction blocks as [|block blocks IH]; simpl; [reflexivity|].
  destruct (Z.eqb_spec (CanonicalBlock.GetBlockType (deref h block)) ty) as [E|E].
  - simpl. split; [reflexivity|]. split; [discriminate|]. split; [reflexivity|].
    intros ty' Hne. destruct (Z.eqb_spec (CanonicalBlock.GetBlockType (deref h block)) ty');
      [congruence | reflexivity].
  - destruct (Bundle.erase_first h ty blocks) as [blocks'|]; simpl.
    + destruct IH as (H1 & H2 & H3 & H4).
      destruct (Z.eqb_spec (CanonicalBlock.GetBlockType (deref h block)) ty); [contradiction|].
      split; [exact H1|]. split; [exact H2|]. split; [lia|].
      intros ty' Hne. rewrite (H4 ty' Hne). reflexivity.
    + exact IH.
Qed.

(** X18.  [GetBlockByType] returns the first of the blocks [GetBlocksByType]
    lists.  [RemoveBlockByType] reports whether that list is non-empty,
    removes its first block from the bundle and nothing else: the bundle
    loses one block exactly when the answer is true, the blocks of the type
    that remain are the rest of the list, and the blocks of every other type
    are as before. *)
Theorem RemoveBlockByType_removes_the_first h b blockType :
  let r := Bundle.RemoveBlockByType h b blockType in
  Bundle.GetBlockByType h b blockType = head (Bundle.GetBlocksByType h b blockType) /\
  snd r = negb (Nat.eqb (length (Bundle.GetBlocksByType h b blockType)) 0) /\
  Bundle.GetBlocksByType h (fst r) blockType = tail (Bundle.GetBlocksByType h b blockType) /\
  length (Bundle.m_canonicalBlocks b) =
    (length (Bundle.m_canonicalBlocks (fst r)) + (if snd r then 1 else 0))%nat /\
  Bundle.m_primaryBlock (fst r) = Bundle.m_primaryBlock b /\
  forall blockType', blockType' <> blockType ->
    Bundle.GetBlocksByType h (fst r) blockType' = Bundle.GetBlocksByType h b blockType'.
Proof.
  cbn zeta. unfold Bundle.RemoveBlockByType, Bundle.GetBlocksByType, Bundle.GetBlockByType.
  split; [apply find_filter_head|].
  pose proof (erase_first_filter h blockType (Bundle.m_canonicalBlocks b)) as H.
  destruct (Bundle.erase_first h blockType (Bundle.m_canonicalBlocks b)) as [blocks'|];
    cbn [fst snd Bundle.m_canonicalBlocks Bundle.m_primaryBlock].
  - destruct H as (H1 & H2 & H3 & H4).
    split; [destruct (List.filter _ (Bundle.m_canonicalBlocks b)); [contradiction | reflexivity]|].
    split; [exact H1|]. split; [lia|]. split; [reflexivity | exact H4].
  - rewrite H. repeat split. lia.
Qed.

(** [GetPayloadBlock] finds no block: every block of the bundle is a live
    object of another type. *)
Lemma GetPayloadBlock_None h b p :
  Bundle.GetPayloadBlock h b = None -> In p (Bundle.m_canonicalBlocks b) ->
  is_Some (h !! p) /\ (CanonicalBlock.GetBlockType (deref h p) =? BlockType.PAYLOAD_BLOCK) = false.
Proof.
  unfold Bundle.GetPayloadBlock, Bundle.GetBlockByType. intros Hnone Hin.
  pose proof (find_none _ _ Hnone p Hin) as Hty. cbn beta in Hty.
  split; [|exact Hty].
  unfold deref in Hty. destruct (h !! p); [eauto | discriminate Hty].
Qed.

(** X19.  After [SetPayload] the bundle's payload is the one given, whether
    the bundle had a payload block or not; its primary block is untouched,
    and it has gained a block exactly when it had no payload block. *)
Theorem GetPayload_SetPayload h b payload :
  let r := Bundle.SetPayload h b payload in
  Bundle.GetPayload (fst r) (snd r) = payload /\
  Bundle.m_primaryBlock (snd r) = Bundle.m_primaryBlock b /\
  length (Bundle.m_canonicalBlocks (snd r)) =
    (length (Bundle.m_canonicalBlocks b) +
     match Bundle.GetPayloadBlock h b with Some _ => 0 | None => 1 end)%nat.
Proof.
  cbn zeta. unfold Bundle.SetPayload.
  destruct (Bundle.GetPayloadBlock h b) as [pb|] eqn:Hpb; cbn [fst snd].
  - split; [|split; [reflexivity | lia]].
    unfold Bundle.GetPayload, Bundle.GetPayloadBlock, Bundle.GetBlockByType in *.
    assert (Hfind : List.find
              (fun block => CanonicalBlock.GetBlockType
                              (deref (<[pb := CanonicalBlock.SetData (deref h pb) payload]> h)
                                     block) =? BlockType.PAYLOAD_BLOCK)
              (Bundle.m_canonicalBlocks b) = Some pb).
    { rewrite <- Hpb. apply find_ext_eq. intros q. rewrite deref_insert.
      destruct (decide (q = pb)) as [->|]; reflexivity. }
    rewrite Hfind. rewrite deref_insert. destruct (decide (pb = pb)); [reflexivity | congruence].
  - unfold alloc. set (p := fresh (dom h)).
    set (blk := CanonicalBlock.SetCRCType (CanonicalBlock.PayloadBlock payload) CRCType.CRC_32).
    assert (Hp : h !! p = None) by (apply not_elem_of_dom, is_fresh).
    unfold Bundle.AddBlock. rewrite deref_insert.
    destruct (decide (p = p)); [|congruence]. cbn [fst snd CanonicalBlock.GetBlockNumber
      CanonicalBlock.m_blockNumber blk CanonicalBlock.SetCRCType CanonicalBlock.PayloadBlock].
    cbn [Z.eqb Bundle.m_primaryBlock Bundle.m_canonicalBlocks].
    split; [|split; [reflexivity | rewrite length_app; simpl; lia]].
    unfold Bundle.GetPayload, Bundle.GetPayloadBlock, Bundle.GetBlockByType.
    cbn [Bundle.m_canonicalBlocks].
    assert (Hfind : List.find
              (fun block => CanonicalBlock.GetBlockType (deref (<[p := blk]> h) block)
                            =? BlockType.PAYLOAD_BLOCK)
              (Bundle.m_canonicalBlocks b ++ [p]) = Some p).
    { assert (Hall : forall q, In q (Bundle.m_canonicalBlocks b) ->
                (CanonicalBlock.GetBlockType (deref (<[p := blk]> h) q)
                 =? BlockType.PAYLOAD_BLOCK) = false).
      { intros q Hq. destruct (GetPayloadBlock_None h b q Hpb Hq) as [[v Hv] Hty].
        rewrite deref_insert. destruct (decide (q = p)) as [->|]; [congruence | exact Hty]. }
      induction (Bundle.m_canonicalBlocks b) as [|q l IH]; simpl.
      - rewrite deref_insert. destruct (decide (p = p)); [reflexivity | congruence].
      - rewrite (Hall q) by now left. apply IH. intros q' Hq'. apply Hall. now right. }
    rewrite Hfind, deref_insert. destruct (decide (p = p)); [reflexivity | congruence].
Qed.

(** X20.  [AddBlock] numbers a block whose number is 0, and that the bundle
    does not hold yet, above every block of the bundle, provided their
    numbers stay below the largest 64-bit value; the bundle's blocks keep
    theirs, and the block is appended. *)
Theorem AddBlock_numbers_fresh_block h b block :
  CanonicalBlock.GetBlockNumber (deref h block) = 0 ->
  ~ In block (Bundle.m_canonicalBlocks b) ->
  (forall q, In q (Bundle.m_canonicalBlocks b) ->
             0 <= CanonicalBlock.GetBlockNumber (deref h q) < 2 ^ 64 - 1) ->
  let r := Bundle.AddBlock h b block in
  Bundle.m_canonicalBlocks (snd r) = Bundle.m_canonicalBlocks b ++ [block] /\
  1 <= CanonicalBlock.GetBlockNumber (deref (fst r) block) /\
  forall q, In q (Bundle.m_canonicalBlocks b) ->
    deref (fst r) q = deref h q /\
    CanonicalBlock.GetBlockNumber (deref h q) <
      CanonicalBlock.GetBlockNumber (deref (fst r) block).
Proof.
  unfold CanonicalBlock.GetBlockNumber.
  intros Hzero Hnin Hnum. cbn zeta. unfold Bundle.AddBlock, CanonicalBlock.GetBlockNumber.
  rewrite Hzero. cbn [Z.eqb fst snd].
  cbn [Bundle.m_canonicalBlocks]. split; [reflexivity|].
  set (maxNumber := fold_left _ _ 0).
  assert (Hmax : 0 <= maxNumber < 2 ^ 64 - 1 /\
                 forall q, In q (Bundle.m_canonicalBlocks b) ->
                           CanonicalBlock.m_blockNumber (deref h q) <= maxNumber).
  { subst maxNumber.
    assert (Hgen : forall l m, 0 <= m < 2 ^ 64 - 1 ->
              (forall q, In q l -> 0 <= CanonicalBlock.m_blockNumber (deref h q) < 2 ^ 64 - 1) ->
              let r := fold_left (fun m existingBlock =>
                                    Z.max m (CanonicalBlock.m_blockNumber (deref h existingBlock)))
                                 l m in
              (0 <= r < 2 ^ 64 - 1 /\ m <= r) /\
              forall q, In q l -> CanonicalBlock.m_blockNumber (deref h q) <= r).
    { induction l as [|x l IH]; intros m Hm Hl; cbn zeta; simpl.
      - split; [lia|]. intros q [].
      - pose proof (Hl x (or_introl eq_refl)) as Hx.
        destruct (IH (Z.max m (CanonicalBlock.m_blockNumber (deref h x))) ltac:(lia)
                     (fun q Hq => Hl q (or_intror Hq))) as [[H1 H2] H3].
        split; [lia|]. intros q [<-|Hq]; [lia | auto]. }
    destruct (Hgen (Bundle.m_canonicalBlocks b) 0 ltac:(lia) Hnum) as [[H1 _] H2]. auto. }
  destruct Hmax as [Hmax Hle].
  rewrite deref_insert. destruct (decide (block = block)); [|congruence].
  cbn [CanonicalBlock.SetBlockNumber CanonicalBlock.m_blockNumber].
  rewrite u64_small by lia. split; [lia|].
  intros q Hq. rewrite deref_insert. destruct (decide (q = block)) as [->|]; [contradiction|].
  split; [reflexivity|]. specialize (Hle q Hq). lia.
Qed.

(** ** More of the bundle store *)

(** [Remove] answers whether the store held a bundle under the ID.
    When it did, that entry is gone, the count is one less and the removal
    counter one more; when it did not, the store is unchanged.  Either way
    every bundle under another ID stays where it was. *)
Lemma Remove_deletes_exactly_one (st : MemoryBundleStore.t) (id : BundleID.t) :
  let r := MemoryBundleStore.Remove st id in
  snd r = MemoryBundleStore.Has st id /\
  MemoryBundleStore.Has (fst r) id = false /\
  MemoryBundleStore.Count (fst r) =
    MemoryBundleStore.Count st - (if snd r then 1 else 0) /\
  (snd r = false -> fst r = st) /\
  forall id', BundleID.eqb id' id = false ->
    snd (MemoryBundleStore.Get (fst r) id') = snd (MemoryBundleStore.Get st id').
Proof.
  cbn zeta. unfold MemoryBundleStore.Remove, MemoryBundleStore.Has, MemoryBundleStore.Count,
    MemoryBundleStore.Get.
  destruct (MemoryBundleStore.m_bundles st !! BundleID.to_key id) as [p|] eqn:E;
    cbn [fst snd MemoryBundleStore.m_bundles].
  - split; [symmetry; apply bool_decide_eq_true; eauto|].
    split; [apply bool_decide_eq_false; rewrite lookup_delete_eq; intros [? ?]; discriminate|].
    split.
    { rewrite map_size_delete_Some by eauto.
      pose proof (map_size_ne_0_lookup_2 (MemoryBundleStore.m_bundles st) _ (ex_intro _ p E)).
      lia. }
    split; [discriminate|].
    intros id' Hne. apply BundleID_eqb_key_false in Hne.
    rewrite lookup_delete_ne by congruence.
    destruct (_ !! BundleID.to_key id'); reflexivity.
  - rewrite E. split; [symmetry; apply bool_decide_eq_false; intros [? ?]; discriminate|].
    split; [apply bool_decide_eq_false; intros [? ?]; discriminate|].
    split; [lia|]. split; [reflexivity|]. reflexivity.
Qed.

(** X21.  After [Cleanup] the store holds a bundle under an ID exactly when
    it held it before and the bundle has not expired, and the number
    returned is the number of bundles the store has lost. *)
Theorem Cleanup_removes_exactly_the_expired now bh (st : MemoryBundleStore.t) :
  let r := MemoryBundleStore.Cleanup now bh st in
  (forall id p,
     snd (MemoryBundleStore.Get (fst r) id) = Some p <->
     snd (MemoryBundleStore.Get st id) = Some p /\
     MemoryBundleStore.IsExpired now bh p = false) /\
  MemoryBundleStore.Count (fst r) <= MemoryBundleStore.Count st /\
  snd r = u64 (MemoryBundleStore.Count st - MemoryBundleStore.Count (fst r)).
Proof.
  cbn zeta. unfold MemoryBundleStore.Cleanup, MemoryBundleStore.Count, MemoryBundleStore.Get.
  cbn [fst snd MemoryBundleStore.m_bundles].
  set (kept := filter _ (MemoryBundleStore.m_bundles st)).
  assert (Hsize : (size kept <= size (MemoryBundleStore.m_bundles st))%nat).
  { apply map_subseteq_size. subst kept. apply map_filter_subseteq. }
  split; [|split; [lia | f_equal; lia]].
  intros id p. split.
  - destruct (kept !! _) as [q|] eqn:E; simpl; [|discriminate].
    intros [= ->]. apply map_lookup_filter_Some in E as [E1 E2]. simpl in E2.
    rewrite E1. simpl. auto.
  - destruct (MemoryBundleStore.m_bundles st !! _) as [q|] eqn:E; simpl; [|intros [? _]; discriminate].
    intros [[= ->] Hexp].
    assert (Hk : kept !! BundleID.to_key id = Some p).
    { apply map_lookup_filter_Some. split; [exact E | exact Hexp]. }
    rewrite Hk. reflexivity.
Qed.

(** X22.  [Push] of a bundle makes the count grow by one when the store held
    no bundle under its ID and leaves it as it was otherwise, and
    [GetAll] lists as many bundles as [Count] says. *)
Theorem Push_counts_new_ids_only bh (st : MemoryBundleStore.t) p :
  let st' := fst (MemoryBundleStore.Push bh st (Some p)) in
  MemoryBundleStore.Count st' =
    MemoryBundleStore.Count st +
    (if MemoryBundleStore.Has st (Bundle.GetId (deref_bundle bh p)) then 0 else 1) /\
  Z.of_nat (length (MemoryBundleStore.GetAll st')) = MemoryBundleStore.Count st' /\
  In p (MemoryBundleStore.GetAll st').
Proof.
  cbn zeta. unfold MemoryBundleStore.Push, MemoryBundleStore.Count, MemoryBundleStore.Has,
    MemoryBundleStore.GetAll.
  cbn [fst snd MemoryBundleStore.m_bundles].
  set (k := BundleID.to_key _). split; [|split].
  - destruct (MemoryBundleStore.m_bundles st !! k) as [q|] eqn:E.
    + rewrite bool_decide_eq_true_2 by eauto.
      rewrite map_size_insert_Some by eauto. lia.
    + rewrite bool_decide_eq_false_2 by (intros [? ?]; discriminate).
      rewrite map_size_insert_None by exact E. lia.
  - rewrite length_fmap, length_map_to_list. reflexivity.
  - apply list_elem_of_In. apply list_elem_of_fmap. exists (k, p). split; [reflexivity|].
    apply elem_of_map_to_list. apply lookup_insert_eq.
Qed.

(** ** New bundles *)

Lemma of_string_length s :
  (String.length s <= 1024)%nat ->
  (String.length (EndpointID.ToString (EndpointID.of_string s)) <= 1024)%nat.
Proof.
  intros Hs. destruct (of_string_cases s) as [[-> _]|(n & _ & -> & _)]; simpl; lia.
Qed.

(** [MustNewBundle] with a payload of more than 1024 bytes does not
    return: computing the CRC of the payload block encodes the payload. *)
Lemma MustNewBundle_large_payload_aborts uninit h source destination creationTimestamp
    lifetime payload :
  (1024 < length payload)%nat ->
  Bundle.MustNewBundle uninit h source destination creationTimestamp lifetime payload = None.
Proof.
  intros Hgt. unfold Bundle.MustNewBundle, alloc.
  set (p := fresh (dom h)).
  set (blk := CanonicalBlock.SetCRCType (CanonicalBlock.PayloadBlock payload) CRCType.CRC_32).
  unfold Bundle.AddBlock. rewrite deref_insert. destruct (decide (p = p)); [|congruence].
  cbn [CanonicalBlock.GetBlockNumber CanonicalBlock.m_blockNumber blk CanonicalBlock.SetCRCType
       CanonicalBlock.PayloadBlock Z.eqb].
  unfold Bundle.CalculateCRC.
  destruct (PrimaryBlock.CalculateCRC uninit _); [|reflexivity].
  cbn [mbind option_bind Bundle.m_canonicalBlocks Bundle.make app Bundle.CalculateCRC_blocks].
  rewrite deref_insert. destruct (decide (p = p)); [|congruence].
  unfold CanonicalBlock.CalculateCRC.
  cbn [CanonicalBlock.m_crcType blk CanonicalBlock.SetCRCType CanonicalBlock.PayloadBlock].
  change (CRCType.CRC_32 =? CRCType.NO_CRC) with false. cbn iota.
  rewrite CanonicalBlock_ToCbor_overflow; [reflexivity | exact Hgt].
Qed.

Lemma MustNewBundle_large_payload_aborts_witness :
  Bundle.MustNewBundle zero_fill ∅ "dtn://a/" "dtn://b/" (DtnTime.mk 1000 0) 3600000000000
                       (repeat 0 1025) = None.
Proof. apply MustNewBundle_large_payload_aborts. rewrite repeat_length. lia. Defined.

(** X23.  With a payload of at most 1024 bytes and endpoint texts of at most
    1024 characters, [MustNewBundle] returns a bundle that carries the
    payload, is identified by the source endpoint, the creation timestamp
    and sequence number 0, and is addressed to the destination endpoint;
    the objects the heap held are as they were. *)
Theorem MustNewBundle_carries_the_payload uninit h source destination creationTimestamp
    lifetime payload :
  (length payload <= 1024)%nat ->
  (String.length source <= 1024)%nat ->
  (String.length destination <= 1024)%nat ->
  exists h' b,
    Bundle.MustNewBundle uninit h source destination creationTimestamp lifetime payload
      = Some (h', b) /\
    h ⊆ h' /\
    Bundle.GetPayload h' b = payload /\
    Bundle.GetId b =
      BundleID.mk (EndpointID.of_string source) creationTimestamp 0 false 0 /\
    PrimaryBlock.GetDestinationEID (Bundle.m_primaryBlock b) = EndpointID.of_string destination.
Proof.
  intros Hpay Hsrc Hdst. unfold Bundle.MustNewBundle, alloc.
  set (p := fresh (dom h)).
  set (blk := CanonicalBlock.SetCRCType (CanonicalBlock.PayloadBlock payload) CRCType.CRC_32).
  set (primary := PrimaryBlock.mk _ _ _ _ _ _ _ _ _ _ _ _).
  assert (Hp : h !! p = None) by (apply not_elem_of_dom, is_fresh).
  assert (Hadd : Bundle.AddBlock (<[p := blk]> h) (Bundle.make primary) p =
                 (<[p := blk]> h, Bundle.mk primary [p])).
  { unfold Bundle.AddBlock. rewrite deref_insert. destruct (decide (p = p)); [|congruence].
    reflexivity. }
  rewrite Hadd.
  assert (Hg : grown_from h (<[p := blk]> h)).
  { apply grown_from_insert; [apply grown_from_refl | exact Hp |]. split; simpl; lia. }
  destruct (Bundle_CalculateCRC_grown uninit h (<[p := blk]> h) (Bundle.mk primary [p]) Hg)
    as (h' & crc & Hcrc & [Hsub _]).
  { repeat constructor. exact Hp. }
  { subst primary. repeat split; simpl; try lia; now apply of_string_length. }
  rewrite Hcrc. eexists h', _. split; [reflexivity|].
  split; [exact Hsub|]. split.
  { unfold Bundle.CalculateCRC in Hcrc.
    destruct (PrimaryBlock.CalculateCRC uninit _); [|discriminate]. cbn [mbind option_bind] in Hcrc.
    destruct (Bundle.CalculateCRC_blocks uninit _ _) as [h1|] eqn:Eb; [|discriminate].
    cbn [mbind option_bind] in Hcrc. assert (h1 = h') as -> by congruence.
    destruct (CalculateCRC_blocks_same _ _ _ _ Eb p) as (Hty & _ & Hdata).
    rewrite deref_insert in Hty, Hdata. destruct (decide (p = p)); [|congruence].
    unfold Bundle.GetPayload, Bundle.GetPayloadBlock, Bundle.GetBlockByType.
    cbn [Bundle.m_canonicalBlocks find]. unfold CanonicalBlock.GetBlockType. rewrite Hty.
    cbn. exact Hdata. }
  split; reflexivity.
Qed.

Lemma MustNewBundle_carries_the_payload_witness :
  exists h' b,
    Bundle.MustNewBundle zero_fill ∅ "dtn://a/" "dtn://b/" (DtnTime.mk 1000 500)
                         3600000000000 [1; 2; 3] = Some (h', b) /\
    ∅ ⊆ h' /\
    Bundle.GetPayload h' b = [1; 2; 3] /\
    Bundle.GetId b =
      BundleID.mk (EndpointID.of_string "dtn://a/") (DtnTime.mk 1000 500) 0 false 0 /\
    PrimaryBlock.GetDestinationEID (Bundle.m_primaryBlock b) = EndpointID.of_string "dtn://b/".
Proof. apply MustNewBundle_carries_the_payload; simpl; lia. Defined.

(** ** More of the routing engines *)

Section RoutingMore.
Context {W S : Type} `{BundleStore.BundleStore S}.
Import Routing.

Lemma SentTo_app d node extra :
  SentTo (mkDescriptor (id d) (receiver d) (sentNodes d ++ [extra]) (expirationTime d)) node =
  SentTo d node || EndpointID.eqb extra node.
Proof. unfold SentTo. simpl. rewrite existsb_app. simpl. now rewrite orb_false_r. Qed.

(** [AddSentNode] makes [SentTo] hold of the node, keeps it for every
    node it held of, adds the node once only (a second call changes
    nothing), and keeps a list without repeated URIs free of them. *)
Lemma AddSentNode_records_once d node :
  NoDup (map EndpointID.m_uri (sentNodes d)) ->
  let d' := AddSentNode d node in
  SentTo d' node = true /\
  (forall other, SentTo d other = true -> SentTo d' other = true) /\
  (forall other, EndpointID.eqb node other = false -> SentTo d' other = SentTo d other) /\
  AddSentNode d' node = d' /\
  NoDup (map EndpointID.m_uri (sentNodes d')).
Proof.
  intros Hnd. cbn zeta. unfold AddSentNode.
  destruct (SentTo d node) eqn:Hs; cbn [negb].
  - rewrite Hs. cbn [negb]. auto.
  - assert (Hself : EndpointID.eqb node node = true) by apply String.eqb_refl.
    split; [now rewrite SentTo_app, Hs, Hself|].
    split; [intros other Ho; now rewrite SentTo_app, Ho|].
    split; [intros other Ho; rewrite SentTo_app, Ho; apply orb_false_r|].
    split; [now rewrite SentTo_app, Hs, Hself|].
    cbn [sentNodes]. rewrite List.map_app. cbn [map].
    apply NoDup_app. split; [exact Hnd|]. split; [|apply NoDup_singleton].
    intros u Hu Hu'. apply list_elem_of_In in Hu. apply list_elem_of_In in Hu'.
    destruct Hu' as [<-|[]]. apply in_map_iff in Hu as (x & Hx & Hin).
    unfold SentTo in Hs. 
    assert (Ht : existsb (fun sentNode => EndpointID.eqb sentNode node) (sentNodes d) = true).
    { apply existsb_exists. exists x. split; [exact Hin|]. unfold EndpointID.eqb.
      rewrite Hx. apply String.eqb_refl. }
    congruence.
Qed.

(** When no convergence layer reports the endpoint reachable,
    [SendBundle] answers false and counts a failure; the bundle, the
    heaps, the network and the rest of the engine are as they were. *)
Lemma SendBundle_without_reachable_sender uninit h bh (w : W) (r : @t W S)
    bundle receiver0 endpoint0 :
  Forall (fun sender => IsEndpointReachable sender w endpoint0 = false) (m_senders r) ->
  SendBundle uninit h bh w r bundle receiver0 endpoint0 =
    Some (h, bh, w, count_failed r, false).
Proof.
  unfold SendBundle. generalize (m_senders r) as senders.
  induction 1 as [|sender senders Hs _ IH]; simpl; [reflexivity|].
  now rewrite Hs.
Qed.

(** X24.  [SendBundle] asks one convergence layer only, the first that
    reports the endpoint reachable.  When its transmission fails the answer
    is false and a failure is counted, whatever the layers behind it could
    do; the previous-node block has been written all the same. *)
Theorem SendBundle_does_not_fail_over uninit h bh (w : W) (r : @t W S)
    bundle receiver0 endpoint0 sender h1 bh1 w1 :
  List.find (fun s => IsEndpointReachable s w endpoint0) (m_senders r) = Some sender ->
  stamp_previous_node uninit h bh (m_localNodeID r) bundle = Some (h1, bh1) ->
  Send sender w h1 bh1 bundle endpoint0 = (false, w1) ->
  SendBundle uninit h bh w r bundle receiver0 endpoint0 =
    Some (h1, bh1, w1, count_failed r, false).
Proof.
  intros Hfind Hstamp Hsend. unfold SendBundle.
  rewrite (SendBundle_senders_first _ _ _ _ _ _ _ _ _ _ Hfind), Hstamp.
  cbn [mbind option_bind]. now rewrite Hsend.
Qed.

(** X25.  A second [NotifyNewBundle] for the same bundle and the same source
    peer leaves the bundle descriptors as the first call left them: the
    source peer is not listed twice. *)
Theorem NotifyNewBundle_twice_changes_nothing bh (r r1 r2 : @t W S) p source :
  NotifyNewBundle bh r (Some p) source = Some (r1, true) ->
  NotifyNewBundle bh r1 (Some p) source = Some (r2, true) ->
  m_bundles r2 = m_bundles r1.
Proof.
  unfold NotifyNewBundle, UpdateBundleDescriptor, lock_bundles.
  destruct (BundleStore.Push bh (m_store r) (Some p)) as [store pushed].
  destruct pushed; cbn [negb]; [|discriminate].
  cbn [set_store m_bundlesMutex m_bundles].
  destruct (m_bundlesMutex r) eqn:Hmr; [discriminate|]. cbn [mbind option_bind].
  set (k := BundleID.to_key (Bundle.GetId (deref_bundle bh p))).
  intros H1.
  assert (Hr1 : exists d, m_bundles r1 !! k = Some (AddSentNode d source) /\
                          m_bundlesMutex r1 = false).
  { destruct (m_bundles r !! k) as [d|]; injection H1 as <-; eexists;
      cbn [set_bundles set_store m_bundles m_bundlesMutex];
      (split; [apply lookup_insert_eq | exact Hmr]). }
  destruct Hr1 as (d & Hd & Hm). clear H1.
  destruct (BundleStore.Push bh (m_store r1) (Some p)) as [store1 pushed1].
  destruct pushed1; cbn [negb]; [|discriminate].
  cbn [set_store m_bundlesMutex m_bundles]. rewrite Hm, Hd. cbn [mbind option_bind].
  intros [= <-]. cbn [set_bundles m_bundles].
  assert (Hidem : AddSentNode (AddSentNode d source) source = AddSentNode d source).
  { unfold AddSentNode. destruct (SentTo d source) eqn:Hs; cbn [negb].
    - now rewrite Hs.
    - rewrite SentTo_app, Hs. unfold EndpointID.eqb. now rewrite String.eqb_refl. }
  rewrite Hidem. now apply insert_id.
Qed.

End RoutingMore.

Section SprayCopies.
Context {W S : Type} `{BundleStore.BundleStore S}.
Import Routing.

Lemma copies_shrink_refl (s : @SprayAndWaitRouting W S) :
  copies_positive s -> copies_shrink s s.
Proof. intros Hs. split; [exact Hs | intros; lia]. Qed.

Lemma copies_shrink_trans (s1 s2 s3 : @SprayAndWaitRouting W S) :
  copies_shrink s1 s2 -> copies_shrink s2 s3 -> copies_shrink s1 s3.
Proof.
  intros [_ H12] [H3 H23]. split; [exact H3|]. intros id0. specialize (H12 id0).
  specialize (H23 id0). lia.
Qed.

Lemma copies_shrink_set_base (s s' : @SprayAndWaitRouting W S) r :
  copies_shrink s s' -> copies_shrink s (set_base s' r).
Proof. intros [H1 H2]. split; [exact H1 | exact H2]. Qed.

Lemma copies_shrink_table (s : @SprayAndWaitRouting W S) r bundleId c :
  copies_positive s -> 1 <= c <= GetCopyCount s bundleId ->
  copies_shrink s (mkSpray r (<[BundleID.to_key bundleId := c]> (m_copies s)) (m_maxCopies s)).
Proof.
  intros Hs Hc. split.
  - intros k c'. cbn [m_copies]. rewrite lookup_insert.
    destruct (decide (BundleID.to_key bundleId = k)) as [_|_]; [intros [= <-]; lia | apply Hs].
  - intros id0. unfold GetCopyCount in *. cbn [m_copies]. rewrite lookup_insert.
    destruct (decide (BundleID.to_key bundleId = BundleID.to_key id0)) as [E|_]; [|lia].
    rewrite <- E. lia.
Qed.

Lemma spray_attempt_shrinks uninit bundle bundleId peer h bh (w : W)
    (s : @SprayAndWaitRouting W S) h' bh' w' s' out :
  copies_positive s ->
  spray_attempt uninit bundle bundleId peer h bh w s = Some (h', bh', w', s', out) ->
  copies_shrink s s'.
Proof.
  intros Hs. unfold spray_attempt.
  assert (Hdec : exists c, 1 <= c <= GetCopyCount s bundleId /\
                   snd (DecreaseCopyCount s bundleId) = c /\
                   copies_shrink s (fst (DecreaseCopyCount s bundleId)) /\
                   GetCopyCount (fst (DecreaseCopyCount s bundleId)) bundleId = c).
  { unfold DecreaseCopyCount, GetCopyCount.
    destruct (m_copies s !! BundleID.to_key bundleId) as [c|] eqn:E.
    - pose proof (Hs _ _ E) as Hc.
      destruct (Z.gtb_spec c 1) as [Hgt|Hle]; cbn [fst snd m_copies].
      + exists (c - 1). split; [lia|]. split; [reflexivity|]. split.
        * apply (copies_shrink_table s (base s) bundleId (c - 1) Hs).
          unfold GetCopyCount. rewrite E. lia.
        * now rewrite lookup_insert_eq.
      + exists 1. split; [lia|]. split; [reflexivity|]. split; [now apply copies_shrink_refl|].
        rewrite E. lia.
    - cbn [fst snd]. exists 1. split; [lia|]. split; [reflexivity|].
      split; [now apply copies_shrink_refl|]. now rewrite E. }
  destruct Hdec as (c & Hc & Hsnd & Hshr & Hget).
  destruct (DecreaseCopyCount s bundleId) as [s1 newCount]. cbn [fst snd] in *. subst newCount.
  destruct (SendBundle _ _ _ _ _ _ _ _) as [[[[[h1 bh1] w1] r1] success]|]; [|discriminate].
  cbn [mbind option_bind].
  assert (Hlocal : 1 <= c - c / 2 <= c).
  { pose proof (Z.div_mod c 2 ltac:(lia)). pose proof (Z.mod_pos_bound c 2 ltac:(lia)). lia. }
  destruct success; intros [= <- <- <- <- <-];
    (eapply copies_shrink_trans; [exact Hshr|]);
    unfold SetCopyCount, set_base; cbn [base m_copies m_maxCopies];
    apply (copies_shrink_table s1 r1 bundleId); try (exact (proj1 Hshr)); lia.
Qed.

Lemma wait_peers_copies uninit bundle k peers :
  forall h bh (w : W) (s : @SprayAndWaitRouting W S) h' bh' w' s',
    wait_peers uninit bundle k peers h bh w s = Some (h', bh', w', s') ->
    m_copies s' = m_copies s.
Proof.
  induction peers as [|peer peers IH]; simpl; intros h bh w s h' bh' w' s' Hs.
  - now injection Hs as <- <- <- <-.
  - destruct (EndpointID.eqb _ _); [|now eapply IH; eauto].
    destruct (m_bundles (base s) !! k) as [d|]; [|now eapply IH; eauto].
    destruct (negb _); [|now eapply IH; eauto].
    destruct (SendBundle _ _ _ _ _ _ _ _) as [[[[[h1 bh1] w1] r1] ok]|]; [|discriminate].
    cbn [mbind option_bind] in Hs. now rewrite (IH _ _ _ _ _ _ _ _ Hs).
Qed.

Lemma copies_shrink_same (s s' : @SprayAndWaitRouting W S) :
  copies_positive s -> m_copies s' = m_copies s -> copies_shrink s s'.
Proof.
  intros Hs E. split.
  - intros k c. rewrite E. apply Hs.
  - intros id0. unfold GetCopyCount. rewrite E. lia.
Qed.

Lemma spray_peers_shrinks uninit bundle bundleId peers :
  forall h bh (w : W) (s : @SprayAndWaitRouting W S) h' bh' w' s',
    copies_positive s ->
    spray_peers uninit bundle bundleId peers h bh w s = Some (h', bh', w', s') ->
    copies_shrink s s'.
Proof.
  induction peers as [|peer peers IH]; simpl; intros h bh w s h' bh' w' s' Hpos Hs.
  - injection Hs as <- <- <- <-. now apply copies_shrink_refl.
  - repeat match type of Hs with
           | (if ?c then _ else _) = _ => destruct c; [now eapply IH; eauto|]
           end.
    destruct (spray_attempt _ _ _ _ _ _ _ _) as [[[[[h1 bh1] w1] s1] [[pc lc] ok]]|] eqn:E;
      [|discriminate].
    cbn [mbind option_bind] in Hs.
    pose proof (spray_attempt_shrinks _ _ _ _ _ _ _ _ _ _ _ _ _ Hpos E) as Hshr.
    destruct (ok && (lc <=? 1)).
    + injection Hs as <- <- <- <-. exact Hshr.
    + eapply copies_shrink_trans; [exact Hshr|]. eapply IH; [exact (proj1 Hshr) | exact Hs].
Qed.

Lemma copies_shrink_from (s0 s s' : @SprayAndWaitRouting W S) :
  m_copies s0 = m_copies s -> copies_shrink s0 s' -> copies_shrink s s'.
Proof.
  intros E [H1 H2]. split; [exact H1|]. intros id0. specialize (H2 id0).
  unfold GetCopyCount in *. now rewrite <- E.
Qed.

Lemma copies_positive_from (s0 s : @SprayAndWaitRouting W S) :
  m_copies s0 = m_copies s -> copies_positive s -> copies_positive s0.
Proof. intros E Hs k c. rewrite E. apply Hs. Qed.

Lemma spray_bundles_shrinks uninit now bundles activePeers :
  forall h bh (w : W) (s : @SprayAndWaitRouting W S) h' bh' w' s',
    copies_positive s ->
    spray_bundles uninit now bundles activePeers h bh w s = Some (h', bh', w', s') ->
    copies_shrink s s'.
Proof.
  induction bundles as [|bundle bundles IH]; simpl; intros h bh w s h' bh' w' s' Hpos Hs.
  - injection Hs as <- <- <- <-. now apply copies_shrink_refl.
  - destruct (lock_bundles (base s)) as [r|]; [|discriminate]. cbn [mbind option_bind] in Hs.
    destruct (descriptor_expired _ _ _).
    { apply (copies_shrink_from (set_base (set_base s r) (unlock_bundles r))); [reflexivity|].
      eapply IH; [|exact Hs]. exact Hpos. }
    match type of Hs with context [if ?c then _ else _] => destruct c end.
    + destruct (wait_peers _ _ _ _ _ _ _ _) as [[[[h1 bh1] w1] s1]|] eqn:E; [|discriminate].
      cbn [mbind option_bind] in Hs. apply wait_peers_copies in E. cbn [set_base m_copies] in E.
      apply (copies_shrink_from (set_base s1 (unlock_bundles (base s1)))); [exact E|].
      eapply IH; [|exact Hs]. apply (copies_positive_from _ s); [exact E | exact Hpos].
    + destruct (spray_peers _ _ _ _ _ _ _ _) as [[[[h1 bh1] w1] s1]|] eqn:E; [|discriminate].
      cbn [mbind option_bind] in Hs.
      assert (Hshr : copies_shrink s s1).
      { apply (copies_shrink_from (set_base s r)); [reflexivity|].
        apply (spray_peers_shrinks _ _ _ _ _ _ _ (set_base s r) _ _ _ _ Hpos E). }
      eapply copies_shrink_trans; [exact Hshr|].
      apply (copies_shrink_from (set_base s1 (unlock_bundles (base s1)))); [reflexivity|].
      eapply IH; [|exact Hs]. exact (proj1 Hshr).
Qed.

(** X26.  A [DispatchBundles] pass of the spray-and-wait engine that starts
    with every copy count at 1 or above ends with every copy count at 1 or
    above, and raises the copy count of no bundle. *)
Theorem Spray_dispatch_never_raises_a_copy_count uninit now h bh (w : W)
    (s : @SprayAndWaitRouting W S) h' bh' w' s' :
  copies_positive s ->
  SprayAndWaitRouting_DispatchBundles uninit now h bh w s = Some (h', bh', w', s') ->
  copies_positive s' /\
  forall bundleId, 1 <= GetCopyCount s' bundleId <= GetCopyCount s bundleId.
Proof.
  intros Hpos Hd. unfold SprayAndWaitRouting_DispatchBundles in Hd.
  destruct (spray_bundles_shrinks _ _ _ _ _ _ _ _ _ _ _ _ Hpos Hd) as [Hpos' Hle].
  split; [exact Hpos'|]. intros bundleId. split; [|apply Hle].
  unfold GetCopyCount. destruct (m_copies s' !! _) as [c|] eqn:E; [exact (Hpos' _ _ E) | lia].
Qed.

End SprayCopies.

(** ** More of the fragmentation manager *)

Section FragmentationMore.
Import FragmentationManager.

(** X27.  Outside the range from 2 to 1023 a maximum fragment size yields no
    fragment of a bundle the encoder can take: at 1024 or above the bundle
    is returned unfragmented, since every encoding has 1024 bytes, and
    nothing changes; at 0 or 1 the payload budget is 0 and the division by
    it ends the run. *)
Theorem FragmentBundle_outside_the_useful_range uninit h bh st bundle b payloadBlock m :
  bh !! bundle = Some b ->
  PrimaryBlock.MustNotFragment (Bundle.m_primaryBlock b) = false ->
  Bundle.IsAdministrativeRecord b = false ->
  Bundle.GetPayloadBlock h b = Some payloadBlock ->
  primary_encodable (Bundle.m_primaryBlock b) ->
  Forall (live_encodable h) (Bundle.m_canonicalBlocks b) ->
  Z.of_nat (length (Bundle.m_canonicalBlocks b)) < 2 ^ 32 ->
  (1024 <= m -> FragmentBundle uninit h bh st bundle m = Some (h, bh, st, [])) /\
  (0 <= m < 2 -> FragmentBundle uninit h bh st bundle m = None).
Proof.
  intros Hb Hmnf Hadm Hpb Hprim Hlive Hlen.
  assert (Henc : Forall (fun p => block_encodable (deref h p)) (Bundle.m_canonicalBlocks b)).
  { eapply Forall_impl; [exact Hlive|]. now intros p [_ Hp]. }
  destruct (Bundle_ToCbor_ok uninit h b Hprim Henc) as (fullBuffer & Hfull & Hsize).
  destruct (header_overhead_value uninit h b Hprim Henc Hlen) as (overhead & Hover & Hge).
  split; intros Hm; unfold FragmentBundle, deref_bundle, Bundle.GetPrimaryBlock;
    rewrite Hb, Hmnf, Hadm, Hfull; cbn [mbind option_bind]; rewrite Hsize.
  - assert ((1024 <=? m) = true) as -> by lia. reflexivity.
  - assert ((1024 <=? m) = false) as -> by lia.
    rewrite Hpb, Hover. cbn [mbind option_bind].
    assert ((m >? overhead) = false) as -> by lia.
    assert (m / 2 = 0) as -> by (apply Z.div_small; lia).
    reflexivity.
Qed.

(** X28.  After [CleanupExpiredFragments] the manager holds a fragment set
    under a key exactly when it held it before and the set has not expired;
    the number returned is the number of sets lost, and the counter of
    abandoned sets has grown by it. *)
Theorem CleanupExpiredFragments_removes_exactly_the_expired now (st : t) :
  let r := CleanupExpiredFragments now st in
  (forall k info,
     m_fragmentSets (fst r) !! k = Some info <->
     m_fragmentSets st !! k = Some info /\ (now >? expirationTime info) = false) /\
  (size (m_fragmentSets (fst r)) <= size (m_fragmentSets st))%nat /\
  snd r = u64 (Z.of_nat (size (m_fragmentSets st)) - Z.of_nat (size (m_fragmentSets (fst r)))) /\
  m_abandonedFragmentSets (fst r) =
    u64 (m_abandonedFragmentSets st +
         (Z.of_nat (size (m_fragmentSets st)) - Z.of_nat (size (m_fragmentSets (fst r))))) /\
  m_reassembledBundles (fst r) = m_reassembledBundles st.
Proof.
  cbn zeta. unfold CleanupExpiredFragments.
  cbn [fst snd m_fragmentSets m_abandonedFragmentSets m_reassembledBundles].
  set (kept := filter _ (m_fragmentSets st)).
  assert (Hsize : (size kept <= size (m_fragmentSets st))%nat).
  { apply map_subseteq_size. subst kept. apply map_filter_subseteq. }
  split.
  { intros k info. subst kept. rewrite map_lookup_filter_Some. reflexivity. }
  split; [exact Hsize|]. split; [f_equal; lia|]. split; [do 2 f_equal; lia | reflexivity].
Qed.

End FragmentationMore.

Lemma FragmentBundle_outside_the_useful_range_witness :
  FragmentationManager.FragmentBundle zero_fill payload_heap bundle_heap_p
    FragmentationManager.create 8%nat 1 = None.
Proof.
  refine (proj2 (FragmentBundle_outside_the_useful_range zero_fill payload_heap bundle_heap_p
                   FragmentationManager.create 8%nat bundle_p 1%nat 1 _ _ _ _ _ _ _) _).
  - reflexivity.
  - reflexivity.
  - reflexivity.
  - reflexivity.
  - repeat split; simpl; lia.
  - repeat constructor; simpl; try lia. vm_compute. eauto.
  - simpl. lia.
  - lia.
Defined.

(** ** Fragments and the payload *)

Lemma heap_keeps_refl h : heap_keeps h h.
Proof. intros q Hq. auto. Qed.

Lemma heap_keeps_trans h1 h2 h3 : heap_keeps h1 h2 -> heap_keeps h2 h3 -> heap_keeps h1 h3.
Proof.
  intros H12 H23 q Hq. destruct (H12 q Hq) as (L2 & T2 & D2).
  destruct (H23 q L2) as (L3 & T3 & D3). repeat split; [exact L3 | congruence | congruence].
Qed.

Lemma heap_keeps_insert_fresh h p blk : h !! p = None -> heap_keeps h (<[p := blk]> h).
Proof.
  intros Hp q [v Hq]. assert (q <> p) by congruence.
  rewrite deref_insert. destruct (decide (q = p)); [contradiction|].
  rewrite lookup_insert_ne by congruence. eauto.
Qed.

Lemma heap_keeps_insert_same h p blk :
  CanonicalBlock.m_blockType blk = CanonicalBlock.m_blockType (deref h p) ->
  CanonicalBlock.m_data blk = CanonicalBlock.m_data (deref h p) ->
  heap_keeps h (<[p := blk]> h).
Proof.
  intros Ht Hd q Hq. rewrite deref_insert. destruct (decide (q = p)) as [->|Hne].
  - rewrite lookup_insert_eq. eauto.
  - rewrite lookup_insert_ne by congruence. auto.
Qed.

Lemma AddBlock_keeps h b p : heap_keeps h (fst (Bundle.AddBlock h b p)).
Proof.
  unfold Bundle.AddBlock. cbn [fst]. destruct (_ =? 0); [|apply heap_keeps_refl].
  now apply heap_keeps_insert_same.
Qed.

Lemma copy_replicated_keeps blocks :
  forall h fragment,
    heap_keeps h (fst (FragmentationManager.copy_replicated h blocks fragment)) /\
    exists extra,
      Bundle.m_canonicalBlocks (snd (FragmentationManager.copy_replicated h blocks fragment)) =
        Bundle.m_canonicalBlocks fragment ++ extra.
Proof.
  induction blocks as [|block blocks IH]; intros h fragment;
    cbn [FragmentationManager.copy_replicated].
  - split; [apply heap_keeps_refl|]. exists []. now rewrite app_nil_r.
  - destruct (_ && _); [|apply IH].
    unfold alloc. set (copy := CanonicalBlock.make _ _ _ _ _). set (p := fresh (dom h)).
    assert (Hp : h !! p = None) by (apply not_elem_of_dom, is_fresh).
    pose proof (AddBlock_keeps (<[p := copy]> h) fragment p) as Hk.
    pose proof (AddBlock_snd (<[p := copy]> h) fragment p) as Hsnd.
    destruct (Bundle.AddBlock (<[p := copy]> h) fragment p) as [h2 fragment'].
    cbn [fst snd] in Hk, Hsnd. subst fragment'.
    destruct (IH h2 (Bundle.mk (Bundle.m_primaryBlock fragment)
                               (Bundle.m_canonicalBlocks fragment ++ [p]))) as (Hk' & extra & He).
    split.
    + eapply heap_keeps_trans; [|exact Hk'].
      eapply heap_keeps_trans; [|exact Hk]. now apply heap_keeps_insert_fresh.
    + exists (p :: extra). rewrite He. cbn [Bundle.m_canonicalBlocks].
      now rewrite <- app_assoc.
Qed.

Lemma CalculateCRC_blocks_keeps uninit blocks :
  forall h h', Bundle.CalculateCRC_blocks uninit h blocks = Some h' -> heap_keeps h h'.
Proof.
  induction blocks as [|block blocks IH]; simpl; intros h h' Hr.
  - injection Hr as <-. apply heap_keeps_refl.
  - destruct (CanonicalBlock.CalculateCRC uninit (deref h block)) as [b'|] eqn:E;
      [|discriminate].
    simpl in Hr. apply CanonicalBlock_CalculateCRC_shape in E as [crc ->].
    eapply heap_keeps_trans; [|exact (IH _ _ Hr)].
    now apply heap_keeps_insert_same.
Qed.

Lemma PrimaryBlock_CalculateCRC_shape uninit b b' :
  PrimaryBlock.CalculateCRC uninit b = Some b' ->
  exists crc, b' = PrimaryBlock.set_crcValue b crc /\ (length crc <= 4)%nat.
Proof.
  unfold PrimaryBlock.CalculateCRC.
  destruct (_ =? CRCType.NO_CRC); [intros [= <-]; exists []; split; [reflexivity | simpl; lia]|].
  destruct (PrimaryBlock.ToCbor _ _); [|discriminate]. cbn [mbind option_bind].
  cbn [PrimaryBlock.set_crcValue PrimaryBlock.m_crcType].
  destruct (_ =? CRCType.CRC_16);
    [intros [= <-]; eexists; split; [reflexivity | simpl; lia]|].
  destruct (_ =? CRCType.CRC_32); intros [= <-]; eexists; (split; [reflexivity | simpl; lia]).
Qed.

Lemma Bundle_CalculateCRC_facts uninit h fragment h' fragment' :
  Bundle.CalculateCRC uninit h fragment = Some (h', fragment') ->
  heap_keeps h h' /\
  exists crc,
    fragment' = Bundle.mk (PrimaryBlock.set_crcValue (Bundle.m_primaryBlock fragment) crc)
                          (Bundle.m_canonicalBlocks fragment) /\
    (length crc <= 4)%nat.
Proof.
  unfold Bundle.CalculateCRC.
  destruct (PrimaryBlock.CalculateCRC uninit _) as [primary|] eqn:Ep; [|discriminate].
  cbn [mbind option_bind].
  destruct (Bundle.CalculateCRC_blocks uninit h _) as [h1|] eqn:Eb; [|discriminate].
  cbn [mbind option_bind]. intros [= <- <-].
  split; [exact (CalculateCRC_blocks_keeps _ _ _ _ Eb)|].
  destruct (PrimaryBlock_CalculateCRC_shape _ _ _ Ep) as (crc & -> & Hc). eauto.
Qed.

Lemma GetPayload_weaken h0 h b :
  h0 ⊆ h -> Forall (fun p => is_Some (h0 !! p)) (Bundle.m_canonicalBlocks b) ->
  Bundle.GetPayload h b = Bundle.GetPayload h0 b.
Proof.
  intros Hsub Hlive. unfold Bundle.GetPayload, Bundle.GetPayloadBlock, Bundle.GetBlockByType.
  assert (Hfind : forall l, Forall (fun p => is_Some (h0 !! p)) l ->
            List.find (fun block => CanonicalBlock.GetBlockType (deref h block) =? BlockType.PAYLOAD_BLOCK) l =
            List.find (fun block => CanonicalBlock.GetBlockType (deref h0 block) =? BlockType.PAYLOAD_BLOCK) l).
  { induction 1 as [|q l Hq _ IH]; simpl; [reflexivity|].
    rewrite (deref_weaken h0 h q Hsub Hq), IH. reflexivity. }
  rewrite (Hfind _ Hlive).
  destruct (List.find _ _) as [pb|] eqn:E; [|reflexivity].
  apply find_some in E as [Hin _]. rewrite List.Forall_forall in Hlive.
  now rewrite (deref_weaken h0 h pb Hsub (Hlive _ Hin)).
Qed.

Lemma take_all_or_same {A} (l : list A) (a b : nat) :
  a = b \/ (length l <= a /\ length l <= b)%nat -> take a l = take b l.
Proof.
  intros [->|[Ha Hb]]; [reflexivity|]. now rewrite !take_ge by lia.
Qed.

Section FragmentPayloads.

Variables (uninit : nat -> Z) (h0 : Heap) (b : Bundle.t) (bundle payloadBlock : nat).
Variables (maxFragmentSize numFragments budget total overhead : Z) (fullPayload : list Z).

Hypothesis Hover : FragmentationManager.header_overhead uninit h0 b = Some overhead.
Hypothesis Hlive : Forall (live_encodable h0) (Bundle.m_canonicalBlocks b).
Hypothesis Hprim : primary_encodable (Bundle.m_primaryBlock b).
Hypothesis Hpay : (length fullPayload <= 1024)%nat.
Hypothesis Hfull : Bundle.GetPayload h0 b = fullPayload.
Hypothesis Hbudget : 0 < budget <= 1024.
Hypothesis Htotal : total = Z.of_nat (length fullPayload).
Hypothesis Hsmall : (maxFragmentSize >? overhead) = false.
Hypothesis Hhalf : maxFragmentSize / 2 = budget.
Hypothesis Hnum : 0 <= numFragments < 2 ^ 64 /\ total <= numFragments * budget.

Lemma live_blocks : Forall (fun p => is_Some (h0 !! p)) (Bundle.m_canonicalBlocks b).
Proof. eapply Forall_impl; [exact Hlive|]. now intros p [Hp _]. Qed.

Lemma CalculateFragmentPayloadSize_value h bh i :
  grown_from h0 h -> bh !! bundle = Some b -> 0 <= i -> i * budget < total ->
  exists payloadSize,
    FragmentationManager.CalculateFragmentPayloadSize uninit h bh bundle maxFragmentSize i
      numFragments = Some payloadSize /\
    take (Z.to_nat (if u64 (u64 (i * budget) + payloadSize) >? total
                    then u64 (total - u64 (i * budget)) else payloadSize))
         (drop (Z.to_nat (u64 (i * budget))) fullPayload) =
    payload_chunk budget (i * budget) fullPayload.
Proof.
  intros [Hsub _] Hb Hi Hoff.
  unfold FragmentationManager.CalculateFragmentPayloadSize, deref_bundle. rewrite Hb.
  rewrite (header_overhead_weaken uninit h0 h b Hsub live_blocks), Hover.
  cbn [mbind option_bind]. rewrite Hsmall, Hhalf.
  rewrite (GetPayload_weaken h0 h b Hsub live_blocks), Hfull, <- Htotal.
  assert (Htot : 0 <= total <= 1024) by lia.
  rewrite (u64_small (i * budget)) by lia.
  unfold payload_chunk.
  assert (Hdrop : length (drop (Z.to_nat (i * budget)) fullPayload) =
                  Z.to_nat (total - i * budget)).
  { rewrite length_drop. lia. }
  destruct (Z.eqb_spec i (u64 (numFragments - 1))) as [Elast|Enot].
  - eexists. split; [reflexivity|].
    assert (Hn1 : 1 <= numFragments) by nia.
    rewrite (u64_small (numFragments - 1)) in Elast by lia.
    rewrite (u64_small (total - i * budget)) by lia.
    replace (i * budget + (total - i * budget)) with total by lia.
    rewrite (u64_small total) by lia.
    assert ((total >? total) = false) as -> by lia.
    apply take_all_or_same. right. rewrite Hdrop. nia.
  - eexists. split; [reflexivity|].
    rewrite (u64_small (i * budget + budget)) by lia.
    destruct (Z.gtb_spec (i * budget + budget) total) as [Hgt|Hle].
    + rewrite (u64_small (total - i * budget)) by lia.
      apply take_all_or_same. right. rewrite Hdrop. lia.
    + reflexivity.
Qed.

Lemma fragment_loop_payloads remaining :
  forall i h bh fragments,
    grown_from h0 h -> bh !! bundle = Some b -> 0 <= i ->
    (remaining <> O -> (i + Z.of_nat remaining - 1) * budget < total) ->
    exists h' bh' new,
      FragmentationManager.fragment_loop uninit bundle payloadBlock maxFragmentSize
        numFragments budget total fullPayload remaining i h bh fragments
        = Some (h', bh', fragments ++ new) /\
      grown_from h0 h' /\ heap_keeps h h' /\ bh ⊆ bh' /\ length new = remaining /\
      forall j p, new !! j = Some p ->
        exists f p1 rest crc,
          bh' !! p = Some f /\
          Bundle.m_primaryBlock f =
            PrimaryBlock.set_crcValue (fragment_primary b total ((i + Z.of_nat j) * budget)) crc /\
          (length crc <= 4)%nat /\
          Bundle.m_canonicalBlocks f = p1 :: rest /\
          Forall (fun q => h0 !! q = None) (p1 :: rest) /\
          CanonicalBlock.m_blockType (deref h' p1) = BlockType.PAYLOAD_BLOCK /\
          CanonicalBlock.m_data (deref h' p1) =
            payload_chunk budget ((i + Z.of_nat j) * budget) fullPayload.
Proof.
  induction remaining as [|remaining IH]; intros i h bh fragments Hg Hb Hi Hlast.
  - exists h, bh, []. cbn [FragmentationManager.fragment_loop]. rewrite app_nil_r.
    split; [reflexivity|]. split; [exact Hg|]. split; [apply heap_keeps_refl|].
    split; [reflexivity|]. split; [reflexivity|].
    intros j p Hj. rewrite lookup_nil in Hj. discriminate.
  - cbn [FragmentationManager.fragment_loop].
    assert (Hoff : 0 <= i * budget < total).
    { split; [nia|]. specialize (Hlast ltac:(discriminate)). nia. }
    destruct (CalculateFragmentPayloadSize_value h bh i Hg Hb Hi (proj2 Hoff))
      as (payloadSize & -> & Hchunk).
    cbn [mbind option_bind].
    assert (Htot : total <= 1024) by lia.
    rewrite (u64_small (i * budget)) in * by lia.
    assert ((i * budget >=? total) = false) as -> by lia.
    unfold deref_bundle at 1 2. rewrite Hb.
    rewrite Hchunk. clear Hchunk.
    set (fragmentPayload := payload_chunk budget (i * budget) fullPayload).
    unfold alloc.
    set (blk := CanonicalBlock.SetCRCType _ _).
    set (p1 := fresh (dom h)).
    assert (Hp1h : h !! p1 = None) by (apply not_elem_of_dom, is_fresh).
    assert (Hp1 : h0 !! p1 = None) by (apply fresh_unused, Hg).
    assert (Hg1 : grown_from h0 (<[p1 := blk]> h)).
    { apply grown_from_insert; auto. split; simpl; [|lia].
      subst fragmentPayload. unfold payload_chunk. rewrite length_take, length_drop. lia. }
    fold (fragment_primary b total (i * budget)).
    pose proof (AddBlock_keeps (<[p1 := blk]> h)
                  (Bundle.make (fragment_primary b total (i * budget))) p1) as Hk2.
    destruct (AddBlock_grown h0 _ (Bundle.make (fragment_primary b total (i * budget))) p1 Hg1 Hp1)
      as [Hg2 Hb2].
    destruct (Bundle.AddBlock _ _ p1) as [h2 fr2]. cbn [fst snd] in Hg2, Hb2, Hk2. subst fr2.
    set (fr2 := Bundle.mk _ _).
    destruct (copy_replicated_keeps (Bundle.GetCanonicalBlocks b) h2 fr2) as (Hk3 & extra & Hex).
    destruct (copy_replicated_grown h0 (Bundle.GetCanonicalBlocks b) Hlive h2 fr2 Hg2)
      as (Hg3 & Hfr3 & Hpr3).
    { simpl. repeat constructor. exact Hp1. }
    destruct (FragmentationManager.copy_replicated h2 _ fr2) as [h3 fr3].
    cbn [fst snd] in Hg3, Hfr3, Hpr3, Hk3, Hex.
    destruct (Bundle_CalculateCRC_grown uninit h0 h3 fr3 Hg3 Hfr3)
      as (h4 & crc0 & Hcrc & Hg4).
    { rewrite Hpr3. simpl. destruct Hprim as (H1 & H2 & H3 & H4).
      unfold fragment_primary. repeat split; simpl; auto. }
    destruct (Bundle_CalculateCRC_facts _ _ _ _ _ Hcrc) as (Hk4 & crc & Ef & Hcrclen).
    rewrite Hcrc. clear Hcrc.
    cbn [mbind option_bind fst snd]. unfold alloc_bundle.
    set (f := Bundle.mk (PrimaryBlock.set_crcValue (Bundle.m_primaryBlock fr3) crc0) _) in *.
    set (p := fresh (dom bh)).
    assert (Hp : bh !! p = None) by (apply not_elem_of_dom, is_fresh).
    destruct (IH (i + 1) h4 (<[p := f]> bh) (fragments ++ [p]))
      as (h' & bh' & new & Hloop & Hg' & Hk' & Hsub' & Hlen & Hnew); auto.
    { rewrite lookup_insert_ne by congruence. exact Hb. }
    { lia. }
    { intros Hne. specialize (Hlast ltac:(discriminate)).
      replace (i + 1 + Z.of_nat remaining - 1) with (i + Z.of_nat (S remaining) - 1) by lia.
      exact Hlast. }
    assert (Hk14 : heap_keeps (<[p1 := blk]> h) h4).
    { eapply heap_keeps_trans; [exact Hk2|]. eapply heap_keeps_trans; [exact Hk3 | exact Hk4]. }
    exists h', bh', (p :: new). split.
    { rewrite Hloop. now rewrite <- app_assoc. }
    split; [exact Hg'|]. split.
    { eapply heap_keeps_trans; [apply (heap_keeps_insert_fresh h p1 blk Hp1h)|].
      eapply heap_keeps_trans; [exact Hk14 | exact Hk']. }
    split.
    { etransitivity; [|exact Hsub']. now apply insert_subseteq. }
    split; [simpl; congruence|].
    intros [|j] q Hq.
    + simpl in Hq. injection Hq as <-.
      destruct (heap_keeps_trans _ _ _ Hk14 Hk' p1) as (_ & Hty & Hdata).
      { rewrite lookup_insert_eq. eauto. }
      rewrite deref_insert in Hty, Hdata. destruct (decide (p1 = p1)); [|congruence].
      exists f, p1, extra, crc0. split.
      { apply (lookup_weaken _ _ _ _ (lookup_insert_eq bh p f) Hsub'). }
      split; [subst f; simpl; rewrite Hpr3; simpl; now rewrite Z.add_0_r|].
      split.
      { assert (Ec : crc0 = crc);
          [subst f; unfold PrimaryBlock.set_crcValue in Ef; now injection Ef | now rewrite Ec]. }
      assert (Hblocks : Bundle.m_canonicalBlocks fr3 = p1 :: extra)
        by (rewrite Hex; reflexivity).
      split; [subst f; simpl; exact Hblocks|].
      split; [rewrite <- Hblocks; exact Hfr3|].
      split; [rewrite Hty; reflexivity|].
      rewrite Hdata. simpl. now rewrite Z.add_0_r.
    + simpl in Hq. destruct (Hnew j q Hq) as (f' & p1' & rest' & crc' & H1 & H2 & H3 & H4 & H5 & H6 & H7).
      exists f', p1', rest', crc'. split; [exact H1|].
      replace (i + Z.of_nat (S j)) with (i + 1 + Z.of_nat j) by lia.
      auto 10.
Qed.

End FragmentPayloads.

Lemma GetPayload_head h f p1 rest :
  Bundle.m_canonicalBlocks f = p1 :: rest ->
  CanonicalBlock.m_blockType (deref h p1) = BlockType.PAYLOAD_BLOCK ->
  Bundle.GetPayload h f = CanonicalBlock.m_data (deref h p1).
Proof.
  intros Hb Ht. unfold Bundle.GetPayload, Bundle.GetPayloadBlock, Bundle.GetBlockByType.
  rewrite Hb. cbn [find]. unfold CanonicalBlock.GetBlockType. rewrite Ht. reflexivity.
Qed.

(** The chunks of a list, one after the other, give the list back. *)
Lemma chunks_concat {A} (l : list A) (c : nat) :
  (0 < c)%nat ->
  forall n k, concat (map (fun i => take c (drop (i * c) l)) (seq k n)) =
              take (n * c) (drop (k * c) l).
Proof.
  intros Hc. induction n as [|n IH]; intros k; simpl; [reflexivity|].
  rewrite IH. rewrite <- (take_take_drop (drop (k * c) l) c (n * c)).
  rewrite drop_drop. do 3 f_equal. lia.
Qed.

(** What [FragmentBundle] returns on a bundle it can fragment: the facts
    the two statements below draw on. *)
Lemma FragmentBundle_fragments uninit h bh st bundle b payloadBlock m :
  bh !! bundle = Some b ->
  PrimaryBlock.MustNotFragment (Bundle.m_primaryBlock b) = false ->
  Bundle.IsAdministrativeRecord b = false ->
  Bundle.GetPayloadBlock h b = Some payloadBlock ->
  2 <= m < 1024 ->
  primary_encodable (Bundle.m_primaryBlock b) ->
  Forall (live_encodable h) (Bundle.m_canonicalBlocks b) ->
  Z.of_nat (length (Bundle.m_canonicalBlocks b)) < 2 ^ 32 ->
  exists h' bh' st' fragments,
    let total := Z.of_nat (length (Bundle.GetPayload h b)) in
    FragmentationManager.FragmentBundle uninit h bh st bundle m
      = Some (h', bh', st', fragments) /\
    grown_from h h' /\ heap_keeps h h' /\ bh ⊆ bh' /\
    FragmentationManager.m_fragmentSets st' = FragmentationManager.m_fragmentSets st /\
    FragmentationManager.m_reassembledBundles st' =
      FragmentationManager.m_reassembledBundles st /\
    0 < m / 2 /\
    total <= Z.of_nat (length fragments) * (m / 2) < total + m / 2 /\
    forall j p, fragments !! j = Some p ->
      exists f p1 rest crc,
        bh' !! p = Some f /\
        Bundle.m_primaryBlock f =
          PrimaryBlock.set_crcValue (fragment_primary b total (Z.of_nat j * (m / 2))) crc /\
        (length crc <= 4)%nat /\
        Bundle.m_canonicalBlocks f = p1 :: rest /\
        Forall (fun q => h !! q = None) (p1 :: rest) /\
        CanonicalBlock.m_blockType (deref h' p1) = BlockType.PAYLOAD_BLOCK /\
        CanonicalBlock.m_data (deref h' p1) =
          payload_chunk (m / 2) (Z.of_nat j * (m / 2)) (Bundle.GetPayload h b).
Proof.
  intros Hb Hmnf Hadm Hpb Hm Hprim Hlive Hlen.
  assert (Henc : Forall (fun p => block_encodable (deref h p)) (Bundle.m_canonicalBlocks b)).
  { eapply Forall_impl; [exact Hlive|]. now intros p [_ Hp]. }
  destruct (Bundle_ToCbor_ok uninit h b Hprim Henc) as (fullBuffer & Hfull & Hsize).
  destruct (header_overhead_value uninit h b Hprim Henc Hlen) as (overhead & Hover & Hge).
  set (fullPayload := CanonicalBlock.GetData (deref h payloadBlock)).
  assert (Hpay : Bundle.GetPayload h b = fullPayload).
  { unfold Bundle.GetPayload. now rewrite Hpb. }
  assert (Hpaylen : (length fullPayload <= 1024)%nat).
  { rewrite List.Forall_forall in Henc.
    apply (Henc _ (GetPayloadBlock_In _ _ _ Hpb)). }
  rewrite Hpay. cbn zeta.
  set (total := Z.of_nat (length fullPayload)).
  set (budget := m / 2).
  assert (Hbudget : 0 < budget <= 1024).
  { subst budget. split; [apply Z.div_str_pos; lia|].
    pose proof (Z.div_mod m 2). pose proof (Z.mod_pos_bound m 2). lia. }
  assert (Htot : 0 <= total <= 1024) by (subst total; lia).
  set (n := (total + budget - 1) / budget).
  assert (Hn : budget * n <= total + budget - 1 < budget * n + budget).
  { subst n. pose proof (Z.div_mod (total + budget - 1) budget ltac:(lia)).
    pose proof (Z.mod_pos_bound (total + budget - 1) budget ltac:(lia)). lia. }
  assert (Hn0 : 0 <= n) by (subst n; apply Z.div_pos; lia).
  assert (Hn1 : n <= 1024) by nia.
  destruct (fragment_loop_payloads uninit h b bundle payloadBlock m n budget total overhead
              fullPayload Hover Hlive Hprim Hpaylen Hpay Hbudget eq_refl ltac:(lia) eq_refl
              ltac:(split; [lia | nia])
              (Z.to_nat n) 0 h bh [] (grown_from_refl h) Hb ltac:(lia))
    as (h' & bh' & fragments & Hloop & Hg & Hk & Hsub & Hcount & Hfrag).
  { intros _. rewrite Z2Nat.id by lia. nia. }
  simpl in Hloop.
  eexists h', bh', _, fragments.
  split.
  { unfold FragmentationManager.FragmentBundle, deref_bundle, Bundle.GetPrimaryBlock.
    rewrite Hb, Hmnf, Hadm, Hfull.
    cbn [mbind option_bind].
    rewrite Hsize. assert ((1024 <=? m) = false) as -> by lia.
    rewrite Hpb, Hover. cbn [mbind option_bind].
    assert ((m >? overhead) = false) as -> by lia.
    fold budget. assert ((budget =? 0) = false) as -> by lia.
    fold fullPayload. fold total.
    rewrite (u64_small (total + budget - 1)) by lia. fold n.
    rewrite Hloop. cbn [mbind option_bind]. reflexivity. }
  split; [exact Hg|]. split; [exact Hk|]. split; [exact Hsub|].
  split; [destruct (negb _); reflexivity|]. split; [destruct (negb _); reflexivity|].
  split; [lia|]. split.
  { rewrite Hcount, Z2Nat.id by lia. nia. }
  intros j p Hj. destruct (Hfrag j p Hj) as (f & p1 & rest & crc & H1 & H2 & H3 & H4 & H5 & H6 & H7).
  exists f, p1, rest, crc. rewrite Z.add_0_l in H2, H7. auto 10.
Qed.

(** X29.  [FragmentBundle] cuts the payload into consecutive pieces: with
    [budget] half of the maximum fragment size [m], fragment [i] carries
    the (at most) [budget] bytes of the payload from offset [i * budget]
    on, and the payloads of the fragments, one after the other, are the
    payload of the bundle.  The bundle and every object the heaps held stay
    as they were. *)
Theorem FragmentBundle_partitions_the_payload uninit h bh st bundle b payloadBlock m :
  bh !! bundle = Some b ->
  PrimaryBlock.MustNotFragment (Bundle.m_primaryBlock b) = false ->
  Bundle.IsAdministrativeRecord b = false ->
  Bundle.GetPayloadBlock h b = Some payloadBlock ->
  2 <= m < 1024 ->
  primary_encodable (Bundle.m_primaryBlock b) ->
  Forall (live_encodable h) (Bundle.m_canonicalBlocks b) ->
  Z.of_nat (length (Bundle.m_canonicalBlocks b)) < 2 ^ 32 ->
  exists h' bh' st' fragments,
    FragmentationManager.FragmentBundle uninit h bh st bundle m
      = Some (h', bh', st', fragments) /\
    h ⊆ h' /\ bh ⊆ bh' /\
    (forall i p, fragments !! i = Some p ->
       Bundle.GetPayload h' (deref_bundle bh' p) =
         payload_chunk (m / 2) (Z.of_nat i * (m / 2)) (Bundle.GetPayload h b)) /\
    concat (map (fun p => Bundle.GetPayload h' (deref_bundle bh' p)) fragments) =
      Bundle.GetPayload h b.
Proof.
  intros Hb Hmnf Hadm Hpb Hm Hprim Hlive Hlen.
  destruct (FragmentBundle_fragments uninit h bh st bundle b payloadBlock m
              Hb Hmnf Hadm Hpb Hm Hprim Hlive Hlen)
    as (h' & bh' & st' & fragments & Hfb & Hg & _ & Hsub & _ & _ & Hbudget & Hcount & Hfrag).
  cbn zeta in *.
  exists h', bh', st', fragments. split; [exact Hfb|].
  split; [exact (proj1 Hg)|]. split; [exact Hsub|].
  assert (Hchunk : forall i p, fragments !! i = Some p ->
            Bundle.GetPayload h' (deref_bundle bh' p) =
              payload_chunk (m / 2) (Z.of_nat i * (m / 2)) (Bundle.GetPayload h b)).
  { intros i p Hi. destruct (Hfrag i p Hi) as (f & p1 & rest & crc & H1 & _ & _ & H4 & _ & H6 & H7).
    unfold deref_bundle. rewrite H1. rewrite (GetPayload_head h' f p1 rest H4 H6). exact H7. }
  split; [exact Hchunk|].
  set (l := Bundle.GetPayload h b) in *.
  set (c := Z.to_nat (m / 2)).
  assert (Hmap : map (fun p => Bundle.GetPayload h' (deref_bundle bh' p)) fragments =
                 map (fun i => take c (drop (i * c) l)) (seq 0 (length fragments))).
  { apply list_eq. intros i. rewrite !list_lookup_fmap.
    destruct (fragments !! i) as [p|] eqn:Ei; simpl.
    - rewrite lookup_seq_lt by (apply lookup_lt_Some in Ei; exact Ei). simpl.
      rewrite (Hchunk i p Ei). unfold payload_chunk. do 3 f_equal. subst c.
      rewrite Z2Nat.inj_mul, Nat2Z.id by lia. reflexivity.
    - rewrite lookup_seq_ge by (apply lookup_ge_None in Ei; exact Ei). reflexivity. }
  rewrite Hmap, chunks_concat by (subst c; lia).
  simpl. rewrite drop_0. apply take_ge. subst c. nia.
Qed.

(** ** From the fragments back to the bundle *)

Section Roundtrip.
Import FragmentationManager.

(** The walk over the fragments finds covered what fragments cover. *)
Lemma covered_length_sound h bh frags :
  forall c0 c,
    covered_length h bh frags c0 = Some c ->
    (forall f, In f frags ->
       0 <= fragment_offset bh f /\ fragment_offset bh f + fragment_length h bh f < 2 ^ 64) ->
    c0 <= c /\
    forall x, c0 <= x < c ->
      exists f, In f frags /\
        fragment_offset bh f <= x < fragment_offset bh f + fragment_length h bh f.
Proof.
  induction frags as [|g frags IH]; simpl; intros c0 c Hc Hb.
  - injection Hc as <-. split; [lia|]. intros x Hx. lia.
  - destruct (Z.gtb_spec (fragment_offset bh g) c0) as [|Hle]; [discriminate|].
    destruct (Hb g (or_introl eq_refl)) as [Hg0 Hg1].
    fold (fragment_length h bh g) in Hc.
    pose proof (Nat2Z.is_nonneg (length (Bundle.GetPayload h (deref_bundle bh g)))) as Hlen.
    fold (fragment_length h bh g) in Hlen.
    rewrite u64_small in Hc by lia.
    destruct (IH _ _ Hc (fun f Hf => Hb f (or_intror Hf))) as [Hmax Hcov].
    split; [lia|]. intros x Hx.
    destruct (Z.lt_ge_cases x (fragment_offset bh g + fragment_length h bh g)) as [Hin|Hout].
    + exists g. split; [now left | lia].
    + destruct (Hcov x ltac:(lia)) as (f & Hf & Hfx). exists f. split; [now right | exact Hfx].
Qed.

Variables (uninit : nat -> Z) (dtnNow : DtnTime.t) (h : Heap) (bh : BundleHeap).
Variables (b : Bundle.t) (frags : list nat) (budget total : Z) (fullPayload : list Z).

Hypothesis Hprim : primary_encodable (Bundle.m_primaryBlock b).
Hypothesis Hbudget : 0 < budget.
Hypothesis Htotal : total = Z.of_nat (length fullPayload).
Hypothesis Hsize : 0 < total <= 1024.
Hypothesis Hcount : total <= Z.of_nat (length frags) * budget < total + budget.
Hypothesis Hfrags :
  forall j p, frags !! j = Some p ->
    exists f p1 rest crc,
      bh !! p = Some f /\
      Bundle.m_primaryBlock f =
        PrimaryBlock.set_crcValue (fragment_primary b total (Z.of_nat j * budget)) crc /\
      (length crc <= 4)%nat /\
      Bundle.m_canonicalBlocks f = p1 :: rest /\
      Forall (fun q => block_encodable (deref h q)) (p1 :: rest) /\
      CanonicalBlock.m_blockType (deref h p1) = BlockType.PAYLOAD_BLOCK /\
      CanonicalBlock.m_data (deref h p1) =
        payload_chunk budget (Z.of_nat j * budget) fullPayload.

Lemma chunk_length j :
  Z.of_nat j * budget < total ->
  Z.of_nat (length (payload_chunk budget (Z.of_nat j * budget) fullPayload)) =
  Z.min budget (total - Z.of_nat j * budget).
Proof.
  intros Hj. unfold payload_chunk. rewrite length_take, length_drop. lia.
Qed.

(** What the accumulator reads off fragment [j]. *)
Lemma fragment_facts j p :
  frags !! j = Some p ->
  Z.of_nat j * budget < total /\
  IsFragment bh (Some p) = true /\
  GetOriginalBundleId dtnNow bh (Some p) = original_id b /\
  fragment_offset bh p = Z.of_nat j * budget /\
  PrimaryBlock.GetTotalApplicationDataUnitLength
    (Bundle.GetPrimaryBlock (deref_bundle bh p)) = total /\
  Bundle.GetPayload h (deref_bundle bh p) =
    payload_chunk budget (Z.of_nat j * budget) fullPayload /\
  fragment_length h bh p = Z.min budget (total - Z.of_nat j * budget) /\
  fragment_crc_computable h bh p.
Proof.
  intros Hj. destruct (Hfrags j p Hj) as (f & p1 & rest & crc & H1 & H2 & H3 & H4 & H5 & H6 & H7).
  assert (Hlt : Z.of_nat j * budget < total).
  { apply lookup_lt_Some in Hj. nia. }
  assert (Hfrag : PrimaryBlock.IsFragment (Bundle.m_primaryBlock f) = true).
  { rewrite H2. apply (IsFragment_SetFragmentation (Bundle.m_primaryBlock b)). }
  assert (Hpay : Bundle.GetPayload h f = payload_chunk budget (Z.of_nat j * budget) fullPayload).
  { rewrite (GetPayload_head h f p1 rest H4 H6). exact H7. }
  split; [exact Hlt|].
  unfold IsFragment, GetOriginalBundleId, IsFragment, fragment_offset, fragment_length,
    fragment_crc_computable, deref_bundle, Bundle.GetPrimaryBlock.
  rewrite H1, Hfrag. cbn [negb].
  split; [reflexivity|]. split; [rewrite H2; reflexivity|]. split; [rewrite H2; reflexivity|].
  split; [rewrite H2; reflexivity|]. split; [exact Hpay|].
  split; [rewrite Hpay; now apply chunk_length|].
  split.
  - rewrite H2. destruct Hprim as (P1 & P2 & P3 & P4). repeat split; simpl; auto. lia.
  - intros blk Hblk. rewrite H4 in Hblk. rewrite List.Forall_forall in H5.
    apply block_encodable_crc_computable. now apply H5.
Qed.

Lemma fragment_index_unique i j p :
  frags !! i = Some p -> frags !! j = Some p -> i = j.
Proof.
  intros Hi Hj.
  destruct (fragment_facts i p Hi) as (_ & _ & _ & Oi & _).
  destruct (fragment_facts j p Hj) as (_ & _ & _ & Oj & _).
  rewrite Oi in Oj. nia.
Qed.

Lemma frags_NoDup : NoDup frags.
Proof.
  apply NoDup_alt. intros i j p Hi Hj. exact (fragment_index_unique i j p Hi Hj).
Qed.

Lemma In_frags p : In p frags -> exists j, frags !! j = Some p.
Proof. intros Hin. apply list_elem_of_In in Hin. now apply list_elem_of_lookup in Hin. Qed.

(** Fragments that are not all of them do not cover the payload. *)
Lemma strict_subset_incomplete delivered missing :
  (forall p, In p delivered -> In p frags) ->
  In missing frags -> ~ In missing delivered ->
  forall sorted c,
    Permutation sorted delivered ->
    covered_length h bh sorted 0 = Some c -> c < total.
Proof.
  intros Hsub Hmiss Hnot sorted c Hperm Hc.
  destruct (Z.lt_ge_cases c total) as [Hlt|Hge]; [exact Hlt|]. exfalso.
  destruct (In_frags missing Hmiss) as (jm & Hjm).
  destruct (fragment_facts jm missing Hjm) as (Hm & _).
  destruct (covered_length_sound h bh sorted 0 c Hc) as [_ Hcov].
  { intros f Hf. apply (Permutation_in _ Hperm) in Hf. apply Hsub in Hf.
    destruct (In_frags f Hf) as (j & Hj).
    destruct (fragment_facts j f Hj) as (Hlt & _ & _ & Ho & _ & _ & Hl & _).
    rewrite Ho, Hl. lia. }
  destruct (Hcov (Z.of_nat jm * budget) ltac:(lia)) as (f & Hf & Hx).
  apply (Permutation_in _ Hperm) in Hf.
  destruct (In_frags f (Hsub f Hf)) as (j & Hj).
  destruct (fragment_facts j f Hj) as (Hlt & _ & _ & Ho & _ & _ & Hl & _).
  rewrite Ho, Hl in Hx.
  assert (j = jm) by nia. subst j.
  assert (f = missing) by congruence. subst f. contradiction.
Qed.

(** All of the fragments cover the payload. *)
Lemma all_fragments_cover delivered :
  Permutation delivered frags -> fragments_cover h bh delivered total.
Proof.
  intros Hperm. split.
  - intros f Hf. apply (Permutation_in _ Hperm) in Hf.
    destruct (In_frags f Hf) as (j & Hj).
    destruct (fragment_facts j f Hj) as (Hlt & _ & _ & Ho & _ & _ & Hl & _).
    rewrite Ho, Hl. lia.
  - intros x Hx.
    set (j := Z.to_nat (x / budget)).
    assert (Hdiv : budget * (x / budget) <= x < budget * (x / budget) + budget).
    { pose proof (Z.div_mod x budget ltac:(lia)).
      pose proof (Z.mod_pos_bound x budget Hbudget). lia. }
    assert (Hq : 0 <= x / budget) by (apply Z.div_pos; lia).
    assert (Hjlt : (j < length frags)%nat) by (subst j; nia).
    destruct (lookup_lt_is_Some_2 frags j Hjlt) as [p Hp].
    destruct (fragment_facts j p Hp) as (Hlt & _ & _ & Ho & _ & _ & Hl & _).
    exists p. split.
    + apply (Permutation_in _ (Permutation_sym Hperm)).
      apply list_elem_of_In. now apply list_elem_of_lookup_2 in Hp.
    + rewrite Ho, Hl. subst j. rewrite Z2Nat.id in * by lia. lia.
Qed.

Lemma TryReassemble_incomplete st info :
  complete info = false ->
  (forall c, covered_length h bh (sort_by_offset bh (fragments info)) 0 = Some c ->
             c < totalLength info) ->
  TryReassemble uninit h bh st info =
    Some (h, bh, st,
          mkInfo (sourceId info) (totalLength info) (sort_by_offset bh (fragments info))
                 (expirationTime info) (complete info),
          None).
Proof.
  intros Hc Hcov. unfold TryReassemble. rewrite Hc.
  cbn [totalLength FragmentationManager.fragments sourceId expirationTime complete].
  destruct (covered_length h bh _ 0) as [c|] eqn:E; [|reflexivity].
  specialize (Hcov c eq_refl). assert ((c <? totalLength info) = true) as -> by lia.
  reflexivity.
Qed.

(** The fragment set [AddFragment] works on when fragment [q] arrives. *)
Lemma collecting_info delivered st q j :
  collecting b total delivered st -> frags !! j = Some q ->
  (forall p, In p delivered -> In p frags) -> ~ In q delivered ->
  exists info,
    Permutation (fragments info) delivered /\
    totalLength info = total /\ complete info = false /\
    has_offset bh (fragments info) (fragment_offset bh q) = false /\
    forall k,
      AddFragment uninit dtnNow h bh st (Some q) =
        (r <- TryReassemble uninit h bh st
                (mkInfo (sourceId info) (totalLength info) (fragments info ++ [q])
                        (expirationTime info) (complete info)) ;;
         let '(h', bh', st', info', reassembled) := r in
         Some (h', bh',
               set_fragmentSets st' (<[BundleID.to_key (original_id b) := info']>
                                       (m_fragmentSets st')),
               reassembled)) \/ k = 0%nat.
Proof.
  intros Hcol Hq Hsub Hnew.
  destruct (fragment_facts j q Hq) as (Hlt & Hfrag & Hid & Hoff & Htot & _).
  set (exp := DtnTime.ToTime (PrimaryBlock.GetCreationTimestamp
                                (Bundle.GetPrimaryBlock (deref_bundle bh q))) +
              PrimaryBlock.GetLifetime (Bundle.GetPrimaryBlock (deref_bundle bh q))).
  set (stored := match m_fragmentSets st !! BundleID.to_key (original_id b) with
                 | Some info => info
                 | None => mkInfo (BundleID_default dtnNow) 0 [] 0 false
                 end).
  set (info := if Nat.eqb (length (fragments stored)) 0
               then mkInfo (original_id b) total (fragments stored) exp false
               else stored).
  assert (Hinfo : Permutation (fragments info) delivered /\
                  totalLength info = total /\ complete info = false).
  { unfold collecting in Hcol. subst info stored.
    destruct (m_fragmentSets st !! BundleID.to_key (original_id b)) as [info0|].
    - destruct Hcol as [Hperm Hrest].
      destruct (fragments info0) as [|x l] eqn:El; cbn [length Nat.eqb].
      + cbn [FragmentationManager.fragments totalLength complete]. auto.
      + rewrite El. split; [exact Hperm|]. apply Hrest. intros ->.
        apply Permutation_sym, Permutation_nil in Hperm. discriminate.
    - subst delivered. cbn. auto. }
  destruct Hinfo as (Hperm & Ht & Hc).
  assert (Hno : has_offset bh (fragments info) (fragment_offset bh q) = false).
  { unfold has_offset. destruct (existsb _ _) eqn:E; [|reflexivity]. exfalso.
    apply existsb_exists in E as (e & He & Heq).
    apply (Permutation_in _ Hperm) in He.
    destruct (In_frags e (Hsub e He)) as (i & Hi).
    destruct (fragment_facts i e Hi) as (_ & _ & _ & Oe & _).
    rewrite Oe, Hoff in Heq. assert (i = j) by nia. subst i.
    assert (e = q) by congruence. subst e. contradiction. }
  exists info. split; [exact Hperm|]. split; [exact Ht|]. split; [exact Hc|].
  split; [exact Hno|]. intros k. left.
  unfold AddFragment. rewrite Hfrag. cbn [negb]. rewrite Hid.
  fold stored. rewrite Htot. fold exp. fold info.
  unfold fragment_offset in Hno. rewrite Hno. reflexivity.
Qed.

(** A fragment that leaves others outstanding is kept, and null returned;
    the heaps stay as they are. *)
Lemma AddFragment_collects delivered st q missing :
  collecting b total delivered st ->
  (forall p, In p delivered -> In p frags) -> In q frags -> ~ In q delivered ->
  In missing frags -> ~ In missing (delivered ++ [q]) ->
  exists st1,
    AddFragment uninit dtnNow h bh st (Some q) = Some (h, bh, st1, None) /\
    collecting b total (delivered ++ [q]) st1.
Proof.
  intros Hcol Hsub Hq Hnew Hmiss Hnot.
  destruct (In_frags q Hq) as (j & Hj).
  destruct (collecting_info delivered st q j Hcol Hj Hsub Hnew)
    as (info & Hperm & Ht & Hc & _ & Hadd).
  destruct (Hadd 1%nat) as [Hadd'|]; [|discriminate]. rewrite Hadd'. clear Hadd Hadd'.
  rewrite TryReassemble_incomplete.
  - cbn [mbind option_bind]. eexists. split; [reflexivity|].
    unfold collecting, set_fragmentSets. cbn [m_fragmentSets].
    rewrite lookup_insert_eq. cbn [FragmentationManager.fragments totalLength complete].
    split.
    + rewrite (proj2 (sort_by_offset_spec bh _)). now apply Permutation_app_tail.
    + intros _. auto.
  - exact Hc.
  - cbn [FragmentationManager.fragments totalLength]. rewrite Ht. intros c.
    apply (strict_subset_incomplete (delivered ++ [q]) missing).
    + intros p Hp. apply in_app_iff in Hp as [Hp|[<-|[]]]; auto.
    + exact Hmiss.
    + exact Hnot.
    + rewrite (proj2 (sort_by_offset_spec bh _)). now apply Permutation_app_tail.
Qed.

(** The fragment that completes the set returns the bundle, with the
    payload the fragments were cut from. *)
Lemma AddFragment_completes delivered st q :
  collecting b total delivered st -> ~ In q delivered ->
  Permutation (delivered ++ [q]) frags ->
  exists h' bh' st' r,
    AddFragment uninit dtnNow h bh st (Some q) = Some (h', bh', st', Some r) /\
    Bundle.GetPayload h' (deref_bundle bh' r) = fullPayload.
Proof.
  intros Hcol Hnew Hall.
  assert (Hq : In q frags).
  { apply (Permutation_in _ Hall). apply in_app_iff. right. now left. }
  assert (Hsub : forall p, In p delivered -> In p frags).
  { intros p Hp. apply (Permutation_in _ Hall). apply in_app_iff. now left. }
  destruct (In_frags q Hq) as (j & Hj).
  destruct (collecting_info delivered st q j Hcol Hj Hsub Hnew)
    as (info & Hperm & Ht & Hc & _ & Hadd).
  destruct (Hadd 1%nat) as [Hadd'|]; [|discriminate]. rewrite Hadd'. clear Hadd Hadd'.
  set (info2 := mkInfo _ _ _ _ _).
  assert (Hperm2 : Permutation (fragments info2) frags).
  { subst info2. cbn [FragmentationManager.fragments].
    etransitivity; [|exact Hall]. now apply Permutation_app_tail. }
  destruct (TryReassemble_completes uninit h bh st info2)
    as (h' & bh' & info' & r & reassembled & Htry & _ & Hr & _ & Hlen & Hbytes).
  { exact Hc. }
  { subst info2. cbn [FragmentationManager.fragments]. intros Hnil.
    apply app_eq_nil in Hnil as [_ Hnil]. discriminate. }
  { subst info2. cbn [totalLength]. rewrite Ht. lia. }
  { subst info2. cbn [totalLength]. rewrite Ht. now apply all_fragments_cover. }
  { intros f Hf. apply (Permutation_in _ Hperm2) in Hf.
    destruct (In_frags f Hf) as (i & Hi). now destruct (fragment_facts i f Hi) as (_&_&_&_&_&_&_&?). }
  rewrite Htry. cbn [mbind option_bind]. eexists h', bh', _, r. split; [reflexivity|].
  unfold deref_bundle. rewrite Hr.
  assert (Hlen' : length (Bundle.GetPayload h' reassembled) = length fullPayload).
  { subst info2. cbn [totalLength] in Hlen. lia. }
  apply list_eq. intros x.
  destruct (decide (x < length fullPayload)%nat) as [Hx|Hx].
  2:{ rewrite !lookup_ge_None_2 by lia. reflexivity. }
  destruct (Hbytes x ltac:(lia)) as (f & Hf & Hholds & ->).
  apply (Permutation_in _ Hperm2) in Hf.
  destruct (In_frags f Hf) as (i & Hi).
  destruct (fragment_facts i f Hi) as (Hlt & _ & _ & Ho & _ & Hpay & Hl & _).
  unfold holds_byte in Hholds. unfold fragment_length in Hl. rewrite Ho in *. rewrite Hpay in *.
  unfold payload_chunk in *.
  rewrite lookup_take_lt by (rewrite length_take, length_drop in Hholds; lia).
  rewrite lookup_drop. f_equal. lia.
Qed.

(** Delivered in any order, the fragments give null until the last one
    arrives, and then the payload. *)
Lemma deliveries_spec arrivals :
  forall delivered st,
    collecting b total delivered st ->
    Permutation (delivered ++ arrivals) frags ->
    arrivals <> [] ->
    deliveries uninit dtnNow h bh st arrivals =
      Some (repeat None (length arrivals - 1) ++ [Some fullPayload]).
Proof.
  induction arrivals as [|q rest IH]; intros delivered st Hcol Hall Hne; [contradiction|].
  assert (Hnd : NoDup (delivered ++ q :: rest)).
  { rewrite Hall. exact frags_NoDup. }
  assert (Hnew : ~ In q delivered).
  { apply NoDup_app in Hnd as (_ & Hdis & _). intros Hin.
    apply (Hdis q); [now apply list_elem_of_In | left]. }
  assert (Hsub : forall p, In p delivered -> In p frags).
  { intros p Hp. apply (Permutation_in _ Hall). apply in_app_iff. now left. }
  assert (Hq : In q frags).
  { apply (Permutation_in _ Hall). apply in_app_iff. right. now left. }
  cbn [deliveries].
  destruct rest as [|missing rest].
  - destruct (AddFragment_completes delivered st q Hcol Hnew Hall)
      as (h' & bh' & st' & r & -> & Hpay).
    cbn [mbind option_bind deliveries option_map length repeat app Nat.sub].
    now rewrite Hpay.
  - assert (Hmiss : In missing frags).
    { apply (Permutation_in _ Hall). apply in_app_iff. right. right. now left. }
    assert (Hnot : ~ In missing (delivered ++ [q])).
    { intros Hin. apply in_app_iff in Hin as [Hin|[<-|[]]].
      - apply NoDup_app in Hnd as (_ & Hdis & _).
        apply (Hdis missing); [now apply list_elem_of_In | right; left].
      - apply NoDup_app in Hnd as (_ & _ & Hnd). apply NoDup_cons in Hnd as [Hnd _].
        apply Hnd. left. }
    destruct (AddFragment_collects delivered st q missing Hcol Hsub Hq Hnew Hmiss Hnot)
      as (st1 & -> & Hcol1).
    cbn [mbind option_bind].
    rewrite (IH (delivered ++ [q]) st1 Hcol1).
    + cbn [mbind option_bind option_map length Nat.sub repeat app]. rewrite Nat.sub_0_r.
      reflexivity.
    + now rewrite <- app_assoc.
    + discriminate.
Qed.

End Roundtrip.

(** X30.  Fragmenting and reassembling compose to the identity on the
    payload, whatever the order of arrival: take a bundle [FragmentBundle]
    cuts into fragments (the hypotheses of the theorem on the budget, and a
    payload that is not empty), and an accumulator that holds no fragment of
    it.  Hand the fragments to [AddFragment] one after the other, in any
    order, each call on the state the call before left: every call but the
    last returns null, and the last returns a bundle whose payload is the
    payload of the bundle that was fragmented. *)
Theorem Fragments_reassemble_in_any_order uninit dtnNow h bh st bundle b payloadBlock m :
  bh !! bundle = Some b ->
  PrimaryBlock.MustNotFragment (Bundle.m_primaryBlock b) = false ->
  Bundle.IsAdministrativeRecord b = false ->
  Bundle.GetPayloadBlock h b = Some payloadBlock ->
  2 <= m < 1024 ->
  primary_encodable (Bundle.m_primaryBlock b) ->
  Forall (live_encodable h) (Bundle.m_canonicalBlocks b) ->
  Z.of_nat (length (Bundle.m_canonicalBlocks b)) < 2 ^ 32 ->
  Bundle.GetPayload h b <> [] ->
  FragmentationManager.m_fragmentSets st !! BundleID.to_key (original_id b) = None ->
  exists h' bh' st' fragments,
    FragmentationManager.FragmentBundle uninit h bh st bundle m
      = Some (h', bh', st', fragments) /\
    forall arrivals, Permutation arrivals fragments ->
      deliveries uninit dtnNow h' bh' st' arrivals =
        Some (repeat None (length arrivals - 1) ++ [Some (Bundle.GetPayload h b)]).
Proof.
  intros Hb Hmnf Hadm Hpb Hm Hprim Hlive Hlen Hne Hnew.
  destruct (FragmentBundle_fragments uninit h bh st bundle b payloadBlock m
              Hb Hmnf Hadm Hpb Hm Hprim Hlive Hlen)
    as (h' & bh' & st' & fragments & Hfb & Hg & _ & _ & Hsets & _ & Hbudget & Hcount & Hfrag).
  cbn zeta in *.
  exists h', bh', st', fragments. split; [exact Hfb|].
  intros arrivals Hperm.
  assert (Hpaylen : (length (Bundle.GetPayload h b) <= 1024)%nat).
  { unfold Bundle.GetPayload. rewrite Hpb.
    rewrite List.Forall_forall in Hlive.
    apply (Hlive _ (GetPayloadBlock_In _ _ _ Hpb)). }
  assert (Hpos : 0 < Z.of_nat (length (Bundle.GetPayload h b))).
  { destruct (Bundle.GetPayload h b); [contradiction | simpl; lia]. }
  apply (deliveries_spec uninit dtnNow h' bh' b fragments (m / 2)
           (Z.of_nat (length (Bundle.GetPayload h b))) (Bundle.GetPayload h b))
    with (delivered := []).
  - exact Hprim.
  - exact Hbudget.
  - reflexivity.
  - lia.
  - exact Hcount.
  - intros j p Hj.
    destruct (Hfrag j p Hj) as (f & p1 & rest & crc & H1 & H2 & H3 & H4 & H5 & H6 & H7).
    exists f, p1, rest, crc. repeat (split; [assumption|]). split; [|auto].
    eapply Forall_impl; [exact H5|]. intros q Hq. exact (proj2 Hg q Hq).
  - unfold collecting. rewrite Hsets, Hnew. reflexivity.
  - exact Hperm.
  - intros ->. apply Permutation_nil in Hperm. subst fragments. simpl in Hcount. lia.
Qed.

(** ** The statements above on concrete inputs *)
Lemma AddBlock_numbers_fresh_block_witness :
  let r := Bundle.AddBlock unnumbered_heap bundle_p 2%nat in
  Bundle.m_canonicalBlocks (snd r) = Bundle.m_canonicalBlocks bundle_p ++ [2%nat] /\
  1 <= CanonicalBlock.GetBlockNumber (deref (fst r) 2%nat) /\
  forall q, In q (Bundle.m_canonicalBlocks bundle_p) ->
    deref (fst r) q = deref unnumbered_heap q /\
    CanonicalBlock.GetBlockNumber (deref unnumbered_heap q) <
      CanonicalBlock.GetBlockNumber (deref (fst r) 2%nat).
Proof.
  apply (AddBlock_numbers_fresh_block unnumbered_heap bundle_p 2%nat).
  - reflexivity.
  - simpl. intros [Heq|[]]. discriminate.
  - intros q [<-|[]]. vm_compute. split; [discriminate | reflexivity].
Defined.

Lemma AddSentNode_records_once_witness :
  let d' := Routing.AddSentNode descriptor_a node_r in
  Routing.SentTo d' node_r = true /\
  (forall other, Routing.SentTo descriptor_a other = true -> Routing.SentTo d' other = true) /\
  (forall other, EndpointID.eqb node_r other = false ->
                 Routing.SentTo d' other = Routing.SentTo descriptor_a other) /\
  Routing.AddSentNode d' node_r = d' /\
  NoDup (map EndpointID.m_uri (Routing.sentNodes d')).
Proof.
  apply (AddSentNode_records_once descriptor_a node_r).
  simpl. apply NoDup_singleton.
Defined.

Lemma SendBundle_without_reachable_sender_witness :
  Routing.SendBundle zero_fill ∅ bundle_heap_a tt unreachable_engine 7%nat
                     (Routing.nodeID peer_r) (Routing.endpoint peer_r) =
    Some (∅, bundle_heap_a, tt, Routing.count_failed unreachable_engine, false).
Proof.
  apply (SendBundle_without_reachable_sender zero_fill ∅ bundle_heap_a tt unreachable_engine).
  simpl. repeat constructor.
Defined.

Lemma SendBundle_does_not_fail_over_witness :
  exists h1 bh1,
    Routing.stamp_previous_node zero_fill ∅ bundle_heap_a
      (Routing.m_localNodeID two_layer_engine) 7%nat = Some (h1, bh1) /\
    Routing.SendBundle zero_fill ∅ bundle_heap_a tt two_layer_engine 7%nat
                       (Routing.nodeID peer_r) (Routing.endpoint peer_r) =
      Some (h1, bh1, tt, Routing.count_failed two_layer_engine, false).
Proof.
  destruct (Routing.stamp_previous_node zero_fill ∅ bundle_heap_a
              (Routing.m_localNodeID two_layer_engine) 7%nat) as [[h1 bh1]|] eqn:E.
  - exists h1, bh1. split; [reflexivity|].
    apply (SendBundle_does_not_fail_over zero_fill ∅ bundle_heap_a tt two_layer_engine 7%nat
             (Routing.nodeID peer_r) (Routing.endpoint peer_r) failing_sender h1 bh1 tt).
    + reflexivity.
    + exact E.
    + reflexivity.
  - vm_compute in E. discriminate.
Defined.

Lemma NotifyNewBundle_twice_changes_nothing_witness :
  Routing.m_bundles epidemic_notified_again = Routing.m_bundles epidemic_notified.
Proof.
  destruct epidemic_notified_facts as (Hn & Hm & _).
  destruct (NotifyNewBundle_stored bundle_heap_a epidemic_notified 7%nat node_r Hm)
    as (r2 & E2 & _).
  assert (Hr : epidemic_notified_again = r2).
  { unfold epidemic_notified_again. now rewrite E2. }
  rewrite Hr.
  exact (NotifyNewBundle_twice_changes_nothing bundle_heap_a epidemic_engine epidemic_notified
           r2 7%nat node_r Hn E2).
Defined.

Lemma FragmentBundle_partitions_the_payload_witness :
  exists h' bh' st' fragments,
    FragmentationManager.FragmentBundle zero_fill payload_heap bundle_heap_p
      FragmentationManager.create 8%nat 8 = Some (h', bh', st', fragments) /\
    payload_heap ⊆ h' /\ bundle_heap_p ⊆ bh' /\
    (forall i p, fragments !! i = Some p ->
       Bundle.GetPayload h' (deref_bundle bh' p) =
         payload_chunk (8 / 2) (Z.of_nat i * (8 / 2)) (Bundle.GetPayload payload_heap bundle_p)) /\
    concat (map (fun p => Bundle.GetPayload h' (deref_bundle bh' p)) fragments) =
      Bundle.GetPayload payload_heap bundle_p.
Proof.
  apply (FragmentBundle_partitions_the_payload zero_fill payload_heap bundle_heap_p
           FragmentationManager.create 8%nat bundle_p 1%nat 8).
  - reflexivity.
  - reflexivity.
  - reflexivity.
  - reflexivity.
  - lia.
  - repeat split; vm_compute; lia.
  - repeat constructor; vm_compute; try lia. eexists. reflexivity.
  - vm_compute. reflexivity.
Defined.

Lemma Fragments_reassemble_in_any_order_witness :
  exists h' bh' st' fragments,
    FragmentationManager.FragmentBundle zero_fill payload_heap bundle_heap_p
      FragmentationManager.create 8%nat 8 = Some (h', bh', st', fragments) /\
    forall arrivals, Permutation arrivals fragments ->
      deliveries zero_fill (DtnTime.mk 1001 0) h' bh' st' arrivals =
        Some (repeat None (length arrivals - 1) ++
              [Some (Bundle.GetPayload payload_heap bundle_p)]).
Proof.
  apply (Fragments_reassemble_in_any_order zero_fill (DtnTime.mk 1001 0) payload_heap
           bundle_heap_p FragmentationManager.create 8%nat bundle_p 1%nat 8).
  - reflexivity.
  - reflexivity.
  - reflexivity.
  - reflexivity.
  - lia.
  - repeat split; vm_compute; lia.
  - repeat constructor; vm_compute; try lia. eexists. reflexivity.
  - vm_compute. reflexivity.
  - vm_compute. discriminate.
  - reflexivity.
Defined.

Lemma Spray_dispatch_never_raises_a_copy_count_witness :
  copies_positive (snd spray_five_dispatched) /\
  forall bundleId,
    1 <= Routing.GetCopyCount (snd spray_five_dispatched) bundleId
      <= Routing.GetCopyCount spray_five bundleId.
Proof.
  apply (Spray_dispatch_never_raises_a_copy_count zero_fill 1001000000000 ∅ bundle_heap_a tt
           spray_five (fst (fst (fst spray_five_dispatched)))
           (snd (fst (fst spray_five_dispatched))) (snd (fst spray_five_dispatched))).
  - unfold copies_positive, spray_five, spray_engine.
    destruct (Routing.SprayAndWaitRouting_NotifyNewBundle _ _ _ _) as [s0|] eqn:E0;
      cbn [mbind option_bind].
    + cbn [Routing.set_base Routing.m_copies].
      unfold Routing.SprayAndWaitRouting_NotifyNewBundle in E0.
      destruct (Routing.NotifyNewBundle _ _ _ _) as [[r [|]]|]; cbn in E0; try discriminate.
      * injection E0 as <-. intros k c. cbn. rewrite lookup_insert_Some, lookup_empty.
        intros [[_ <-]|[_ ?]]; [destruct (EndpointID.eqb _ _); lia | discriminate].
      * injection E0 as <-. intros k c. cbn. rewrite lookup_empty. discriminate.
    + intros k c. cbn. rewrite lookup_empty. discriminate.
  - vm_compute. reflexivity.
Defined.

(** * Two statements the code does not meet *)

(** ** Fragments of a large bundle *)

(** C7 (code defect).  The bundle of the round trip the specification
    describes, a payload of 10 000 bytes to be cut for a maximum fragment
    size of 3000, gets no fragments: [FragmentBundle] first encodes the
    bundle to learn its size, and [Cbor::Encode] writes the 10 000 payload
    bytes into the 1024 bytes it reserves, where the run ends.  This is so
    whatever the allocator left in the buffers. *)
Theorem FragmentBundle_aborts_on_the_round_trip uninit :
  FragmentationManager.FragmentBundle uninit scenario_heap bundle_heap_p
    FragmentationManager.create 8%nat 3000 = None.
Proof.
  apply (FragmentBundle_large_block_aborts uninit scenario_heap bundle_heap_p _ 8%nat 3000
           1%nat).
  - reflexivity.
  - reflexivity.
  - left. reflexivity.
  - unfold scenario_heap, deref. rewrite lookup_singleton_eq.
    cbn [CanonicalBlock.PayloadBlock CanonicalBlock.m_data]. rewrite repeat_length. lia.
Qed.

(** ** The previous node of a bundle that was sent *)

Lemma EndpointID_ToCbor_same uninit e e' b b' :
  EndpointID.ToCbor uninit e = Some b -> EndpointID.ToCbor uninit e' = Some b' -> b = b'.
Proof.
  unfold EndpointID.ToCbor. intros Hb Hb'.
  exact (Encode_array_by_length uninit _ _ _ _ Hb Hb' eq_refl).
Qed.

(** C10 (code defect).  The engine at node a, whose only convergence layer
    reports every endpoint reachable and fails every transmission, is to
    send [bundle_a], which has no previous-node block, to peer r.
    [SendBundle] returns false and leaves the bundle with one block, a
    previous-node block.  That block does not name the local node: the
    previous node read from it is dtn:none, not node a, and its data are the
    bytes that the encoder returns for the ID of node r as well, and for
    every other node ID it can take.  This is so whatever the allocator
    left in the buffers. *)
Theorem SendBundle_loses_the_local_node_ID uninit :
  exists h1 bh1 prevNode,
    Routing.SendBundle uninit ∅ bundle_heap_a tt failing_engine 7%nat node_r
                       (Routing.endpoint peer_r) =
      Some (h1, bh1, tt, Routing.count_failed failing_engine, false) /\
    Bundle.m_canonicalBlocks (deref_bundle bh1 7%nat) = [prevNode] /\
    CanonicalBlock.class_of (deref h1 prevNode) = CanonicalBlock.PreviousNodeBlockClass /\
    CanonicalBlock.GetPreviousNode (deref h1 prevNode) = EndpointID.none /\
    EndpointID.none <> Routing.m_localNodeID failing_engine /\
    EndpointID.ToCbor uninit node_r = Some (CanonicalBlock.m_data (deref h1 prevNode)) /\
    forall other buffer,
      EndpointID.ToCbor uninit other = Some buffer ->
      buffer = CanonicalBlock.m_data (deref h1 prevNode).
Proof.
  destruct (SendBundle_stamps_previous_node uninit ∅ bundle_heap_a tt failing_engine
              7%nat node_r (Routing.endpoint peer_r) failing_sender)
    as (h1 & bh1 & prevNode & buffer & Hsend & Hbuf & _ & Hclass & _ & Hdata & _ & _ & _ & Hcase).
  { reflexivity. }
  { vm_compute. lia. }
  { vm_compute. lia. }
  cbn zeta in Hsend. cbn [failing_sender Routing.Send fst snd] in Hsend.
  exists h1, bh1, prevNode. split; [exact Hsend|].
  split.
  { destruct Hcase as [(Hfind & _)|(_ & _ & Hblocks)]; [|exact Hblocks].
    apply find_previous_node_Some in Hfind as [[] _]. }
  split; [exact Hclass|].
  split; [unfold CanonicalBlock.GetPreviousNode; now rewrite EndpointID_FromCbor_None|].
  split; [vm_compute; discriminate|].
  assert (Hall : forall other buffer',
            EndpointID.ToCbor uninit other = Some buffer' ->
            buffer' = CanonicalBlock.m_data (deref h1 prevNode)).
  { intros other buffer' Hother. rewrite Hdata. unfold Buffer.CopyData.
    exact (EndpointID_ToCbor_same uninit _ _ _ _ Hother Hbuf). }
  split; [|exact Hall].
  destruct (EndpointID_ToCbor_ok uninit node_r) as [buffer' Hr]; [vm_compute; lia..|].
  rewrite Hr. f_equal. exact (Hall _ _ Hr).
Qed.
